(* ===== verification/_CoqProject ===== *)
-Q . S2P
Prelude.v
Double.v
CJson.v
CJsonPrint.v
CJsonParse.v
CJsonRoundTrip.v
CJsonBounds.v
CJsonEscapes.v
CJsonGrammar.v
CJsonTree.v
Json.v
CJsonHeap.v
CJsonHeapSpec.v
CJsonHeapOwns.v
CJsonFocus.v
CJsonHeapParse.v
CJsonHeapParseSpec.v
CJsonEdits.v
JsonMemory.v
JsonRefines.v
JsonMemorySpec.v
JsonSpec.v
Any.v
DapData.v
DapEquality.v
DapEnvironment.v
DapMessages.v
DapRegistry.v
DapProtocol.v
StringUtils.v
StringSpec.v
Log.v
JsonRPC.v
TestSuite.v
ConnectionString.v
Socket.v
SocketSpec.v
ServerProtocol.v
ServerSpec.v
DapKinds.v
Client.v
ClientSamples.v
ClientStream.v
ClientRequests.v
ClientState.v
ClientInvariant.v
Session.v
SessionSpec.v
Handshake.v
Process.v
ProcessSpec.v
UnixProcess.v
UnixProcessSpec.v
MswProcess.v
MswProcessSpec.v
MainFrame.v
MainFrameSpec.v
StopFlow.v
