(* ===== verification/Prelude.v ===== *)
(** * wxdap: a verification library for the Debug Adapter Protocol client

    wxdap (src/dap) is a C++ library for programs that debug through the Debug Adapter Protocol:
    JSON messages, each framed by a [Content-Length] header, between a client (the user interface)
    and an adapter (the debugger), over a socket or over the pipes of a child process.
    src/dbgcli is a demo program that uses it.  The development models the library and the demo as
    functions and step relations, and proves what makes them correct.

    ** The program and the files

    A message goes down through these layers when it is sent, and up when it is received.

    - Client.cpp, Client.hpp, DAPEvent.hpp: the client: requests, the handshake, the queues that
      match answers, events for the program.  Client.v; the theorems in ClientStream (the byte
      stream), ClientRequests (what a call sends), ClientState (handshake, answers, reset),
      ClientInvariant (every reachable state); ClientSamples is a program to try it on.
    - Client.cpp (the reader thread): Session.v, a step relation of the thread that reads, the
      calls it posts and the thread of the program; SessionSpec.
    - dap.hpp, dap.cpp: the messages.  Any.v is the interface of what is sent ([Codec]: [To],
      [From] and their laws); DapData.v, DapEnvironment.v and DapMessages.v have a record for every
      struct, with [To] and [From]; DapEquality.v the equalities and the hashes; DapRegistry.v the
      generator of messages by name ([ObjGenerator]); DapKinds and DapProtocol the theorems.
    - JSON.cpp, JSON.hpp: Json.v, the handle as the value it points to, which is the abstract
      specification that the messages are written against, with JsonSpec; JsonMemory.v, the same
      class as pointers with counters over the nodes; JsonRefines shows that the second does what
      the first says, JsonMemorySpec that no sequence of operations goes wrong.
    - cJSON.cpp, cJSON.hpp, the values: CJson.v (the tree and the parser), CJsonPrint.v (the
      printer), CJsonTree.v (building and changing trees), over Double.v, the binary64 numbers of
      C; CJsonParse, CJsonRoundTrip, CJsonBounds, CJsonEscapes, CJsonGrammar have the theorems.
    - cJSON.cpp, the nodes: CJsonHeap.v, the functions that build and change trees on a heap of
      nodes and strings, with every member of the struct, and CJsonHeapParse.v, the parser that
      allocates them.  CJsonHeapSpec says when a heap holds a tree ([seg], links in both
      directions), CJsonHeapOwns when it consists of given trees and nothing else ([owns], with a
      frame rule and a law for every function), CJsonFocus takes a node out of its tree and puts
      it back; CJsonHeapParseSpec and CJsonEdits have the theorems:
      the nodes do what CJson and CJsonTree say of the values.
    - JsonRPC.cpp: JsonRPC.v: framing, and cutting the messages out of the bytes that arrive.
    - Socket.cpp, SocketClient.cpp, SocketServer.cpp, ConnectionString.cpp: Socket.v, SocketSpec,
      ConnectionString.v.
    - Process.cpp, Queue.hpp: Process.v and ProcessSpec, over an interface of the platform:
      UnixProcess.cpp and linux.cpp in UnixProcess.v and UnixProcessSpec, msw.cpp in MswProcess.v
      and MswProcessSpec.
    - ServerProtocol.cpp: the side of the adapter: ServerProtocol.v, ServerSpec;
      Handshake.v joins the two sides.
    - StringUtils.cpp: StringUtils.v, StringSpec; Log.cpp: Log.v.
    - dbgcli/MainFrame.cpp, ConsoleApp.cpp: MainFrame.v, MainFrameSpec: the window, its handlers
      and commands, the configuration file; StopFlow joins the handlers of a stop with the client.
    - tests/tester.h, tester.cpp, gdbd_tests.cpp: TestSuite.v, the tests of the library, run on the
      model.

    This file, Prelude.v, holds what they share: texts, the integers of C with their wrap-around,
    the monad [exec], lists and options, tactics and hints.

    ** How the code is read

    - A text is a list of bytes; an [int] is a number in [Z] that [to_int32] wraps where the code
      converts, and an overflow of a signed number is undefined.
    - [exec E A] is the result of a computation: [Ret], the exception [Err], [Undef] where the
      behaviour of the code is not defined (reading beyond a buffer, a null or freed pointer, an
      overflow), [NoFuel] where a loop was cut off.  A theorem that says [= Ret _] says that none
      of the others happens.
    - What the code mutates is passed along: an object is a record, a method a function from the
      record to the record; the fields have the names of the members.
    - What is not in src/ is a class of parameters: [Platform] (printf and strtod of numbers),
      [System], [Unix] and [Windows] (the calls of the system), [WxString] (the conversions),
      [HashOrder] (the order of a hash map), [Handlers] and [Application] (the program above the
      client), [Desktop].  What is assumed of them is a class of laws that is separate from it:
      [Kernel] of the sockets, [Pipes], [MswPipes], [Handles]; [Session.Transport] is what a
      session asks of a transport, [ProcessSpec.OutputInOrder] what the process transport asks of
      a platform.  Each has an instance, on which the witnesses run.

    ** What is proved

    - Receiving: however the bytes are cut, the client handles exactly the messages of the server,
      in order (JsonRPC.receive_all_delivers, ClientStream.OnDataRead_delivers), in every
      interleaving with the program's own operations (SessionSpec.session_refines); the output of
      a child arrives in order on both platforms (ProcessSpec.stdout_in_order), as do the bytes of
      a socket; the server side receives what a client sends (ServerSpec.Check_receives).
    - Sending: a call sends one request with the next number (ClientRequests), [Send] and [Write]
      deliver the whole message or say so (SocketSpec, UnixProcessSpec, MswProcessSpec).
    - Messages: every message of a registered class survives [To], printing, parsing and
      [FromJSON] (DapProtocol.message_over_the_wire), and is of the kind it says (DapKinds).
    - JSON: printing and parsing are inverse; the parser ends, accepts every text of the grammar
      of RFC 8259 and gives its value; the printer stays within its buffers (JsonSpec, CJson...).
    - Both sides: the client's initialize request makes the server answer, and its answers complete
      the handshake (Handshake.handshake_over_the_wire).
    - A stop of the debuggee: when the server answers in turn, the demo program asks for the frames,
      the scopes and the variables, and shows all of them (StopFlow.stop_shows).
    - The tests of the repository pass on the model, on every platform (TestSuite.the_tests_pass).
    - State: every reachable state of the client and of the demo program is well formed
      (ClientInvariant.reachable_ok, MainFrameSpec.demo_reachable_ok); answers are matched to
      questions in order; the handshake; [Reset].
    - Memory: the parser builds the tree of the value, or frees all it allocated
      (CJsonHeapParseSpec.parser_in_memory); the functions that change a tree keep it a tree, with
      its links and its strings,
      and do to it what they do to its value (CJsonEdits.edits_refine); what a program builds
      through handles stands for what the same operations build as values, and is freed to the last
      block (JsonRefines.Json_builds); a handle reads as its value (JsonRefines.Json_reads); no
      node, string or counter is freed twice, used after it was freed, or lost
      (JsonMemorySpec.memory_safe).  No handle of Windows is lost
      (MswProcessSpec.msw_handles_closed).
    - Where the code does not do what it means to, the theorem says what it does: a header without
      a length blocks the client, shared handles dangle, the old name of an item that replaces
      another is lost, events outlive their session, some members are not read back, [Write] drops
      bytes.

    ** Bounds and fuel

    The parser runs on [parse_fuel], twice the length of the text and two: every second call
    consumes a byte (CJsonEscapes.cJSON_Parse_total).  [ProcessBuffer] runs on the length of the
    buffer: every iteration that calls back removes a byte (JsonRPC.ProcessBuffer_terminates).
    The deletion of a tree and the walks over siblings run on [CJsonHeap.steps], one more than the
    number of blocks of the heap, which is enough for trees that share nothing ([owns]).  The loops that wait for the
    system ([Send], [Write], reading a pipe, [Check]) take any fuel; their theorems bound what is
    needed by the length of the message and by how often in a row the system may take nothing.
    [WriteStdin] has the bound of the code, 100.  Trees are finite and nested to any depth: the
    depth of the C stack is not modelled.

    ** Not modelled

    - UI.cpp: the layout of the window, generated by wxCrafter; fonts and the shape of markers.
    - What a child process does between [fork] and [exec]; [argc] and the C arrays handed to it.
    - The hooks that replace [malloc] and [free], and running out of memory.
    - The addresses of the buffers of the printer: CJsonPrint has their sizes and what is in them.
    - The lines that the other parts log.
    - The Windows branches of Socket.cpp; the process id of a process.
    - The overloads of StringUtils.cpp and JSON.hpp that only convert a string of wxWidgets. *)
From Stdlib Require Export Ascii String.
From stdpp Require Export base list strings gmap numbers.
#[export] Set Warnings "-register-all".

(** ** Text: the bytes of a [std::string], of a [wxString] in the program's narrow
    encoding, or of a C string without its terminator. *)
Abbreviation text := (list ascii).

Definition lit (s : string) : text := String.list_ascii_of_string s.
Coercion lit : string >-> list.

(** The double quote, the carriage return, the line feed and the tabulation. *)
Abbreviation NUL := ("000"%char).
Abbreviation BS := ("008"%char).
Abbreviation TAB := ("009"%char).
Abbreviation LF := ("010"%char).
Abbreviation FF := ("012"%char).
Abbreviation CR := ("013"%char).
Abbreviation DQUOTE := ("034"%char).
Abbreviation SQUOTE := ("039"%char).
Abbreviation BSLASH := ("092"%char).
Abbreviation BACKTICK := ("096"%char).

(** The code of a byte, as an [unsigned char], and back. *)
Definition code (c : ascii) : Z := Z.of_N (N_of_ascii c).
Definition chr (z : Z) : ascii := ascii_of_N (Z.to_N z).

(** Equality of bytes and of texts as the tests of the code. *)
Definition ceq (a b : ascii) : bool := Ascii.eqb a b.
Fixpoint teq (a b : text) : bool :=
  match a, b with
  | [], [] => true
  | x :: a', y :: b' => ceq x y && teq a' b'
  | _, _ => false
  end.

Declare Scope wxdap_scope.
Delimit Scope wxdap_scope with wxdap.
Notation "a =c b" := (ceq a b) (at level 70, no associativity) : wxdap_scope.
Notation "a =t b" := (teq a b) (at level 70, no associativity) : wxdap_scope.
Global Open Scope wxdap_scope.

(** The lemmas the automation of the development uses. *)
Create HintDb wxdap.

Lemma ceq_spec a b : reflect (a = b) (a =c b).
Proof. apply Ascii.eqb_spec. Qed.

Lemma ceq_refl a : (a =c a) = true.
Proof. by destruct (ceq_spec a a). Qed.

Lemma ceq_true a b : (a =c b) = true → a = b.
Proof. by destruct (ceq_spec a b). Qed.

Lemma ceq_neq a b : a ≠ b → (a =c b) = false.
Proof. by destruct (ceq_spec a b). Qed.

Lemma teq_spec a b : reflect (a = b) (a =t b).
Proof.
  revert b; induction a as [|x a IH]; intros [|y b]; simpl; try by constructor.
  destruct (ceq_spec x y) as [->|]; simpl; [|constructor; congruence].
  destruct (IH b) as [->|]; constructor; congruence.
Qed.

Lemma teq_refl a : (a =t a) = true.
Proof. by destruct (teq_spec a a). Qed.

Lemma teq_true a b : (a =t b) = true → a = b.
Proof. by destruct (teq_spec a b). Qed.

Lemma teq_neq a b : a ≠ b → (a =t b) = false.
Proof. by destruct (teq_spec a b). Qed.

(** ** Results of a computation of the code.

    [Ret a]: the code returns [a]. [Err e]: it fails the way the code reports it (a null
    pointer with the error position, an exception). [Undef]: the behaviour is undefined in
    the language: a read or write outside a buffer, a read of an indeterminate value, a
    signed overflow. [NoFuel]: the fuel of the model ran out, which the termination
    theorems exclude. *)
Inductive exec (E A : Type) : Type :=
| Ret (a : A)
| Err (e : E)
| Undef
| NoFuel.
Arguments Ret {E A} a.
Arguments Err {E A} e.
Arguments Undef {E A}.
Arguments NoFuel {E A}.

Definition exec_bind {E A B} (m : exec E A) (k : A → exec E B) : exec E B :=
  match m with
  | Ret a => k a
  | Err e => Err e
  | Undef => Undef
  | NoFuel => NoFuel
  end.

Notation "'let*' p ':=' m 'in' k" := (exec_bind m (fun p => k))
  (at level 10, p pattern, m at level 200, k at level 200,
   format "'[v' 'let*'  p  ':='  m  'in' '/' k ']'") : wxdap_scope.

Definition exec_map {E A B} (f : A → B) (m : exec E A) : exec E B :=
  let* a := m in Ret (f a).

(** The computation is defined: it neither is undefined behaviour nor lacks fuel. *)
Definition defined {E A} (m : exec E A) : Prop := m ≠ Undef ∧ m ≠ NoFuel.

Lemma exec_bind_Ret {E A B} (m : exec E A) (k : A → exec E B) b :
  exec_bind m k = Ret b ↔ ∃ a, m = Ret a ∧ k a = Ret b.
Proof. destruct m; simpl; naive_solver. Qed.

Lemma exec_bind_assoc {E A B C} (m : exec E A) (k : A → exec E B) (l : B → exec E C) :
  exec_bind (exec_bind m k) l = exec_bind m (λ a, exec_bind (k a) l).
Proof. by destruct m. Qed.

Lemma exec_bind_Err {E A B} (m : exec E A) (k : A → exec E B) e :
  exec_bind m k = Err e ↔ m = Err e ∨ ∃ a, m = Ret a ∧ k a = Err e.
Proof. destruct m; simpl; naive_solver. Qed.

Lemma exec_bind_NoFuel {E A B} (m : exec E A) (k : A → exec E B) :
  exec_bind m k = NoFuel ↔ m = NoFuel ∨ ∃ a, m = Ret a ∧ k a = NoFuel.
Proof. destruct m; simpl; naive_solver. Qed.

(** A test that a computation returns, and a value that it returns. *)
Definition returns {E A} (test : A → bool) (m : exec E A) : bool :=
  match m with Ret a => test a | _ => false end.

Lemma returns_Ret {E A} test (m : exec E A) : returns test m = true →
  ∃ a, m = Ret a ∧ test a = true.
Proof. destruct m; simpl; naive_solver. Qed.

(** Takes apart every bind of the context that is known to return. *)
Ltac exec_inv :=
  repeat match goal with
  | H : exec_bind _ _ = Ret _ |- _ => apply exec_bind_Ret in H as (? & ? & H); simpl in H
  | H : Ret _ = Ret _ |- _ => injection H as H
  | H : Ret _ = Err _ |- _ => discriminate H
  | H : Err _ = Ret _ |- _ => discriminate H
  | H : Undef = _ |- _ => discriminate H
  | H : NoFuel = _ |- _ => discriminate H
  | x : _ * _ |- _ => destruct x
  end; simplify_eq/=.

(** Splits on the tests of the code, keeping each as an equation. *)
Ltac case_tests :=
  repeat match goal with
  | |- context [if ?b then _ else _] => destruct b eqn:?
  | H : context [if ?b then _ else _] |- _ => destruct b eqn:?
  end.

(** ** Machine integers *)

Definition INT_MAX : Z := 2147483647.
Definition INT_MIN : Z := -2147483648.
Definition LONG_MAX : Z := 9223372036854775807.
Definition LONG_MIN : Z := -9223372036854775808.
Definition is_int (z : Z) : bool := (INT_MIN <=? z)%Z && (z <=? INT_MAX)%Z.
Definition is_long (z : Z) : bool := (LONG_MIN <=? z)%Z && (z <=? LONG_MAX)%Z.

(** Conversion to [int] (32 bits, two's complement) and to [size_t] (64 bits). *)
Definition to_int32 (z : Z) : Z := ((z + 2 ^ 31) mod 2 ^ 32 - 2 ^ 31)%Z.
Definition to_size_t (z : Z) : Z := (z mod 2 ^ 64)%Z.

Lemma is_int_spec z : is_int z = true ↔ (INT_MIN ≤ z ≤ INT_MAX)%Z.
Proof. unfold is_int. rewrite andb_true_iff, !Z.leb_le. lia. Qed.

Lemma is_long_spec z : is_long z = true ↔ (LONG_MIN ≤ z ≤ LONG_MAX)%Z.
Proof. unfold is_long. rewrite andb_true_iff, !Z.leb_le. lia. Qed.

Lemma to_int32_id z : is_int z = true → to_int32 z = z.
Proof.
  rewrite is_int_spec. unfold to_int32, INT_MIN, INT_MAX. intros.
  rewrite Z.mod_small; lia.
Qed.

Lemma to_int32_is_int z : is_int (to_int32 z) = true.
Proof.
  rewrite is_int_spec. unfold to_int32, INT_MIN, INT_MAX.
  pose proof (Z.mod_pos_bound (z + 2 ^ 31) (2 ^ 32)). lia.
Qed.

Lemma to_size_t_id z : (0 ≤ z < 2 ^ 64)%Z → to_size_t z = z.
Proof. apply Z.mod_small. Qed.

(** ** Records

    [r <| f := x |>] is the record [r] with the field [f] assigned.  A record type declares how
    it is rebuilt from its fields; the assignment to one of them is found from that. *)
Definition rebuild {R A} (a : A) : R → A := λ _, a.
Definition field {R A B} (f : R → A → B) (x : R → A) : R → B := λ r, f r (x r).
Notation "f <@> x" := (field f x) (at level 61, left associativity) : wxdap_scope.

Class Settable (R : Type) := rebuilt : R → R.
Class Setter {R T : Type} (f : R → T) := assign : T → R → R.

Ltac solve_setter :=
  match goal with
  | |- @Setter ?R ?T ?f =>
      let s := constr:(_ : Settable R) in
      let s := eval red in s in
      match eval pattern f in s with
      | ?g _ => let t := eval cbv beta delta [field rebuild] in (λ x : T, g (λ _, x)) in exact t
      end
  end.
#[export] Hint Extern 1 (Setter _) => solve_setter : typeclass_instances.

Notation "r <| f := x |>" := (assign (f := f) x r)
  (at level 1, f at level 0, left associativity, format "r  <| f  :=  x |>") : wxdap_scope.

(** ** Characters *)

(** [isspace] of the C locale. *)
Definition is_space_c (c : ascii) : bool := (c =c " ") || ((9 <=? code c)%Z && (code c <=? 13)%Z).

Fixpoint drop_spaces (t : text) : text :=
  match t with
  | [] => []
  | c :: r => if is_space_c c then drop_spaces r else t
  end.

Definition is_digit (c : ascii) : bool := (48 <=? code c)%Z && (code c <=? 57)%Z.
Definition digit_value (c : ascii) : Z := (code c - 48)%Z.
Definition digit_char (d : Z) : ascii := chr (48 + d).

Lemma code_bound c : (0 ≤ code c < 256)%Z.
Proof. unfold code. pose proof (N_ascii_bounded c). lia. Qed.

Lemma code_chr z : (0 ≤ z < 256)%Z → code (chr z) = z.
Proof. intros. unfold code, chr. rewrite N_ascii_embedding; lia. Qed.

Lemma chr_code c : chr (code c) = c.
Proof. unfold code, chr. rewrite N2Z.id. apply ascii_N_embedding. Qed.

Lemma code_inj a b : code a = code b → a = b.
Proof. intros H. by rewrite <- (chr_code a), H, chr_code. Qed.

Lemma digit_char_is_digit d : (0 ≤ d < 10)%Z → is_digit (digit_char d) = true.
Proof.
  intros. unfold is_digit, digit_char. rewrite code_chr by lia.
  rewrite andb_true_iff, !Z.leb_le. lia.
Qed.

Lemma digit_value_char d : (0 ≤ d < 10)%Z → digit_value (digit_char d) = d.
Proof. intros. unfold digit_value, digit_char. rewrite code_chr; lia. Qed.

(** ** Decimal notation: what [%d] of [sprintf] writes, and [std::to_string]. *)

Fixpoint dec_digits (fuel : nat) (n : Z) : text :=
  match fuel with
  | O => [digit_char (n mod 10)]
  | S f => if (n <? 10)%Z then [digit_char n] else dec_digits f (n / 10) ++ [digit_char (n mod 10)]
  end.

(** The decimal digits of a natural number; [Z.log2 n] digits are always enough. *)
Definition dec_nat (n : Z) : text := dec_digits (Z.to_nat (Z.log2 n)) n.

Definition dec (z : Z) : text :=
  if (z <? 0)%Z then "-" ++ dec_nat (- z) else dec_nat z.

(** The value of a list of digits read from the left, starting from [acc]. *)
Definition digits_value (acc : Z) (l : text) : Z :=
  foldl (λ n c, n * 10 + digit_value c)%Z acc l.

Lemma digits_value_app acc l k :
  digits_value acc (l ++ k) = digits_value (digits_value acc l) k.
Proof. apply foldl_app. Qed.

Lemma dec_digits_is_digit fuel n :
  (0 ≤ n)%Z → forallb is_digit (dec_digits fuel n) = true.
Proof.
  revert n; induction fuel as [|f IH]; intros n Hn; simpl.
  - rewrite digit_char_is_digit; [done|]. apply Z.mod_pos_bound. lia.
  - destruct (Z.ltb_spec n 10); simpl.
    + rewrite digit_char_is_digit; [done|lia].
    + rewrite forallb_app, IH; simpl; [|by apply Z.div_pos].
      rewrite digit_char_is_digit; [done|]. apply Z.mod_pos_bound. lia.
Qed.

Lemma dec_digits_value fuel n :
  (0 ≤ n)%Z → (Z.log2 n ≤ Z.of_nat fuel)%Z → digits_value 0 (dec_digits fuel n) = n.
Proof.
  revert n; induction fuel as [|f IH]; intros n Hn Hl.
  - assert (n < 2)%Z.
    { destruct (decide (n = 0)%Z); [lia|]. apply (Z.log2_lt_pow2 n 1); lia. }
    simpl. unfold digits_value; simpl. rewrite digit_value_char; rewrite Z.mod_small; lia.
  - simpl. destruct (Z.ltb_spec n 10).
    + unfold digits_value; simpl. rewrite digit_value_char; lia.
    + rewrite digits_value_app, IH.
      * unfold digits_value; simpl.
        rewrite digit_value_char by (apply Z.mod_pos_bound; lia).
        pose proof (Z.div_mod n 10). lia.
      * by apply Z.div_pos.
      * assert (Z.log2 (n / 10) ≤ Z.log2 (n / 2))%Z.
        { apply Z.log2_le_mono. apply Z.div_le_compat_l; lia. }
        assert (Z.log2 (n / 2) = Z.log2 n - 1)%Z; [|lia].
        rewrite <- Z.div2_div, Z.div2_spec, Z.log2_shiftr by lia.
        pose proof (Z.log2_le_mono 2 n). simpl in *. lia.
Qed.

Lemma dec_nat_is_digit n : (0 ≤ n)%Z → forallb is_digit (dec_nat n) = true.
Proof. apply dec_digits_is_digit. Qed.

Lemma dec_nat_value n : (0 ≤ n)%Z → digits_value 0 (dec_nat n) = n.
Proof. intros. apply dec_digits_value; [done|]. pose proof (Z.log2_nonneg n). lia. Qed.

(** The first digit of a positive number is not a zero. *)
Lemma dec_digits_head fuel n : (0 < n)%Z → (Z.log2 n ≤ Z.of_nat fuel)%Z →
  ∃ d l, dec_digits fuel n = digit_char d :: l ∧ (0 < d < 10)%Z.
Proof.
  revert n; induction fuel as [|f IH]; intros n Hn Hl; simpl.
  - assert (n = 1)%Z as ->.
    { assert (n < 2)%Z; [|lia]. apply (Z.log2_lt_pow2 n 1); lia. }
    by exists 1%Z, [].
  - destruct (Z.ltb_spec n 10); [by exists n, []|].
    destruct (IH (n / 10)%Z) as (d & l & -> & Hd).
    + apply Z.div_str_pos. lia.
    + assert (Z.log2 (n / 10) ≤ Z.log2 (n / 2))%Z.
      { apply Z.log2_le_mono. apply Z.div_le_compat_l; lia. }
      assert (Z.log2 (n / 2) = Z.log2 n - 1)%Z; [|lia].
      rewrite <- Z.div2_div, Z.div2_spec, Z.log2_shiftr by lia.
      pose proof (Z.log2_le_mono 2 n). simpl in *. lia.
    + by exists d, (l ++ [digit_char (n mod 10)]).
Qed.

Lemma dec_nat_head n : (0 < n)%Z → ∃ d l, dec_nat n = digit_char d :: l ∧ (0 < d < 10)%Z.
Proof. intros. apply dec_digits_head; [done|]. pose proof (Z.log2_nonneg n). lia. Qed.

Lemma length_dec_digits fuel n k : (0 ≤ n < 10 ^ Z.of_nat k)%Z → (0 < k)%nat →
  (length (dec_digits fuel n) ≤ k)%nat.
Proof.
  revert n k; induction fuel as [|f IH]; intros n k Hn Hk; simpl; [lia|].
  destruct (Z.ltb_spec n 10); simpl; [lia|].
  destruct k as [|[|k]]; [lia|simpl in *; lia|].
  rewrite length_app. simpl. rewrite Nat2Z.inj_succ, Z.pow_succ_r in Hn by lia.
  assert (length (dec_digits f (n / 10)) ≤ S k)%nat; [|lia].
  apply IH; [|lia]. split; [by apply Z.div_pos; lia|apply Z.div_lt_upper_bound; lia].
Qed.

Lemma length_dec_int z : is_int z = true → (length (dec z) ≤ 11)%nat.
Proof.
  rewrite is_int_spec. unfold INT_MIN, INT_MAX, dec. intros.
  destruct (Z.ltb_spec z 0); simpl.
  - pose proof (length_dec_digits (Z.to_nat (Z.log2 (- z))) (- z) 10). unfold dec_nat. lia.
  - pose proof (length_dec_digits (Z.to_nat (Z.log2 z)) z 10). unfold dec_nat. lia.
Qed.

Example dec_examples : dec 0 = "0" ∧ dec (-2147483648) = "-2147483648" ∧ dec 1305 = "1305".
Proof. vm_compute. done. Qed.

(** ** C strings and the functions of [<string.h>] *)

(** [*ptr] of a C string whose remaining bytes are [t]: the terminator at its end. *)
Definition deref (t : text) : ascii := match t with [] => NUL | c :: _ => c end.
Definition next (t : text) : text := match t with [] => [] | _ :: r => r end.

(** [strncmp (t, p, strlen (p)) == 0]. *)
Fixpoint starts_with (p t : text) : bool :=
  match p, t with
  | [], _ => true
  | x :: p', y :: t' => (x =c y) && starts_with p' t'
  | _, [] => false
  end.

(** The C string a buffer holds: its bytes before the first NUL. *)
Fixpoint c_str (t : text) : text :=
  match t with
  | [] => []
  | c :: r => if c =c NUL then [] else c :: c_str r
  end.

Definition no_nul (t : text) : bool := forallb (λ c, negb (c =c NUL)) t.

Lemma c_str_id t : no_nul t = true → c_str t = t.
Proof.
  induction t as [|c t IH]; simpl; [done|]. destruct (c =c NUL); simpl; [done|].
  intros ?. by rewrite IH.
Qed.

Lemma no_nul_c_str t : no_nul (c_str t) = true.
Proof.
  induction t as [|c t IH]; simpl; [done|]. destruct (c =c NUL) eqn:Hc; [done|].
  simpl. by rewrite Hc.
Qed.

Lemma no_nul_app a b : no_nul (a ++ b) = no_nul a && no_nul b.
Proof. apply forallb_app. Qed.

Lemma starts_with_app p t : starts_with p (p ++ t) = true.
Proof. induction p as [|c p IH]; simpl; [done|]. by rewrite ceq_refl. Qed.

Lemma starts_with_spec p t : starts_with p t = true ↔ ∃ r, t = p ++ r.
Proof.
  split; [|intros [r ->]; apply starts_with_app].
  revert t; induction p as [|c p IH]; intros t; simpl; [by exists t|].
  destruct t as [|y t]; [done|]. destruct (ceq_spec c y) as [->|]; [|done].
  intros [r ->]%IH. by exists r.
Qed.

Lemma deref_app a b : a ≠ [] → deref (a ++ b) = deref a.
Proof. by destruct a. Qed.

Lemma length_next t : length (next t) = (length t - 1)%nat.
Proof. destruct t; simpl; lia. Qed.
