(* ===== verification/Double.v ===== *)
(** * Doubles: the C type [double] (IEEE 754 binary64), its conversions and the few library
    functions the JSON code calls on it.

    A [double] is Corelib's [spec_float], whose operations are the correctly rounded ones of
    IEEE 754.  What the language leaves to the platform is a class, [Platform]: the value of
    [pow], the result of converting an unrepresentable [double] to [int], the value read from
    an [int] member that no constructor initialises, and the text [printf] gives a NaN. *)
From S2P Require Import Prelude.
From Stdlib Require Export SpecFloat.
Local Open Scope Z_scope.

Abbreviation double := spec_float.

Definition prec : Z := 53.
Definition emax : Z := 1024.

Definition dmul : double → double → double := SFmul prec emax.
Definition dadd : double → double → double := SFadd prec emax.
Definition dsub : double → double → double := SFsub prec emax.
Definition dabs : double → double := SFabs.
Definition dopp : double → double := SFopp.
Definition dle : double → double → bool := SFleb.
Definition dlt : double → double → bool := SFltb.
Definition dzero : double := S754_zero false.

(** The conversion of an integer to [double], rounded to nearest. *)
Definition of_int (n : Z) : double := binary_normalize prec emax n 0 false.

Definition done_ : double := of_int 1.
Definition dten : double := of_int 10.

(** The literals [DBL_EPSILON], [1.0e-6] and [1.0e9]. *)
Definition DBL_EPSILON : double := S754_finite false 4503599627370496 (-104).
Definition d1e_6 : double := S754_finite false 4722366482869645 (-72).
Definition d1e9 : double := of_int 1000000000.

(** The integer part of a finite [double]; [None] for an infinity and for a NaN. *)
Definition trunc (d : double) : option Z :=
  match d with
  | S754_zero _ => Some 0
  | S754_finite s m e =>
      let a := if 0 <=? e then Z.pos m * 2 ^ e else Z.pos m / 2 ^ (- e) in
      Some (if s then - a else a)
  | _ => None
  end.

(** [floor] of the math library: the zero, infinity or NaN unchanged, the integer below. *)
Definition dfloor (d : double) : double :=
  match d with
  | S754_finite s m e =>
      if 0 <=? e then d
      else let z := cond_Zopp s (Z.pos m) / 2 ^ (- e) in
           if z =? 0 then S754_zero s else of_int z
  | _ => d
  end.

(** What the language leaves to the platform. [pow_zero] is the one fact about [pow] that the
    development uses: [pow (x, 0)] is 1 for every [x] (C17 7.12.7.4 and F.10.4.4). *)
Class Platform := {
  pow : double → double → double;
  cvt_unrepresentable : double → Z;
  indeterminate_int : Z;
  nan_text : text;
  pow_zero x s : pow x (S754_zero s) = done_;
  cvt_unrepresentable_int d : is_int (cvt_unrepresentable d) = true;
  indeterminate_int_int : is_int indeterminate_int = true;
}.

(** [(int)d]: the integer part where [int] can represent it, the platform's value otherwise. *)
Definition to_int `{Platform} (d : double) : Z :=
  match trunc d with
  | Some z => if is_int z then z else cvt_unrepresentable d
  | None => cvt_unrepresentable d
  end.

(** ** Exactness on the integers below 2 ^ 53 *)

(** The canonical [double] of the integer [m] with the given sign. *)
Definition scale_of (m : Z) : Z := 52 - Z.log2 m.
Definition canon (s : bool) (m : Z) : double :=
  S754_finite s (Z.to_pos (m * 2 ^ scale_of m)) (- scale_of m).

Definition exact (m : Z) : Prop := 0 < m < 2 ^ 53.

Lemma digits2_log2 p : Z.pos (digits2_pos p) = Z.log2 (Z.pos p) + 1.
Proof.
  assert (digits2_pos p = Pos.size p) as -> by (induction p; simpl; congruence).
  destruct p; simpl; lia.
Qed.

Lemma scale_of_bound m : exact m → 0 ≤ scale_of m ≤ 52.
Proof.
  intros [H1 H2]. unfold scale_of. pose proof (Z.log2_nonneg m).
  assert (Z.log2 m < 53) by (apply Z.log2_lt_pow2; lia). lia.
Qed.

Lemma log2_scaled m k : 0 < m → 0 ≤ k → Z.log2 (m * 2 ^ k) = Z.log2 m + k.
Proof. intros. rewrite Z.log2_mul_pow2; lia. Qed.

Lemma shr_1_double a : 0 ≤ a →
  shr_1 (Build_shr_record (2 * a) false false) = Build_shr_record a false false.
Proof. by destruct a. Qed.

Lemma iter_shr_1 p a : 0 ≤ a →
  iter_pos shr_1 p (Build_shr_record (a * 2 ^ Z.pos p) false false)
  = Build_shr_record a false false.
Proof.
  revert a; induction p as [p IH|p IH|]; intros a Ha; cbn [iter_pos].
  - pose proof (Z.pow_nonneg 2 (Z.pos p)). assert (0 ≤ a * 2 ^ Z.pos p) by nia.
    replace (a * 2 ^ Z.pos p~1) with (2 * (a * 2 ^ Z.pos p * 2 ^ Z.pos p)).
    + rewrite shr_1_double by nia. by rewrite !IH.
    + replace (Z.pos p~1) with (1 + Z.pos p + Z.pos p) by lia.
      rewrite !Z.pow_add_r by lia. lia.
  - pose proof (Z.pow_nonneg 2 (Z.pos p)). assert (0 ≤ a * 2 ^ Z.pos p) by nia.
    replace (Z.pos p~0) with (Z.pos p + Z.pos p) by lia.
    rewrite Z.pow_add_r, Z.mul_assoc by lia. by rewrite !IH.
  - rewrite Z.mul_comm. by apply shr_1_double.
Qed.

(** Shifting right an exactly represented number down to the canonical exponent. *)
Lemma shr_fexp_exact m j : exact m → scale_of m ≤ j →
  shr_fexp prec emax (m * 2 ^ j) (- j) loc_Exact
  = (Build_shr_record (m * 2 ^ scale_of m) false false, - scale_of m).
Proof.
  intros Hm Hj. pose proof (scale_of_bound m Hm) as Hs. destruct Hm as [Hm1 Hm2].
  assert (0 < m * 2 ^ j) by (apply Z.mul_pos_pos; [lia|apply Z.pow_pos_nonneg; lia]).
  unfold shr_fexp. simpl shr_record_of_loc.
  replace (fexp prec emax (Zdigits2 (m * 2 ^ j) + - j)) with (- scale_of m).
  - destruct (decide (j = scale_of m)) as [->|].
    + by rewrite Z.sub_diag.
    + replace (- scale_of m - - j) with (Z.pos (Z.to_pos (j - scale_of m))) by lia.
      unfold shr. replace (m * 2 ^ j)
        with (m * 2 ^ scale_of m * 2 ^ Z.pos (Z.to_pos (j - scale_of m))).
      * rewrite iter_shr_1 by (apply Z.mul_nonneg_nonneg; [lia|apply Z.pow_nonneg; lia]).
        f_equal. lia.
      * rewrite <- Z.mul_assoc, <- Z.pow_add_r by lia. do 2 f_equal. lia.
  - destruct (m * 2 ^ j) as [|p|p] eqn:Hp; try lia. unfold Zdigits2.
    rewrite digits2_log2, <- Hp, log2_scaled by lia.
    unfold fexp, emin, prec, emax. unfold scale_of in *. lia.
Qed.

Lemma binary_round_aux_exact s m j : exact m → scale_of m ≤ j →
  binary_round_aux prec emax s (m * 2 ^ j) (- j) loc_Exact = canon s m.
Proof.
  intros Hm Hj. pose proof (scale_of_bound m Hm) as Hs.
  unfold binary_round_aux. rewrite shr_fexp_exact by done.
  cbn [shr_m loc_of_shr_record round_nearest_even].
  rewrite (shr_fexp_exact m (scale_of m)) by (done || lia). cbn [shr_m].
  destruct Hm as [Hm1 Hm2].
  assert (0 < m * 2 ^ scale_of m)
    by (apply Z.mul_pos_pos; [lia|apply Z.pow_pos_nonneg; lia]).
  unfold canon. destruct (m * 2 ^ scale_of m) as [|p|p]; try lia.
  unfold emax, prec. destruct (Z.leb_spec (- scale_of m) (1024 - 53)); [done|lia].
Qed.

Lemma shl_align_down m e e' : e' ≤ e →
  shl_align m e e' = (Z.to_pos (Z.pos m * 2 ^ (e - e')), e').
Proof.
  intros. unfold shl_align. destruct (e' - e) as [|d|d] eqn:Hd; [|lia|].
  - replace (e - e') with 0 by lia. rewrite Z.mul_1_r. f_equal. lia.
  - f_equal. replace (e - e') with (Z.pos d) by lia.
    assert (Z.pos (Pos.iter xO m d) = Z.pos m * Z.pow_pos 2 d) as Hi.
    { clear. revert m. induction d as [|d IH] using Pos.peano_ind; intros m.
      - unfold Z.pow_pos; simpl. lia.
      - rewrite Pos.iter_succ, Pos2Z.inj_xO, IH.
        change (Z.pow_pos 2 (Pos.succ d)) with (2 ^ Z.pos (Pos.succ d)).
        change (Z.pow_pos 2 d) with (2 ^ Z.pos d).
        rewrite Pos2Z.inj_succ, Z.pow_succ_r; lia. }
    change (Z.pow_pos 2 d) with (2 ^ Z.pos d) in Hi. lia.
Qed.

Lemma canon_pos s m : exact m → ∃ p, canon s m = S754_finite s p (- scale_of m)
  ∧ Z.pos p = m * 2 ^ scale_of m.
Proof.
  intros Hm. pose proof (scale_of_bound m Hm). destruct Hm. eexists; split; [done|].
  rewrite Z2Pos.id; [done|]. apply Z.mul_pos_pos; [lia|]. apply Z.pow_pos_nonneg; lia.
Qed.

(** Rounding a positive number that is given exactly, at an exponent that is low enough. *)
Lemma binary_round_exact s p m j : exact m → 0 ≤ j →
  Z.pos p = m * 2 ^ j → binary_round prec emax s p (- j) = canon s m.
Proof.
  intros Hm Hj Hp. pose proof (scale_of_bound m Hm) as Hs. destruct Hm as [Hm1 Hm2].
  unfold binary_round.
  replace (fexp prec emax (Z.pos (digits2_pos p) + - j)) with (- scale_of m).
  2: { rewrite digits2_log2, Hp, log2_scaled by lia.
       unfold fexp, emin, prec, emax, scale_of in *. lia. }
  destruct (decide (scale_of m ≤ j)).
  - unfold shl_align. destruct (- scale_of m - - j) eqn:Hd; try lia.
    + rewrite Hp. by apply binary_round_aux_exact.
    + rewrite Hp. by apply binary_round_aux_exact.
  - rewrite shl_align_down by lia.
    assert (0 < 2 ^ (- j - - scale_of m)) by (apply Z.pow_pos_nonneg; lia).
    rewrite Z2Pos.id, Hp by nia.
    rewrite <- Z.mul_assoc, <- Z.pow_add_r by lia.
    replace (j + (- j - - scale_of m)) with (scale_of m) by lia.
    by apply binary_round_aux_exact.
Qed.

Lemma of_int_pos m : exact m → of_int m = canon false m.
Proof.
  intros Hm. pose proof Hm as [Hm1 Hm2]. unfold of_int, binary_normalize.
  destruct m as [|p|p]; try lia.
  rewrite <- (binary_round_exact false p (Z.pos p) 0) by (done || lia). done.
Qed.

Lemma of_int_neg m : exact m → of_int (- m) = canon true m.
Proof.
  intros Hm. pose proof Hm as [Hm1 Hm2]. unfold of_int, binary_normalize.
  destruct m as [|p|p]; try lia. cbn [Z.opp].
  rewrite <- (binary_round_exact true p (Z.pos p) 0) by (done || lia). done.
Qed.

(** The two operations of the number parser are exact on natural numbers below 2 ^ 53. *)
Lemma dmul_canon s1 s2 a b : exact a → exact b → a * b < 2 ^ 53 →
  dmul (canon s1 a) (canon s2 b) = canon (xorb s1 s2) (a * b).
Proof.
  intros Ha Hb Hab. pose proof (scale_of_bound a Ha). pose proof (scale_of_bound b Hb).
  destruct (canon_pos s1 a Ha) as (p & -> & Hp). destruct (canon_pos s2 b Hb) as (q & -> & Hq).
  destruct Ha as [Ha1 Ha2], Hb as [Hb1 Hb2].
  unfold dmul, SFmul.
  replace (Z.pos (p * q)) with (a * b * 2 ^ (scale_of a + scale_of b)).
  2: { rewrite Pos2Z.inj_mul, Hp, Hq, Z.pow_add_r by lia. lia. }
  replace (- scale_of a + - scale_of b) with (- (scale_of a + scale_of b)) by lia.
  apply binary_round_aux_exact; [split; nia|].
  pose proof (Z.log2_mul_below a b). unfold scale_of in *. lia.
Qed.

Lemma dmul_int a b : 0 ≤ a < 2 ^ 53 → 0 ≤ b < 2 ^ 53 → a * b < 2 ^ 53 →
  dmul (of_int a) (of_int b) = of_int (a * b).
Proof.
  intros. destruct (decide (a = 0)) as [->|].
  { destruct (decide (b = 0)) as [->|]; [done|].
    rewrite (of_int_pos b) by (split; lia). done. }
  destruct (decide (b = 0)) as [->|].
  { rewrite (of_int_pos a), Z.mul_0_r by (split; lia). done. }
  rewrite !of_int_pos by (split; nia). apply (dmul_canon false false); split || lia; lia.
Qed.

Lemma dadd_int a b : 0 ≤ a → 0 ≤ b → a + b < 2 ^ 53 →
  dadd (of_int a) (of_int b) = of_int (a + b).
Proof.
  intros. destruct (decide (a = 0)) as [->|].
  { destruct (decide (b = 0)) as [->|]; [done|].
    rewrite Z.add_0_l, (of_int_pos b) by (split; lia). done. }
  destruct (decide (b = 0)) as [->|].
  { rewrite Z.add_0_r, (of_int_pos a) by (split; lia). done. }
  assert (Ha : exact a) by (split; lia). assert (Hb : exact b) by (split; lia).
  assert (Hab : exact (a + b)) by (split; lia).
  rewrite !of_int_pos by done.
  pose proof (scale_of_bound a Ha). pose proof (scale_of_bound b Hb).
  destruct (canon_pos false a Ha) as (p & -> & Hp).
  destruct (canon_pos false b Hb) as (q & -> & Hq).
  unfold dadd, SFadd. set (j := Z.max (scale_of a) (scale_of b)).
  replace (Z.min (- scale_of a) (- scale_of b)) with (- j) by lia.
  rewrite !shl_align_down by lia. cbn [fst cond_Zopp].
  assert (∀ n r k, Z.pos r = n * 2 ^ k → 0 ≤ k → k ≤ j →
    Z.pos (Z.to_pos (Z.pos r * 2 ^ (- k - - j))) = n * 2 ^ j) as Hshift.
  { intros c r k Hr Hk Hkj. assert (0 < 2 ^ (- k - - j)) by (apply Z.pow_pos_nonneg; lia).
    rewrite Z2Pos.id, Hr, <- Z.mul_assoc, <- Z.pow_add_r by (nia || lia).
    do 2 f_equal. lia. }
  rewrite (Hshift a p (scale_of a)), (Hshift b q (scale_of b)) by (done || lia).
  rewrite <- Z.mul_add_distr_r.
  assert (0 < (a + b) * 2 ^ j) by (apply Z.mul_pos_pos; [lia|apply Z.pow_pos_nonneg; lia]).
  unfold binary_normalize. destruct ((a + b) * 2 ^ j) as [|r|r] eqn:Hr; try lia.
  apply binary_round_exact; [done|lia|lia].
Qed.

(** The sign: [-1 * n] is the opposite, and multiplying by [pow (10, 0)] changes nothing. *)
Lemma dmul_neg_int a : 0 < a < 2 ^ 53 → dmul (of_int (-1)) (of_int a) = of_int (- a).
Proof.
  intros. change (of_int (-1)) with (of_int (- (1))).
  rewrite (of_int_neg 1), (of_int_pos a), (of_int_neg a) by (split; lia).
  rewrite dmul_canon by (split || lia; lia). by rewrite Z.mul_1_l.
Qed.

Lemma dmul_one_int a : - 2 ^ 53 < a < 2 ^ 53 → dmul (of_int a) done_ = of_int a.
Proof.
  intros. unfold done_. destruct (decide (a = 0)) as [->|]; [done|].
  destruct (decide (0 < a)).
  - rewrite !of_int_pos by (split; lia). rewrite dmul_canon by (split || lia; lia).
    by rewrite Z.mul_1_r.
  - replace a with (- - a) by lia.
    rewrite (of_int_neg (- a)), (of_int_pos 1) by (split; lia).
    rewrite dmul_canon by (split || lia; lia). by rewrite Z.mul_1_r.
Qed.

(** Conversions back. *)
Lemma trunc_of_int a : - 2 ^ 53 < a < 2 ^ 53 → trunc (of_int a) = Some a.
Proof.
  intros. destruct (decide (a = 0)) as [->|]; [done|].
  assert (∀ s m, exact m → trunc (canon s m) = Some (if s then - m else m)) as Ht.
  { intros s m Hm. pose proof (scale_of_bound m Hm).
    destruct (canon_pos s m Hm) as (p & -> & Hp). unfold trunc.
    destruct (Z.leb_spec 0 (- scale_of m)).
    - replace (- scale_of m) with 0 by lia. rewrite Hp.
      replace (scale_of m) with 0 by lia. by rewrite !Z.mul_1_r.
    - rewrite Z.opp_involutive, Hp, Z.div_mul by (apply Z.pow_nonzero; lia). done. }
  destruct (decide (0 < a)).
  - rewrite of_int_pos, Ht; (done || split; lia).
  - replace a with (- - a) at 1 by lia. rewrite of_int_neg, Ht by (split; lia).
    f_equal. lia.
Qed.

Lemma to_int_of_int `{Platform} a : is_int a = true → to_int (of_int a) = a.
Proof.
  intros Ha. pose proof Ha as Hb. apply is_int_spec in Hb. unfold INT_MIN, INT_MAX in Hb.
  unfold to_int. rewrite trunc_of_int by lia. by rewrite Ha.
Qed.

Lemma to_int_is_int `{Platform} d : is_int (to_int d) = true.
Proof.
  unfold to_int. destruct (trunc d) as [z|]; [|apply cvt_unrepresentable_int].
  destruct (is_int z) eqn:?; [done|apply cvt_unrepresentable_int].
Qed.

Lemma dsub_self a : - 2 ^ 53 < a < 2 ^ 53 → dsub (of_int a) (of_int a) = dzero.
Proof.
  intros. destruct (decide (a = 0)) as [->|]; [done|].
  assert (∀ s m, exact m → dsub (canon s m) (canon s m) = dzero) as Hs.
  { intros s m Hm. destruct (canon_pos s m Hm) as (p & -> & Hp).
    unfold dsub, SFsub. by rewrite Z.sub_diag. }
  destruct (decide (0 < a)).
  - rewrite of_int_pos by (split; lia). apply Hs. split; lia.
  - replace a with (- - a) by lia. rewrite of_int_neg by (split; lia). apply Hs. split; lia.
Qed.

Lemma dle_canon a b : exact a → exact b → a ≤ b →
  dle (canon false a) (canon false b) = true ∧ dle (canon true b) (canon true a) = true.
Proof.
  intros Ha Hb Hab. pose proof (scale_of_bound a Ha). pose proof (scale_of_bound b Hb).
  assert (Z.log2 a ≤ Z.log2 b) by (by apply Z.log2_le_mono).
  destruct (canon_pos false a Ha) as (p & Epa & Hp), (canon_pos false b Hb) as (q & Eqb & Hq).
  assert (canon true a = S754_finite true p (- scale_of a)) as -> by (unfold canon in *; congruence).
  assert (canon true b = S754_finite true q (- scale_of b)) as -> by (unfold canon in *; congruence).
  rewrite Epa, Eqb. unfold dle, SFleb, SFcompare.
  destruct (Z.compare_spec (- scale_of a) (- scale_of b)) as [Hc|Hc|Hc];
    [| |unfold scale_of in *; lia].
  - rewrite Hc, Z.compare_refl. change (Pos.compare_cont Eq p q) with (Pos.compare p q).
    change (Pos.compare_cont Eq q p) with (Pos.compare q p).
    assert (scale_of a = scale_of b) as Hsc by lia.
    assert (p ≤ q)%positive.
    { rewrite Hsc in Hp. assert (0 < 2 ^ scale_of b) by (apply Z.pow_pos_nonneg; lia).
      assert (Z.pos p ≤ Z.pos q); [nia|lia]. }
    rewrite (Pos.compare_antisym p q).
    destruct (Pos.compare_spec p q); simpl; [done|done|lia].
  - rewrite (Z.compare_antisym (- scale_of a)).
    assert ((- scale_of a ?= - scale_of b) = Lt) as -> by (by apply Z.compare_lt_iff). done.
Qed.

Lemma dle_int a b : - 2 ^ 53 < a → b < 2 ^ 53 → a ≤ b → dle (of_int a) (of_int b) = true.
Proof.
  intros. destruct (decide (0 < a)); [|destruct (decide (a = 0)) as [->|]].
  - rewrite !of_int_pos by (split; lia). by apply (dle_canon a b); [split; lia|split; lia|].
  - destruct (decide (b = 0)) as [->|]; [done|]. by rewrite (of_int_pos b) by (split; lia).
  - replace a with (- - a) by lia. rewrite (of_int_neg (- a)) by (split; lia).
    destruct (decide (0 < b)); [|destruct (decide (b = 0)) as [->|]; [done|]].
    + by rewrite (of_int_pos b) by (split; lia).
    + replace b with (- - b) by lia. rewrite (of_int_neg (- b)) by (split; lia).
      apply (dle_canon (- b) (- a)); [split; lia|split; lia|lia].
Qed.

(** ** What [sprintf] writes for [%.0f], [%f] and [%e] *)

(** The magnitude of a finite [double], multiplied by [10 ^ k], rounded to an integer, ties
    to even: the digits [printf] writes in the default rounding mode. *)
Definition div_round_even (n d : Z) : Z :=
  let q := n / d in let r := n mod d in
  if 2 * r <? d then q else if d <? 2 * r then q + 1 else if Z.even q then q else q + 1.

Definition scaled_round (m : positive) (e k : Z) : Z :=
  let n := Z.pos m * 2 ^ Z.max e 0 * 10 ^ Z.max k 0 in
  let d := 2 ^ Z.max (- e) 0 * 10 ^ Z.max (- k) 0 in
  div_round_even n d.

Definition sign_text (s : bool) : text := if s then "-" else "".

(** Left padding with zeros, as for the digits after the decimal point. *)
Definition pad_zeros (width : nat) (t : text) : text := repeat "0"%char (width - length t) ++ t.

Definition fixed (s : bool) (decimals : nat) (v : Z) : text :=
  let p := 10 ^ Z.of_nat decimals in
  sign_text s ++ dec_nat (v / p) ++
  (if decimals is O then [] else "." ++ pad_zeros decimals (dec_nat (v mod p))).

(** The decimal exponent: the greatest [k] with [10 ^ k <= m * 2 ^ e]. *)
Fixpoint find_exponent (fuel : nat) (m : positive) (e k : Z) : Z :=
  match fuel with
  | O => k
  | S f =>
      if 10 ^ Z.max k 0 * 2 ^ Z.max (- e) 0 <=? Z.pos m * 2 ^ Z.max e 0 * 10 ^ Z.max (- k) 0
      then k else find_exponent f m e (k - 1)
  end.

Definition exponent_text (k : Z) : text :=
  (if k <? 0 then "-" else "+") ++ pad_zeros 2 (dec_nat (Z.abs k)).

Definition scientific (s : bool) (m : positive) (e : Z) : text :=
  let k0 := find_exponent 640 m e 309 in
  let v0 := scaled_round m e (6 - k0) in
  let '(v, k) := if v0 =? 10000000 then (1000000, k0 + 1) else (v0, k0) in
  fixed s 6 v ++ "e" ++ exponent_text k.

Inductive float_format := Fmt_0f | Fmt_f | Fmt_e.

Definition sprintf_double `{Platform} (fmt : float_format) (d : double) : text :=
  match d with
  | S754_nan => nan_text
  | S754_infinity s => sign_text s ++ "inf"
  | S754_zero s =>
      match fmt with
      | Fmt_0f => fixed s 0 0
      | Fmt_f => fixed s 6 0
      | Fmt_e => fixed s 6 0 ++ "e+00"
      end
  | S754_finite s m e =>
      match fmt with
      | Fmt_0f => fixed s 0 (scaled_round m e 0)
      | Fmt_f => fixed s 6 (scaled_round m e 6)
      | Fmt_e => scientific s m e
      end
  end.

(** A platform that satisfies the class, for the concrete runs: [pow (10, k)] by repeated
    exact multiplication or one division, and the results of the x86-64 conversion. *)
Definition sample_pow (x y : double) : double :=
  match y with
  | S754_zero _ => done_
  | _ => match trunc y with
         | Some k => if 0 <=? k then of_int (10 ^ k)
                     else SFdiv prec emax done_ (of_int (10 ^ (- k)))
         | None => S754_nan
         end
  end.

Program Definition sample_platform : Platform := {|
  pow := sample_pow;
  cvt_unrepresentable _ := INT_MIN;
  indeterminate_int := 0;
  nan_text := "-nan";
|}.
Solve Obligations with done.

#[local] Existing Instance sample_platform.

Example sprintf_examples :
  sprintf_double Fmt_f (S754_finite false 7205759403792794 (-56)) = "0.100000" ∧
  sprintf_double Fmt_e (SFdiv prec emax (of_int 15) (of_int (10 ^ 8))) = "1.500000e-07" ∧
  sprintf_double Fmt_0f (of_int (10 ^ 20)) = "100000000000000000000" ∧
  sprintf_double Fmt_e (of_int 12345678901) = "1.234568e+10" ∧
  length (sprintf_double Fmt_0f (of_int (10 ^ 300))) = 301%nat ∧
  sprintf_double Fmt_f (SFdiv prec emax (of_int (-5)) (of_int 2)) = "-2.500000".
Proof. vm_compute. repeat split. Qed.
