(* ===== verification/CJson.v ===== *)
(** * cJSON.cpp: the tree and the parser.

    [cJsonDap] is the node of [cJSON.hpp]; its [child] list is the chain of the [child] and
    [next] pointers in order.  Input text is the rest of a NUL-terminated buffer, so that the
    end of the list is the terminator and a read behind it is undefined behaviour ([Undef]).
    [Err ep] is a null result with the error pointer [ep].  Allocation does not fail. *)
From S2P Require Import Prelude.
From S2P Require Import Double.
Local Open Scope Z_scope.

(** ** Nodes *)

Definition cJsonDap_False : Z := 0.
Definition cJsonDap_True : Z := 1.
Definition cJsonDap_Null : Z := 2.
Definition cJsonDap_Number : Z := 3.
Definition cJsonDap_String : Z := 4.
Definition cJsonDap_Array : Z := 5.
Definition cJsonDap_Object : Z := 6.
Definition cJsonDap_IsReference : Z := 256.

Inductive cJsonDap : Type := Item {
  type : Z;
  valuestring : option text;
  valueint : Z;
  valuedouble : double;
  item_string : option text;
  child : list cJsonDap;
}.

(** Induction with the hypothesis for every child. *)
Lemma cJsonDap_children_ind (P : cJsonDap → Prop) :
  (∀ ty vs vi vd name l, Forall P l → P (Item ty vs vi vd name l)) → ∀ t, P t.
Proof.
  intros HP. fix IH 1. intros [ty vs vi vd name l]. apply HP.
  induction l as [|c l IHl]; constructor; [apply IH|apply IHl].
Qed.

(** [cJSON_New_Item]: every byte zero. *)
Definition cJSON_New_Item : cJsonDap := Item 0 None 0 dzero None [].

Definition set_type (ty : Z) (i : cJsonDap) : cJsonDap :=
  Item ty (valuestring i) (valueint i) (valuedouble i) (item_string i) (child i).
Definition set_valueint (v : Z) (i : cJsonDap) : cJsonDap :=
  Item (type i) (valuestring i) v (valuedouble i) (item_string i) (child i).
Definition set_valuestring (s : option text) (i : cJsonDap) : cJsonDap :=
  Item (type i) s (valueint i) (valuedouble i) (item_string i) (child i).
Definition set_number (n : Z) (d : double) (i : cJsonDap) : cJsonDap :=
  Item (type i) (valuestring i) n d (item_string i) (child i).
Definition set_string (s : option text) (i : cJsonDap) : cJsonDap :=
  Item (type i) (valuestring i) (valueint i) (valuedouble i) s (child i).
Definition set_child (l : list cJsonDap) (i : cJsonDap) : cJsonDap :=
  Item (type i) (valuestring i) (valueint i) (valuedouble i) (item_string i) l.

(** [child->string = child->valuestring; child->valuestring = 0;] *)
Definition name_from_value (i : cJsonDap) : cJsonDap :=
  set_valuestring None (set_string (valuestring i) i).

(** ** Numbers *)

Section Parser.
Context `{Platform}.

(** [n = (n * 10.0) + (c - '0')]. *)
Definition push_digit (n : double) (c : ascii) : double :=
  dadd (dmul n dten) (of_int (digit_value c)).

Fixpoint read_digits (n : double) (num : text) : double * text :=
  match num with
  | c :: r => if is_digit c then read_digits (push_digit n c) r else (n, num)
  | [] => (n, num)
  end.

Fixpoint read_fraction (n scale : double) (num : text) : double * double * text :=
  match num with
  | c :: r =>
      if is_digit c then read_fraction (push_digit n c) (dsub scale done_) r
      else (n, scale, num)
  | [] => (n, scale, num)
  end.

(** [subscale] is an [int]: a value that does not fit is a signed overflow. *)
Fixpoint read_exponent (subscale : Z) (num : text) : exec text (Z * text) :=
  match num with
  | c :: r =>
      if is_digit c then
        let s := subscale * 10 + digit_value c in
        if is_int s then read_exponent s r else Undef
      else Ret (subscale, num)
  | [] => Ret (subscale, num)
  end.

(** [parse_number] from the digits on. *)
Definition parse_unsigned (item : cJsonDap) (sign : double) (num : text) :
    exec text (cJsonDap * text) :=
  let num := if deref num =c "0" then next num else num in
  let '(n, num) :=
    if is_digit (deref num) && negb (deref num =c "0") then read_digits dzero num
    else (dzero, num) in
  let '(n, scale, num) :=
    if (deref num =c ".") && is_digit (deref (next num)) then read_fraction n dzero (next num)
    else (n, dzero, num) in
  let* (subscale, signsubscale, num) :=
    if (deref num =c "e") || (deref num =c "E") then
      let num := next num in
      let '(signsubscale, num) :=
        if deref num =c "+" then (1, next num)
        else if deref num =c "-" then (-1, next num) else (1, num) in
      let* (subscale, num) := read_exponent 0 num in
      Ret (subscale, signsubscale, num)
    else Ret (0, 1, num) in
  let n := dmul (dmul sign n) (pow dten (dadd scale (of_int (subscale * signsubscale)))) in
  Ret (set_type cJsonDap_Number (set_number (to_int n) n item), num).

Definition parse_number (item : cJsonDap) (num : text) : exec text (cJsonDap * text) :=
  if deref num =c "-" then parse_unsigned item (of_int (-1)) (next num)
  else parse_unsigned item (of_int 1) num.

(** ** Strings *)

Definition is_space (c : ascii) : bool :=
  (c =c " ") || ((9 <=? code c) && (code c <=? 13)).

Definition hex_value (c : ascii) : option Z :=
  let z := code c in
  if (48 <=? z) && (z <=? 57) then Some (z - 48)
  else if (97 <=? z) && (z <=? 102) then Some (z - 87)
  else if (65 <=? z) && (z <=? 70) then Some (z - 55)
  else None.

Fixpoint skip_space (t : text) : text :=
  match t with
  | c :: r => if is_space c then skip_space r else t
  | [] => []
  end.

(** At most [width] hexadecimal digits; [None] when there is none. *)
Fixpoint hex_digits (width : nat) (acc : option Z) (t : text) : option Z :=
  match width, t with
  | S w, c :: r =>
      match hex_value c with
      | Some d => hex_digits w (Some (default 0 acc * 16 + d)) r
      | None => acc
      end
  | _, _ => acc
  end.

(** [sscanf (t, "%4x", &uc)]: white space, then within four characters a sign, [0x] and
    digits. [Some v]: [v] is assigned; [None]: a matching failure, nothing is assigned. *)
Definition sscanf_4x (t : text) : option Z :=
  let t := skip_space t in
  let '(neg, width, t) :=
    if deref t =c "-" then (true, 3%nat, next t)
    else if deref t =c "+" then (false, 3%nat, next t) else (false, 4%nat, t) in
  let v :=
    if (deref t =c "0") && ((deref (next t) =c "x") || (deref (next t) =c "X"))
    then hex_digits (width - 2) None (next (next t))
    else hex_digits width None t in
  if neg then (λ v, (- v) mod 2 ^ 32) <$> v else v.

Definition firstByteMark (len : Z) : Z :=
  match len with 2 => 0xC0 | 3 => 0xE0 | 4 => 0xF0 | 5 => 0xF8 | 6 => 0xFC | _ => 0x00 end.

(** The number of bytes of a code point, and the bytes the [switch (len)] writes: the last
    ones first, six bits each, then the lead byte. A store to a [char] keeps eight bits. *)
Definition utf8_len (uc : Z) : Z :=
  if uc <? 0x80 then 1 else if uc <? 0x800 then 2 else if uc <? 0x10000 then 3 else 4.

Definition to_char (z : Z) : ascii := chr (Z.land z 0xFF).
Definition continuation (uc : Z) : ascii := to_char (Z.land (Z.lor uc 0x80) 0xBF).

Definition encode_uc (uc : Z) : text :=
  let len := utf8_len uc in
  let lead := to_char (Z.lor (Z.shiftr uc (6 * (len - 1))) (firstByteMark len)) in
  if len =? 1 then [lead]
  else if len =? 2 then [lead; continuation uc]
  else if len =? 3 then [lead; continuation (Z.shiftr uc 6); continuation uc]
  else [lead; continuation (Z.shiftr uc 12); continuation (Z.shiftr uc 6); continuation uc].

(** Pointer arithmetic and reads that must stay within the buffer and its terminator. *)
Definition advance (n : nat) (ptr : text) : exec text text :=
  if (n <=? length ptr)%nat then Ret (drop n ptr) else Undef.
Definition peek (n : nat) (ptr : text) : exec text ascii :=
  if (n <=? length ptr)%nat then Ret (deref (drop n ptr)) else Undef.
Definition initialized (v : option Z) : exec text Z :=
  match v with Some z => Ret z | None => Undef end.

(** The case ['u'] of the [switch]: [ptr] is at the [u]; the result is the bytes written, the
    variables [uc] and [uc2] (indeterminate before their first assignment) and [ptr]. *)
Definition emit_uc (uc : Z) (uc2 : option Z) (ptr : text) :
    exec text (text * option Z * option Z * text) :=
  Ret (encode_uc uc, Some (Z.shiftr uc (6 * (utf8_len uc - 1))), uc2, ptr).

Definition escape_u (uc uc2 : option Z) (ptr : text) :
    exec text (text * option Z * option Z * text) :=
  let uc := match sscanf_4x (next ptr) with Some v => Some v | None => uc end in
  let* ptr := advance 4 ptr in
  let* v := initialized uc in
  if ((0xDC00 <=? v) && (v <=? 0xDFFF)) || (v =? 0) then Ret ([], uc, uc2, ptr)
  else if (0xD800 <=? v) && (v <=? 0xDBFF) then
    let* c1 := peek 1 ptr in
    let* second := (if c1 =c BSLASH then let* c2 := peek 2 ptr in Ret (c2 =c "u")
                    else Ret false) in
    if negb second then Ret ([], uc, uc2, ptr)
    else
      let uc2 := match sscanf_4x (drop 3 ptr) with Some v2 => Some v2 | None => uc2 end in
      let* ptr := advance 6 ptr in
      let* v2 := initialized uc2 in
      if (v2 <? 0xDC00) || (0xDFFF <? v2) then Ret ([], uc, uc2, ptr)
      else emit_uc (Z.lor 0x10000 (Z.lor (Z.shiftl (Z.land v 0x3FF) 10) (Z.land v2 0x3FF)))
             uc2 ptr
  else emit_uc v uc2 ptr.

(** The [switch] on the character after a backslash, [ptr] at that character. *)
Definition escape (uc uc2 : option Z) (ptr : text) :
    exec text (text * option Z * option Z * text) :=
  let c := deref ptr in
  if c =c "b" then Ret ([BS], uc, uc2, ptr)
  else if c =c "f" then Ret ([FF], uc, uc2, ptr)
  else if c =c "n" then Ret ([LF], uc, uc2, ptr)
  else if c =c "r" then Ret ([CR], uc, uc2, ptr)
  else if c =c "t" then Ret ([TAB], uc, uc2, ptr)
  else if c =c "u" then escape_u uc uc2 ptr
  else Ret ([c], uc, uc2, ptr).

(** The first pass: the length it counts, or [None] when it reads past the terminator. *)
Fixpoint scan_len (ptr : text) : option nat :=
  match ptr with
  | [] => Some 0%nat
  | c :: r =>
      if c =c DQUOTE then Some 0%nat
      else if c =c BSLASH then match r with [] => None | _ :: r' => S <$> scan_len r' end
      else S <$> scan_len r
  end.

(** The second pass: the bytes written to [out], and [ptr] where the loop stops. *)
Fixpoint unescape (fuel : nat) (uc uc2 : option Z) (ptr : text) : exec text (text * text) :=
  match fuel with
  | O => NoFuel
  | S f =>
      match ptr with
      | [] => Ret ([], ptr)
      | c :: r =>
          if c =c DQUOTE then Ret ([], ptr)
          else if negb (c =c BSLASH) then
            let* (out, p) := unescape f uc uc2 r in Ret (c :: out, p)
          else
            let* (bytes, uc, uc2, ptr) := escape uc uc2 r in
            let* ptr := advance 1 ptr in
            let* (out, p) := unescape f uc uc2 ptr in Ret (bytes ++ out, p)
      end
  end.

Definition parse_string (item : cJsonDap) (str : text) : exec text (cJsonDap * text) :=
  if negb (deref str =c DQUOTE) then Err str
  else
    match scan_len (next str) with
    | None => Undef
    | Some len =>
        let* (out, ptr) := unescape (S (length str)) None None (next str) in
        if (len <? length out)%nat then Undef
        else
          let ptr := if deref ptr =c DQUOTE then next ptr else ptr in
          Ret (set_type cJsonDap_String (set_valuestring (Some out) item), ptr)
    end.

(** ** Values *)

(** [skip]: [(unsigned char)*in <= 32] and not the terminator. *)
Fixpoint skip (in_ : text) : text :=
  match in_ with
  | c :: r => if (code c <=? 32) && negb (c =c NUL) then skip r else in_
  | [] => []
  end.

(** One [name : value] of an object, from [value] at the name or at the blanks before it:
    [skip(parse_string(child, skip(value)))] to [skip(parse_value(child, skip(value + 1)))]. *)
Definition parse_member (parse_value : cJsonDap → text → exec text (cJsonDap * text))
    (value : text) : exec text (cJsonDap * text) :=
  let* (child, value) := parse_string cJSON_New_Item (skip value) in
  let value := skip value in
  let child := name_from_value child in
  if negb (deref value =c ":") then Err value
  else
    let* (child, value) := parse_value child (skip (next value)) in
    Ret (child, skip value).

Fixpoint parse_value (fuel : nat) (item : cJsonDap) (value : text) {struct fuel} :
    exec text (cJsonDap * text) :=
  match fuel with
  | O => NoFuel
  | S f =>
      if starts_with "null" value then Ret (set_type cJsonDap_Null item, drop 4 value)
      else if starts_with "false" value then Ret (set_type cJsonDap_False item, drop 5 value)
      else if starts_with "true" value then
        Ret (set_valueint 1 (set_type cJsonDap_True item), drop 4 value)
      else if deref value =c DQUOTE then parse_string item value
      else if (deref value =c "-") || is_digit (deref value) then parse_number item value
      else if deref value =c "[" then parse_array f item value
      else if deref value =c "{" then parse_object f item value
      else Err value
  end

with parse_array (fuel : nat) (item : cJsonDap) (value : text) {struct fuel} :
    exec text (cJsonDap * text) :=
  match fuel with
  | O => NoFuel
  | S f =>
      if negb (deref value =c "[") then Err value
      else
        let item := set_type cJsonDap_Array item in
        let value := skip (next value) in
        if deref value =c "]" then Ret (item, next value)
        else
          let* (child, value) := parse_value f cJSON_New_Item (skip value) in
          parse_array_loop f item [child] (skip value)
  end

(** The loop over the commas and the end of the array. *)
with parse_array_loop (fuel : nat) (item : cJsonDap) (chain : list cJsonDap) (value : text)
    {struct fuel} : exec text (cJsonDap * text) :=
  match fuel with
  | O => NoFuel
  | S f =>
      if deref value =c "," then
        let* (new_item, value) := parse_value f cJSON_New_Item (skip (next value)) in
        parse_array_loop f item (chain ++ [new_item]) (skip value)
      else if deref value =c "]" then Ret (set_child chain item, next value)
      else Err value
  end

with parse_object (fuel : nat) (item : cJsonDap) (value : text) {struct fuel} :
    exec text (cJsonDap * text) :=
  match fuel with
  | O => NoFuel
  | S f =>
      if negb (deref value =c "{") then Err value
      else
        let item := set_type cJsonDap_Object item in
        let value := skip (next value) in
        if deref value =c "}" then Ret (item, next value)
        else
          let* (child, value) := parse_member (parse_value f) value in
          parse_object_loop f item [child] value
  end

with parse_object_loop (fuel : nat) (item : cJsonDap) (chain : list cJsonDap) (value : text)
    {struct fuel} : exec text (cJsonDap * text) :=
  match fuel with
  | O => NoFuel
  | S f =>
      if deref value =c "," then
        let* (new_item, value) := parse_member (parse_value f) (next value) in
        parse_object_loop f item (chain ++ [new_item]) value
      else if deref value =c "}" then Ret (set_child chain item, next value)
      else Err value
  end.

(** Every level of [parse_value] takes two steps and at least one byte. *)
Definition parse_fuel (value : text) : nat := 2 * length value + 2.

(** [cJSON_Parse] on the buffer [source]; text after the value is not looked at. [Ret t] is
    the tree, [Err ep] the null pointer with the position [cJSON_GetErrorPtr] gives. *)
Definition cJSON_Parse (source : text) : exec text cJsonDap :=
  let value := skip (c_str source) in
  let* (c, _) := parse_value (parse_fuel value) cJSON_New_Item value in
  Ret c.
End Parser.

