(* ===== verification/CJsonPrint.v ===== *)
(** * cJSON.cpp: the printer.

    A rendered text is [Ret]; [Err tt] is the null pointer.  Every buffer is allocated with
    the size the code computes, and a text that does not fit it with its terminator is
    undefined behaviour ([into]).  Allocation does not fail and [depth] and the lengths do
    not exceed [int]. *)
From S2P Require Import Prelude.
From S2P Require Import Double.
From S2P Require Import CJson.
Local Open Scope Z_scope.

(** Writing [t] and its terminator into a buffer of [size] bytes. *)
Definition into (size : nat) (t : text) : exec unit text :=
  if (length t <? size)%nat then Ret t else Undef.

Definition FMT_WHITESPACE_CHAR : ascii := " ".

Definition indent (n : nat) : text := repeat FMT_WHITESPACE_CHAR n.

(** ** Numbers and strings *)

Definition print_number `{Platform} (item : cJsonDap) : exec unit text :=
  let d := valuedouble item in
  if dle (dabs (dsub (of_int (valueint item)) d)) DBL_EPSILON &&
     dle d (of_int INT_MAX) && dle (of_int INT_MIN) d
  then into 21 (dec (valueint item))
  else if dle (dabs (dsub (dfloor d) d)) DBL_EPSILON then into 64 (sprintf_double Fmt_0f d)
  else if dlt (dabs d) d1e_6 || dlt d1e9 (dabs d) then into 64 (sprintf_double Fmt_e d)
  else into 64 (sprintf_double Fmt_f d).

(** The first loop: one for the character, one more when [strchr] finds it among the escaped
    ones, five more for another control character. *)
Definition has_short_escape (token : ascii) : bool :=
  existsb (ceq token) [DQUOTE; BSLASH; BS; FF; LF; CR; TAB].

Fixpoint print_string_len (str : text) : nat :=
  match str with
  | [] => 0
  | token :: ptr =>
      (1 + (if has_short_escape token then 1 else if (code token <? 32)%Z then 5 else 0)
       + print_string_len ptr)%nat
  end.

Definition hex_char (d : Z) : ascii := if d <? 10 then chr (48 + d) else chr (87 + d).

(** ["u%04x"] of an [unsigned char]. *)
Definition sprintf_u04x (token : ascii) : text :=
  ["u"%char; "0"%char; "0"%char; hex_char (code token / 16); hex_char (code token mod 16)].

(** One character in the second loop. *)
Definition escape_char (c : ascii) : text :=
  if (31 <? code c) && negb (c =c DQUOTE) && negb (c =c BSLASH) then [c]
  else BSLASH ::
    (if c =c BSLASH then [BSLASH]
     else if c =c DQUOTE then [DQUOTE]
     else if c =c BS then ["b"%char]
     else if c =c FF then ["f"%char]
     else if c =c LF then ["n"%char]
     else if c =c CR then ["r"%char]
     else if c =c TAB then ["t"%char]
     else sprintf_u04x c).

Fixpoint escape_all (str : text) : text :=
  match str with
  | [] => []
  | c :: ptr => escape_char c ++ escape_all ptr
  end.

Definition print_string_ptr (str : option text) : exec unit text :=
  match str with
  | None => Ret []
  | Some s =>
      let str := c_str s in
      into (print_string_len str + 3) ([DQUOTE] ++ escape_all str ++ [DQUOTE])
  end.

Definition print_string (item : cJsonDap) : exec unit text := print_string_ptr (valuestring item).

(** ** Arrays *)

(** The first loop: it stops at the first entry that fails. *)
Fixpoint array_entries (entries : list (exec unit text)) : exec unit (list text) :=
  match entries with
  | [] => Ret []
  | ret :: rest =>
      let* e := ret in
      let* es := array_entries rest in
      Ret (e :: es)
  end.

Definition array_len (fmt : bool) (entries : list text) : nat :=
  foldl (λ len ret, len + (length ret + 2 + (if fmt then 1 else 0)))%nat 5%nat entries.

(** The second loop, and the closing bracket. *)
Fixpoint compose_array (fmt : bool) (entries : list text) : text :=
  match entries with
  | [] => []
  | [e] => e
  | e :: rest => e ++ "," ++ (if fmt then " " else "") ++ compose_array fmt rest
  end.

Definition print_array (entries : list (exec unit text)) (fmt : bool) : exec unit text :=
  let* entries := array_entries entries in
  into (array_len fmt entries) ("[" ++ compose_array fmt entries ++ "]").

(** ** Objects *)

(** Both computations run; the first failure is kept. *)
Definition run_both {A B} (m : exec unit A) (k : exec unit B) : exec unit (A * B) :=
  match m, k with
  | Ret a, _ => let* b := k in Ret (a, b)
  | Err e, (Ret _ | Err _) => Err e
  | Err _, Undef | Undef, _ => Undef
  | Err _, NoFuel | NoFuel, _ => NoFuel
  end.

(** The first loop: it goes on after a failure. *)
Fixpoint object_entries (members : list (option text * exec unit text)) :
    exec unit (list (text * text)) :=
  match members with
  | [] => Ret []
  | (string, ret) :: rest =>
      let* (e, es) := run_both (run_both (print_string_ptr string) ret) (object_entries rest) in
      Ret (e :: es)
  end.

Definition object_len (depth : nat) (fmt : bool) (entries : list (text * text)) : nat :=
  foldl (λ len '(str, ret),
           len + (length ret + length str + 2 + (if fmt then 2 + depth else 0)))%nat
        (7 + (if fmt then depth else 0))%nat entries.

(** The second loop: [depth] is already the depth of the members. *)
Fixpoint compose_object (depth : nat) (fmt : bool) (entries : list (text * text)) : text :=
  match entries with
  | [] => []
  | (name, entry) :: rest =>
      (if fmt then indent depth else []) ++ name ++ ":" ++
      (if fmt then [FMT_WHITESPACE_CHAR] else []) ++ entry ++
      (if rest is [] then [] else ",") ++ (if fmt then [LF] else []) ++
      compose_object depth fmt rest
  end.

Definition print_object (members : list (option text * exec unit text)) (depth : nat)
    (fmt : bool) : exec unit text :=
  let* entries := object_entries members in
  let depth := S depth in
  into (object_len depth fmt entries)
    ("{" ++ (if fmt then [LF] else []) ++ compose_object depth fmt entries ++
     (if fmt then indent (depth - 1) else []) ++ "}").

(** ** Values *)

Fixpoint print_value `{Platform} (item : cJsonDap) (depth : nat) (fmt : bool) :
    exec unit text :=
  let ty := Z.land (type item) 255 in
  if ty =? cJsonDap_Null then Ret (lit "null")
  else if ty =? cJsonDap_False then Ret (lit "false")
  else if ty =? cJsonDap_True then Ret (lit "true")
  else if ty =? cJsonDap_Number then print_number item
  else if ty =? cJsonDap_String then print_string item
  else if ty =? cJsonDap_Array then
    print_array (map (λ c, print_value c (S depth) fmt) (child item)) fmt
  else if ty =? cJsonDap_Object then
    print_object (map (λ c, (item_string c, print_value c (S depth) fmt)) (child item)) depth fmt
  else Err tt.

Definition cJSON_Print `{Platform} (item : cJsonDap) : exec unit text := print_value item 0 true.
Definition cJSON_PrintUnformatted `{Platform} (item : cJsonDap) : exec unit text :=
  print_value item 0 false.

(** ** The buffers are large enough *)

Lemma into_Ret size t : (length t < size)%nat → into size t = Ret t.
Proof. intros. unfold into. by destruct (Nat.ltb_spec (length t) size); [|lia]. Qed.

(** The bytes of one character are the ones the first loop counts. *)
Lemma length_escape_char c :
  length (escape_char c)
  = (1 + (if has_short_escape c then 1 else if (code c <? 32)%Z then 5 else 0))%nat.
Proof.
  unfold escape_char, has_short_escape, existsb.
  assert (code DQUOTE = 34 ∧ code BSLASH = 92 ∧ code BS = 8 ∧ code FF = 12 ∧ code LF = 10
          ∧ code CR = 13 ∧ code TAB = 9) as (? & ? & ? & ? & ? & ? & ?) by done.
  destruct (Z.ltb_spec 31 (code c)), (Z.ltb_spec (code c) 32); try lia; simpl;
    repeat match goal with |- context [c =c ?d] => destruct (ceq_spec c d) as [->|]; simpl end;
    done || lia.
Qed.

Lemma print_string_len_spec s : length (escape_all s) = print_string_len s.
Proof.
  induction s as [|c s IH]; simpl; [done|]. rewrite length_app, length_escape_char, IH. lia.
Qed.

Lemma print_string_ptr_Some s :
  print_string_ptr (Some s) = Ret ([DQUOTE] ++ escape_all (c_str s) ++ [DQUOTE]).
Proof.
  unfold print_string_ptr. apply into_Ret. rewrite !length_app, print_string_len_spec. simpl.
  lia.
Qed.

Lemma array_len_spec fmt es :
  array_len fmt es = (5 + sum_list (map (λ ret : text, length ret + 2 + (if fmt then 1 else 0)) es))%nat.
Proof.
  unfold array_len. generalize 5%nat.
  induction es as [|e es IH]; intros n; simpl; [lia|]. rewrite IH. lia.
Qed.

Lemma length_compose_array fmt es :
  (length (compose_array fmt es)
   ≤ sum_list (map (λ ret : text, length ret + 2 + (if fmt then 1 else 0)) es))%nat.
Proof.
  induction es as [|e [|e' es] IH]; [simpl; lia|simpl; lia|].
  change (compose_array fmt (e :: e' :: es))
    with (e ++ "," ++ (if fmt then " " else "") ++ compose_array fmt (e' :: es)).
  rewrite !length_app. cbn [map sum_list_with sum_list] in *. destruct fmt; simpl in *; lia.
Qed.

Lemma print_array_Ret fmt es entries : array_entries entries = Ret es →
  print_array entries fmt = Ret ("[" ++ compose_array fmt es ++ "]").
Proof.
  intros H. unfold print_array. rewrite H. simpl. apply into_Ret.
  rewrite array_len_spec. pose proof (length_compose_array fmt es).
  simpl. rewrite length_app. simpl. lia.
Qed.

Definition member_len (depth : nat) (fmt : bool) (e : text * text) : nat :=
  (length e.2 + length e.1 + 2 + (if fmt then 2 + depth else 0))%nat.

Lemma object_len_spec depth fmt es :
  object_len depth fmt es
  = (7 + (if fmt then depth else 0) + sum_list (map (member_len depth fmt) es))%nat.
Proof.
  unfold object_len. generalize (7 + (if fmt then depth else 0))%nat.
  induction es as [|[n e] es IH]; intros k; simpl; [lia|].
  rewrite IH. unfold member_len at 2. simpl. lia.
Qed.

Lemma length_compose_object depth fmt es :
  (length (compose_object depth fmt es) ≤ sum_list (map (member_len depth fmt) es))%nat.
Proof.
  induction es as [|[n e] es IH]; [simpl; lia|]. cbn [compose_object map sum_list].
  rewrite !length_app. unfold member_len at 1. unfold indent.
  destruct fmt, es; rewrite ?repeat_length; simpl in *; lia.
Qed.

Lemma print_object_Ret depth fmt es members : object_entries members = Ret es →
  print_object members depth fmt
  = Ret ("{" ++ (if fmt then [LF] else []) ++ compose_object (S depth) fmt es ++
         (if fmt then indent depth else []) ++ "}").
Proof.
  intros H. unfold print_object. rewrite H. cbn [exec_bind].
  replace (S depth - 1)%nat with depth by lia. apply into_Ret.
  rewrite object_len_spec. pose proof (length_compose_object (S depth) fmt es).
  rewrite !length_app. unfold indent. destruct fmt; rewrite ?repeat_length; simpl; lia.
Qed.
