(* ===== verification/CJsonParse.v ===== *)
(** * cJSON.cpp: the parser terminates and stays within its text.

    [reads n value r] says of the result [r] of a parsing function started at [value] that it
    does not lack fuel, that the position it returns is a suffix of [value] at least [n] bytes
    further on, and that an error position is a suffix of [value]. *)
From S2P Require Import Prelude.
From S2P Require Import Double.
From S2P Require Import CJson.
Local Open Scope Z_scope.

Definition reads {A} (n : nat) (value : text) (r : exec text (A * text)) : Prop :=
  match r with
  | Ret (_, rest) => rest `suffix_of` value ∧ (length rest + n ≤ length value)%nat
  | Err ep => ep `suffix_of` value
  | Undef => True
  | NoFuel => False
  end.

Lemma next_suffix t : next t `suffix_of` t.
Proof. destruct t as [|c t]; [done|]. by exists [c]. Qed.

Lemma drop_suffix n (t : text) : drop n t `suffix_of` t.
Proof. exists (take n t). by rewrite take_drop. Qed.

Lemma skip_suffix t : skip t `suffix_of` t.
Proof.
  induction t as [|c t IH]; simpl; [done|]. case_match; [|done].
  by apply suffix_cons_r.
Qed.

Lemma suffix_le (a b : text) : a `suffix_of` b → (length a ≤ length b)%nat.
Proof. apply suffix_length. Qed.

Lemma deref_cons t c : deref t = c → c ≠ NUL → ∃ r, t = c :: r.
Proof. destruct t as [|x t]; simpl; [congruence|]. intros -> _. by exists t. Qed.

#[export] Hint Resolve next_suffix drop_suffix skip_suffix suffix_cons_r : wxdap.
#[export] Hint Extern 0 (?t `suffix_of` ?t) => reflexivity : wxdap.

(** [a] suffix of [b] from [a] suffix of [c] and [c] suffix of [b]. *)
Ltac suffix_via c := transitivity c; [|solve [eauto with wxdap]].

Lemma read_digits_suffix n t : (read_digits n t).2 `suffix_of` t.
Proof.
  revert n; induction t as [|c t IH]; intros n; simpl; [done|]. case_match; [|done].
  by apply suffix_cons_r.
Qed.

Lemma read_fraction_suffix n s t : (read_fraction n s t).2 `suffix_of` t.
Proof.
  revert n s; induction t as [|c t IH]; intros n s; simpl; [done|]. case_match; [|done].
  by apply suffix_cons_r.
Qed.

Lemma reads_bind {A B} (m : exec text (A * text)) (k : A * text → exec text (B * text)) a b v :
  reads a v m →
  (∀ x rest, m = Ret (x, rest) → rest `suffix_of` v → (length rest + a ≤ length v)%nat →
     reads b rest (k (x, rest))) →
  reads (a + b) v (exec_bind m k).
Proof.
  unfold reads. destruct m as [[x rest]|ep| |]; simpl; try done.
  intros [Hs Hl] Hk. specialize (Hk x rest eq_refl Hs Hl).
  destruct (k (x, rest)) as [[y rest']|ep'| |]; try done.
  - destruct Hk. split; [by trans rest|lia].
  - by trans rest.
Qed.

(** Starting further on, and asking for less. *)
Lemma reads_weaken {A} n v n' v' (r : exec text (A * text)) :
  v `suffix_of` v' → (n' + length v ≤ n + length v')%nat → reads n v r → reads n' v' r.
Proof.
  unfold reads. intros Hs Hn. destruct r as [[x rest]|ep| |]; try done.
  - intros [? ?]. split; [by trans v|lia].
  - intros. by trans v.
Qed.

Lemma reads_Ret {A} (x : A) n v rest :
  rest `suffix_of` v → (length rest + n ≤ length v)%nat → reads n v (Ret (x, rest)).
Proof. done. Qed.

Lemma read_exponent_reads s t : reads 0 t (read_exponent s t).
Proof.
  revert s; induction t as [|c t IH]; intros s; simpl; [by split; [|simpl]|].
  case_match; [|split; [done|lia]]. case_match; [|done].
  apply (reads_weaken 0 t); [by apply suffix_cons_r|simpl; lia|apply IH].
Qed.

Section Parser.
Context `{Platform}.

(** The positions of [parse_unsigned]: after the zero, the digits, the fraction. *)
Lemma parse_unsigned_reads item sign v :
  reads (if is_digit (deref v) then 1 else 0) v (parse_unsigned item sign v).
Proof.
  unfold parse_unsigned.
  set (v2 := if deref v =c "0" then next v else v).
  assert (v2 `suffix_of` v ∧ ((deref v =c "0") = true → length v2 < length v)%nat
          ∧ ((deref v =c "0") = false → v2 = v)) as (Hs2 & Hl2 & Hi2).
  { subst v2. destruct (ceq_spec (deref v) "0") as [Hm|]; simpl; [|by repeat split].
    destruct (deref_cons v "0") as [r ->]; [done|done|]. simpl.
    repeat split; [by apply suffix_cons_r|lia|done]. }
  cbv zeta. set (s3 := if is_digit (deref v2) && negb (deref v2 =c "0") then _ else _).
  assert (s3.2 `suffix_of` v2 ∧
    (is_digit (deref v2) && negb (deref v2 =c "0") = true → length s3.2 < length v2)%nat)
    as (Hs3 & Hl3).
  { subst s3. destruct (is_digit (deref v2) && negb (deref v2 =c "0")) eqn:Hdig; [|done].
    apply andb_true_iff in Hdig as [Hdig _]. split; [apply read_digits_suffix|intros _].
    destruct v2 as [|c v2']; [done|]. simpl in *. rewrite Hdig.
    pose proof (suffix_le _ _ (read_digits_suffix (push_digit dzero c) v2')). lia. }
  assert (length s3.2 + (if is_digit (deref v) then 1 else 0) ≤ length v)%nat as Hlt.
  { apply suffix_le in Hs2 as ?, Hs3 as ?. destruct (is_digit (deref v)) eqn:Hd; [|lia].
    destruct (deref v =c "0") eqn:Hz; [specialize (Hl2 eq_refl); lia|].
    specialize (Hi2 eq_refl) as E. rewrite E, Hd, Hz in Hl3. specialize (Hl3 eq_refl). lia. }
  assert (s3.2 `suffix_of` v) as Hs by (by trans v2).
  clear Hs2 Hl2 Hi2 Hs3 Hl3. destruct s3 as [n v3]. simpl in Hs, Hlt.
  set (s4 := if (deref v3 =c ".") && is_digit (deref (next v3)) then _ else _).
  assert (s4.2 `suffix_of` v3) as Hs4.
  { subst s4. destruct ((deref v3 =c ".") && is_digit (deref (next v3))); [|done].
    trans (next v3); [apply read_fraction_suffix|apply next_suffix]. }
  destruct s4 as [[n4 scale] v4]. simpl in Hs4.
  apply (reads_weaken (0 + 0) v4); [by trans v3|apply suffix_le in Hs4; lia|].
  apply reads_bind; [|intros [subscale sg] rest _ _ _; by split; [|lia]].
  destruct ((deref v4 =c "e") || (deref v4 =c "E")); [|by split; [|lia]].
  set (s5 := if deref (next v4) =c "+" then _ else _).
  assert (s5.2 `suffix_of` v4) as Hs5.
  { subst s5. repeat case_match; simpl; try (trans (next v4)); eauto with wxdap. }
  destruct s5 as [sg v5]. simpl in Hs5. change 0%nat with (0 + 0)%nat.
  apply (reads_weaken (0 + 0) v5); [done|apply suffix_le in Hs5; lia|].
  apply reads_bind; [apply read_exponent_reads|]. intros x rest _ _ _. by split; [|lia].
Qed.

Lemma parse_number_reads item v :
  (deref v =c "-") || is_digit (deref v) = true → reads 1 v (parse_number item v).
Proof.
  unfold parse_number. destruct (ceq_spec (deref v) "-") as [Hm|]; simpl; intros Hd.
  - destruct (deref_cons v "-") as [r ->]; [done|done|]. simpl.
    eapply reads_weaken; [by apply suffix_cons_r| |apply parse_unsigned_reads]. simpl. lia.
  - pose proof (parse_unsigned_reads item (of_int 1) v) as Hr. by rewrite Hd in Hr.
Qed.
End Parser.

(** ** Strings *)

Lemma advance_Ret n t t' : advance n t = Ret t' →
  t' `suffix_of` t ∧ (length t' + n = length t)%nat.
Proof.
  unfold advance. case_match eqn:Hn; [|done]. intros [= <-]. apply Nat.leb_le in Hn.
  split; [apply drop_suffix|]. rewrite length_drop. lia.
Qed.

Lemma advance_not_NoFuel n t : advance n t ≠ NoFuel.
Proof. unfold advance. by case_match. Qed.

Lemma peek_cases n t : peek n t = Undef ∨ ∃ c, peek n t = Ret c.
Proof. unfold peek. case_match; eauto. Qed.

Lemma escape_u_reads uc uc2 t : reads 0 t (escape_u uc uc2 t).
Proof.
  unfold escape_u. set (u := match sscanf_4x _ with Some v => Some v | None => uc end).
  destruct (advance 4 t) as [t4|ep| |] eqn:H4; simpl; try done;
    [|unfold advance in H4; by case_match..].
  apply advance_Ret in H4 as [Hs H4].
  destruct u as [v|]; simpl; [|done].
  case_match; [by split; [|lia]|]. case_match; [|by split; [|lia]].
  destruct (peek_cases 1 t4) as [->|[c1 ->]]; simpl; [done|].
  assert (∀ m : exec text bool, (m = Undef ∨ ∃ b, m = Ret b) → reads 0 t (
    let* second := m in
      if negb second then Ret ([], Some v, uc2, t4)
      else
       let* ptr := advance 6 t4 in
       let* v2 := initialized match sscanf_4x (drop 3 t4) with Some v2 => Some v2 | None => uc2 end in
       if (v2 <? 0xDC00) || (0xDFFF <? v2)
       then Ret ([], Some v, match sscanf_4x (drop 3 t4) with Some v2 => Some v2 | None => uc2 end, ptr)
       else emit_uc (Z.lor 0x10000 (Z.lor (Z.shiftl (Z.land v 0x3FF) 10) (Z.land v2 0x3FF)))
             match sscanf_4x (drop 3 t4) with Some v2 => Some v2 | None => uc2 end ptr)) as Hrest.
  { intros m [->|[b ->]]; [done|]. cbn [exec_bind]. destruct (negb b); [by split; [|lia]|].
    destruct (advance 6 t4) as [t6|ep| |] eqn:H6; simpl; try done;
      [|unfold advance in H6; by case_match..].
    apply advance_Ret in H6 as [Hs6 H6].
    destruct (match sscanf_4x (drop 3 t4) with Some v2 => Some v2 | None => uc2 end); simpl; [|done].
    case_match; split; try lia; by trans t4. }
  apply Hrest. destruct (c1 =c BSLASH); [|eauto].
  destruct (peek_cases 2 t4) as [->|[c2 ->]]; simpl; eauto.
Qed.

Lemma escape_reads uc uc2 t : reads 0 t (escape uc uc2 t).
Proof.
  unfold escape. repeat (case_match; [by split; [|lia]|]). case_match; [apply escape_u_reads|].
  by split; [|lia].
Qed.

Lemma unescape_reads fuel uc uc2 t : (length t < fuel)%nat → reads 0 t (unescape fuel uc uc2 t).
Proof.
  revert uc uc2 t; induction fuel as [|f IH]; intros uc uc2 t Hf; [lia|].
  simpl. destruct t as [|c r]; [by split; [|simpl]|].
  case_match; [by split; [|lia]|]. simpl in Hf. case_match.
  - apply (reads_weaken (0 + 0) r); [by apply suffix_cons_r|simpl; lia|].
    apply reads_bind; [apply IH; lia|]. intros out p _ _ _. by split; [|lia].
  - apply (reads_weaken (0 + 0) r); [by apply suffix_cons_r|simpl; lia|].
    apply reads_bind; [apply escape_reads|]. intros [[bytes uc'] uc2'] p _ _ Hp.
    destruct (advance 1 p) as [p'|ep| |] eqn:H1; simpl; try done;
      [|unfold advance in H1; by case_match..].
    apply advance_Ret in H1 as [Hs H1].
    apply (reads_weaken (0 + 0) p'); [done|lia|].
    apply reads_bind; [apply IH; lia|]. intros out q _ _ _. by split; [|lia].
Qed.

Lemma parse_string_reads item v : reads 1 v (parse_string item v).
Proof.
  unfold parse_string. destruct (ceq_spec (deref v) DQUOTE) as [Hq|]; simpl; [|done].
  destruct (deref_cons v DQUOTE) as [r ->]; [done..|]. simpl.
  destruct (scan_len r) as [len|]; [|done].
  pose proof (unescape_reads (S (S (length r))) None None r) as Hu.
  apply (reads_weaken (0 + 0) r); [by apply suffix_cons_r|simpl; lia|].
  apply reads_bind; [apply Hu; lia|]. intros out p _ _ _. case_match; [done|].
  case_match; split; eauto with wxdap; [rewrite length_next; lia|lia].
Qed.

(** ** Values *)

Section Values.
Context `{Platform}.

Definition value_reads (fuel : nat) : Prop := ∀ item v,
  (2 * length v + 2 ≤ fuel)%nat → reads 1 v (parse_value fuel item v).

Lemma parse_member_reads fuel v : value_reads fuel → (2 * length v ≤ fuel)%nat →
  reads 1 v (parse_member (parse_value fuel) v).
Proof.
  intros IH Hf. unfold parse_member.
  apply (reads_weaken (1 + 0) (skip v));
    [apply skip_suffix|pose proof (suffix_le _ _ (skip_suffix v)); lia|].
  apply reads_bind; [apply parse_string_reads|].
  intros child rest _ Hs Hl. pose proof (suffix_le _ _ (skip_suffix v)).
  pose proof (suffix_le _ _ (skip_suffix rest)).
  destruct (ceq_spec (deref (skip rest)) ":") as [Hc|]; simpl; [|apply skip_suffix].
  destruct (deref_cons (skip rest) ":") as [w Hw]; [done|done|]. rewrite Hw in *. simpl in *.
  assert (w `suffix_of` rest) as Hwr.
  { trans (skip rest); [rewrite Hw; by exists [":"%char]|apply skip_suffix]. }
  pose proof (suffix_le _ _ (skip_suffix w)).
  apply (reads_weaken (0 + 0) (skip w)); [trans w; [apply skip_suffix|done]|lia|].
  apply (reads_bind _ _ 0).
  - apply (reads_weaken 1 (skip w)); [done|lia|]. apply IH. lia.
  - intros x rest' _ _ _. split; [apply skip_suffix|].
    pose proof (suffix_le _ _ (skip_suffix rest')). lia.
Qed.

(** The two loops, given that the values they read do. *)
Lemma parse_array_loop_reads fuel :
  (∀ f, (f < fuel)%nat → value_reads f) → ∀ item chain v,
  (2 * length v + 1 ≤ fuel)%nat → reads 1 v (parse_array_loop fuel item chain v).
Proof.
  induction fuel as [|f IH]; intros Hv item chain v Hf; [lia|]. cbn [parse_array_loop].
  destruct (ceq_spec (deref v) ",") as [Hc|_].
  - destruct (deref_cons v ",") as [r ->]; [done..|]. cbn [next length] in *.
    pose proof (suffix_le _ _ (skip_suffix r)).
    apply (reads_weaken (1 + 0) (skip r));
      [trans r; [apply skip_suffix|by apply suffix_cons_r]|simpl; lia|].
    apply reads_bind; [apply Hv; lia|]. intros x rest _ _ ?.
    pose proof (suffix_le _ _ (skip_suffix rest)).
    apply (reads_weaken 1 (skip rest)); [apply skip_suffix|lia|].
    apply IH; [|lia]. intros g ?. apply Hv. lia.
  - destruct (ceq_spec (deref v) "]") as [Hc|_]; [|by simpl].
    destruct (deref_cons v "]") as [r ->]; [done..|]. simpl.
    split; [by apply suffix_cons_r|simpl; lia].
Qed.

Lemma parse_object_loop_reads fuel :
  (∀ f, (f < fuel)%nat → value_reads f) → ∀ item chain v,
  (2 * length v + 1 ≤ fuel)%nat → reads 1 v (parse_object_loop fuel item chain v).
Proof.
  induction fuel as [|f IH]; intros Hv item chain v Hf; [lia|]. cbn [parse_object_loop].
  destruct (ceq_spec (deref v) ",") as [Hc|_].
  - destruct (deref_cons v ",") as [r ->]; [done..|]. cbn [next length] in *.
    apply (reads_weaken (1 + 0) r); [by apply suffix_cons_r|simpl; lia|].
    apply reads_bind; [apply parse_member_reads; [apply Hv|]; lia|]. intros x rest _ _ ?.
    apply (reads_weaken 1 rest); [done|lia|].
    apply IH; [|lia]. intros g ?. apply Hv. lia.
  - destruct (ceq_spec (deref v) "}") as [Hc|_]; [|by simpl].
    destruct (deref_cons v "}") as [r ->]; [done..|]. simpl.
    split; [by apply suffix_cons_r|simpl; lia].
Qed.

Lemma parse_array_reads fuel :
  (∀ f, (f < fuel)%nat → value_reads f) → ∀ item v,
  (2 * length v + 1 ≤ fuel)%nat → reads 1 v (parse_array fuel item v).
Proof.
  intros Hv item v Hf. destruct fuel as [|f]; [lia|]. cbn [parse_array].
  destruct (ceq_spec (deref v) "[") as [Hc|_]; simpl; [|done].
  destruct (deref_cons v "[") as [r ->]; [done..|]. cbn [next length] in *.
  pose proof (suffix_le _ _ (skip_suffix r)). pose proof (suffix_le _ _ (skip_suffix (skip r))).
  destruct (ceq_spec (deref (skip r)) "]") as [Hc2|_].
  - split; [|simpl; rewrite length_next; lia].
    trans (skip r); [apply next_suffix|]. trans r; [apply skip_suffix|by apply suffix_cons_r].
  - apply (reads_weaken (1 + 0) (skip (skip r))); [|simpl; lia|].
    { trans (skip r); [apply skip_suffix|]. trans r; [apply skip_suffix|by apply suffix_cons_r]. }
    apply reads_bind; [apply Hv; lia|]. intros x rest _ _ ?.
    pose proof (suffix_le _ _ (skip_suffix rest)).
    apply (reads_weaken 1 (skip rest)); [apply skip_suffix|lia|].
    apply parse_array_loop_reads; [|lia]. intros g ?. apply Hv. lia.
Qed.

Lemma parse_object_reads fuel :
  (∀ f, (f < fuel)%nat → value_reads f) → ∀ item v,
  (2 * length v + 1 ≤ fuel)%nat → reads 1 v (parse_object fuel item v).
Proof.
  intros Hv item v Hf. destruct fuel as [|f]; [lia|]. cbn [parse_object].
  destruct (ceq_spec (deref v) "{") as [Hc|_]; simpl; [|done].
  destruct (deref_cons v "{") as [r ->]; [done..|]. cbn [next length] in *.
  pose proof (suffix_le _ _ (skip_suffix r)).
  destruct (ceq_spec (deref (skip r)) "}") as [Hc2|_].
  - split; [|simpl; rewrite length_next; lia].
    trans (skip r); [apply next_suffix|]. trans r; [apply skip_suffix|by apply suffix_cons_r].
  - apply (reads_weaken (1 + 0) (skip r)); [|simpl; lia|].
    { trans r; [apply skip_suffix|by apply suffix_cons_r]. }
    apply reads_bind; [apply parse_member_reads; [apply Hv|]; lia|]. intros x rest _ _ ?.
    apply (reads_weaken 1 rest); [done|lia|].
    apply parse_object_loop_reads; [|lia]. intros g ?. apply Hv. lia.
Qed.

Lemma starts_with_length p v : starts_with p v = true → (length p ≤ length v)%nat.
Proof. intros [r ->]%starts_with_spec. rewrite length_app. lia. Qed.

Lemma parse_value_reads fuel : value_reads fuel.
Proof.
  induction fuel as [fuel IH] using lt_wf_ind. intros item v Hf.
  destruct fuel as [|f]; [lia|]. cbn [parse_value].
  assert (∀ p i, starts_with p v = true → (0 < length p)%nat →
    reads 1 v (Ret (i, drop (length p) v) : exec text (cJsonDap * text))) as Hlit.
  { intros p i Hp%starts_with_length Hl. split; [apply drop_suffix|]. rewrite length_drop. lia. }
  case_match eqn:H1; [by apply (Hlit "null"); [|simpl; lia]|].
  case_match eqn:H2; [by apply (Hlit "false"); [|simpl; lia]|].
  case_match eqn:H3; [by apply (Hlit "true"); [|simpl; lia]|].
  case_match; [apply parse_string_reads|].
  case_match; [by apply parse_number_reads|].
  case_match; [apply parse_array_reads; [|lia]; intros; apply IH; lia|].
  case_match; [apply parse_object_reads; [|lia]; intros; apply IH; lia|].
  by simpl.
Qed.

(** Enough fuel: more of it does not change the result. *)
Lemma parse_member_mono f g v :
  (∀ item w r, parse_value f item w = r → r ≠ NoFuel → parse_value g item w = r) →
  ∀ r, parse_member (parse_value f) v = r → r ≠ NoFuel → parse_member (parse_value g) v = r.
Proof.
  intros IH r. unfold parse_member. destruct (parse_string _ _) as [[c w]|e| |]; simpl; try done.
  case_match; [done|]. destruct (parse_value f _ _) as [[x rest]|e| |] eqn:Hp; simpl;
    intros <- Hr; try done; rewrite (IH _ _ _ Hp); done.
Qed.

Lemma parse_mono f :
  (∀ g item v r, (f ≤ g)%nat → parse_value f item v = r → r ≠ NoFuel → parse_value g item v = r) ∧
  (∀ g item v r, (f ≤ g)%nat → parse_array f item v = r → r ≠ NoFuel → parse_array g item v = r) ∧
  (∀ g item l v r, (f ≤ g)%nat →
     parse_array_loop f item l v = r → r ≠ NoFuel → parse_array_loop g item l v = r) ∧
  (∀ g item v r, (f ≤ g)%nat → parse_object f item v = r → r ≠ NoFuel → parse_object g item v = r) ∧
  (∀ g item l v r, (f ≤ g)%nat →
     parse_object_loop f item l v = r → r ≠ NoFuel → parse_object_loop g item l v = r).
Proof.
  induction f as [|f (IHv & IHa & IHal & IHo & IHol)]; [repeat split; by intros * _ <-|].
  assert (∀ A B (m m' : exec text A) (k k' : A → exec text B) r,
    (m ≠ NoFuel → m' = m) → (∀ x, k x ≠ NoFuel → k' x = k x) →
    exec_bind m k = r → r ≠ NoFuel → exec_bind m' k' = r) as Hbind.
  { intros A B m m' k k' r Hm Hk <- Hr. destruct m; simpl in *; try done;
      rewrite Hm by done; simpl; auto. }
  repeat split; intros [|g]; intros * Hfg; try lia; cbn [parse_value parse_array parse_array_loop
    parse_object parse_object_loop]; assert (f ≤ g)%nat as Hfg' by lia.
  - repeat (case_match; [done|]). repeat (case_match; [by eauto|]). done.
  - repeat (case_match; [done|]). apply Hbind; [intros; by eapply IHv|].
    intros [x w] ?. by eapply IHal.
  - case_match; [|done]. apply Hbind; [intros; by eapply IHv|].
    intros [x w] ?. by eapply IHal.
  - repeat (case_match; [done|]). apply Hbind; [intros; by apply (parse_member_mono f g); [intros; eapply IHv|..]|].
    intros [x w] ?. by eapply IHol.
  - case_match; [|done]. apply Hbind; [intros; by apply (parse_member_mono f g); [intros; eapply IHv|..]|].
    intros [x w] ?. by eapply IHol.
Qed.

Lemma parse_value_mono f g item v r : (f ≤ g)%nat →
  parse_value f item v = r → r ≠ NoFuel → parse_value g item v = r.
Proof. intros. eapply (proj1 (parse_mono f)); eauto. Qed.

Lemma parse_member_le f g v x : (f ≤ g)%nat →
  parse_member (parse_value f) v = Ret x → parse_member (parse_value g) v = Ret x.
Proof.
  intros Hfg Hf. apply (parse_member_mono f); [|done..].
  intros item w r Hr Hn. by apply (parse_value_mono f).
Qed.

(** The fuel of [cJSON_Parse] gives what any fuel gives. *)
Lemma parse_enough F item value x : parse_value F item value = Ret x →
  parse_value (parse_fuel value) item value = Ret x.
Proof.
  intros Hp. pose proof (parse_value_reads (parse_fuel value) item value) as Hreads.
  specialize (Hreads ltac:(unfold parse_fuel; lia)).
  assert (parse_value (parse_fuel value) item value ≠ NoFuel) as Hf.
  { intros E. by rewrite E in Hreads. }
  pose proof (parse_value_mono _ _ _ _ _ (Nat.le_max_l F (parse_fuel value)) Hp) as E1.
  pose proof (parse_value_mono _ _ _ _ _ (Nat.le_max_r F (parse_fuel value)) eq_refl Hf) as E2.
  rewrite E1 in E2 by done. by rewrite <- E2.
Qed.
End Values.
