(* ===== verification/CJsonRoundTrip.v ===== *)
(** * cJSON.cpp: the JSON value of a tree, and printing followed by parsing.

    [json] is the abstract value, [value_of] the value of a tree ([None] for the trees that
    have no text: an unset string, a name that is not set, a number that is not an [int]).
    Printing a tree that has a value and parsing the text gives a tree with the same value,
    in both formats. *)
From S2P Require Import Prelude.
From S2P Require Import Double.
From S2P Require Import CJson.
From S2P Require Import CJsonPrint.
From S2P Require Import CJsonParse.
Local Open Scope Z_scope.

Inductive json : Type :=
| JNull
| JBool (b : bool)
| JInt (n : Z)
| JString (s : text)
| JArray (l : list json)
| JObject (l : list (text * json)).

#[export] Instance spec_float_eq_dec : EqDecision double.
Proof. solve_decision. Defined.

Fixpoint all_some {A} (l : list (option A)) : option (list A) :=
  match l with
  | [] => Some []
  | Some x :: r => cons x <$> all_some r
  | None :: _ => None
  end.

Definition c_text (s : option text) : option text :=
  match s with Some s => if no_nul s then Some s else None | None => None end.

Definition named {A} (n : option text) (v : option A) : option (text * A) :=
  match c_text n, v with Some n, Some v => Some (n, v) | _, _ => None end.

Fixpoint value_of (t : cJsonDap) : option json :=
  let ty := Z.land (type t) 255 in
  if ty =? cJsonDap_Null then Some JNull
  else if ty =? cJsonDap_False then Some (JBool false)
  else if ty =? cJsonDap_True then Some (JBool true)
  else if ty =? cJsonDap_Number then
    if is_int (valueint t) && bool_decide (valuedouble t = of_int (valueint t))
    then Some (JInt (valueint t)) else None
  else if ty =? cJsonDap_String then JString <$> c_text (valuestring t)
  else if ty =? cJsonDap_Array then JArray <$> all_some (map value_of (child t))
  else if ty =? cJsonDap_Object then
    JObject <$> all_some (map (λ c, named (item_string c) (value_of c)) (child t))
  else None.

(** The type of a node is one of the seven, only a container has children, and the elements
    of an array have no name. *)
Definition unnamed (t : cJsonDap) : bool := if item_string t is None then true else false.

Fixpoint plain (t : cJsonDap) : bool :=
  (0 <=? type t) && (type t <=? 6) &&
  (if type t =? cJsonDap_Array then forallb (λ c, unnamed c && plain c) (child t)
   else if type t =? cJsonDap_Object then forallb plain (child t)
   else if child t is [] then true else false).

(** [t] is a plain tree with the value [v]. *)
Definition denotes (t : cJsonDap) (v : json) : Prop := plain t = true ∧ value_of t = Some v.

Lemma all_some_Forall2 {A B} (f : A → option B) l vs :
  all_some (map f l) = Some vs ↔ Forall2 (λ x v, f x = Some v) l vs.
Proof.
  revert vs; induction l as [|x l IH]; intros vs; simpl.
  - split; [intros [= <-]; constructor|intros H; by inversion H].
  - destruct (f x) as [y|] eqn:Hx.
    + split.
      * intros (vs' & Hl & ->)%fmap_Some. constructor; [done|]. by apply IH.
      * intros H; inversion H; simplify_eq/=. apply fmap_Some. eexists; split; [|done].
        by apply IH.
    + split; [done|intros H; inversion H; congruence].
Qed.

(** A member of an object: its name and its value. *)
Definition member_denotes (t : cJsonDap) (m : text * json) : Prop :=
  item_string t = Some m.1 ∧ no_nul m.1 = true ∧ denotes t m.2.

Lemma named_Some {A} n (v : option A) m x : named n v = Some (m, x) ↔
  n = Some m ∧ no_nul m = true ∧ v = Some x.
Proof.
  unfold named, c_text. destruct n as [n|]; [|split; [done|by intros (? & _)]].
  destruct (no_nul n) eqn:E, v; split; intros Hm; destruct_and?; simplify_eq; try done;
    congruence.
Qed.

(** An element of an array. *)
Definition element_denotes (t : cJsonDap) (v : json) : Prop := item_string t = None ∧ denotes t v.

Lemma forallb_Forall2 {A B} (R : A → B → Prop) (f : A → bool) l vs :
  (∀ t v, R t v → f t = true) → Forall2 R l vs → forallb f l = true.
Proof. intros HR. induction 1 as [|t v l vs Ht _ IH]; [done|]. simpl. by rewrite (HR _ _ Ht). Qed.

Lemma denotes_array item ts vs : type item = cJsonDap_Array → child item = ts →
  Forall2 element_denotes ts vs → denotes item (JArray vs).
Proof.
  intros Hty <- Hf. split.
  - destruct item; simpl in *; subst. simpl. apply (forallb_Forall2 element_denotes _ _ vs); [|done].
    intros t v (Hn & Hp & _). unfold unnamed. by rewrite Hn.
  - destruct item; simpl in *; subst. simpl. apply fmap_Some. eexists; split; [|done].
    apply all_some_Forall2. revert Hf. apply Forall2_impl. by intros ? ? (_ & _ & ?).
Qed.

Lemma denotes_object item ts ms : type item = cJsonDap_Object → child item = ts →
  Forall2 member_denotes ts ms → denotes item (JObject ms).
Proof.
  intros Hty <- Hf. split.
  - destruct item; simpl in *; subst. simpl.
    by apply (forallb_Forall2 member_denotes _ _ ms); [intros ? ? (_ & _ & ? & _)|].
  - destruct item; simpl in *; subst. simpl. apply fmap_Some. eexists; split; [|done].
    apply all_some_Forall2. revert Hf. apply Forall2_impl.
    intros t [n v] (Hn & Hnul & _ & Hv). by apply named_Some.
Qed.

(** ** Strings *)

(** What the escape sequence of one character is read back as. *)
Lemma unescape_char c f uc uc2 more : c ≠ NUL → ∃ uc',
  unescape (S f) uc uc2 (escape_char c ++ more)
  = let* (out, p) := unescape f uc' uc2 more in Ret (c :: out, p).
Proof.
  intros Hc. destruct c as [[] [] [] [] [] [] [] []];
    try (by exists uc); try done;
    match goal with |- context [escape_char ?c] =>
      exists (Some (code c)); simpl; vm_compute code; reflexivity end.
Qed.

Lemma unescape_escape s f uc uc2 rest : no_nul s = true → (length s < f)%nat →
  unescape f uc uc2 (escape_all s ++ [DQUOTE] ++ rest) = Ret (s, DQUOTE :: rest).
Proof.
  revert f uc uc2; induction s as [|c s IH]; intros f uc uc2 Hs Hf;
    (destruct f as [|f]; [simpl in *; lia|]); [done|].
  simpl in Hs. apply andb_true_iff in Hs as [Hc Hs].
  cbn [escape_all]. rewrite <- app_assoc.
  destruct (unescape_char c f uc uc2 (escape_all s ++ [DQUOTE] ++ rest)) as [uc' ->].
  { intros ->. done. }
  rewrite IH; [done|done|simpl in Hf; lia].
Qed.

(** The length the first pass counts is enough. *)
Lemma scan_len_char c more n : c ≠ NUL → scan_len more = Some n →
  ∃ m, scan_len (escape_char c ++ more) = Some m ∧ (S n ≤ m)%nat.
Proof.
  intros Hc Hn. destruct c as [[] [] [] [] [] [] [] []]; try done; simpl; rewrite Hn; simpl;
    eexists; (split; [done|lia]).
Qed.

Lemma scan_len_escape s rest : no_nul s = true →
  ∃ n, scan_len (escape_all s ++ [DQUOTE] ++ rest) = Some n ∧ (length s ≤ n)%nat.
Proof.
  induction s as [|c s IH]; intros Hs; [by exists 0%nat|].
  simpl in Hs. apply andb_true_iff in Hs as [Hc Hs].
  destruct IH as (n & Hn & Hl); [done|]. cbn [escape_all]. rewrite <- app_assoc.
  destruct (scan_len_char c (escape_all s ++ [DQUOTE] ++ rest) n) as (m & -> & Hm); [by intros ->|exact Hn|].
  exists m. split; [done|simpl; lia].
Qed.

Lemma parse_string_escape item s rest : no_nul s = true →
  parse_string item ([DQUOTE] ++ escape_all s ++ [DQUOTE] ++ rest)
  = Ret (set_type cJsonDap_String (set_valuestring (Some s) item), rest).
Proof.
  intros Hs. unfold parse_string. cbn [app deref next]. rewrite ceq_refl. cbn [negb].
  destruct (scan_len_escape s rest Hs) as (n & Hn & Hl). change (?a ++ DQUOTE :: rest) with (a ++ [DQUOTE] ++ rest).
  rewrite Hn, unescape_escape; [|done|].
  - simpl. by destruct (Nat.ltb_spec n (length s)); [lia|].
  - simpl. rewrite length_app. simpl.
    assert (length s ≤ length (escape_all s))%nat; [|lia].
    clear. induction s as [|c s IH]; simpl; [lia|]. rewrite length_app, length_escape_char. lia.
Qed.

(** ** Numbers *)

(** What may follow a value: not a character that would continue a number. *)
Definition stops (rest : text) : bool :=
  let c := deref rest in
  negb (is_digit c || (c =c ".") || (c =c "e") || (c =c "E")).

Lemma digits_value_le a l : 0 ≤ a → forallb is_digit l = true → a ≤ digits_value a l.
Proof.
  revert a; induction l as [|c l IH]; intros a Ha Hl; [unfold digits_value; simpl; lia|].
  simpl in Hl. apply andb_true_iff in Hl as [Hc Hl].
  assert (0 ≤ digit_value c).
  { unfold is_digit in Hc. unfold digit_value. lia. }
  change (digits_value a (c :: l)) with (digits_value (a * 10 + digit_value c) l).
  trans (a * 10 + digit_value c); [lia|]. apply IH; [lia|done].
Qed.

Lemma read_digits_value l a rest : forallb is_digit l = true → 0 ≤ a →
  digits_value a l < 2 ^ 53 → is_digit (deref rest) = false →
  read_digits (of_int a) (l ++ rest) = (of_int (digits_value a l), rest).
Proof.
  revert a; induction l as [|c l IH]; intros a Hl Ha Hb Hr.
  - destruct rest as [|c r]; [done|]. simpl in *. by rewrite Hr.
  - simpl in Hl. apply andb_true_iff in Hl as [Hc Hl]. simpl. rewrite Hc.
    assert (0 ≤ digit_value c < 10).
    { unfold is_digit in Hc. unfold digit_value. lia. }
    change (digits_value a (c :: l)) with (digits_value (a * 10 + digit_value c) l) in *.
    assert (a * 10 + digit_value c ≤ digits_value (a * 10 + digit_value c) l)
      by (apply digits_value_le; [lia|done]).
    unfold push_digit, dten. rewrite dmul_int, dadd_int by lia. apply IH; done || lia.
Qed.

Section Platform.
Context `{Platform}.

(** The end of [parse_number] when no fraction and no exponent follow. *)
Lemma number_tail s n : - 2 ^ 53 < s * n < 2 ^ 53 → dmul (of_int s) (of_int n) = of_int (s * n) →
  dmul (dmul (of_int s) (of_int n)) (pow dten (dadd dzero (of_int (0 * 1)))) = of_int (s * n).
Proof. intros Hb ->. change (dadd dzero (of_int (0 * 1))) with dzero. unfold dzero. rewrite pow_zero. by apply dmul_one_int. Qed.

Lemma deref_digit_char d l : (0 ≤ d < 10) → is_digit (deref (digit_char d :: l)) = true.
Proof. apply digit_char_is_digit. Qed.

Lemma digit_char_ceq d c : 0 ≤ d < 10 → is_digit c = false → (digit_char d =c c) = false.
Proof. intros Hd Hc. apply ceq_neq. intros <-. rewrite digit_char_is_digit in Hc; done. Qed.

Lemma digit_char_nonzero d : 0 < d < 10 → (digit_char d =c "0") = false.
Proof.
  intros Hd. apply ceq_neq. intros E. apply (f_equal digit_value) in E.
  rewrite digit_value_char in E by lia. vm_compute in E. lia.
Qed.

Lemma parse_unsigned_dec item sg m z rest : 0 ≤ m < 2 ^ 31 + 1 → is_int z = true →
  z = sg * m → dmul (of_int sg) (of_int m) = of_int z → stops rest = true →
  parse_unsigned item (of_int sg) (dec_nat m ++ rest)
  = Ret (set_type cJsonDap_Number (set_number z (of_int z) item), rest).
Proof.
  intros Hm Hz -> Hmul Hs. pose proof Hz as Hb. apply is_int_spec in Hb.
  unfold INT_MIN, INT_MAX in Hb. unfold stops in Hs. apply negb_true_iff in Hs.
  rewrite !orb_false_iff in Hs. destruct Hs as [[[Hd Hdot] He] HE].
  unfold parse_unsigned.
  assert (∃ v, (if deref (dec_nat m ++ rest) =c "0" then next (dec_nat m ++ rest)
                else dec_nat m ++ rest) = v ∧
    (if is_digit (deref v) && negb (deref v =c "0") then read_digits dzero v else (dzero, v))
    = (of_int m, rest)) as (v & Hv & Hread).
  { eexists; split; [done|]. destruct (decide (m = 0)) as [->|]; [by simpl; rewrite Hd|].
    destruct (dec_nat_head m) as (d & l & Hl & Hd0); [lia|].
    pose proof (dec_nat_value m) as Hv. pose proof (dec_nat_is_digit m) as Hdig.
    rewrite Hl in Hv, Hdig |- *. cbn [app deref]. rewrite digit_char_nonzero by lia.
    cbn [deref]. rewrite digit_char_nonzero, digit_char_is_digit by lia. cbn [andb negb].
    change (digit_char d :: l ++ rest) with ((digit_char d :: l) ++ rest).
    change dzero with (of_int 0).
    rewrite read_digits_value; [|apply Hdig; lia|lia|rewrite Hv; lia|done].
    by rewrite Hv by lia. }
  cbv zeta. rewrite Hv, Hread, Hdot. cbn [andb]. rewrite He, HE. cbn [orb exec_bind].
  rewrite number_tail by (done || lia). by rewrite to_int_of_int.
Qed.

Lemma parse_number_dec item z rest : is_int z = true → stops rest = true →
  parse_number item (dec z ++ rest)
  = Ret (set_type cJsonDap_Number (set_number z (of_int z) item), rest).
Proof.
  intros Hz Hs. pose proof Hz as Hb. apply is_int_spec in Hb. unfold INT_MIN, INT_MAX in Hb.
  unfold parse_number, dec. destruct (Z.ltb_spec z 0).
  - cbn [app deref next]. rewrite ceq_refl. apply parse_unsigned_dec; try done; try lia.
    rewrite dmul_neg_int by lia. f_equal. lia.
  - assert ((deref (dec_nat z ++ rest) =c "-") = false) as ->.
    { destruct (decide (z = 0)) as [->|]; [done|].
      destruct (dec_nat_head z) as (d & l & -> & Hd0); [lia|]. cbn [app deref].
      apply digit_char_ceq; [lia|done]. }
    apply parse_unsigned_dec; try done; try lia. rewrite dmul_int by lia. f_equal. lia.
Qed.
End Platform.

(** ** Values *)

Lemma skip_visible c r : 32 < code c → skip (c :: r) = c :: r.
Proof. intros. simpl. by destruct (Z.leb_spec (code c) 32); [lia|]. Qed.

Lemma skip_idem t : skip (skip t) = skip t.
Proof.
  induction t as [|c t IH]; [done|]. simpl.
  destruct ((code c <=? 32) && negb (c =c NUL)) eqn:Hc; [done|]. simpl. by rewrite Hc.
Qed.

Lemma skip_indent n t : skip (indent n ++ t) = skip t.
Proof. induction n; [done|]. simpl. done. Qed.

Definition visible (out : text) : Prop := ∃ c r, out = c :: r ∧ 32 < code c ∧ c ≠ "]"%char.

Lemma skip_out out x : visible out → skip (out ++ x) = out ++ x.
Proof. intros (c & r & -> & ? & _). by apply skip_visible. Qed.

Section RoundTrip.
Context `{Platform}.

(** [out] is a text that is parsed as a tree with the value [v], in front of any text that
    does not continue a number. *)
Definition reads_as (out : text) (v : json) : Prop :=
  ∀ item rest, child item = [] → stops rest = true →
  ∃ F t', parse_value F item (out ++ rest) = Ret (t', rest) ∧ denotes t' v
    ∧ item_string t' = item_string item.

Definition printed (out : text) (v : json) : Prop :=
  no_nul out = true ∧ visible out ∧ reads_as out v.

(** Literals. *)
Lemma printed_null : printed (lit "null") JNull.
Proof.
  split; [done|]. split; [by do 2 eexists|]. intros item rest Hi Hs.
  exists 1%nat. eexists. repeat split. by destruct item; simpl in *; subst.
Qed.

Lemma printed_false : printed (lit "false") (JBool false).
Proof.
  split; [done|]. split; [by do 2 eexists|]. intros item rest Hi Hs.
  exists 1%nat. eexists. repeat split. by destruct item; simpl in *; subst.
Qed.

Lemma printed_true : printed (lit "true") (JBool true).
Proof.
  split; [done|]. split; [by do 2 eexists|]. intros item rest Hi Hs.
  exists 1%nat. eexists. repeat split. by destruct item; simpl in *; subst.
Qed.

(** Numbers. *)
Lemma dec_head z : ∃ c r, dec z = c :: r ∧ (c =c "-") || is_digit c = true.
Proof.
  unfold dec. destruct (Z.ltb_spec z 0); [by do 2 eexists|].
  destruct (decide (z = 0)) as [->|]; [by do 2 eexists|].
  destruct (dec_nat_head z) as (d & l & -> & Hd); [lia|]. exists (digit_char d), l.
  by rewrite digit_char_is_digit, orb_true_r by lia.
Qed.

Lemma no_nul_digits l : forallb is_digit l = true → no_nul l = true.
Proof.
  induction l as [|c l IH]; simpl; [done|]. rewrite !andb_true_iff. intros [Hc Hl].
  split; [|auto]. destruct (ceq_spec c NUL) as [->|]; done.
Qed.

Lemma no_nul_dec z : no_nul (dec z) = true.
Proof.
  unfold dec. destruct (Z.ltb_spec z 0); simpl; apply no_nul_digits, dec_nat_is_digit; lia.
Qed.

Lemma numeric_head c : (c =c "-") || is_digit c = true → 32 < code c ∧ c ≠ "]"%char ∧
  c ≠ DQUOTE ∧ c ≠ "n"%char ∧ c ≠ "f"%char ∧ c ≠ "t"%char.
Proof.
  rewrite orb_true_iff. intros [Hc|Hc].
  - by apply ceq_true in Hc as ->.
  - unfold is_digit in Hc. split; [lia|].
    repeat split; intros ->; vm_compute in Hc; done.
Qed.

Lemma printed_int n : is_int n = true → printed (dec n) (JInt n).
Proof.
  intros Hn. destruct (dec_head n) as (c & r & Hd & Hc).
  pose proof (numeric_head c Hc) as (? & ? & ? & ? & ? & ?).
  split; [apply no_nul_dec|]. split; [rewrite Hd; by exists c, r|].
  intros item rest Hi Hs. exists 1%nat. eexists. split; [|split].
  - cbn [parse_value].
    assert (∀ p ps, c ≠ p → starts_with (p :: ps) (dec n ++ rest) = false) as Hsw.
    { intros p ps Hp. rewrite Hd. simpl. by rewrite ceq_neq. }
    unfold lit; simpl list_ascii_of_string. rewrite !Hsw by done.
    rewrite Hd. cbn [app deref]. rewrite ceq_neq, Hc by done.
    change (c :: r ++ rest) with ((c :: r) ++ rest). rewrite <- Hd.
    by apply parse_number_dec.
  - split; [by destruct item; simpl in *; subst|].
    cbn. rewrite Hn. by rewrite bool_decide_true.
  - done.
Qed.

Lemma print_number_int item : is_int (valueint item) = true →
  valuedouble item = of_int (valueint item) → print_number item = Ret (dec (valueint item)).
Proof.
  intros Hz Hd. pose proof Hz as Hb. apply is_int_spec in Hb. unfold INT_MIN, INT_MAX in Hb.
  unfold print_number. rewrite Hd, dsub_self by lia.
  rewrite (dle_int (valueint item) INT_MAX), (dle_int INT_MIN) by (unfold INT_MIN, INT_MAX; lia).
  simpl. apply into_Ret. pose proof (length_dec_int _ Hz). lia.
Qed.

(** Strings. *)
Lemma no_nul_escape_char c : c ≠ NUL → no_nul (escape_char c) = true.
Proof. intros Hc. by destruct c as [[] [] [] [] [] [] [] []]. Qed.

Lemma no_nul_escape s : no_nul s = true → no_nul (escape_all s) = true.
Proof.
  induction s as [|c s IH]; [done|]. simpl. rewrite andb_true_iff. intros [Hc Hs].
  rewrite no_nul_app, IH, no_nul_escape_char; [done| |done]. by intros ->.
Qed.

Lemma printed_string s : no_nul s = true →
  printed ([DQUOTE] ++ escape_all s ++ [DQUOTE]) (JString s).
Proof.
  intros Hs. split; [by rewrite !no_nul_app, no_nul_escape|].
  split; [by do 2 eexists|]. intros item rest Hi Hst. exists 1%nat. eexists. split; [|split].
  - rewrite <- !app_assoc. cbn -[parse_string]. by apply (parse_string_escape item s rest).
  - split; [by destruct item; simpl in *; subst|]. cbn. by rewrite Hs.
  - done.
Qed.

(** The parser at an opening bracket. *)
Lemma parse_value_bracket F item r :
  parse_value (S (S F)) item ("["%char :: r)
  = let value := skip r in
    if deref value =c "]" then Ret (set_type cJsonDap_Array item, next value)
    else let* (child, value) := parse_value F cJSON_New_Item (skip value) in
         parse_array_loop F (set_type cJsonDap_Array item) [child] (skip value).
Proof. reflexivity. Qed.

Lemma parse_value_brace F item r :
  parse_value (S (S F)) item ("{"%char :: r)
  = let value := skip r in
    if deref value =c "}" then Ret (set_type cJsonDap_Object item, next value)
    else let* (child, value) := parse_member (parse_value F) value in
         parse_object_loop F (set_type cJsonDap_Object item) [child] value.
Proof. reflexivity. Qed.

(** Arrays: the loop on the elements after the first one. *)
Definition array_tail (fmt : bool) (es : list text) : text :=
  concat (map (λ e, "," ++ (if fmt then " " else "") ++ e) es).

Lemma compose_array_cons fmt e es : compose_array fmt (e :: es) = e ++ array_tail fmt es.
Proof.
  revert e; induction es as [|e' es IH]; intros e; [simpl; by rewrite app_nil_r|].
  change (compose_array fmt (e :: e' :: es))
    with (e ++ "," ++ (if fmt then " " else "") ++ compose_array fmt (e' :: es)).
  rewrite IH. unfold array_tail. simpl. by rewrite <- !app_assoc.
Qed.

Lemma stops_array_tail fmt es rest : stops (array_tail fmt es ++ "]" ++ rest) = true.
Proof. by destruct es. Qed.

Lemma skip_array_tail fmt es rest :
  skip (array_tail fmt es ++ "]" ++ rest) = array_tail fmt es ++ "]" ++ rest.
Proof. by destruct es. Qed.

Lemma parse_array_loop_tail fmt es vs : Forall2 (λ e v, visible e ∧ reads_as e v) es vs →
  ∀ item chain rest, ∃ F ts,
    parse_array_loop F item chain (array_tail fmt es ++ "]" ++ rest)
    = Ret (set_child (chain ++ ts) item, rest) ∧ Forall2 element_denotes ts vs.
Proof.
  induction 1 as [|e v es vs [Hvis He] Hes IH]; intros item chain rest.
  - exists 1%nat, []. simpl. by rewrite app_nil_r.
  - destruct (He cJSON_New_Item (array_tail fmt es ++ "]" ++ rest)) as (F1 & t & Hp & Hv & Hnm);
      [done|apply stops_array_tail|].
    destruct (IH item (chain ++ [t]) rest) as (F2 & ts & Hl & Hts).
    exists (S (Nat.max F1 F2)), (t :: ts). split; [|by constructor].
    change (array_tail fmt (e :: es))
      with (("," ++ (if fmt then " " else "") ++ e) ++ array_tail fmt es).
    rewrite <- !app_assoc. cbn [parse_array_loop app lit list_ascii_of_string deref next].
    rewrite ceq_refl.
    assert (skip ((if fmt then lit " " else lit "") ++ e ++ array_tail fmt es ++ "]" ++ rest)
            = e ++ array_tail fmt es ++ "]" ++ rest) as Hsk.
    { destruct fmt; exact (skip_out e _ Hvis). }
    change ("]"%char :: rest) with (lit "]" ++ rest).
    change [" "%char] with (lit " "). change (@nil ascii) with (lit "") at 1.
    rewrite Hsk, (parse_value_mono F1 _ _ _ _ (Nat.le_max_l _ _) Hp) by done.
    cbn [exec_bind]. rewrite skip_array_tail.
    destruct (parse_mono F2) as (_ & _ & Hmono & _).
    rewrite (Hmono _ _ _ _ _ (Nat.le_max_r _ _) Hl) by done. by rewrite <- app_assoc.
Qed.

Lemma printed_array fmt es vs : Forall2 printed es vs →
  printed ("[" ++ compose_array fmt es ++ "]") (JArray vs).
Proof.
  intros Hes. split; [|split; [by do 2 eexists|]].
  - rewrite !no_nul_app. simpl. rewrite andb_true_r. destruct es as [|e es]; [done|].
    rewrite compose_array_cons. unfold array_tail. rewrite no_nul_app.
    inversion Hes as [|? v ? vs' [He _] Hes']; subst. rewrite He. simpl. clear -Hes'.
    induction Hes' as [|e v es vs [He _] _ IH]; [done|].
    simpl. rewrite !no_nul_app, He. destruct fmt; simpl; exact IH.
  - intros item rest Hi Hst. destruct Hes as [|e v es vs (_ & Hvis & He) Hes].
    + exists 2%nat. eexists. split; [done|]. split; [|done].
      by apply (denotes_array _ []); [|done|constructor].
    + destruct (He cJSON_New_Item (array_tail fmt es ++ "]" ++ rest)) as (F1 & t & Hp & Hv & Hnm);
        [done|apply stops_array_tail|].
      destruct (parse_array_loop_tail fmt es vs) with
        (item := set_type cJsonDap_Array item) (chain := [t]) (rest := rest)
        as (F2 & ts & Hl & Hts).
      { revert Hes. apply Forall2_impl. intros ? ? (? & ? & ?). by split. }
      exists (S (S (Nat.max F1 F2))). eexists. split; [|split].
      * rewrite compose_array_cons, <- !app_assoc.
        destruct Hvis as (c & r & -> & Hc & Hc2). cbn [app lit list_ascii_of_string].
        rewrite parse_value_bracket. cbv zeta. rewrite !(skip_visible c) by done. cbn [deref]. rewrite ceq_neq by done.
        cbn [app] in Hp. change ("]"%char :: rest) with (lit "]" ++ rest).
        rewrite (parse_value_mono F1 _ _ _ _ (Nat.le_max_l _ _) Hp) by done.
        cbn [exec_bind]. rewrite skip_array_tail.
        destruct (parse_mono F2) as (_ & _ & Hmono & _).
        by rewrite (Hmono _ _ _ _ _ (Nat.le_max_r _ _) Hl).
      * eapply denotes_array; [done..|]. by constructor.
      * done.
Qed.

(** Objects: one member, then the loop on the members after the first one. *)
Definition blank (fmt : bool) : text := if fmt then [FMT_WHITESPACE_CHAR] else [].
Definition newline (fmt : bool) : text := if fmt then [LF] else [].
Definition indented (depth : nat) (fmt : bool) : text := if fmt then indent depth else [].
Definition quoted (n : text) : text := [DQUOTE] ++ escape_all n ++ [DQUOTE].

Lemma skip_indented depth fmt x : skip (indented depth fmt ++ x) = skip x.
Proof. destruct fmt; [apply skip_indent|done]. Qed.

Lemma skip_newline fmt x : skip (newline fmt ++ x) = skip x.
Proof. by destruct fmt. Qed.

Lemma skip_blank fmt x : skip (blank fmt ++ x) = skip x.
Proof. by destruct fmt. Qed.

Lemma parse_member_printed n v e fmt w tail : no_nul n = true → visible e → reads_as e v →
  skip w = quoted n ++ ":" ++ blank fmt ++ e ++ tail → stops tail = true →
  ∃ F t, parse_member (parse_value F) w = Ret (t, skip tail)
    ∧ member_denotes t (n, v).
Proof.
  intros Hn Hvis He Hw Ht.
  set (c := name_from_value (set_type cJsonDap_String (set_valuestring (Some n) cJSON_New_Item))).
  destruct (He c tail) as (F & t & Hp & Hv & Hs); [done..|].
  exists F, t. unfold parse_member. rewrite Hw. unfold quoted. rewrite <- !app_assoc.
  rewrite parse_string_escape by done. cbn [exec_bind]. fold c.
  change (skip (":" ++ ?x)) with (":" ++ x). cbn [app lit list_ascii_of_string deref next].
  rewrite ceq_refl. cbn [negb]. rewrite skip_blank, skip_out, Hp by done. split; [done|].
  split; [by rewrite Hs|done].
Qed.

Definition member_printed (e : text * text) (m : text * json) : Prop :=
  no_nul m.1 = true ∧ e.1 = quoted m.1 ∧ printed e.2 m.2.

(** The text behind a value of an object. *)
Definition object_tail (depth : nat) (fmt : bool) (es : list (text * text)) (close : text) : text :=
  (if es is [] then [] else lit ",") ++ newline fmt ++ compose_object depth fmt es ++ close.

Definition object_close (depth : nat) (fmt : bool) (rest : text) : text :=
  indented depth fmt ++ "}" ++ rest.

Lemma compose_object_cons d fmt n e es close :
  compose_object d fmt ((n, e) :: es) ++ close
  = indented d fmt ++ n ++ ":" ++ blank fmt ++ e ++ object_tail d fmt es close.
Proof.
  unfold object_tail, indented, blank, newline. cbn [compose_object].
  rewrite <- !app_assoc. done.
Qed.

Lemma stops_object_tail d fmt es d' rest :
  stops (object_tail d fmt es (object_close d' fmt rest)) = true.
Proof. unfold object_tail. destruct es, fmt; done. Qed.

Lemma skip_quoted n x : skip (quoted n ++ x) = quoted n ++ x.
Proof. done. Qed.

Lemma parse_object_loop_tail d d' fmt es ms : Forall2 member_printed es ms →
  ∀ item chain rest, ∃ F ts,
    parse_object_loop F item chain (skip (object_tail d fmt es (object_close d' fmt rest)))
    = Ret (set_child (chain ++ ts) item, rest)
    ∧ Forall2 member_denotes ts ms.
Proof.
  induction 1 as [|[nm e] [n v] es ms (Hn & Hnm & _ & Hvis & He) Hes IH]; intros item chain rest.
  - exists 1%nat, []. split; [|done]. unfold object_tail, object_close. cbn [app compose_object].
    rewrite skip_newline, skip_indented, app_nil_r. done.
  - simpl in Hn, Hnm, Hvis, He. subst nm.
    set (tail := object_tail d fmt es (object_close d' fmt rest)).
    destruct (parse_member_printed n v e fmt
      (newline fmt ++ compose_object d fmt ((quoted n, e) :: es) ++ object_close d' fmt rest) tail)
      as (F1 & t & Hp & Ht); [done..| |apply stops_object_tail|].
    { rewrite skip_newline, compose_object_cons, skip_indented. apply skip_quoted. }
    destruct (IH item (chain ++ [t]) rest) as (F2 & ts & Hl & Hts).
    exists (S (Nat.max F1 F2)), (t :: ts). split; [|by constructor].
    unfold object_tail at 1. cbn [app lit list_ascii_of_string].
    rewrite skip_visible by done. cbn [parse_object_loop app lit list_ascii_of_string deref next]. rewrite ceq_refl.
    rewrite (parse_member_le F1 _ _ _ (Nat.le_max_l _ _) Hp).
    cbn [exec_bind]. destruct (parse_mono F2) as (_ & _ & _ & _ & Hmono).
    rewrite (Hmono _ _ _ _ _ (Nat.le_max_r _ _) Hl) by done. by rewrite <- app_assoc.
Qed.

Lemma no_nul_indent n : no_nul (indent n) = true.
Proof. by induction n. Qed.

Lemma no_nul_compose_object d fmt es ms : Forall2 member_printed es ms →
  no_nul (compose_object d fmt es) = true.
Proof.
  induction 1 as [|[nm e] [n v] es ms (Hn & Hnm & He & _) _ IH]; [done|].
  simpl in Hn, Hnm, He. subst nm. cbn [compose_object]. unfold quoted.
  rewrite !no_nul_app, IH, He, no_nul_escape by done.
  destruct fmt, es; rewrite ?no_nul_indent; done.
Qed.

Lemma printed_object d fmt es ms : Forall2 member_printed es ms →
  printed ("{" ++ newline fmt ++ compose_object (S d) fmt es ++ indented d fmt ++ "}")
    (JObject ms).
Proof.
  intros Hes. split; [|split; [by do 2 eexists|]].
  - rewrite !no_nul_app, (no_nul_compose_object _ _ _ _ Hes).
    destruct fmt; simpl; rewrite ?no_nul_indent; done.
  - intros item rest Hi Hst. rewrite <- !app_assoc.
    change (indented d fmt ++ "}" ++ rest) with (object_close d fmt rest).
    destruct Hes as [|[nm e] [n v] es ms (Hn & Hnm & _ & Hvis & He) Hes].
    + exists 2%nat. eexists. cbn [compose_object app lit list_ascii_of_string].
      rewrite parse_value_brace. cbv zeta. rewrite skip_newline. unfold object_close.
      rewrite skip_indented. split; [done|]. split; [|done].
      by apply (denotes_object _ []); [|done|constructor].
    + simpl in Hn, Hnm, Hvis, He. subst nm.
      set (tail := object_tail (S d) fmt es (object_close d fmt rest)).
      destruct (parse_member_printed n v e fmt
        (quoted n ++ ":" ++ blank fmt ++ e ++ tail) tail)
        as (F1 & t & Hp & Ht); [done..|apply skip_quoted|apply stops_object_tail|].
      destruct (parse_object_loop_tail (S d) d fmt es ms Hes (set_type cJsonDap_Object item) [t] rest)
        as (F2 & ts & Hl & Hts).
      exists (S (S (Nat.max F1 F2))). eexists. split; [|split].
      * cbn [app lit list_ascii_of_string]. rewrite parse_value_brace. cbv zeta.
        rewrite skip_newline, compose_object_cons, skip_indented, skip_quoted.
        fold tail. cbn [deref quoted app]. rewrite ceq_neq by done.
        rewrite (parse_member_le F1 _ _ _ (Nat.le_max_l _ _) Hp).
        cbn [exec_bind]. destruct (parse_mono F2) as (_ & _ & _ & _ & Hmono).
        by rewrite (Hmono _ _ _ _ _ (Nat.le_max_r _ _) Hl).
      * eapply denotes_object; [done..|]. by constructor.
      * done.
Qed.

(** Printing: every tree that has a value is printed as a text of that value. *)
Lemma array_entries_printed rs vs : Forall2 (λ r v, ∃ out, r = Ret out ∧ printed out v) rs vs →
  ∃ es, array_entries rs = Ret es ∧ Forall2 printed es vs.
Proof.
  induction 1 as [|r v rs vs (out & -> & Hout) _ (es & Hes & Hf)]; [by exists []|].
  exists (out :: es). simpl. rewrite Hes. split; [done|by constructor].
Qed.

Lemma object_entries_printed (ms : list (option text * exec unit text)) vs :
  Forall2 (λ m v, m.1 = Some v.1 ∧ no_nul v.1 = true ∧ ∃ out, m.2 = Ret out ∧ printed out v.2)
    ms vs →
  ∃ es, object_entries ms = Ret es ∧ Forall2 member_printed es vs.
Proof.
  induction 1 as [|[n r] [n' v] ms vs (Hn & Hnul & out & Hr & Hout) _ (es & Hes & Hf)];
    [by exists []|].
  simpl in *. subst. exists ((quoted n', out) :: es).
  rewrite print_string_ptr_Some, c_str_id, Hes by done. split; [done|].
  constructor; [|done]. by split.
Qed.

Lemma print_value_printed t v depth fmt : value_of t = Some v →
  ∃ out, print_value t depth fmt = Ret out ∧ printed out v.
Proof.
  revert v depth; induction t as [ty vs vi vd name l IH] using cJsonDap_children_ind.
  intros v depth. cbn [value_of print_value type child valueint valuedouble valuestring].
  case_match; [intros [= <-]; eauto using printed_null|].
  case_match; [intros [= <-]; eauto using printed_false|].
  case_match; [intros [= <-]; eauto using printed_true|].
  case_match.
  { case_match eqn:Hn; [|done]. intros [= <-]. apply andb_true_iff in Hn as [Hn Hd].
    apply bool_decide_eq_true in Hd. eexists.
    rewrite print_number_int by done. split; [done|by apply printed_int]. }
  case_match.
  { unfold c_text. destruct vs as [s|]; [|done]. destruct (no_nul s) eqn:Hs; [|done].
    intros [= <-]. unfold print_string. cbn [valuestring].
    rewrite print_string_ptr_Some, c_str_id by done. eauto using printed_string. }
  case_match.
  { intros (vs' & Hl & ->)%fmap_Some. apply all_some_Forall2 in Hl.
    destruct (array_entries_printed (map (λ c, print_value c (S depth) fmt) l) vs')
      as (es & He & Hp).
    { apply Forall2_fmap_l. clear -IH Hl. induction Hl as [|c v l vs Hc Hl IHl]; [done|].
      inversion IH; subst. constructor; eauto. }
    rewrite (print_array_Ret fmt es _ He). eauto using printed_array. }
  case_match; [|done].
  intros (vs' & Hl & ->)%fmap_Some. apply all_some_Forall2 in Hl.
  destruct (object_entries_printed
    (map (λ c, (item_string c, print_value c (S depth) fmt)) l) vs') as (es & He & Hp).
  { apply Forall2_fmap_l. clear -IH Hl. induction Hl as [|c [n v] l vs Hc Hl IHl]; [done|].
    inversion IH; subst. constructor; [|eauto].
    apply named_Some in Hc as (? & ? & ?). simpl. repeat split; eauto. }
  rewrite (print_object_Ret depth fmt es _ He). eexists; split; [done|].
  by apply printed_object.
Qed.

(** [cJSON_Parse] reads a printed text back. *)
Lemma cJSON_Parse_printed out v : printed out v →
  ∃ t, cJSON_Parse out = Ret t ∧ element_denotes t v.
Proof.
  intros (Hnul & (c & r & Hc & Hvis & _) & Hr).
  destruct (Hr cJSON_New_Item []) as (F & t & Hp & Hv & Hnm); [done..|].
  exists t. split; [|by split]. unfold cJSON_Parse. rewrite c_str_id by done.
  rewrite Hc at 1 2. rewrite skip_visible by done. rewrite <- Hc. rewrite app_nil_r in Hp.
  by rewrite (parse_enough F _ _ _ Hp).
Qed.
End RoundTrip.
