(* ===== verification/CJsonBounds.v ===== *)
(** * cJSON.cpp: the buffers of the printer, and the texts that the parser accepts or reads past.

    The printer allocates before it writes: 21 and 64 bytes for a number, computed sizes for
    the rest.  [printable] says which numbers fit; the theorems give both sides. *)
From S2P Require Import Prelude.
From S2P Require Import Double.
From S2P Require Import CJson.
From S2P Require Import CJsonPrint.
From S2P Require Import CJsonParse.
Local Open Scope Z_scope.

(** ** The length of a number *)

(** A value that [double] holds: a significand of at most 53 bits. *)
Definition significand_ok (d : double) : bool :=
  match d with S754_finite _ m e => (Z.pos m <? 2 ^ 53) && (-1074 <=? e) && (e <=? 971) | _ => true end.

(** The magnitude is below [10 ^ 62].  The text of a NaN is the platform's. *)
Definition below_1e62 (d : double) : bool :=
  match d with
  | S754_finite _ m e => Z.pos m * 2 ^ Z.max e 0 <? 10 ^ 62 * 2 ^ Z.max (- e) 0
  | S754_nan => false
  | _ => true
  end.

Definition number_fits (t : cJsonDap) : bool :=
  is_int (valueint t) && significand_ok (valuedouble t) && below_1e62 (valuedouble t).

(** Every number of the tree. *)
Fixpoint printable (t : cJsonDap) : bool :=
  ((negb (Z.land (type t) 255 =? cJsonDap_Number)) || number_fits t) && forallb printable (child t).

Lemma div_round_even_le n d v : 0 < d → n ≤ v * d → div_round_even n d ≤ v.
Proof.
  intros Hd Hn. unfold div_round_even. pose proof (Z.div_mod n d). pose proof (Z.mod_pos_bound n d).
  case_match eqn:E1; [apply Z.div_le_upper_bound; lia|].
  assert (n mod d = 0 ∨ n / d < v) as [?|?]; [|lia|].
  { destruct (decide (n / d < v)); [by right|left]. nia. }
  case_match; [lia|]. case_match; [apply Z.div_le_upper_bound; lia|lia].
Qed.

Lemma div_round_even_nonneg n d : 0 ≤ n → 0 < d → 0 ≤ div_round_even n d.
Proof.
  intros. unfold div_round_even. pose proof (Z.div_pos n d).
  repeat case_match; lia.
Qed.

Lemma scaled_round_nonneg m e k : 0 ≤ scaled_round m e k.
Proof. apply div_round_even_nonneg; lia. Qed.

(** [m * 2 ^ e * 10 ^ k <= v] bounds the rounded value. *)
Lemma scaled_round_le m e k v :
  Z.pos m * 2 ^ Z.max e 0 * 10 ^ Z.max k 0 ≤ v * (2 ^ Z.max (- e) 0 * 10 ^ Z.max (- k) 0) →
  scaled_round m e k ≤ v.
Proof. intros. apply div_round_even_le; [|lia]. nia. Qed.

Lemma length_dec_nat n k : 0 ≤ n < 10 ^ Z.of_nat k → (0 < k)%nat → (length (dec_nat n) ≤ k)%nat.
Proof. apply length_dec_digits. Qed.

Lemma length_sign s : (length (sign_text s) ≤ 1)%nat.
Proof. by destruct s; simpl; lia. Qed.

Lemma length_pad width t : length (pad_zeros width t) = Nat.max width (length t).
Proof. unfold pad_zeros. rewrite length_app, repeat_length. lia. Qed.

Lemma length_fixed_0 s v k : 0 ≤ v < 10 ^ Z.of_nat k → (0 < k)%nat →
  (length (fixed s 0 v) ≤ 1 + k)%nat.
Proof.
  intros Hv Hk. unfold fixed. rewrite !length_app. change (10 ^ Z.of_nat 0) with 1.
  rewrite Z.div_1_r. pose proof (length_sign s). pose proof (length_dec_nat v k Hv Hk). simpl. lia.
Qed.

Lemma length_fixed_6 s v k : 0 ≤ v < 10 ^ Z.of_nat (k + 6) → (0 < k)%nat →
  (length (fixed s 6 v) ≤ k + 8)%nat.
Proof.
  intros Hv Hk. unfold fixed. rewrite !length_app, length_pad. pose proof (length_sign s).
  change (Z.of_nat 6) with 6. change (length (lit ".")) with 1%nat.
  assert (length (dec_nat (v / 10 ^ 6)) ≤ k)%nat.
  { apply length_dec_nat; [|done]. rewrite Nat2Z.inj_add, Z.pow_add_r in Hv by lia.
    split; [apply Z.div_pos; lia|]. apply Z.div_lt_upper_bound; lia. }
  assert (length (dec_nat (v mod 10 ^ 6)) ≤ 6)%nat.
  { apply length_dec_nat; [|lia]. apply Z.mod_pos_bound. lia. }
  lia.
Qed.

(** [m * 2 ^ e < 10 ^ k]. *)
Definition lt10 (m : positive) (e k : Z) : Prop :=
  Z.pos m * 2 ^ Z.max e 0 * 10 ^ Z.max (- k) 0 < 10 ^ Z.max k 0 * 2 ^ Z.max (- e) 0.

Lemma find_exponent_spec fuel m e k : lt10 m e (k + 1) →
  lt10 m e (find_exponent fuel m e k + 1) ∧
  k - Z.of_nat fuel ≤ find_exponent fuel m e k ≤ k.
Proof.
  revert k; induction fuel as [|f IH]; intros k Hk; cbn [find_exponent]; [split; [done|lia]|].
  case_match eqn:E; [split; [done|lia]|]. apply Z.leb_gt in E.
  destruct (IH (k - 1)) as [H1 H2]; [|split; [done|lia]].
  unfold lt10. replace (k - 1 + 1) with k by lia. lia.
Qed.

Lemma scaled_round_digits m e k : lt10 m e (k + 1) → scaled_round m e (6 - k) ≤ 10 ^ 7.
Proof.
  unfold lt10. intros Hk. apply scaled_round_le.
  set (M := Z.pos m * 2 ^ Z.max e 0) in *. set (D := 2 ^ Z.max (- e) 0) in *.
  assert (0 < M) by (unfold M; lia). assert (0 < D) by (unfold D; lia).
  destruct (Z.le_gt_cases 6 k); [|destruct (Z.le_gt_cases (-1) k)].
  - replace (Z.max (- (k + 1)) 0) with 0 in Hk by lia.
    replace (Z.max (k + 1) 0) with (7 + (k - 6)) in Hk by lia.
    replace (Z.max (6 - k) 0) with 0 by lia. replace (Z.max (- (6 - k)) 0) with (k - 6) by lia.
    rewrite Z.pow_add_r in Hk by lia. lia.
  - replace (Z.max (- (k + 1)) 0) with 0 in Hk by lia.
    replace (Z.max (k + 1) 0) with (k + 1) in Hk by lia.
    replace (Z.max (6 - k) 0) with (6 - k) by lia. replace (Z.max (- (6 - k)) 0) with 0 by lia.
    replace (10 ^ 7) with (10 ^ (k + 1) * 10 ^ (6 - k)) by (rewrite <- Z.pow_add_r by lia; f_equal; lia).
    nia.
  - replace (Z.max (- (k + 1)) 0) with (- k - 1) in Hk by lia.
    replace (Z.max (k + 1) 0) with 0 in Hk by lia.
    replace (Z.max (6 - k) 0) with (7 + (- k - 1)) by lia.
    replace (Z.max (- (6 - k)) 0) with 0 by lia.
    rewrite Z.pow_add_r by lia. nia.
Qed.

Lemma length_exponent_text k : Z.abs k < 1000 → (length (exponent_text k) ≤ 4)%nat.
Proof.
  intros. unfold exponent_text. rewrite length_app, length_pad.
  pose proof (length_dec_nat (Z.abs k) 3). case_match; simpl in *; lia.
Qed.

Lemma mul_below a A x X T d : 0 < a < A → 0 < x ≤ X → 1 ≤ d → A * X < T → a * x * 1 < T * d.
Proof. intros. assert (a * x < A * X) by nia. nia. Qed.

Lemma lt10_finite s m e : significand_ok (S754_finite s m e) = true → lt10 m e 310.
Proof.
  unfold significand_ok, lt10. rewrite !andb_true_iff, Z.ltb_lt, !Z.leb_le. intros [[Hm He1] He2].
  change (Z.max (-310) 0) with 0. change (Z.max 310 0) with 310.
  change (10 ^ 0) with 1. apply (mul_below _ (2 ^ 53) _ (2 ^ 971)); [lia| | |by vm_compute].
  - split; [apply Z.pow_pos_nonneg; lia|apply Z.pow_le_mono_r; lia].
  - apply (Z.pow_le_mono_r 2 0); lia.
Qed.

Lemma length_scientific s m e : significand_ok (S754_finite s m e) = true →
  (length (scientific s m e) ≤ 14)%nat.
Proof.
  intros Hok. unfold scientific. pose proof (lt10_finite s m e Hok) as Hlt.
  destruct (find_exponent_spec 640 m e 309 Hlt) as [Hk Hr].
  clear Hlt. change (Z.of_nat 640) with 640 in Hr. revert Hk Hr.
  generalize (find_exponent 640 m e 309). intros k0 Hk Hr.
  pose proof (scaled_round_digits m e k0 Hk) as Hv. pose proof (scaled_round_nonneg m e (6 - k0)) as Hn.
  revert Hv Hn. generalize (scaled_round m e (6 - k0)). clear Hk Hok. intros v0 Hv Hn.
  change (10 ^ 7) with 10000000 in Hv.
  assert (∀ v, 0 ≤ v < 10000000 → (length (fixed s 6 v) ≤ 9)%nat) as H6
    by (intros v ?; apply (length_fixed_6 s v 1); [exact H|lia]).
  destruct (Z.eqb_spec v0 10000000) as [_|Hne]; rewrite !length_app;
    change (length (lit "e")) with 1%nat.
  - pose proof (H6 1000000 ltac:(lia)). pose proof (length_exponent_text (k0 + 1) ltac:(lia)). lia.
  - pose proof (H6 v0 ltac:(lia)). pose proof (length_exponent_text k0 ltac:(lia)). lia.
Qed.

(** The [%f] of a number that is not above [1e9]. *)
Lemma dlt_d1e9 s m e : significand_ok (S754_finite s m e) = true →
  dlt d1e9 (dabs (S754_finite s m e)) = false →
  Z.pos m * 2 ^ Z.max e 0 ≤ 10 ^ 9 * 2 ^ Z.max (- e) 0.
Proof.
  unfold significand_ok. rewrite !andb_true_iff, Z.ltb_lt, !Z.leb_le. intros [[Hm He1] He2].
  assert (∃ p, d1e9 = S754_finite false p (-23) ∧ Z.pos p = 8388608000000000) as (p & -> & Hp)
    by (eexists; split; [vm_compute; reflexivity|reflexivity]).
  unfold dlt, SFltb, dabs. cbn [SFabs SFcompare]. destruct (Z.compare_spec (-23) e) as [<-|Hlt|Hgt].
  - change (Z.max (-23) 0) with 0. change (Z.max (- -23) 0) with 23.
    change (Pos.compare_cont Eq p m) with (Pos.compare p m).
    destruct (Pos.compare_spec p m); [lia|done|lia].
  - done.
  - intros _. replace (Z.max e 0) with 0 by lia. replace (Z.max (- e) 0) with (24 + (- e - 24)) by lia.
    rewrite Z.pow_add_r by lia. assert (1 ≤ 2 ^ (- e - 24)) by (apply (Z.pow_le_mono_r 2 0); lia).
    change (2 ^ 24) with 16777216. change (2 ^ 53) with 9007199254740992 in Hm.
    change (10 ^ 9) with 1000000000. nia.
Qed.

(** ** A number that fits *)

Lemma into_defined size t : (length t < size)%nat → defined (into size t).
Proof. intros. by rewrite into_Ret. Qed.

Lemma length_0f s m e : significand_ok (S754_finite s m e) = true →
  below_1e62 (S754_finite s m e) = true → (length (fixed s 0 (scaled_round m e 0)) ≤ 63)%nat.
Proof.
  unfold significand_ok, below_1e62. rewrite !andb_true_iff, !Z.ltb_lt, !Z.leb_le.
  intros [[Hm _] _] Hb. apply (length_fixed_0 s _ 62); [|lia].
  split; [apply scaled_round_nonneg|]. change (Z.of_nat 62) with 62. apply Z.lt_le_pred.
  unfold Z.pred. apply scaled_round_le. change (Z.max 0 0) with 0. change (Z.max (Z.opp 0) 0) with 0.
  change (10 ^ 0) with 1. destruct (Z.le_gt_cases 0 e).
  - replace (Z.max (- e) 0) with 0 in * by lia. rewrite Z.pow_0_r in *.
    revert Hb. generalize (10 ^ 62). intros; lia.
  - replace (Z.max e 0) with 0 by lia. rewrite Z.pow_0_r, !Z.mul_1_r.
    assert (1 ≤ 2 ^ Z.max (- e) 0) by (apply (Z.pow_le_mono_r 2 0); lia).
    assert (2 ^ 53 ≤ 10 ^ 62 + -1) by (vm_compute; done).
    revert H0 H1 Hm. generalize (2 ^ 53), (10 ^ 62 + -1), (2 ^ Z.max (- e) 0). intros. nia.
Qed.

Lemma length_f s m e : significand_ok (S754_finite s m e) = true →
  dlt d1e9 (dabs (S754_finite s m e)) = false →
  (length (fixed s 6 (scaled_round m e 6)) ≤ 18)%nat.
Proof.
  intros Hok Hd. pose proof (dlt_d1e9 s m e Hok Hd) as Hv.
  apply (length_fixed_6 s _ 10); [|lia]. change (10 ^ Z.of_nat (10 + 6)) with 10000000000000000.
  split; [apply scaled_round_nonneg|]. apply Z.le_lt_trans with (10 ^ 15); [|done].
  apply scaled_round_le. change (Z.max 6 0) with 6. change (Z.max (Z.opp 6) 0) with 0.
  change (10 ^ 9) with 1000000000 in Hv. change (10 ^ 15) with 1000000000000000.
  change (10 ^ 6) with 1000000. change (10 ^ 0) with 1. lia.
Qed.

Section Numbers.
Context `{Platform}.

Lemma length_sprintf_0f d : significand_ok d = true → below_1e62 d = true →
  (length (sprintf_double Fmt_0f d) < 64)%nat.
Proof.
  destruct d as [[]|[]| |s m e]; intros Ho Hb; try (simpl; lia); [done|].
  pose proof (length_0f s m e Ho Hb). cbn [sprintf_double]. lia.
Qed.

Lemma length_sprintf_e d : significand_ok d = true → below_1e62 d = true →
  (length (sprintf_double Fmt_e d) < 64)%nat.
Proof.
  destruct d as [[]|[]| |s m e]; intros Ho Hb; try (simpl; lia); [done|].
  pose proof (length_scientific s m e Ho). cbn [sprintf_double]. lia.
Qed.

Lemma length_sprintf_f d : significand_ok d = true → below_1e62 d = true → dlt d1e9 (dabs d) = false →
  (length (sprintf_double Fmt_f d) < 64)%nat.
Proof.
  destruct d as [[]|[]| |s m e]; intros Ho Hb Hd; try (simpl; lia); [done|].
  pose proof (length_f s m e Ho Hd). cbn [sprintf_double]. lia.
Qed.

Lemma print_number_fits t : number_fits t = true → defined (print_number t).
Proof.
  unfold number_fits, print_number. rewrite !andb_true_iff. intros [[Hi Ho] Hb].
  case_match; [apply into_defined; pose proof (length_dec_int _ Hi); lia|].
  case_match; [by apply into_defined, length_sprintf_0f|].
  case_match eqn:E; [by apply into_defined, length_sprintf_e|].
  apply orb_false_iff in E as [_ E]. by apply into_defined, length_sprintf_f.
Qed.
End Numbers.

(** ** Trees *)

Lemma defined_bind {E A B} (m : exec E A) (k : A → exec E B) :
  defined m → (∀ a, m = Ret a → defined (k a)) → defined (exec_bind m k).
Proof. unfold defined. destruct m; naive_solver. Qed.

Lemma defined_run_both {A B} (m : exec unit A) (k : exec unit B) :
  defined m → defined k → defined (run_both m k).
Proof. unfold defined. destruct m, k; naive_solver. Qed.

Lemma array_entries_defined l : Forall defined l → defined (array_entries l).
Proof.
  induction 1 as [|m l Hm _ IH]; [done|]. apply defined_bind; [done|]. intros a _.
  by apply defined_bind.
Qed.

Lemma object_entries_defined l : Forall (λ m, defined m.2) l → defined (object_entries l).
Proof.
  induction 1 as [|[[n|] m] l Hm _ IH]; [done|..]; cbn [object_entries];
    (apply defined_bind; [|intros [??] _; done]); repeat apply defined_run_both; try done.
  by rewrite print_string_ptr_Some.
Qed.

Lemma print_array_defined l fmt : Forall defined l → defined (print_array l fmt).
Proof.
  intros Hl%array_entries_defined. destruct (array_entries l) as [es|e| |] eqn:E.
  - by rewrite (print_array_Ret fmt es).
  - unfold print_array. by rewrite E.
  - by destruct Hl.
  - by destruct Hl.
Qed.

Lemma print_object_defined l depth fmt : Forall (λ m, defined m.2) l →
  defined (print_object l depth fmt).
Proof.
  intros Hl%object_entries_defined. destruct (object_entries l) as [es|e| |] eqn:E.
  - by rewrite (print_object_Ret depth fmt es).
  - unfold print_object. by rewrite E.
  - by destruct Hl.
  - by destruct Hl.
Qed.

Section Trees.
Context `{Platform}.

Lemma print_string_defined t : defined (print_string t).
Proof. unfold print_string. destruct (valuestring t); [by rewrite print_string_ptr_Some|done]. Qed.

(** C23: no text overflows its buffer: for a tree of any depth, with any strings and names and
    with numbers below [10 ^ 62], every write of the printer stays within the bytes it
    allocated, in both formats. *)
Theorem print_value_fits t depth fmt : printable t = true → defined (print_value t depth fmt).
Proof.
  revert depth; induction t as [ty vs vi vd n l IH] using cJsonDap_children_ind. intros depth.
  cbn [printable print_value type child]. rewrite andb_true_iff. intros [Hn Hc].
  repeat (case_match; [done || idtac|]).
  - apply print_number_fits. by destruct (Z.land ty 255 =? cJsonDap_Number).
  - apply print_string_defined.
  - apply print_array_defined, Forall_fmap. clear -IH Hc. induction IH; [done|].
    simpl in Hc. apply andb_true_iff in Hc as [??]. constructor; simpl; auto.
  - apply print_object_defined, Forall_fmap. clear -IH Hc. induction IH; [done|].
    simpl in Hc. apply andb_true_iff in Hc as [??]. constructor; simpl; auto.
  - done.
Qed.
End Trees.

(** ** Numbers that do not fit *)

Lemma digits_value_bound l acc : forallb is_digit l = true → 0 ≤ acc →
  digits_value acc l < (acc + 1) * 10 ^ Z.of_nat (length l).
Proof.
  revert acc; induction l as [|c l IH]; intros acc Hl Ha; [simpl; lia|].
  simpl in Hl. apply andb_true_iff in Hl as [Hc Hl].
  assert (0 ≤ digit_value c ≤ 9) as Hd.
  { unfold is_digit in Hc. apply andb_true_iff in Hc as [?%Z.leb_le ?%Z.leb_le]. unfold digit_value. lia. }
  change (digits_value acc (c :: l)) with (digits_value (acc * 10 + digit_value c) l).
  specialize (IH (acc * 10 + digit_value c) Hl ltac:(lia)).
  cbn [length]. rewrite Nat2Z.inj_succ, Z.pow_succ_r by lia.
  assert (0 < 10 ^ Z.of_nat (length l)) by (apply Z.pow_pos_nonneg; lia). nia.
Qed.

Lemma length_dec_nat_lower n k : 10 ^ Z.of_nat k ≤ n → (k < length (dec_nat n))%nat.
Proof.
  intros Hn. assert (0 < 10 ^ Z.of_nat k) by (apply Z.pow_pos_nonneg; lia).
  pose proof (digits_value_bound (dec_nat n) 0 (dec_nat_is_digit n ltac:(lia)) ltac:(lia)) as Hv.
  rewrite dec_nat_value in Hv by lia. destruct (decide (length (dec_nat n) ≤ k)%nat); [|lia].
  assert (10 ^ Z.of_nat (length (dec_nat n)) ≤ 10 ^ Z.of_nat k) by (apply Z.pow_le_mono_r; lia). lia.
Qed.

Lemma dsub_diag s m e : dsub (S754_finite s m e) (S754_finite s m e) = dzero.
Proof.
  unfold dsub, SFsub. rewrite Z.min_id, Z.sub_diag. done.
Qed.

(** A finite number with the exponent of an integer far above [INT_MAX] is not printed as one. *)
Lemma not_an_int s m e : 0 ≤ e →
  dle (S754_finite s m e) (of_int INT_MAX) && dle (of_int INT_MIN) (S754_finite s m e) = false.
Proof.
  intros He. assert (∃ p q, of_int INT_MAX = S754_finite false p (-22) ∧
    of_int INT_MIN = S754_finite true q (-21)) as (p & q & -> & ->)
    by (do 2 eexists; split; vm_compute; reflexivity).
  unfold dle, SFleb. destruct s; cbn [SFcompare].
  - destruct (Z.compare_spec (-21) e); [lia|done|lia].
  - destruct (Z.compare_spec e (-22)); [lia|lia|done].
Qed.

Section Overflow.
Context `{Platform}.

Lemma print_number_overflow t s m e : valuedouble t = S754_finite s m e →
  2 ^ 52 ≤ Z.pos m → 158 ≤ e → print_number t = Undef.
Proof.
  intros Hd Hm He. unfold print_number. rewrite Hd, <- andb_assoc, not_an_int by lia.
  rewrite andb_false_r. unfold dfloor. destruct (Z.leb_spec 0 e); [|lia].
  rewrite dsub_diag. change (dle (dabs dzero) DBL_EPSILON) with true. cbn match.
  unfold into, sprintf_double, fixed. rewrite !length_app. cbn match. change (10 ^ Z.of_nat 0) with 1.
  rewrite Z.div_1_r.
  assert (scaled_round m e 0 = Z.pos m * 2 ^ e) as ->.
  { unfold scaled_round, div_round_even. replace (Z.max (- e) 0) with 0 by lia.
    replace (Z.max e 0) with e by lia. change (2 ^ 0 * 10 ^ Z.max (-0) 0) with 1.
    change (10 ^ Z.max 0 0) with 1. by rewrite Z.mod_1_r, Z.div_1_r, Z.mul_1_r. }
  pose proof (length_dec_nat_lower (Z.pos m * 2 ^ e) 63) as Hl.
  assert (10 ^ Z.of_nat 63 ≤ Z.pos m * 2 ^ e) as Hb.
  { assert (10 ^ Z.of_nat 63 ≤ 2 ^ 52 * 2 ^ 158) as Hp by (vm_compute; done).
    assert (2 ^ 158 ≤ 2 ^ e) as Hpe by (apply Z.pow_le_mono_r; lia).
    etrans; [exact Hp|]. apply Z.mul_le_mono_nonneg; [done|done|done|done]. }
  specialize (Hl Hb). match goal with |- context [Nat.ltb ?a ?b] => destruct (Nat.ltb_spec a b) end; [|done].
  lia.
Qed.

(** A number from 2 ^ 210 on (about 1.6e63) overflows the 64 bytes that the printer
    allocates for it: printing a tree of such a number writes past the end of the buffer. *)
Theorem print_value_overflow t s m e depth fmt : type t = cJsonDap_Number →
  valuedouble t = S754_finite s m e → 2 ^ 52 ≤ Z.pos m → 158 ≤ e →
  print_value t depth fmt = Undef.
Proof.
  intros Hty Hd Hm He. destruct t as [ty vs vi vd n l]. simpl in Hty. subst ty.
  exact (print_number_overflow (Item cJsonDap_Number vs vi vd n l) s m e Hd Hm He).
Qed.
End Overflow.

Section Samples.
#[local] Existing Instance sample_platform.

Definition sample_tree : cJsonDap :=
  set_child [set_string (Some (lit "n")) (set_type cJsonDap_Number (set_number 7 (of_int 7) cJSON_New_Item));
             set_type cJsonDap_String (set_valuestring (Some (lit "a")) cJSON_New_Item)]
    (set_type cJsonDap_Object cJSON_New_Item).

Lemma print_value_fits_witness :
  printable sample_tree = true ∧ defined (print_value sample_tree 0 true).
Proof. split; [reflexivity|]. apply print_value_fits. reflexivity. Defined.

(** The text [1e70] that a server may send. *)
Lemma print_value_overflow_witness :
  ∃ t, cJSON_Parse (lit "1e70") = Ret t ∧ cJSON_Print t = Undef.
Proof.
  eexists. split; [vm_compute; reflexivity|].
  eapply print_value_overflow; [reflexivity|reflexivity|lia|lia].
Defined.
End Samples.
