(* ===== verification/CJsonEscapes.v ===== *)
(** * cJSON.cpp: what the parser does at the edges: every text ends, the escapes of a string.

    [utf8_decode] is the decoder of RFC 3629, against which the bytes that the parser writes
    for an escape are compared. *)
From S2P Require Import Prelude.
From S2P Require Import Double.
From S2P Require Import CJson.
From S2P Require Import CJsonParse.
Local Open Scope Z_scope.

(** ** UTF-8 *)

Definition tail_byte (b : Z) : bool := (0x80 <=? b) && (b <? 0xC0).

Definition utf8_decode (bytes : list Z) : option Z :=
  match bytes with
  | [a] => if (0 <=? a) && (a <? 0x80) then Some a else None
  | [a; b] =>
      if (0xC0 <=? a) && (a <? 0xE0) && tail_byte b then Some ((a - 0xC0) * 64 + (b - 0x80))
      else None
  | [a; b; c] =>
      if (0xE0 <=? a) && (a <? 0xF0) && tail_byte b && tail_byte c
      then Some (((a - 0xE0) * 64 + (b - 0x80)) * 64 + (c - 0x80)) else None
  | [a; b; c; d] =>
      if (0xF0 <=? a) && (a <? 0xF8) && tail_byte b && tail_byte c && tail_byte d
      then Some ((((a - 0xF0) * 64 + (b - 0x80)) * 64 + (c - 0x80)) * 64 + (d - 0x80)) else None
  | _ => None
  end.

(** The bits of a byte: equality of two numbers below 256 bit by bit. *)
Lemma byte_ext x y : 0 ≤ x < 256 → 0 ≤ y < 256 →
  (∀ n, 0 ≤ n < 8 → Z.testbit x n = Z.testbit y n) → x = y.
Proof.
  intros Hx Hy Hb. apply Z.bits_inj'. intros n Hn. destruct (Z.lt_ge_cases n 8); [auto|].
  rewrite (Z.bits_above_log2 x), (Z.bits_above_log2 y); [done|lia| |lia|].
  - destruct (decide (y = 0)) as [->|]; [simpl; lia|]. pose proof (Z.log2_lt_pow2 y 8). lia.
  - destruct (decide (x = 0)) as [->|]; [simpl; lia|]. pose proof (Z.log2_lt_pow2 x 8). lia.
Qed.

Lemma code_to_char z : code (to_char z) = Z.land z 0xFF.
Proof.
  unfold to_char. apply code_chr. change 0xFF with (Z.ones 8). rewrite Z.land_ones by lia.
  apply Z.mod_pos_bound. lia.
Qed.

Lemma code_to_char_small z : 0 ≤ z < 256 → code (to_char z) = z.
Proof.
  intros. rewrite code_to_char. change 0xFF with (Z.ones 8). rewrite Z.land_ones by lia.
  apply Z.mod_small. lia.
Qed.

Ltac bits8 :=
  match goal with
  | H : 0 ≤ ?n < 8 |- _ =>
      assert (n = 0 ∨ n = 1 ∨ n = 2 ∨ n = 3 ∨ n = 4 ∨ n = 5 ∨ n = 6 ∨ n = 7) as Hn by lia;
      clear H; destruct_or! Hn; subst n
  end.

Lemma code_continuation uc : 0 ≤ uc → code (continuation uc) = 0x80 + uc mod 64.
Proof.
  intros Hu. unfold continuation. rewrite code_to_char. pose proof (Z.mod_pos_bound uc 64).
  assert (0x80 + uc mod 64 = Z.lor 0x80 (uc mod 2 ^ 6)) as ->.
  { apply Z.add_nocarry_lor.
    apply Z.bits_inj'. intros n Hn. rewrite Z.land_spec, Z.bits_0.
    destruct (Z.lt_ge_cases n 6).
    - assert (n = 0 ∨ n = 1 ∨ n = 2 ∨ n = 3 ∨ n = 4 ∨ n = 5) as Hc by lia.
      by destruct_or! Hc; subst n.
    - rewrite Z.mod_pow2_bits_high by lia. apply andb_false_r. }
  apply Z.bits_inj'. intros n Hn. rewrite !Z.land_spec, !Z.lor_spec.
  destruct (Z.lt_ge_cases n 8).
  - assert (0 ≤ n < 8) as H8 by lia. clear Hn H0. bits8; rewrite ?Z.mod_pow2_bits_low by lia;
      rewrite ?Z.mod_pow2_bits_high by lia; simpl Z.testbit at 2 3 4;
      by destruct (Z.testbit uc _).
  - rewrite (Z.bits_above_log2 0xFF), (Z.bits_above_log2 0x80), Z.mod_pow2_bits_high;
      [by rewrite andb_false_r|lia|done|simpl; lia|done|simpl; lia].
Qed.

Lemma lor_mark a k c : 0 ≤ a < 2 ^ k → 0 ≤ k → Z.lor a (c * 2 ^ k) = a + c * 2 ^ k.
Proof.
  intros Ha Hk. symmetry. apply Z.add_nocarry_lor. rewrite <- Z.shiftl_mul_pow2 by done.
  apply Z.bits_inj'. intros n Hn. rewrite Z.land_spec, Z.bits_0. destruct (Z.lt_ge_cases n k).
  - rewrite Z.shiftl_spec_low by done. apply andb_false_r.
  - replace a with (a mod 2 ^ k) by (apply Z.mod_small; lia).
    rewrite Z.mod_pow2_bits_high by lia. done.
Qed.

(** The lead byte. *)
Lemma code_lead a k c : 0 ≤ a < 2 ^ k → 0 ≤ k → c * 2 ^ k + 2 ^ k ≤ 256 → 0 ≤ c →
  code (to_char (Z.lor a (c * 2 ^ k))) = c * 2 ^ k + a.
Proof. intros Ha Hk Hc H0. rewrite lor_mark, code_to_char_small by nia. lia. Qed.

Ltac div64 uc :=
  pose proof (Z.div_mod uc 64); pose proof (Z.mod_pos_bound uc 64);
  pose proof (Z.div_mod (uc / 64) 64); pose proof (Z.mod_pos_bound (uc / 64) 64);
  pose proof (Z.div_mod (uc / 64 / 64) 64); pose proof (Z.mod_pos_bound (uc / 64 / 64) 64).

Lemma shiftr_6 uc : Z.shiftr uc 6 = uc / 64.
Proof. by rewrite Z.shiftr_div_pow2. Qed.
Lemma shiftr_12 uc : Z.shiftr uc 12 = uc / 64 / 64.
Proof. rewrite Z.shiftr_div_pow2, Z.div_div by lia. done. Qed.
Lemma shiftr_18 uc : Z.shiftr uc 18 = uc / 64 / 64 / 64.
Proof. rewrite Z.shiftr_div_pow2, !Z.div_div by lia. done. Qed.

Lemma tail_byte_spec x : tail_byte (0x80 + x mod 64) = true.
Proof.
  unfold tail_byte. pose proof (Z.mod_pos_bound x 64). rewrite andb_true_iff, Z.leb_le, Z.ltb_lt. lia.
Qed.

Ltac true_tests :=
  rewrite ?tail_byte_spec;
  repeat match goal with
  | |- context [?a <=? ?b] => rewrite (proj2 (Z.leb_le a b)) by lia
  | |- context [?a <? ?b] => rewrite (proj2 (Z.ltb_lt a b)) by lia
  end; cbn [andb].

Lemma encode_uc_utf8 uc : 0 ≤ uc < 0x110000 → utf8_decode (map code (encode_uc uc)) = Some uc.
Proof.
  intros Hu. unfold encode_uc, utf8_len. div64 uc.
  destruct (Z.ltb_spec uc 0x80); [|destruct (Z.ltb_spec uc 0x800); [|destruct (Z.ltb_spec uc 0x10000)]];
    cbn [Z.eqb Pos.eqb map].
  - change (6 * (1 - 1)) with 0. rewrite Z.shiftr_0_r. change (firstByteMark 1) with (0 * 2 ^ 7).
    rewrite code_lead by lia. cbn [utf8_decode]. true_tests. f_equal; lia.
  - change (6 * (2 - 1)) with 6. change (firstByteMark 2) with (6 * 2 ^ 5).
    rewrite shiftr_6, code_lead, code_continuation by lia.
    cbn [utf8_decode]. true_tests. f_equal; lia.
  - change (6 * (3 - 1)) with 12. change (firstByteMark 3) with (14 * 2 ^ 4).
    rewrite shiftr_6, shiftr_12, code_lead, !code_continuation by lia.
    cbn [utf8_decode]. true_tests. f_equal; lia.
  - change (6 * (4 - 1)) with 18. change (firstByteMark 4) with (30 * 2 ^ 3).
    rewrite shiftr_6, shiftr_12, shiftr_18, code_lead, !code_continuation by lia.
    cbn [utf8_decode]. true_tests. f_equal; lia.
Qed.

(** ** Escapes *)

Definition hex4 (a b c d : ascii) : option Z :=
  match hex_value a, hex_value b, hex_value c, hex_value d with
  | Some a, Some b, Some c, Some d => Some (((a * 16 + b) * 16 + c) * 16 + d)
  | _, _, _, _ => None
  end.

(** A hexadecimal digit, its value, and what it is not. *)
Lemma hex_value_spec c v : hex_value c = Some v →
  0 ≤ v < 16 ∧ is_space c = false ∧ (c =c "-") = false ∧ (c =c "+") = false ∧ (c =c "x") = false ∧
  (c =c "X") = false ∧ (c =c DQUOTE) = false ∧ (c =c BSLASH) = false ∧ (c =c NUL) = false.
Proof.
  destruct c as [[] [] [] [] [] [] [] []]; vm_compute; try discriminate;
    intros [= <-]; repeat split; discriminate.
Qed.

Lemma hex4_inv a b c d v : hex4 a b c d = Some v → ∃ x y z w,
  hex_value a = Some x ∧ hex_value b = Some y ∧ hex_value c = Some z ∧ hex_value d = Some w ∧
  v = ((x * 16 + y) * 16 + z) * 16 + w.
Proof. unfold hex4. intros. repeat case_match; simplify_eq. naive_solver. Qed.

Lemma hex4_bound a b c d v : hex4 a b c d = Some v → 0 ≤ v < 0x10000.
Proof.
  intros (x & y & z & w & Ha & Hb & Hc & Hd & ->)%hex4_inv.
  apply hex_value_spec in Ha as [? _], Hb as [? _], Hc as [? _], Hd as [? _]. lia.
Qed.

Lemma sscanf_hex4 a b c d rest v : hex4 a b c d = Some v →
  sscanf_4x (a :: b :: c :: d :: rest) = Some v.
Proof.
  intros (x & y & z & w & Ha & Hb & Hc & Hd & ->)%hex4_inv. unfold sscanf_4x.
  pose proof (hex_value_spec _ _ Ha) as (_ & Hs & Hm & Hp & _).
  pose proof (hex_value_spec _ _ Hb) as (_ & _ & _ & _ & Hx & HX & _).
  cbn [skip_space]. rewrite Hs. cbn [deref next]. rewrite Hm, Hp. cbn [deref next]. rewrite Hx, HX, andb_false_r.
  cbn [hex_digits]. rewrite Ha, Hb, Hc, Hd. reflexivity.
Qed.

Section Escapes.
Context `{Platform}.

Definition u_escape (a b c d : ascii) : text := [BSLASH; "u"%char; a; b; c; d].

(** Parsing a quoted text. *)
Lemma cJSON_Parse_string body out : no_nul body = true →
  (∃ len, scan_len (body ++ [DQUOTE]) = Some len ∧ (length out ≤ len)%nat) →
  unescape (S (length (DQUOTE :: body ++ [DQUOTE]))) None None (body ++ [DQUOTE])
  = Ret (out, [DQUOTE]) →
  cJSON_Parse (DQUOTE :: body ++ [DQUOTE])
  = Ret (set_type cJsonDap_String (set_valuestring (Some out) cJSON_New_Item)).
Proof.
  intros Hn (len & Hlen & Hout) Hu. unfold cJSON_Parse.
  rewrite c_str_id by (simpl; rewrite no_nul_app, Hn; done).
  change (skip (DQUOTE :: body ++ [DQUOTE])) with (DQUOTE :: body ++ [DQUOTE]).
  unfold parse_fuel. rewrite Nat.add_comm. cbn [Nat.add parse_value].
  change (starts_with "null" (DQUOTE :: body ++ [DQUOTE])) with false.
  change (starts_with "false" (DQUOTE :: body ++ [DQUOTE])) with false.
  change (starts_with "true" (DQUOTE :: body ++ [DQUOTE])) with false.
  cbn [deref]. rewrite ceq_refl. unfold parse_string. cbn [deref next]. rewrite ceq_refl. cbn [negb].
  rewrite Hlen, Hu. cbn [exec_bind].
  destruct (Nat.ltb_spec len (length out)); [lia|]. done.
Qed.

Lemma length_encode_uc uc : (length (encode_uc uc) ≤ 4)%nat.
Proof. unfold encode_uc. repeat case_match; simpl; lia. Qed.

(** The escape of a code point of the basic plane. *)
Lemma escape_u_bmp uc uc2 a b c d rest v : hex4 a b c d = Some v → v ≠ 0 →
  ¬ 0xD800 ≤ v ≤ 0xDFFF → ∃ uc',
  escape_u uc uc2 ("u"%char :: a :: b :: c :: d :: rest) = Ret (encode_uc v, uc', uc2, d :: rest).
Proof.
  intros Hv Hz Hs. eexists. unfold escape_u. cbn [next]. rewrite (sscanf_hex4 a b c d rest v Hv).
  unfold advance. cbn [length Nat.leb drop exec_bind initialized].
  destruct ((0xDC00 <=? v) && (v <=? 0xDFFF)) eqn:E1; [lia|].
  destruct (Z.eqb_spec v 0); [lia|]. cbn [orb].
  destruct ((0xD800 <=? v) && (v <=? 0xDBFF)) eqn:E2; [lia|]. done.
Qed.

(** The escapes of a surrogate pair. *)
Lemma escape_u_pair uc uc2 a b c d a' b' c' d' rest v w :
  hex4 a b c d = Some v → hex4 a' b' c' d' = Some w →
  0xD800 ≤ v ≤ 0xDBFF → 0xDC00 ≤ w ≤ 0xDFFF → ∃ uc',
  escape_u uc uc2 ("u"%char :: a :: b :: c :: d :: u_escape a' b' c' d' ++ rest)
  = Ret (encode_uc (Z.lor 0x10000 (Z.lor (Z.shiftl (Z.land v 0x3FF) 10) (Z.land w 0x3FF))),
         uc', Some w, d' :: rest).
Proof.
  intros Hv Hw Rv Rw. eexists. unfold escape_u. cbn [next].
  rewrite (sscanf_hex4 a b c d _ v Hv).
  unfold advance, u_escape. cbn [length Nat.leb drop exec_bind initialized app].
  destruct ((0xDC00 <=? v) && (v <=? 0xDFFF)) eqn:E1; [lia|].
  destruct (Z.eqb_spec v 0); [lia|]. cbn [orb].
  destruct ((0xD800 <=? v) && (v <=? 0xDBFF)) eqn:E2; [|lia].
  unfold peek. cbn [length Nat.leb drop exec_bind deref]. rewrite ceq_refl. cbn [exec_bind].
  rewrite ceq_refl. cbn [negb drop]. rewrite (sscanf_hex4 a' b' c' d' _ w Hw).
  cbn [exec_bind initialized].
  destruct ((w <? 0xDC00) || (0xDFFF <? w)) eqn:E3; [lia|]. done.
Qed.

(** The characters of an escape end neither the string nor the text. *)
Definition ordinary (x : ascii) : Prop :=
  (x =c DQUOTE) = false ∧ (x =c BSLASH) = false ∧ (x =c NUL) = false.

Lemma hex4_ordinary a b c d v : hex4 a b c d = Some v →
  ordinary a ∧ ordinary b ∧ ordinary c ∧ ordinary d.
Proof.
  intros (x & y & z & w & Ha & Hb & Hc & Hd & _)%hex4_inv.
  apply hex_value_spec in Ha, Hb, Hc, Hd. unfold ordinary. naive_solver.
Qed.

Ltac rewrite_ordinary E :=
  destruct (hex4_ordinary _ _ _ _ _ E) as ((? & ? & ?) & (? & ? & ?) & (? & ? & ?) & (? & ? & ?));
  repeat match goal with H : (_ =c _) = false |- _ => rewrite H; clear H end.

Lemma no_nul_u_escape a b c d v : hex4 a b c d = Some v → no_nul (u_escape a b c d) = true.
Proof.
  intros E. unfold no_nul, u_escape. cbn [forallb]. by rewrite_ordinary E.
Qed.

Lemma scan_len_u_escape a b c d v rest : hex4 a b c d = Some v →
  scan_len (u_escape a b c d ++ rest) = (λ n, 5 + n)%nat <$> scan_len rest.
Proof.
  intros E. unfold u_escape. cbn [app scan_len].
  change (BSLASH =c DQUOTE) with false. change (BSLASH =c BSLASH) with true. cbn match.
  rewrite_ordinary E. by destruct (scan_len rest).
Qed.

Lemma scan_len_quote : scan_len [DQUOTE] = Some 0%nat.
Proof. done. Qed.

Lemma unescape_u f uc uc2 r bytes uc' uc2' p rest :
  escape_u uc uc2 ("u"%char :: r) = Ret (bytes, uc', uc2', p :: rest) →
  unescape (S f) uc uc2 (BSLASH :: "u"%char :: r)
  = let* (out, q) := unescape f uc' uc2' rest in Ret (bytes ++ out, q).
Proof.
  intros E. cbn [unescape]. change (BSLASH =c DQUOTE) with false.
  change (BSLASH =c BSLASH) with true. cbn [negb].
  change (escape uc uc2 ("u"%char :: r)) with (escape_u uc uc2 ("u"%char :: r)).
  rewrite E. done.
Qed.

Lemma unescape_end f uc uc2 : unescape (S f) uc uc2 [DQUOTE] = Ret ([], [DQUOTE]).
Proof. done. Qed.

(** The escape of a code point of the basic plane is parsed to its UTF-8 bytes: for the four
    hexadecimal digits (of either case) of any value that is neither 0 nor a surrogate, the
    string has the bytes that decode to that code point. *)
Theorem parse_unicode_escape a b c d v : hex4 a b c d = Some v → v ≠ 0 → ¬ 0xD800 ≤ v ≤ 0xDFFF →
  ∃ t s, cJSON_Parse (DQUOTE :: u_escape a b c d ++ [DQUOTE]) = Ret t ∧
    type t = cJsonDap_String ∧ valuestring t = Some s ∧ utf8_decode (map code s) = Some v.
Proof.
  intros Hv Hz Hs. do 2 eexists. split; [|split; [|split]].
  - apply (cJSON_Parse_string _ (encode_uc v)); [by eapply no_nul_u_escape| |].
    + rewrite (scan_len_u_escape _ _ _ _ v) by done. eexists. split; [done|].
      pose proof (length_encode_uc v). simpl. lia.
    + destruct (escape_u_bmp None None a b c d [DQUOTE] v Hv Hz Hs) as [uc' E].
      cbn [length app u_escape]. rewrite (unescape_u _ _ _ _ _ _ _ _ _ E), unescape_end.
      cbn [exec_bind]. by rewrite app_nil_r.
  - done.
  - done.
  - apply encode_uc_utf8. pose proof (hex4_bound _ _ _ _ _ Hv). lia.
Qed.

(** ** Surrogate pairs *)

(** The code point of a surrogate pair (RFC 8259, section 7). *)
Definition pair_code_point (v w : Z) : Z := 0x10000 + (v - 0xD800) * 1024 + (w - 0xDC00).

Lemma pair_bits v w : 0xD800 ≤ v ≤ 0xDBFF → 0xDC00 ≤ w ≤ 0xDFFF →
  Z.lor (Z.shiftl (Z.land v 0x3FF) 10) (Z.land w 0x3FF) = pair_code_point v w - 0x10000.
Proof.
  intros Hv Hw. change 0x3FF with (Z.ones 10). rewrite !Z.land_ones, Z.shiftl_mul_pow2 by lia.
  change (2 ^ 10) with 1024.
  replace (v mod 1024) with (v - 0xD800) by (apply (Z.mod_unique v 1024 54); lia).
  replace (w mod 1024) with (w - 0xDC00) by (apply (Z.mod_unique w 1024 55); lia).
  rewrite Z.lor_comm, (lor_mark _ 10) by lia. unfold pair_code_point. lia.
Qed.

Lemma lor_plane x : 0 ≤ x → Z.lor 0x10000 x = if Z.testbit x 16 then x else 0x10000 + x.
Proof.
  intros Hx. change 0x10000 with (2 ^ 16). destruct (Z.testbit x 16) eqn:E.
  - apply Z.bits_inj'. intros n Hn. rewrite Z.lor_spec, Z.pow2_bits_eqb by lia.
    destruct (Z.eqb_spec 16 n) as [<-|]; [by rewrite E|done].
  - symmetry. apply Z.add_nocarry_lor. apply Z.bits_inj'. intros n Hn.
    rewrite Z.land_spec, Z.pow2_bits_eqb, Z.bits_0 by lia.
    destruct (Z.eqb_spec 16 n) as [<-|]; [by rewrite E|done].
Qed.

(** A surrogate pair is parsed to four bytes, but to those of the code point only when bit 16
    of its offset from U+10000 is clear: the code sets that bit where it should add it, so that
    U+20000, for one, is read as U+10000. *)
Theorem parse_surrogate_pair a b c d a' b' c' d' v w :
  hex4 a b c d = Some v → hex4 a' b' c' d' = Some w →
  0xD800 ≤ v ≤ 0xDBFF → 0xDC00 ≤ w ≤ 0xDFFF →
  ∃ t s, cJSON_Parse (DQUOTE :: (u_escape a b c d ++ u_escape a' b' c' d') ++ [DQUOTE]) = Ret t ∧
    type t = cJsonDap_String ∧ valuestring t = Some s ∧
    utf8_decode (map code s)
    = Some (let cp := pair_code_point v w in
            if Z.testbit (cp - 0x10000) 16 then cp - 0x10000 else cp).
Proof.
  intros Hv Hw Rv Rw. set (cp := Z.lor 0x10000 (pair_code_point v w - 0x10000)).
  exists (set_type cJsonDap_String (set_valuestring (Some (encode_uc cp)) cJSON_New_Item)),
    (encode_uc cp). split; [|split; [done|split; [done|]]].
  - apply cJSON_Parse_string.
    + rewrite no_nul_app. by rewrite (no_nul_u_escape _ _ _ _ v), (no_nul_u_escape _ _ _ _ w).
    + rewrite <- app_assoc, (scan_len_u_escape _ _ _ _ v), (scan_len_u_escape _ _ _ _ w) by done.
      eexists. split; [done|]. pose proof (length_encode_uc cp) as Hl. cbn. clear -Hl. lia.
    + destruct (escape_u_pair None None _ _ _ _ _ _ _ _ [DQUOTE] v w Hv Hw Rv Rw) as [uc' E].
      rewrite pair_bits in E by done. fold cp in E. rewrite <- app_assoc.
      cbn [length app u_escape] in *. rewrite (unescape_u _ _ _ _ _ _ _ _ _ E), unescape_end.
      cbn [exec_bind]. by rewrite app_nil_r.
  - assert (0 ≤ pair_code_point v w - 0x10000 < 0x100000) as Hb by (unfold pair_code_point; lia).
    assert (cp = if Z.testbit (pair_code_point v w - 0x10000) 16
                 then pair_code_point v w - 0x10000 else pair_code_point v w) as Hcp.
    { unfold cp. rewrite lor_plane by lia. destruct (Z.testbit _ 16); lia. }
    cbv zeta. rewrite <- Hcp. apply encode_uc_utf8. rewrite Hcp. destruct (Z.testbit _ 16); lia.
Qed.

(** ** Texts that end too early *)

Lemma scan_len_dangling body : forallb (λ c, negb (c =c DQUOTE) && negb (c =c BSLASH)) body = true →
  scan_len (body ++ [BSLASH]) = None.
Proof.
  induction body as [|c body IH]; [done|]. cbn [forallb app scan_len].
  rewrite !andb_true_iff, !negb_true_iff. intros [[-> ->] Hb]. by rewrite IH.
Qed.

(** A text whose last byte is a backslash inside a string is read past its end: the first pass
    over the string skips the byte after every backslash, the terminator too. *)
Theorem parse_dangling_backslash body : no_nul body = true →
  forallb (λ c, negb (c =c DQUOTE) && negb (c =c BSLASH)) body = true →
  cJSON_Parse (DQUOTE :: body ++ [BSLASH]) = Undef.
Proof.
  intros Hn Hb. unfold cJSON_Parse. rewrite c_str_id by (simpl; rewrite no_nul_app, Hn; done).
  change (skip (DQUOTE :: body ++ [BSLASH])) with (DQUOTE :: body ++ [BSLASH]).
  unfold parse_fuel. rewrite Nat.add_comm. cbn [Nat.add parse_value].
  change (starts_with "null" (DQUOTE :: body ++ [BSLASH])) with false.
  change (starts_with "false" (DQUOTE :: body ++ [BSLASH])) with false.
  change (starts_with "true" (DQUOTE :: body ++ [BSLASH])) with false.
  cbn [deref]. rewrite ceq_refl. unfold parse_string. cbn [deref next]. rewrite ceq_refl.
  cbn [negb]. by rewrite scan_len_dangling.
Qed.

(** C20: parsing ends for every text: the fuel is always enough, and when there is no value the
    error pointer is a position within the text. *)
Theorem cJSON_Parse_total source :
  match cJSON_Parse source with
  | NoFuel => False
  | Err ep => ep `suffix_of` c_str source
  | _ => True
  end.
Proof.
  unfold cJSON_Parse. set (v := skip (c_str source)).
  pose proof (parse_value_reads (parse_fuel v) cJSON_New_Item v ltac:(unfold parse_fuel; lia)) as Hr.
  unfold reads in Hr. destruct (parse_value _ _ _) as [[t rest]|ep| |]; simpl; [done| |done|done].
  trans v; [done|]. apply skip_suffix.
Qed.
End Escapes.

Section Samples.
#[local] Existing Instance sample_platform.

Lemma parse_unicode_escape_witness :
  hex4 "2" "0" "A" "c" = Some 0x20AC ∧
  ∃ t s, cJSON_Parse (DQUOTE :: u_escape "2" "0" "A" "c" ++ [DQUOTE]) = Ret t ∧
    type t = cJsonDap_String ∧ valuestring t = Some s ∧ utf8_decode (map code s) = Some 0x20AC.
Proof. split; [reflexivity|]. apply parse_unicode_escape; [reflexivity|lia|lia]. Defined.

Lemma parse_surrogate_pair_witness :
  pair_code_point 0xD840 0xDC00 = 0x20000 ∧
  ∃ t s, cJSON_Parse (DQUOTE :: (u_escape "D" "8" "4" "0" ++ u_escape "D" "C" "0" "0") ++ [DQUOTE])
    = Ret t ∧ type t = cJsonDap_String ∧ valuestring t = Some s ∧
    utf8_decode (map code s) = Some 0x10000.
Proof.
  split; [reflexivity|].
  apply (parse_surrogate_pair "D" "8" "4" "0" "D" "C" "0" "0" 0xD840 0xDC00);
    [reflexivity|reflexivity|lia|lia].
Defined.

Lemma parse_dangling_backslash_witness : cJSON_Parse (DQUOTE :: lit "abc" ++ [BSLASH]) = Undef.
Proof. apply parse_dangling_backslash; reflexivity. Defined.
End Samples.
