(* ===== verification/CJsonGrammar.v ===== *)
(** * The parser against the grammar of JSON.

    [json_text] is the grammar of RFC 8259: white space, numbers with fractions and exponents, all
    the escapes of strings, nesting; with every text goes the value it stands for.  [build] is the
    tree of a value.  The parser builds that tree from every text of the grammar.  It accepts
    more: that is its own behaviour and no part of the grammar. *)
From S2P Require Import Prelude.
From S2P Require Import Double.
From S2P Require Import CJson.
From S2P Require Import CJsonParse.
From S2P Require Import CJsonRoundTrip.
From S2P Require Import CJsonEscapes.
Local Open Scope Z_scope.

(** ** Values *)

Inductive value :=
| VNull
| VBool (b : bool)
| VNumber (d : double)
| VString (s : text)
| VArray (l : list value)
| VObject (l : list (text * value)).

(** The node of the name of a member. *)
Definition name_node (n : text) : cJsonDap :=
  name_from_value (set_type cJsonDap_String (set_valuestring (Some n) cJSON_New_Item)).

Fixpoint build `{Platform} (v : value) (item : cJsonDap) : cJsonDap :=
  match v with
  | VNull => set_type cJsonDap_Null item
  | VBool false => set_type cJsonDap_False item
  | VBool true => set_valueint 1 (set_type cJsonDap_True item)
  | VNumber d => set_type cJsonDap_Number (set_number (to_int d) d item)
  | VString s => set_type cJsonDap_String (set_valuestring (Some s) item)
  | VArray l => set_child (map (λ v, build v cJSON_New_Item) l) (set_type cJsonDap_Array item)
  | VObject l =>
      set_child (map (λ m, build m.2 (name_node m.1)) l) (set_type cJsonDap_Object item)
  end.

(** ** Strings *)

(** The UTF-8 bytes of a code point. *)
Definition utf8 (cp : Z) : text :=
  map chr (if cp <? 0x80 then [cp]
    else if cp <? 0x800 then [0xC0 + cp / 64; 0x80 + cp mod 64]
    else if cp <? 0x10000 then [0xE0 + cp / 64 / 64; 0x80 + cp / 64 mod 64; 0x80 + cp mod 64]
    else [0xF0 + cp / 64 / 64 / 64; 0x80 + cp / 64 / 64 mod 64; 0x80 + cp / 64 mod 64;
          0x80 + cp mod 64]).

Definition short_escape (e : ascii) : option ascii :=
  if e =c DQUOTE then Some DQUOTE else if e =c BSLASH then Some BSLASH
  else if e =c "/" then Some ("/"%char) else if e =c "b" then Some BS
  else if e =c "f" then Some FF else if e =c "n" then Some LF
  else if e =c "r" then Some CR else if e =c "t" then Some TAB else None.

(** The characters between the quotes, and the bytes of the string.  Left out: [\u0000], which a
    C string cannot hold, and the surrogate pairs of the code points from U+20000 on, which the
    code reads wrong. *)
Inductive string_text : text → text → Prop :=
| string_end : string_text [] []
| string_char c t s : 0x20 ≤ code c → c ≠ DQUOTE → c ≠ BSLASH → string_text t s →
    string_text (c :: t) (c :: s)
| string_short e c t s : short_escape e = Some c → string_text t s →
    string_text (BSLASH :: e :: t) (c :: s)
| string_u a b c d v t s : hex4 a b c d = Some v → v ≠ 0 → ¬ 0xD800 ≤ v ≤ 0xDFFF →
    string_text t s → string_text (u_escape a b c d ++ t) (utf8 v ++ s)
| string_pair a b c d a' b' c' d' v w t s :
    hex4 a b c d = Some v → hex4 a' b' c' d' = Some w →
    0xD800 ≤ v ≤ 0xDBFF → 0xDC00 ≤ w ≤ 0xDFFF → pair_code_point v w < 0x20000 →
    string_text t s →
    string_text (u_escape a b c d ++ u_escape a' b' c' d' ++ t) (utf8 (pair_code_point v w) ++ s).

(** ** Numbers *)

Inductive int_text : text → Prop :=
| int_zero : int_text ["0"%char]
| int_digits c t : is_digit c = true → c ≠ "0"%char → forallb is_digit t = true →
    int_text (c :: t).

Definition frac_text (fp : text) : text := if fp is [] then [] else "."%char :: fp.

Inductive exp_sign : text → Z → Prop :=
| sign_none : exp_sign [] 1
| sign_plus : exp_sign ["+"%char] 1
| sign_minus : exp_sign ["-"%char] (-1).

(** The exponent has at least one digit; its value is an [int]. *)
Inductive exp_text : text → Z → Prop :=
| exp_none : exp_text [] 0
| exp_some e t sg ds : e = "e"%char ∨ e = "E"%char → exp_sign t sg → ds ≠ [] →
    forallb is_digit ds = true → digits_value 0 ds ≤ INT_MAX →
    exp_text (e :: t ++ ds) (digits_value 0 ds * sg).

Definition digits_double (ds : text) : double := foldl push_digit dzero ds.
Definition frac_scale (fp : text) : double := foldl (λ s _, dsub s done_) dzero fp.

(** [sign * digits * 10 ^ (exponent - number of decimals)], rounded at every step. *)
Definition number_double `{Platform} (neg : bool) (ip fp : text) (ex : Z) : double :=
  dmul (dmul (of_int (if neg then -1 else 1)) (digits_double (ip ++ fp)))
    (pow dten (dadd (frac_scale fp) (of_int ex))).

Inductive number_text `{Platform} : text → double → Prop :=
| a_number neg ip fp et ex : int_text ip → forallb is_digit fp = true → exp_text et ex →
    number_text ((if neg : bool then ["-"%char] else []) ++ ip ++ frac_text fp ++ et)
      (number_double neg ip fp ex).

(** ** Values *)

Definition is_ws (c : ascii) : bool := (c =c " ") || (c =c TAB) || (c =c LF) || (c =c CR).
Definition ws (t : text) : Prop := forallb is_ws t = true.

Inductive json_text `{Platform} : text → value → Prop :=
| text_null : json_text "null" VNull
| text_false : json_text "false" (VBool false)
| text_true : json_text "true" (VBool true)
| text_number t d : number_text t d → json_text t (VNumber d)
| text_string t s : string_text t s → json_text ([DQUOTE] ++ t ++ [DQUOTE]) (VString s)
| text_empty_array w : ws w → json_text ("[" ++ w ++ "]") (VArray [])
| text_array t l : elements_text t l → json_text ("[" ++ t ++ "]") (VArray l)
| text_empty_object w : ws w → json_text ("{" ++ w ++ "}") (VObject [])
| text_object t l : members_text t l → json_text ("{" ++ t ++ "}") (VObject l)

with elements_text `{Platform} : text → list value → Prop :=
| last_element w t w' v : ws w → ws w' → json_text t v → elements_text (w ++ t ++ w') [v]
| one_element w t w' v ts l : ws w → ws w' → json_text t v → elements_text ts l →
    elements_text (w ++ t ++ w' ++ "," ++ ts) (v :: l)

with members_text `{Platform} : text → list (text * value) → Prop :=
| last_member t n v : member_text t n v → members_text t [(n, v)]
| one_member t n v ts l : member_text t n v → members_text ts l →
    members_text (t ++ "," ++ ts) ((n, v) :: l)

with member_text `{Platform} : text → text → value → Prop :=
| a_member w nt n w1 w2 t v w3 : ws w → ws w1 → ws w2 → ws w3 → string_text nt n → json_text t v →
    member_text (w ++ ([DQUOTE] ++ nt ++ [DQUOTE]) ++ w1 ++ ":" ++ w2 ++ t ++ w3) n v.

Scheme json_text_mut := Minimality for json_text Sort Prop
with elements_text_mut := Minimality for elements_text Sort Prop
with members_text_mut := Minimality for members_text Sort Prop
with member_text_mut := Minimality for member_text Sort Prop.
Combined Scheme grammar_ind from json_text_mut, elements_text_mut, members_text_mut, member_text_mut.

(** ** The bytes of a code point *)

Lemma to_char_code a z : code (to_char a) = z → to_char a = chr z.
Proof. intros <-. by rewrite chr_code. Qed.

Lemma continuation_chr uc : 0 ≤ uc → continuation uc = chr (0x80 + uc mod 64).
Proof. intros. by apply to_char_code, code_continuation. Qed.

Lemma encode_uc_spec cp : 0 ≤ cp < 0x110000 → encode_uc cp = utf8 cp.
Proof.
  intros Hu. unfold encode_uc, utf8, utf8_len. div64 cp.
  destruct (Z.ltb_spec cp 0x80); [|destruct (Z.ltb_spec cp 0x800); [|destruct (Z.ltb_spec cp 0x10000)]];
    cbn [Z.eqb Pos.eqb map]; rewrite ?shiftr_6, ?shiftr_12, ?continuation_chr by lia;
    apply (f_equal2 cons); try done; apply to_char_code.
  - change (6 * (1 - 1)) with 0. rewrite Z.shiftr_0_r. change (firstByteMark 1) with (0 * 2 ^ 7).
    rewrite code_lead; lia.
  - change (firstByteMark 2) with (6 * 2 ^ 5). rewrite code_lead; lia.
  - change (firstByteMark 3) with (14 * 2 ^ 4). rewrite code_lead; lia.
  - change (6 * (4 - 1)) with 18. change (firstByteMark 4) with (30 * 2 ^ 3).
    rewrite shiftr_18, code_lead; lia.
Qed.

Lemma length_utf8 cp : 0 ≤ cp < 0x110000 → (length (utf8 cp) ≤ 4)%nat.
Proof. intros. rewrite <- encode_uc_spec by done. apply length_encode_uc. Qed.

Lemma pair_code_point_bound v w : 0xD800 ≤ v ≤ 0xDBFF → 0xDC00 ≤ w ≤ 0xDFFF →
  0x10000 ≤ pair_code_point v w < 0x110000.
Proof. unfold pair_code_point. lia. Qed.

(** The code sets bit 16: below U+20000 it is clear before, and setting it is adding it. *)
Lemma pair_read v w : 0xD800 ≤ v ≤ 0xDBFF → 0xDC00 ≤ w ≤ 0xDFFF → pair_code_point v w < 0x20000 →
  Z.lor 0x10000 (Z.lor (Z.shiftl (Z.land v 0x3FF) 10) (Z.land w 0x3FF)) = pair_code_point v w.
Proof.
  intros Hv Hw Hp. rewrite pair_bits by done.
  pose proof (pair_code_point_bound v w Hv Hw). rewrite lor_plane by lia.
  destruct (Z.testbit (pair_code_point v w - 0x10000) 16) eqn:E; [|lia].
  rewrite (Z.bits_above_log2 _ 16) in E; [done|lia|].
  destruct (decide (pair_code_point v w - 0x10000 = 0)) as [->|]; [done|].
  apply Z.log2_lt_pow2; lia.
Qed.

(** ** Strings *)

Lemma short_escape_read e c uc uc2 t : short_escape e = Some c →
  escape uc uc2 (e :: t) = Ret ([c], uc, uc2, e :: t).
Proof. destruct e as [[] [] [] [] [] [] [] []]; try discriminate; by intros [= <-]. Qed.

Lemma short_escape_ordinary e c : short_escape e = Some c → (e =c NUL) = false ∧ c ≠ NUL.
Proof. destruct e as [[] [] [] [] [] [] [] []]; try discriminate; by intros [= <-]. Qed.

Lemma no_nul_string t s : string_text t s → no_nul t = true.
Proof.
  induction 1 as [|c t s Hc _ _ _ IH|e c t s He _ IH|a b c d v t s Hv _ _ _ IH
    |a b c d a' b' c' d' v w t s Hv Hw _ _ _ _ IH].
  - done.
  - simpl. rewrite IH, ceq_neq; [done|]. by intros ->.
  - simpl. by rewrite (proj1 (short_escape_ordinary e c He)), IH.
  - by rewrite no_nul_app, (no_nul_u_escape _ _ _ _ v), IH.
  - by rewrite !no_nul_app, (no_nul_u_escape _ _ _ _ v), (no_nul_u_escape _ _ _ _ w), IH.
Qed.

(** The first pass counts enough. *)
Lemma scan_len_string t s rest : string_text t s →
  ∃ n, scan_len (t ++ DQUOTE :: rest) = Some n ∧ (length s ≤ n)%nat.
Proof.
  induction 1 as [|c t s Hc Hq Hb _ IH|e c t s He _ IH|a b c d v t s Hv _ _ _ IH
    |a b c d a' b' c' d' v w t s Hv Hw Rv Rw Hp _ IH]; [by exists 0%nat| | | |];
    destruct IH as (n & Hn & Hl).
  - exists (S n). cbn [app scan_len]. rewrite !ceq_neq, Hn by done. split; [done|simpl; lia].
  - exists (S n). cbn [app scan_len]. change (BSLASH =c DQUOTE) with false.
    rewrite ceq_refl, Hn. split; [done|simpl; lia].
  - exists (5 + n)%nat. rewrite <- app_assoc, (scan_len_u_escape _ _ _ _ v), Hn by done.
    split; [done|]. rewrite length_app. pose proof (hex4_bound _ _ _ _ _ Hv).
    pose proof (length_utf8 v). lia.
  - exists (5 + (5 + n))%nat.
    rewrite <- !app_assoc, (scan_len_u_escape _ _ _ _ v), (scan_len_u_escape _ _ _ _ w), Hn by done.
    split; [done|]. rewrite length_app. pose proof (pair_code_point_bound v w Rv Rw).
    pose proof (length_utf8 (pair_code_point v w)). lia.
Qed.

(** The second pass writes the bytes. *)
Lemma unescape_string t s rest : string_text t s → ∀ f uc uc2, (length t < f)%nat →
  unescape f uc uc2 (t ++ DQUOTE :: rest) = Ret (s, DQUOTE :: rest).
Proof.
  induction 1 as [|c t s Hc Hq Hb _ IH|e c t s He _ IH|a b c d v t s Hv Hz Hs _ IH
    |a b c d a' b' c' d' v w t s Hv Hw Rv Rw Hp _ IH]; intros [|f] uc uc2 Hf; try (simpl in Hf; lia);
    rewrite ?length_app in Hf; cbn [length u_escape] in Hf.
  - done.
  - cbn [app unescape]. rewrite !ceq_neq by done. cbn [negb]. by rewrite IH by lia.
  - cbn [app unescape]. change (BSLASH =c DQUOTE) with false. rewrite ceq_refl. cbn [negb].
    rewrite (short_escape_read e c) by done. cbn [exec_bind]. unfold advance. cbn [length Nat.leb drop exec_bind].
    by rewrite IH by lia.
  - rewrite <- app_assoc. destruct (escape_u_bmp uc uc2 a b c d (t ++ DQUOTE :: rest) v Hv Hz Hs) as [uc' E].
    pose proof (hex4_bound _ _ _ _ _ Hv).
    change (u_escape a b c d ++ t ++ DQUOTE :: rest)
      with (BSLASH :: "u"%char :: a :: b :: c :: d :: t ++ DQUOTE :: rest).
    rewrite (unescape_u _ _ _ _ _ _ _ _ _ E), IH by lia. by rewrite encode_uc_spec by lia.
  - rewrite <- !app_assoc.
    destruct (escape_u_pair uc uc2 a b c d a' b' c' d' (t ++ DQUOTE :: rest) v w Hv Hw Rv Rw) as [uc' E].
    rewrite pair_read in E by done. pose proof (pair_code_point_bound v w Rv Rw).
    change (u_escape a b c d ++ u_escape a' b' c' d' ++ t ++ DQUOTE :: rest)
      with (BSLASH :: "u"%char :: a :: b :: c :: d :: u_escape a' b' c' d' ++ t ++ DQUOTE :: rest).
    rewrite (unescape_u _ _ _ _ _ _ _ _ _ E), IH by lia. by rewrite encode_uc_spec by lia.
Qed.

Lemma parse_string_text item t s rest : string_text t s →
  parse_string item (([DQUOTE] ++ t ++ [DQUOTE]) ++ rest)
  = Ret (set_type cJsonDap_String (set_valuestring (Some s) item), rest).
Proof.
  intros Ht. rewrite <- !app_assoc. unfold parse_string. cbn [app deref next]. rewrite ceq_refl. cbn [negb].
  destruct (scan_len_string t s rest Ht) as (n & Hn & Hl). rewrite Hn.
  rewrite (unescape_string t s rest Ht) by (simpl; rewrite length_app; simpl; lia).
  cbn [exec_bind deref next]. destruct (Nat.ltb_spec n (length s)); [lia|]. by rewrite ceq_refl.
Qed.

(** ** Numbers *)

(** A byte that ends a number. *)
Definition no_digit (rest : text) : Prop := is_digit (deref rest) = false.

Lemma read_digits_fold n ds rest : forallb is_digit ds = true → no_digit rest →
  read_digits n (ds ++ rest) = (foldl push_digit n ds, rest).
Proof.
  revert n. induction ds as [|c ds IH]; intros n Hd Hr.
  - destruct rest as [|c r]; [done|]. unfold no_digit in Hr. cbn in *. by rewrite Hr.
  - cbn in Hd. apply andb_true_iff in Hd as [Hc Hd]. cbn. by rewrite Hc, IH.
Qed.

Lemma read_fraction_fold n sc ds rest : forallb is_digit ds = true → no_digit rest →
  read_fraction n sc (ds ++ rest)
  = (foldl push_digit n ds, foldl (λ s _, dsub s done_) sc ds, rest).
Proof.
  revert n sc. induction ds as [|c ds IH]; intros n sc Hd Hr.
  - destruct rest as [|c r]; [done|]. unfold no_digit in Hr. cbn in *. by rewrite Hr.
  - cbn in Hd. apply andb_true_iff in Hd as [Hc Hd]. cbn. by rewrite Hc, IH.
Qed.

Lemma read_exponent_value a ds rest : forallb is_digit ds = true → no_digit rest →
  0 ≤ a → digits_value a ds ≤ INT_MAX → read_exponent a (ds ++ rest) = Ret (digits_value a ds, rest).
Proof.
  revert a. induction ds as [|c ds IH]; intros a Hd Hr Ha Hm.
  - destruct rest as [|c r]; [done|]. unfold no_digit in Hr. cbn in *. by rewrite Hr.
  - cbn in Hd. apply andb_true_iff in Hd as [Hc Hd]. cbn [app read_exponent]. rewrite Hc.
    change (digits_value a (c :: ds)) with (digits_value (a * 10 + digit_value c) ds) in *.
    assert (0 ≤ digit_value c) by (unfold is_digit in Hc; unfold digit_value; lia).
    pose proof (digits_value_le (a * 10 + digit_value c) ds ltac:(lia) Hd).
    rewrite (proj2 (is_int_spec _)) by (unfold INT_MIN, INT_MAX in *; lia). apply IH; done || lia.
Qed.

Lemma stops_no_digit rest : stops rest = true → no_digit rest ∧ (deref rest =c ".") = false ∧
  (deref rest =c "e") = false ∧ (deref rest =c "E") = false.
Proof.
  unfold stops, no_digit. rewrite negb_true_iff, !orb_false_iff. tauto.
Qed.

Definition is_e (c : ascii) : bool := (c =c "e") || (c =c "E").

(** The exponent, from the letter on. *)
Lemma exp_text_read et ex rest : exp_text et ex → stops rest = true →
  no_digit (et ++ rest) ∧ (deref (et ++ rest) =c ".") = false ∧
  ∃ sub sg, sub * sg = ex ∧
    (if is_e (deref (et ++ rest)) then
       let num := next (et ++ rest) in
       let '(signsubscale, num) :=
         if deref num =c "+" then (1, next num)
         else if deref num =c "-" then (-1, next num) else (1, num) in
       let* (subscale, num) := read_exponent 0 num in
       Ret (subscale, signsubscale, num)
     else Ret (0, 1, et ++ rest)) = (Ret (sub, sg, rest) : exec text _).
Proof.
  intros He Hs. destruct (stops_no_digit rest Hs) as (Hr & Hdot & Hlow & Hup).
  destruct He as [|e t sg ds He Hsg Hne Hd Hm].
  { split; [done|]. split; [done|]. exists 0, 1. split; [done|]. unfold is_e. cbn [app].
    by rewrite Hlow, Hup. }
  assert (is_e e = true ∧ is_digit e = false ∧ (e =c ".") = false) as (He1 & He2 & He3)
    by by destruct He as [-> | ->].
  split; [done|]. split; [done|]. exists (digits_value 0 ds), sg. split; [done|].
  cbn [app deref next]. rewrite He1. cbv zeta.
  assert (∀ c, is_digit c = false → (deref (ds ++ rest) =c c) = false) as Hhead.
  { intros c Hc. destruct ds as [|d ds]; [done|]. apply ceq_neq. cbn. intros ->.
    cbn in Hd. by rewrite Hc in Hd. }
  destruct Hsg; cbn [app deref next].
  - rewrite !Hhead by done. rewrite read_exponent_value by done. done.
  - rewrite ceq_refl, read_exponent_value by done. done.
  - change ("-" =c "+") with false. rewrite ceq_refl, read_exponent_value by done. done.
Qed.

(** The integer part. *)
Lemma int_text_read ip rest : int_text ip → no_digit rest →
  let num := (if deref (ip ++ rest) =c "0" then next (ip ++ rest) else ip ++ rest) in
  (if is_digit (deref num) && negb (deref num =c "0") then read_digits dzero num else (dzero, num))
  = (digits_double ip, rest).
Proof.
  intros [|c t Hc H0 Hd] Hr; cbn [app deref next]; cbv zeta.
  - rewrite ceq_refl, Hr. done.
  - rewrite ceq_neq by done. cbn [deref]. rewrite Hc, ceq_neq by done. cbn [andb negb].
    apply (read_digits_fold dzero (c :: t)); [|done]. cbn. by rewrite Hc.
Qed.

Section Grammar.
Context `{Platform}.

Lemma parse_unsigned_text item sg ip fp et ex rest :
  int_text ip → forallb is_digit fp = true → exp_text et ex → stops rest = true →
  let d := dmul (dmul sg (digits_double (ip ++ fp))) (pow dten (dadd (frac_scale fp) (of_int ex))) in
  parse_unsigned item sg ((ip ++ frac_text fp ++ et) ++ rest)
  = Ret (set_type cJsonDap_Number (set_number (to_int d) d item), rest).
Proof.
  intros Hip Hfp Het Hs d. destruct (exp_text_read et ex rest Het Hs) as (Hnd & Hdot & sub & sg' & Hex & Hrun).
  unfold parse_unsigned. rewrite <- !app_assoc. cbv zeta.
  assert (no_digit (frac_text fp ++ et ++ rest)) as Hnd' by by destruct fp.
  rewrite (int_text_read ip _ Hip Hnd').
  assert ((if (deref (frac_text fp ++ et ++ rest) =c ".")
             && is_digit (deref (next (frac_text fp ++ et ++ rest)))
           then read_fraction (digits_double ip) dzero (next (frac_text fp ++ et ++ rest))
           else (digits_double ip, dzero, frac_text fp ++ et ++ rest))
          = (digits_double (ip ++ fp), frac_scale fp, et ++ rest)) as ->.
  { unfold digits_double, frac_scale. destruct fp as [|c fp].
    - cbn [frac_text app]. rewrite Hdot. by rewrite app_nil_r.
    - cbn [frac_text app deref next]. rewrite ceq_refl. pose proof Hfp as Hc. cbn in Hc.
      apply andb_true_iff in Hc as [-> _]. cbn [andb].
      change (c :: fp ++ et ++ rest) with ((c :: fp) ++ et ++ rest).
      by rewrite (read_fraction_fold _ _ (c :: fp)), foldl_app. }
  unfold is_e in Hrun. cbv zeta in Hrun. rewrite Hrun. cbn [exec_bind]. by rewrite Hex.
Qed.

Lemma int_text_head ip : int_text ip → ∃ c r, ip = c :: r ∧ is_digit c = true.
Proof. intros [|c t Hc _ _]; by do 2 eexists. Qed.

Lemma parse_number_text item t d rest : number_text t d → stops rest = true →
  parse_number item (t ++ rest)
  = Ret (set_type cJsonDap_Number (set_number (to_int d) d item), rest).
Proof.
  intros [neg ip fp et ex Hip Hfp Het] Hs. unfold parse_number. destruct neg.
  - rewrite <- app_assoc. cbn [app deref next]. rewrite ceq_refl. by apply parse_unsigned_text.
  - destruct (int_text_head ip Hip) as (c & r & Hc & Hd). cbn [app].
    assert ((deref ((ip ++ frac_text fp ++ et) ++ rest) =c "-") = false) as ->.
    { rewrite Hc. cbn. apply ceq_neq. by intros ->. }
    by apply parse_unsigned_text.
Qed.

Lemma number_text_head t d : number_text t d → ∃ c r, t = c :: r ∧ (c =c "-") || is_digit c = true.
Proof.
  intros [[] ip fp et ex Hip Hfp Het]; [by do 2 eexists|].
  destruct (int_text_head ip Hip) as (c & r & -> & Hd). exists c, (r ++ frac_text fp ++ et).
  split; [done|]. rewrite Hd. apply orb_true_r.
Qed.

Lemma no_nul_number t d : number_text t d → no_nul t = true.
Proof.
  intros [neg ip fp et ex Hip Hfp Het]. rewrite !no_nul_app.
  assert (no_nul ip = true) as ->.
  { destruct Hip as [|c t0 Hc _ Ht]; [done|]. apply no_nul_digits. cbn. by rewrite Hc. }
  assert (no_nul (frac_text fp) = true) as ->.
  { destruct fp; [done|]. apply no_nul_digits in Hfp. exact Hfp. }
  assert (no_nul et = true) as ->.
  { destruct Het as [|e t0 sg ds He Hsg _ Hd _]; [done|]. apply no_nul_digits in Hd.
    destruct He as [-> | ->], Hsg; exact Hd. }
  by destruct neg.
Qed.

(** ** Values *)

Lemma ws_cons c w : ws (c :: w) → is_ws c = true ∧ ws w.
Proof. unfold ws. cbn. by rewrite andb_true_iff. Qed.

Lemma is_ws_spec c : is_ws c = true → c = " "%char ∨ c = TAB ∨ c = LF ∨ c = CR.
Proof.
  unfold is_ws. rewrite !orb_true_iff. intros [[[E|E]|E]|E]; apply ceq_true in E; tauto.
Qed.

Lemma skip_ws w x : ws w → skip (w ++ x) = skip x.
Proof.
  induction w as [|c w IH]; [done|]. intros [Hc Hw]%ws_cons. rewrite <- (IH Hw).
  by destruct (is_ws_spec c Hc) as [->|[->|[->| ->]]].
Qed.

Lemma stops_ws w rest : ws w → stops rest = true → stops (w ++ rest) = true.
Proof.
  destruct w as [|c w]; [done|]. intros [Hc _]%ws_cons _.
  by destruct (is_ws_spec c Hc) as [->|[->|[->| ->]]].
Qed.

Lemma no_nul_ws w : ws w → no_nul w = true.
Proof.
  induction w as [|c w IH]; [done|]. intros [Hc Hw]%ws_cons.
  change (no_nul (c :: w)) with (negb (c =c NUL) && no_nul w). rewrite IH by done.
  by destruct (is_ws_spec c Hc) as [->|[->|[->| ->]]].
Qed.

Definition builds (t : text) (v : value) : Prop :=
  no_nul t = true ∧ visible t ∧ ∀ item rest, child item = [] → stops rest = true →
    ∃ F, parse_value F item (t ++ rest) = Ret (build v item, rest).

(** What follows the bracket or a comma of an array. *)
Definition builds_elements (t : text) (l : list value) : Prop :=
  no_nul t = true ∧ (∀ x, ∃ c r, skip (t ++ x) = c :: r ∧ c ≠ "]"%char) ∧
  ∀ item chain rest, ∃ F,
    (let* (c, x) := parse_value F cJSON_New_Item (skip (t ++ "]" ++ rest)) in
     parse_array_loop F item (chain ++ [c]) (skip x))
    = Ret (set_child (chain ++ map (λ v, build v cJSON_New_Item) l) item, rest).

Definition builds_member (t n : text) (v : value) : Prop :=
  no_nul t = true ∧ (∀ x, ∃ r, skip (t ++ x) = DQUOTE :: r) ∧
  ∀ rest, stops rest = true → ∃ F,
    parse_member (parse_value F) (t ++ rest) = Ret (build v (name_node n), skip rest).

(** What follows the brace or a comma of an object. *)
Definition builds_members (t : text) (l : list (text * value)) : Prop :=
  no_nul t = true ∧ (∀ x, ∃ r, skip (t ++ x) = DQUOTE :: r) ∧
  ∀ item chain rest, ∃ F,
    (let* (c, x) := parse_member (parse_value F) (t ++ "}" ++ rest) in
     parse_object_loop F item (chain ++ [c]) x)
    = Ret (set_child (chain ++ map (λ m, build m.2 (name_node m.1)) l) item, rest).

Lemma builds_literals :
  builds "null" VNull ∧ builds "false" (VBool false) ∧ builds "true" (VBool true).
Proof.
  split; [|split]; (split; [done|]; split; [by do 2 eexists|]);
    intros item rest _ _; exists 1%nat; reflexivity.
Qed.

Lemma builds_number t d : number_text t d → builds t (VNumber d).
Proof.
  intros Ht. destruct (number_text_head t d Ht) as (c & r & Hc & Hd).
  pose proof (numeric_head c Hd) as (? & ? & ? & ? & ? & ?).
  split; [by eapply no_nul_number|]. split; [by exists c, r|]. intros item rest Hi Hs.
  exists 1%nat. rewrite (eq_sym (parse_number_text item t d rest Ht Hs) : Ret (build (VNumber d) item, rest) = _).
  cbn [parse_value].
  assert (∀ p ps, c ≠ p → starts_with (p :: ps) (t ++ rest) = false) as Hsw.
  { intros p ps Hp. rewrite Hc. simpl. by rewrite ceq_neq. }
  unfold lit; simpl list_ascii_of_string. rewrite !Hsw by done.
  rewrite Hc. cbn [app deref]. by rewrite ceq_neq, Hd by done.
Qed.

Lemma builds_string t s : string_text t s → builds ([DQUOTE] ++ t ++ [DQUOTE]) (VString s).
Proof.
  intros Ht. split; [|split; [by do 2 eexists|]].
  - rewrite !no_nul_app. by rewrite (no_nul_string t s).
  - intros item rest _ _. exists 1%nat.
    rewrite (eq_sym (parse_string_text item t s rest Ht) : Ret (build (VString s) item, rest) = _).
    reflexivity.
Qed.

Lemma parse_member_skip f w : parse_member (parse_value f) (skip w) = parse_member (parse_value f) w.
Proof. unfold parse_member. by rewrite skip_idem. Qed.

Lemma builds_empty w : ws w →
  builds ("[" ++ w ++ "]") (VArray []) ∧ builds ("{" ++ w ++ "}") (VObject []).
Proof.
  intros Hw. split; (split; [rewrite !no_nul_app; by rewrite (no_nul_ws w Hw)|]);
    (split; [by do 2 eexists|]); intros item rest Hi _; exists 2%nat; rewrite <- !app_assoc;
    cbn [app lit list_ascii_of_string].
  - rewrite parse_value_bracket, skip_ws by done. destruct item. cbn in Hi. by subst.
  - rewrite parse_value_brace, skip_ws by done. destruct item. cbn in Hi. by subst.
Qed.

Lemma builds_array t l : builds_elements t l → builds ("[" ++ t ++ "]") (VArray l).
Proof.
  intros (Hn & Hh & Hr). split; [rewrite !no_nul_app; by rewrite Hn|].
  split; [by do 2 eexists|]. intros item rest Hi _.
  destruct (Hr (set_type cJsonDap_Array item) [] rest) as [F HF]. exists (S (S F)).
  rewrite <- !app_assoc. cbn [app lit list_ascii_of_string]. rewrite parse_value_bracket. cbv zeta.
  destruct (Hh ("]" ++ rest)) as (c & r & Hc & Hne). cbn [app lit list_ascii_of_string] in *.
  rewrite skip_idem, Hc. cbn [deref]. rewrite ceq_neq by done. rewrite <- Hc. exact HF.
Qed.

Lemma builds_object t l : builds_members t l → builds ("{" ++ t ++ "}") (VObject l).
Proof.
  intros (Hn & Hh & Hr). split; [rewrite !no_nul_app; by rewrite Hn|].
  split; [by do 2 eexists|]. intros item rest Hi _.
  destruct (Hr (set_type cJsonDap_Object item) [] rest) as [F HF]. exists (S (S F)).
  rewrite <- !app_assoc. cbn [app lit list_ascii_of_string]. rewrite parse_value_brace. cbv zeta.
  rewrite parse_member_skip.
  destruct (Hh ("}" ++ rest)) as (r & Hc). cbn [app lit list_ascii_of_string] in *.
  rewrite Hc. exact HF.
Qed.

(** The element, from the blanks before it to those after it. *)
Lemma builds_padded w t w' v rest : ws w → ws w' → builds t v → stops rest = true →
  ∃ F, ∀ G, (F ≤ G)%nat →
    (∃ x, parse_value G cJSON_New_Item (skip (w ++ t ++ w' ++ rest))
          = Ret (build v cJSON_New_Item, x) ∧ skip x = skip rest).
Proof.
  intros Hw Hw' (_ & Hvis & Hr) Hs.
  destruct (Hr cJSON_New_Item (w' ++ rest) eq_refl) as [F HF]; [by apply stops_ws|].
  exists F. intros G HG. exists (w' ++ rest). rewrite skip_ws, skip_out by done.
  split; [by apply (parse_value_mono F)|by apply skip_ws].
Qed.

Lemma padded_head w t x : ws w → visible t → ∃ c r, skip (w ++ t ++ x) = c :: r ∧ c ≠ "]"%char.
Proof.
  intros Hw Hv. rewrite skip_ws, skip_out by done. destruct Hv as (c & r & -> & _ & ?).
  by exists c, (r ++ x).
Qed.

Lemma builds_last_element w t w' v : ws w → ws w' → builds t v →
  builds_elements (w ++ t ++ w') [v].
Proof.
  intros Hw Hw' Ht. split; [|split].
  - rewrite !no_nul_app, (no_nul_ws w Hw), (no_nul_ws w' Hw'). by rewrite (proj1 Ht).
  - intros x. rewrite <- !app_assoc. apply padded_head; [done|apply Ht].
  - intros item chain rest. destruct (builds_padded w t w' v ("]" ++ rest) Hw Hw' Ht) as [F HF]; [done|].
    exists (S F). destruct (HF (S F)) as (x & Hx & Hsk); [lia|]. rewrite <- !app_assoc, Hx.
    cbn [exec_bind]. rewrite Hsk. reflexivity.
Qed.

Lemma builds_one_element w t w' v ts l : ws w → ws w' → builds t v → builds_elements ts l →
  builds_elements (w ++ t ++ w' ++ "," ++ ts) (v :: l).
Proof.
  intros Hw Hw' Ht (Hn & Hh & Hr). split; [|split].
  - rewrite !no_nul_app, (no_nul_ws w Hw), (no_nul_ws w' Hw'), (proj1 Ht). by rewrite Hn.
  - intros x. rewrite <- !app_assoc. apply padded_head; [done|apply Ht].
  - intros item chain rest.
    destruct (builds_padded w t w' v ("," ++ ts ++ "]" ++ rest) Hw Hw' Ht) as [F HF]; [done|].
    destruct (Hr item (chain ++ [build v cJSON_New_Item]) rest) as [F' HF'].
    exists (S (Nat.max F F')). destruct (HF (S (Nat.max F F'))) as (x & Hx & Hsk); [lia|].
    rewrite <- !app_assoc, Hx. cbn [exec_bind]. rewrite Hsk.
    cbn [app lit list_ascii_of_string]. rewrite skip_visible by done.
    cbn [parse_array_loop deref next]. rewrite ceq_refl.
    apply exec_bind_Ret in HF' as ([c y] & Hc & Hl).
    rewrite (parse_value_mono F' _ _ _ _ (Nat.le_max_r _ _) Hc) by done. cbn [exec_bind].
    destruct (parse_mono F') as (_ & _ & Hmono & _).
    rewrite (Hmono _ _ _ _ _ (Nat.le_max_r _ _) Hl) by done. by rewrite <- !app_assoc.
Qed.

Lemma builds_a_member w nt n w1 w2 t v w3 : ws w → ws w1 → ws w2 → ws w3 → string_text nt n →
  builds t v → builds_member (w ++ ([DQUOTE] ++ nt ++ [DQUOTE]) ++ w1 ++ ":" ++ w2 ++ t ++ w3) n v.
Proof.
  intros Hw Hw1 Hw2 Hw3 Hn (Ht & Hvis & Hr). split; [|split].
  - rewrite !no_nul_app, (no_nul_ws w Hw), (no_nul_ws w1 Hw1), (no_nul_ws w2 Hw2), (no_nul_ws w3 Hw3).
    by rewrite (no_nul_string nt n), Ht.
  - intros x. rewrite <- !app_assoc, skip_ws by done. by eexists.
  - intros rest Hs. destruct (Hr (name_node n) (w3 ++ rest) eq_refl) as [F HF]; [by apply stops_ws|].
    exists F. unfold parse_member. rewrite <- !app_assoc, skip_ws by done.
    change (skip ([DQUOTE] ++ ?x)) with ([DQUOTE] ++ x).
    pose proof (parse_string_text cJSON_New_Item nt n
                  (w1 ++ ":" ++ w2 ++ t ++ w3 ++ rest) Hn) as Hp.
    rewrite <- !app_assoc in Hp. rewrite Hp. cbn [exec_bind]. rewrite skip_ws by done.
    cbn [app lit list_ascii_of_string]. rewrite skip_visible by done. cbn [deref next].
    rewrite ceq_refl. cbn [negb]. rewrite skip_ws, skip_out by done.
    change (name_from_value _) with (name_node n). rewrite HF. cbn [exec_bind].
    by rewrite skip_ws.
Qed.

Lemma builds_last_member t n v : builds_member t n v → builds_members t [(n, v)].
Proof.
  intros (Hn & Hh & Hr). split; [done|]. split; [done|]. intros item chain rest.
  destruct (Hr ("}" ++ rest)) as [F HF]; [done|]. exists (S F).
  rewrite (parse_member_le F (S F) _ _ (Nat.le_succ_diag_r F) HF). reflexivity.
Qed.

Lemma builds_one_member t n v ts l : builds_member t n v → builds_members ts l →
  builds_members (t ++ "," ++ ts) ((n, v) :: l).
Proof.
  intros (Hn & Hh & Hr) (Hn' & Hh' & Hr'). split; [|split].
  - rewrite !no_nul_app. by rewrite Hn, Hn'.
  - intros x. rewrite <- !app_assoc. apply Hh.
  - intros item chain rest. rewrite <- !app_assoc.
    destruct (Hr ("," ++ ts ++ "}" ++ rest)) as [F HF]; [done|].
    destruct (Hr' item (chain ++ [build v (name_node n)]) rest) as [F' HF'].
    exists (S (Nat.max F F')).
    rewrite (parse_member_le F (S (Nat.max F F')) _ _ ltac:(lia) HF). cbn [exec_bind].
    cbn [app lit list_ascii_of_string]. rewrite skip_visible by done.
    cbn [parse_object_loop deref next]. rewrite ceq_refl.
    apply exec_bind_Ret in HF' as ([c y] & Hc & Hl).
    rewrite (parse_member_le F' _ _ _ (Nat.le_max_r _ _) Hc). cbn [exec_bind].
    destruct (parse_mono F') as (_ & _ & _ & _ & Hmono).
    rewrite (Hmono _ _ _ _ _ (Nat.le_max_r _ _) Hl) by done. by rewrite <- !app_assoc.
Qed.

Lemma grammar_builds :
  (∀ t v, json_text t v → builds t v) ∧ (∀ t l, elements_text t l → builds_elements t l) ∧
  (∀ t l, members_text t l → builds_members t l) ∧
  (∀ t n v, member_text t n v → builds_member t n v).
Proof.
  apply grammar_ind; intros; try apply builds_literals; try (by apply builds_empty);
    eauto using builds_number, builds_string, builds_array, builds_object, builds_last_element,
      builds_one_element, builds_last_member, builds_one_member, builds_a_member.
Qed.

(** A text that builds a value, between white space, is the whole of a text to be parsed. *)
Lemma builds_parsed w t v w' : ws w → builds t v → ws w' →
  cJSON_Parse (w ++ t ++ w') = Ret (build v cJSON_New_Item).
Proof.
  intros Hw (Hn & Hvis & Hr) Hw'.
  destruct (Hr cJSON_New_Item w' eq_refl) as [F HF].
  { rewrite <- (app_nil_r w'). by apply stops_ws. }
  unfold cJSON_Parse. rewrite c_str_id by by rewrite !no_nul_app, (no_nul_ws w Hw), (no_nul_ws w' Hw'), Hn.
  rewrite skip_ws, skip_out by done.
  by rewrite (parse_enough F _ _ _ HF).
Qed.

End Grammar.

Section Samples.
#[local] Existing Instance sample_platform.

Lemma sample_number : number_text "-2.5E3" (number_double true "2" "5" 3).
Proof.
  refine (a_number true ["2"%char] ["5"%char] ["E"%char; "3"%char] 3 _ _ _); [| |].
  - by constructor.
  - reflexivity.
  - by apply (exp_some "E" [] 1 ["3"%char]); [right|constructor|..].
Qed.

Lemma sample_string : string_text "a\n" ["a"%char; LF].
Proof. by apply string_char; [done..|]; apply string_short; [|constructor]. Qed.

Definition sample_member : text :=
  " " ++ ([DQUOTE] ++ "a\n" ++ [DQUOTE]) ++ [] ++ ":" ++ " " ++ "-2.5E3" ++ [].
Definition sample_value : value :=
  VObject [(["a"%char; LF], VNumber (number_double true "2" "5" 3))].

End Samples.
