(* ===== verification/CJsonTree.v ===== *)
(** * cJSON.cpp: building, reading and changing trees.

    An operation that changes a node returns the changed node; the chain of children is the
    list [child].  The item added or put in place of another one is a node of its own, with no
    siblings, which is how the program calls these functions. *)
From S2P Require Import Prelude.
From S2P Require Import Double.
From S2P Require Import CJson.
Local Open Scope Z_scope.

(** [tolower] of the C locale. *)
Definition tolower (c : ascii) : Z :=
  if (65 <=? code c) && (code c <=? 90) then code c + 32 else code c.

(** The comparison loop of two texts, the terminator at their ends. *)
Fixpoint strcasecmp_loop (s1 s2 : text) : Z :=
  match s1, s2 with
  | c1 :: r1, c2 :: r2 =>
      if tolower c1 =? tolower c2 then strcasecmp_loop r1 r2 else tolower c1 - tolower c2
  | _, _ => tolower (deref s1) - tolower (deref s2)
  end.

Definition cJSON_strcasecmp (s1 s2 : option text) : Z :=
  match s1, s2 with
  | None, None => 0
  | None, Some _ => 1
  | Some _, None => 1
  | Some a, Some b => strcasecmp_loop (c_str a) (c_str b)
  end.

Definition cJSON_strdup (str : text) : text := c_str str.

(** ** Reading *)

Definition cJSON_GetArraySize (array : cJsonDap) : Z := Z.of_nat (length (child array)).

(** [while(c && item > 0) item--, c = c->next]. *)
Fixpoint nth_child (l : list cJsonDap) (item : Z) : option cJsonDap :=
  match l with
  | [] => None
  | c :: r => if 0 <? item then nth_child r (item - 1) else Some c
  end.

Definition cJSON_GetArrayItem (array : cJsonDap) (item : Z) : option cJsonDap :=
  nth_child (child array) item.

(** The first child with the name, any case, and its index. *)
Fixpoint find_child (l : list cJsonDap) (i : Z) (string : text) : option (Z * cJsonDap) :=
  match l with
  | [] => None
  | c :: r =>
      if cJSON_strcasecmp (item_string c) (Some string) =? 0 then Some (i, c)
      else find_child r (i + 1) string
  end.

Definition cJSON_GetObjectItem (object : cJsonDap) (string : text) : option cJsonDap :=
  snd <$> find_child (child object) 0 string.

(** ** Adding *)

Definition cJSON_AddItemToArray (array : cJsonDap) (item : option cJsonDap) : cJsonDap :=
  match item with
  | None => array
  | Some i => set_child (child array ++ [i]) array
  end.

Definition cJSON_AddItemToObject (object : cJsonDap) (string : text) (item : option cJsonDap) :
    cJsonDap :=
  match item with
  | None => object
  | Some i => cJSON_AddItemToArray object (Some (set_string (Some (cJSON_strdup string)) i))
  end.

(** ** Detaching and deleting *)

Fixpoint detach_nth (l : list cJsonDap) (which : Z) : option cJsonDap * list cJsonDap :=
  match l with
  | [] => (None, [])
  | c :: r =>
      if 0 <? which then let '(o, r') := detach_nth r (which - 1) in (o, c :: r')
      else (Some c, r)
  end.

(** The detached item, and the array without it. *)
Definition cJSON_DetachItemFromArray (array : cJsonDap) (which : Z) :
    option cJsonDap * cJsonDap :=
  let '(o, l) := detach_nth (child array) which in (o, set_child l array).

Definition cJSON_DeleteItemFromArray (array : cJsonDap) (which : Z) : cJsonDap :=
  snd (cJSON_DetachItemFromArray array which).

Definition cJSON_DetachItemFromObject (object : cJsonDap) (string : text) :
    option cJsonDap * cJsonDap :=
  match find_child (child object) 0 string with
  | Some (i, _) => cJSON_DetachItemFromArray object i
  | None => (None, object)
  end.

Definition cJSON_DeleteItemFromObject (object : cJsonDap) (string : text) : cJsonDap :=
  snd (cJSON_DetachItemFromObject object string).

(** ** Replacing *)

Fixpoint replace_nth (l : list cJsonDap) (which : Z) (newitem : cJsonDap) : list cJsonDap :=
  match l with
  | [] => []
  | c :: r => if 0 <? which then c :: replace_nth r (which - 1) newitem else newitem :: r
  end.

Definition cJSON_ReplaceItemInArray (array : cJsonDap) (which : Z) (newitem : cJsonDap) :
    cJsonDap :=
  set_child (replace_nth (child array) which newitem) array.

Definition cJSON_ReplaceItemInObject (object : cJsonDap) (string : text) (newitem : cJsonDap) :
    cJsonDap :=
  match find_child (child object) 0 string with
  | Some (i, _) =>
      cJSON_ReplaceItemInArray object i (set_string (Some (cJSON_strdup string)) newitem)
  | None => object
  end.

(** ** Creating *)

Definition cJSON_CreateNull : cJsonDap := set_type cJsonDap_Null cJSON_New_Item.
Definition cJSON_CreateTrue : cJsonDap := set_type cJsonDap_True cJSON_New_Item.
Definition cJSON_CreateFalse : cJsonDap := set_type cJsonDap_False cJSON_New_Item.
Definition cJSON_CreateBool (b : bool) : cJsonDap :=
  set_type (if b then cJsonDap_True else cJsonDap_False) cJSON_New_Item.
Definition cJSON_CreateNumber `{Platform} (num : double) : cJsonDap :=
  set_type cJsonDap_Number (set_number (to_int num) num cJSON_New_Item).
Definition cJSON_CreateString (string : text) : cJsonDap :=
  set_type cJsonDap_String (set_valuestring (Some (cJSON_strdup string)) cJSON_New_Item).
Definition cJSON_CreateArray : cJsonDap := set_type cJsonDap_Array cJSON_New_Item.
Definition cJSON_CreateObject : cJsonDap := set_type cJsonDap_Object cJSON_New_Item.

(** The [cJSON_Create...Array] functions: the elements become the chain of a new array. *)
Definition cJSON_CreateIntArray `{Platform} (numbers : list Z) : cJsonDap :=
  set_child (map (λ n, cJSON_CreateNumber (of_int n)) numbers) cJSON_CreateArray.
Definition cJSON_CreateDoubleArray `{Platform} (numbers : list double) : cJsonDap :=
  set_child (map cJSON_CreateNumber numbers) cJSON_CreateArray.
(** A [float] becomes a [double] without a loss. *)
Definition double_of_float (f : spec_float) : double :=
  match f with
  | S754_finite s m e => binary_normalize prec emax (if s then Zneg m else Zpos m) e s
  | _ => f
  end.
Definition cJSON_CreateFloatArray `{Platform} (numbers : list spec_float) : cJsonDap :=
  set_child (map (λ n, cJSON_CreateNumber (double_of_float n)) numbers) cJSON_CreateArray.
Definition cJSON_CreateStringArray (strings : list text) : cJsonDap :=
  set_child (map cJSON_CreateString strings) cJSON_CreateArray.

(** ** Lemmas *)

Lemma strcasecmp_refl s : strcasecmp_loop s s = 0.
Proof. induction s as [|c s IH]; simpl; [done|]. by rewrite Z.eqb_refl. Qed.

Lemma cJSON_strcasecmp_refl s : cJSON_strcasecmp s s = 0.
Proof. destruct s; [apply strcasecmp_refl|done]. Qed.

Lemma tolower_zero c : tolower c = 0 → c = NUL.
Proof.
  unfold tolower. pose proof (code_bound c). case_match; intros Hc; [lia|].
  by apply code_inj.
Qed.

(** Equality of names up to case: what the comparison decides. *)
Lemma strcasecmp_zero a b : no_nul a = true → no_nul b = true →
  strcasecmp_loop a b = 0 ↔ map tolower a = map tolower b.
Proof.
  revert b; induction a as [|x a IH]; intros [|y b]; simpl; intros Ha Hb; try done.
  - apply andb_true_iff in Hb as [Hy _]. split; [|done].
    change (tolower NUL) with 0. intros Hz. rewrite (tolower_zero y) in Hy by lia. done.
  - apply andb_true_iff in Ha as [Hx _]. split; [|done].
    change (tolower NUL) with 0. intros Hz. rewrite (tolower_zero x) in Hx by lia. done.
  - apply andb_true_iff in Ha as [_ Ha], Hb as [_ Hb].
    destruct (Z.eqb_spec (tolower x) (tolower y)) as [E|E].
    + rewrite IH by done. rewrite E. split; congruence.
    + split; [lia|congruence].
Qed.

Lemma nth_child_lookup l i : nth_child l (Z.of_nat i) = l !! i.
Proof.
  revert i; induction l as [|c l IH]; intros [|i]; try done.
  cbn [nth_child]. destruct (Z.ltb_spec 0 (Z.of_nat (S i))); [|lia].
  replace (Z.of_nat (S i) - 1) with (Z.of_nat i) by lia. apply IH.
Qed.

Lemma detach_nth_spec l i : detach_nth l (Z.of_nat i) = (l !! i, delete i l).
Proof.
  revert i; induction l as [|c l IH]; intros [|i]; try done.
  cbn [detach_nth]. destruct (Z.ltb_spec 0 (Z.of_nat (S i))); [|lia].
  replace (Z.of_nat (S i) - 1) with (Z.of_nat i) by lia. rewrite IH. done.
Qed.

Lemma replace_nth_spec l i x : replace_nth l (Z.of_nat i) x = <[i := x]> l.
Proof.
  revert i; induction l as [|c l IH]; intros [|i]; try done.
  cbn [replace_nth]. destruct (Z.ltb_spec 0 (Z.of_nat (S i))); [|lia].
  replace (Z.of_nat (S i) - 1) with (Z.of_nat i) by lia. rewrite IH. done.
Qed.

Lemma find_child_index l k s i c : find_child l k s = Some (i, c) →
  ∃ n, i = k + Z.of_nat n ∧ l !! n = Some c.
Proof.
  revert k; induction l as [|x l IH]; intros k; simpl; [done|].
  case_match.
  - intros [= <- <-]. exists 0%nat. split; [lia|done].
  - intros (n & -> & Hn)%IH. exists (S n). split; [lia|done].
Qed.

Lemma find_child_app l k l' s :
  find_child (l ++ l') k s
  = match find_child l k s with
    | Some r => Some r
    | None => find_child l' (k + Z.of_nat (length l)) s
    end.
Proof.
  revert k; induction l as [|x l IH]; intros k; simpl; [f_equal; lia|].
  case_match; [done|]. rewrite IH. case_match; [done|]. f_equal. lia.
Qed.
