(* ===== verification/Json.v ===== *)
(** * JSON.cpp, JSON.hpp: the [Json] handle.

    A [Json] is a pointer to a node or null: [None] is [Json(nullptr)].  An operation that
    changes the node gives the handle with the changed node.  [AddArray] and [AddObject]
    return a handle to the node they added, and what the caller then adds through that handle
    is a part of the parent: here they take it as a continuation ([..._then]).  The reference
    counts of [Manage], [UnManage], [IncRef] and [DecRef] only decide when a tree is freed, and
    a value of this model is never freed. *)
From S2P Require Import Prelude.
From S2P Require Import Double.
From S2P Require Import CJson.
From S2P Require Import CJsonPrint.
From S2P Require Import CJsonParse.
From S2P Require Import CJsonRoundTrip.
From S2P Require Import CJsonTree.
Local Open Scope Z_scope.

Abbreviation Json := (option cJsonDap).

#[global] Arguments of_int : simpl never.
#[global] Arguments c_str : simpl never.

(** ** Reading *)

Definition IsOK (m_cjson : Json) : bool := if m_cjson is Some _ then true else false.
Definition IsArray (m_cjson : Json) : bool :=
  if m_cjson is Some t then type t =? cJsonDap_Array else false.
Definition IsObject (m_cjson : Json) : bool :=
  if m_cjson is Some t then type t =? cJsonDap_Object else false.

Definition GetName (m_cjson : Json) : text :=
  match m_cjson with
  | Some t => default [] (item_string t)
  | None => []
  end.

Fixpoint first_named (l : list cJsonDap) (index : text) : Json :=
  match l with
  | [] => None
  | c :: r =>
      match item_string c with
      | Some s => if s =t index then Some c else first_named r index
      | None => first_named r index
      end
  end.

(** [operator\[\](const wxString&)]. The indices of the program are literals: [strcmp] compares
    them whole. *)
Definition member (json : Json) (index : text) : Json :=
  match json with
  | None => None
  | Some t => first_named (child t) index
  end.

Definition GetCount (json : Json) : nat :=
  match json with
  | None => 0
  | Some t => length (child t)
  end.

(** [operator\[\](size_t)]. *)
Definition element (json : Json) (index : nat) : Json :=
  if (GetCount json <=? index)%nat then None
  else match json with Some t => child t !! index | None => None end.

Definition GetString (defaultVaule : text) (json : Json) : text :=
  match json with
  | Some t => if type t =? cJsonDap_String then default [] (valuestring t) else defaultVaule
  | None => defaultVaule
  end.

Definition GetNumber (defaultVaule : double) (json : Json) : double :=
  match json with
  | Some t => if type t =? cJsonDap_Number then valuedouble t else defaultVaule
  | None => defaultVaule
  end.

Definition GetInteger (defaultVaule : Z) (json : Json) : Z :=
  match json with
  | Some t => if type t =? cJsonDap_Number then valueint t else defaultVaule
  | None => defaultVaule
  end.

(** The second test compares the pointer, not the type, with [cJsonDap_False], which is 0: it
    holds for every node. *)
Definition GetBool (defaultVaule : bool) (json : Json) : bool :=
  match json with
  | None => defaultVaule
  | Some t =>
      if negb (type t =? cJsonDap_True) && IsOK (Some t) then defaultVaule
      else type t =? cJsonDap_True
  end.

Definition GetStringArray (json : Json) : list text :=
  if IsArray json then map (λ i, GetString [] (element json i)) (seq 0 (GetCount json))
  else [].

(** ** Building *)

Definition CreateArray : Json := Some cJSON_CreateArray.
Definition CreateObject : Json := Some cJSON_CreateObject.

(** [CHECK_IS_CONTAINER] and the choice between the object and the array: the node [item] is
    added under [name] or at the end. *)
Definition add_to_container (name : text) (item : Json) (json : Json) : Json :=
  match json with
  | None => None
  | Some t =>
      if negb (IsArray json) && negb (IsObject json) then json
      else if IsObject json then Some (cJSON_AddItemToObject t name item)
      else Some (cJSON_AddItemToArray t item)
  end.

Definition Add_string (name value : text) : Json → Json :=
  add_to_container name (Some (cJSON_CreateString value)).
Definition Add_double `{Platform} (name : text) (value : double) : Json → Json :=
  add_to_container name (Some (cJSON_CreateNumber value)).
Definition Add_int `{Platform} (name : text) (value : Z) : Json → Json :=
  Add_double name (of_int value).
Definition Add_bool (name : text) (value : bool) : Json → Json :=
  add_to_container name (Some (cJSON_CreateBool value)).

(** [AddItem] and the use of the handle it returns: [k] is what the caller does with it. *)
Definition AddItem_then (name : text) (item : cJsonDap) (k : Json → Json) (json : Json) : Json :=
  match json with
  | None => None
  | Some t =>
      if negb (type t =? cJsonDap_Array) && negb (type t =? cJsonDap_Object) then json
      else
        let item := k (Some item) in
        if type t =? cJsonDap_Array then Some (cJSON_AddItemToArray t item)
        else Some (cJSON_AddItemToObject t name item)
  end.

Definition AddArray_then (name : text) (k : Json → Json) : Json → Json :=
  AddItem_then name cJSON_CreateArray k.
Definition AddObject_then (name : text) (k : Json → Json) : Json → Json :=
  AddItem_then name cJSON_CreateObject k.

(** [AddObject(name, obj)]: no test that the node is a container; the tree of [obj] becomes a
    part of this one. *)
Definition AddObject_json (name : text) (obj : Json) (json : Json) : Json :=
  match json with
  | None => None
  | Some t => Some (cJSON_AddItemToObject t name obj)
  end.

(** [Add(name, const Json&)]. *)
Definition Add_json (name : text) (value : Json) (json : Json) : Json :=
  match json with
  | None => None
  | Some t =>
      if negb (IsArray json) && negb (IsObject json) then json
      else if IsObject json then AddObject_json name value json
      else Some (cJSON_AddItemToArray t value)
  end.

(** [Add(name, const std::vector<wxString>&)]. *)
Definition Add_strings (name : text) (value : list text) : Json → Json :=
  AddArray_then name (λ a, foldl (λ a s, Add_string [] s a) a value).

(** ** Text *)

Definition ToString `{Platform} (pretty : bool) (json : Json) : exec unit text :=
  match json with
  | None => Ret []
  | Some t =>
      match (if pretty then cJSON_Print t else cJSON_PrintUnformatted t) with
      | Err _ => Ret []
      | r => r
      end
  end.

Definition Parse `{Platform} (source : text) : exec unit Json :=
  match cJSON_Parse source with
  | Ret t => Ret (Some t)
  | Err _ => Ret None
  | Undef => Undef
  | NoFuel => NoFuel
  end.

(** ** What a handle denotes *)

(** The handle points to a plain tree with no name, with the value [v]. *)
Definition jdenotes (j : Json) (v : json) : Prop := ∃ t, j = Some t ∧ element_denotes t v.

(** What the value says of the node. *)
Lemma denotes_inv t v : denotes t v →
  match v with
  | JNull => type t = cJsonDap_Null ∧ child t = []
  | JBool b => type t = (if b then cJsonDap_True else cJsonDap_False) ∧ child t = []
  | JInt n => type t = cJsonDap_Number ∧ child t = [] ∧ valueint t = n ∧ valuedouble t = of_int n
  | JString s => type t = cJsonDap_String ∧ child t = [] ∧ valuestring t = Some s
  | JArray vs => type t = cJsonDap_Array ∧ Forall2 element_denotes (child t) vs
  | JObject ms => type t = cJsonDap_Object ∧ Forall2 member_denotes (child t) ms
  end.
Proof.
  intros [Hp Hv]. destruct t as [ty vs vi vd n l]. cbn -[Z.land] in *.
  apply andb_true_iff in Hp as [Hr Hp]. apply andb_true_iff in Hr as [Hr1 Hr2].
  assert (Z.land ty 255 = ty) as Hl.
  { change 255 with (Z.ones 8). rewrite Z.land_ones by lia. apply Z.mod_small. lia. }
  rewrite Hl in Hv.
  assert (ty ≠ cJsonDap_Array → ty ≠ cJsonDap_Object → l = []) as Hleaf.
  { intros ??. destruct (Z.eqb_spec ty cJsonDap_Array), (Z.eqb_spec ty cJsonDap_Object);
      try done. by destruct l. }
  unfold cJsonDap_Null, cJsonDap_False, cJsonDap_True, cJsonDap_Number, cJsonDap_String,
    cJsonDap_Array, cJsonDap_Object in *.
  case_match eqn:E0; [simplify_eq; split; [lia|apply Hleaf; lia]|].
  case_match eqn:E1; [simplify_eq; split; [lia|apply Hleaf; lia]|].
  case_match eqn:E2; [simplify_eq; split; [lia|apply Hleaf; lia]|].
  case_match eqn:E3.
  { case_match eqn:Hi; [|done]. simplify_eq. apply andb_true_iff in Hi as [_ Hd].
    apply bool_decide_eq_true in Hd. repeat split; [lia|apply Hleaf; lia|done]. }
  case_match eqn:E4.
  { unfold c_text in Hv. destruct vs as [s|]; [|done]. destruct (no_nul s); [|done].
    simplify_eq/=. repeat split; [lia|apply Hleaf; lia]. }
  case_match eqn:E5.
  { apply fmap_Some in Hv as (vs' & Hms & ->). apply all_some_Forall2 in Hms. split; [lia|].
    assert (ty = 5) as -> by lia. simpl in Hp. clear -Hp Hms.
    induction Hms as [|c v l ms Hc _ IH]; [done|].
    simpl in Hp. apply andb_true_iff in Hp as [Hc1 Hp]. constructor; [|auto].
    apply andb_true_iff in Hc1 as [Hn Hc1]. repeat split; [|done..].
    unfold unnamed in Hn. by destruct (item_string c). }
  case_match eqn:E6; [|done].
  apply fmap_Some in Hv as (vs' & Hms & ->). apply all_some_Forall2 in Hms. split; [lia|].
  assert (ty = 6) as -> by lia. simpl in Hp. clear -Hp Hms.
  induction Hms as [|c [m v] l ms Hc _ IH]; [done|].
  simpl in Hp. apply andb_true_iff in Hp as [Hc1 Hp]. constructor; [|auto].
  apply named_Some in Hc as (? & ? & ?). by repeat split.
Qed.

Lemma denotes_object_inv t ms : denotes t (JObject ms) →
  type t = cJsonDap_Object ∧ Forall2 member_denotes (child t) ms.
Proof. apply denotes_inv. Qed.

Section Denotes.
Context `{Platform}.

Lemma denotes_set_string t v n : denotes t v → denotes (set_string n t) v.
Proof. destruct t. exact (λ h, h). Qed.

Lemma denotes_string s : no_nul s = true → denotes (cJSON_CreateString s) (JString s).
Proof. intros Hs. split; [done|]. cbn. unfold cJSON_strdup. by rewrite c_str_id, Hs. Qed.

Lemma denotes_int n : is_int n = true → denotes (cJSON_CreateNumber (of_int n)) (JInt n).
Proof.
  intros Hn. split; [done|]. cbn. rewrite to_int_of_int, Hn by done.
  by rewrite bool_decide_true.
Qed.

Lemma denotes_bool b : denotes (cJSON_CreateBool b) (JBool b).
Proof. by destruct b. Qed.

Lemma jdenotes_CreateObject : jdenotes CreateObject (JObject []).
Proof. eexists; split; [done|]. by repeat split. Qed.

Lemma jdenotes_AddObject_json name obj v j ms : no_nul name = true →
  jdenotes obj v → jdenotes j (JObject ms) →
  jdenotes (AddObject_json name obj j) (JObject (ms ++ [(name, v)])).
Proof.
  intros Hn (o & -> & _ & Ho) (t & -> & Hnm & Ht). eexists; split; [done|].
  apply denotes_object_inv in Ht as [Hty Hf]. split; [by destruct t|].
  eapply denotes_object; [by destruct t|done|].
  destruct t; simpl in *. apply Forall2_app; [done|]. constructor; [|done].
  split; [|split; [done|by apply denotes_set_string]].
  simpl. unfold cJSON_strdup. by rewrite c_str_id.
Qed.

Lemma add_to_container_object name item j ms : jdenotes j (JObject ms) →
  add_to_container name item j = AddObject_json name item j.
Proof.
  intros (t & -> & Hnm & Ht). apply denotes_object_inv in Ht as [Hty _]. simpl. by rewrite Hty.
Qed.

Lemma jdenotes_Add_string name s j ms : no_nul name = true → no_nul s = true →
  jdenotes j (JObject ms) → jdenotes (Add_string name s j) (JObject (ms ++ [(name, JString s)])).
Proof.
  intros Hn Hs Hj. unfold Add_string. rewrite (add_to_container_object _ _ _ ms) by done.
  apply jdenotes_AddObject_json; [done| |done]. eexists; split; [done|]. split; [done|by apply denotes_string].
Qed.

Lemma jdenotes_Add_int name n j ms : no_nul name = true → is_int n = true →
  jdenotes j (JObject ms) → jdenotes (Add_int name n j) (JObject (ms ++ [(name, JInt n)])).
Proof.
  intros Hn Hs Hj. unfold Add_int, Add_double. rewrite (add_to_container_object _ _ _ ms) by done.
  apply jdenotes_AddObject_json; [done| |done]. eexists; split; [done|]. split; [done|by apply denotes_int].
Qed.

Lemma jdenotes_Add_bool name b j ms : no_nul name = true →
  jdenotes j (JObject ms) → jdenotes (Add_bool name b j) (JObject (ms ++ [(name, JBool b)])).
Proof.
  intros Hn Hj. unfold Add_bool. rewrite (add_to_container_object _ _ _ ms) by done.
  apply jdenotes_AddObject_json; [done| |done]. eexists; split; [done|]. split; [by destruct b|apply denotes_bool].
Qed.

Lemma jdenotes_Add_json name obj v j ms : no_nul name = true →
  jdenotes obj v → jdenotes j (JObject ms) →
  jdenotes (Add_json name obj j) (JObject (ms ++ [(name, v)])).
Proof.
  intros Hn Ho Hj. replace (Add_json name obj j) with (AddObject_json name obj j);
    [by apply jdenotes_AddObject_json|].
  destruct Hj as (t & -> & Hnm & Ht). apply denotes_object_inv in Ht as [Hty _]. simpl. by rewrite Hty.
Qed.

Lemma AddItem_then_object name item k j ms : jdenotes j (JObject ms) →
  AddItem_then name item k j = AddObject_json name (k (Some item)) j.
Proof.
  intros (t & -> & Hnm & Ht). apply denotes_object_inv in Ht as [Hty _]. simpl. by rewrite Hty.
Qed.

Lemma jdenotes_AddObject_then name k v j ms : no_nul name = true →
  jdenotes (k CreateObject) v → jdenotes j (JObject ms) →
  jdenotes (AddObject_then name k j) (JObject (ms ++ [(name, v)])).
Proof.
  intros Hn Hk Hj. unfold AddObject_then. rewrite (AddItem_then_object _ _ _ _ ms) by done.
  by apply jdenotes_AddObject_json.
Qed.

Lemma jdenotes_AddArray_then name k v j ms : no_nul name = true →
  jdenotes (k CreateArray) v → jdenotes j (JObject ms) →
  jdenotes (AddArray_then name k j) (JObject (ms ++ [(name, v)])).
Proof.
  intros Hn Hk Hj. unfold AddArray_then. rewrite (AddItem_then_object _ _ _ _ ms) by done.
  by apply jdenotes_AddObject_json.
Qed.

(** Arrays: adding the elements of a vector one by one. *)
Definition array_node (l : list cJsonDap) : Json := Some (set_child l cJSON_CreateArray).

Lemma add_to_array name item l :
  add_to_container name (Some item) (array_node l) = array_node (l ++ [item]).
Proof. done. Qed.

Lemma Add_strings_fold l value :
  foldl (λ a s, Add_string [] s a) (array_node l) value
  = array_node (l ++ map cJSON_CreateString value).
Proof.
  revert l; induction value as [|s value IH]; intros l; [simpl; by rewrite app_nil_r|]. cbn [foldl map].
  change (Add_string [] s (array_node l)) with (array_node (l ++ [cJSON_CreateString s])).
  rewrite IH. by rewrite <- app_assoc.
Qed.

Lemma jdenotes_array l vs : Forall2 element_denotes l vs → jdenotes (array_node l) (JArray vs).
Proof. intros Hf. eexists; split; [done|]. split; [done|by eapply denotes_array]. Qed.

Lemma jdenotes_Add_strings name value j ms : no_nul name = true →
  forallb no_nul value = true → jdenotes j (JObject ms) →
  jdenotes (Add_strings name value j) (JObject (ms ++ [(name, JArray (map JString value))])).
Proof.
  intros Hn Hs Hj. apply jdenotes_AddArray_then; [done| |done].
  change CreateArray with (array_node []). rewrite Add_strings_fold. apply jdenotes_array.
  simpl. clear -Hs. induction value as [|s value IH]; simpl in *; constructor;
    apply andb_true_iff in Hs as [? ?]; [by split; [|apply denotes_string]|auto].
Qed.

(** Printing a handle and parsing the text gives a handle with the same value. *)
Lemma Parse_ToString pretty j v : jdenotes j v →
  ∃ s, ToString pretty j = Ret s ∧ no_nul s = true ∧ ∃ j', Parse s = Ret j' ∧ jdenotes j' v.
Proof.
  intros (t & -> & _ & _ & Hv). unfold ToString, Parse.
  destruct (print_value_printed t v 0 pretty Hv) as (out & Hp & Hout).
  exists out. split; [unfold cJSON_Print, cJSON_PrintUnformatted; by destruct pretty; rewrite Hp|].
  split; [by destruct Hout|].
  destruct (cJSON_Parse_printed out v Hout) as (t' & -> & Ht'). exists (Some t').
  split; [done|]. by exists t'.
Qed.
End Denotes.

(** ** Handles that read the same

    [sim] relates two trees that agree on everything the reading operations look at. The
    reading operations respect it, so a decoder gives the same result on both. *)
Inductive sim : cJsonDap → cJsonDap → Prop :=
| sim_item t t' :
    type t = type t' → item_string t = item_string t' →
    (type t = cJsonDap_String → valuestring t = valuestring t') →
    (type t = cJsonDap_Number → valueint t = valueint t' ∧ valuedouble t = valuedouble t') →
    Forall2 sim (child t) (child t') → sim t t'.

Definition same_node (t t' : cJsonDap) : Prop :=
  type t = type t' ∧
  (type t = cJsonDap_String → valuestring t = valuestring t') ∧
  (type t = cJsonDap_Number → valueint t = valueint t' ∧ valuedouble t = valuedouble t') ∧
  Forall2 sim (child t) (child t').

Definition jsim : Json → Json → Prop := option_Forall2 same_node.

Lemma sim_same_node t t' : sim t t' → same_node t t'.
Proof. by intros []. Qed.

Lemma sim_name t t' : sim t t' → item_string t = item_string t'.
Proof. by intros []. Qed.

Lemma first_named_sim l l' n : Forall2 sim l l' → jsim (first_named l n) (first_named l' n).
Proof.
  induction 1 as [|t t' l l' Ht _ IH]; simpl; [constructor|].
  rewrite (sim_name _ _ Ht).
  destruct (item_string t') as [s|]; [|done].
  case_match; [by constructor; apply sim_same_node|done].
Qed.

#[export] Instance member_Proper : Proper (jsim ==> eq ==> jsim) member.
Proof.
  intros j j' Hj n ? <-. destruct Hj as [t t' (_ & _ & _ & Hf)|]; [|constructor].
  by apply first_named_sim.
Qed.

#[export] Instance GetCount_Proper : Proper (jsim ==> eq) GetCount.
Proof.
  intros j j' [t t' (_ & _ & _ & Hf)|]; [|done]. by eapply Forall2_length.
Qed.

Lemma element_lookup t i : element (Some t) i = child t !! i.
Proof.
  unfold element. simpl. destruct (Nat.leb_spec (length (child t)) i); [|done].
  symmetry. by apply lookup_ge_None_2.
Qed.

#[export] Instance element_Proper : Proper (jsim ==> eq ==> jsim) element.
Proof.
  intros j j' Hj i ? <-. destruct Hj as [t t' (_ & _ & _ & Hf)|]; [|constructor].
  rewrite !element_lookup.
  revert i. induction Hf as [|c c' l l' Hc%sim_same_node _ IH]; intros [|i]; simpl;
    first [by constructor|apply IH].
Qed.

Lemma IsOK_sim j j' : jsim j j' → IsOK j = IsOK j'.
Proof. by intros []. Qed.

Lemma IsArray_sim j j' : jsim j j' → IsArray j = IsArray j'.
Proof. intros [t t' (Hty & _)|]; simpl; congruence. Qed.

Lemma GetString_sim d j j' : jsim j j' → GetString d j = GetString d j'.
Proof.
  intros [t t' (Hty & Hs & _)|]; simpl; [|done]. rewrite <- Hty.
  destruct (Z.eqb_spec (type t) cJsonDap_String); [|done]. by rewrite Hs.
Qed.

Lemma GetNumber_sim d j j' : jsim j j' → GetNumber d j = GetNumber d j'.
Proof.
  intros [t t' (Hty & _ & Hn & _)|]; simpl; [|done]. rewrite <- Hty.
  destruct (Z.eqb_spec (type t) cJsonDap_Number); [|done]. by destruct Hn as [_ ->].
Qed.

Lemma GetInteger_sim d j j' : jsim j j' → GetInteger d j = GetInteger d j'.
Proof.
  intros [t t' (Hty & _ & Hn & _)|]; simpl; [|done]. rewrite <- Hty.
  destruct (Z.eqb_spec (type t) cJsonDap_Number); [|done]. by destruct Hn as [-> _].
Qed.

Lemma GetBool_sim d j j' : jsim j j' → GetBool d j = GetBool d j'.
Proof. intros [t t' (Hty & _)|]; simpl; [|done]. by rewrite Hty. Qed.

Lemma member_sim n j j' : jsim j j' → jsim (member j n) (member j' n).
Proof. intros Hj. by apply member_Proper. Qed.

Lemma element_sim i j j' : jsim j j' → jsim (element j i) (element j' i).
Proof. intros Hj. by apply element_Proper. Qed.

Lemma GetStringArray_sim j j' : jsim j j' → GetStringArray j = GetStringArray j'.
Proof.
  intros Hj. unfold GetStringArray. rewrite (IsArray_sim _ _ Hj), (GetCount_Proper _ _ Hj).
  case_match; [|done]. apply map_ext. intros i. by apply GetString_sim, element_sim.
Qed.

Create HintDb jsim.
#[export] Hint Resolve IsOK_sim IsArray_sim GetString_sim GetNumber_sim GetInteger_sim
  GetBool_sim GetStringArray_sim member_sim element_sim : jsim.

(** Two plain trees with the same value and the same name read the same. *)
Lemma denotes_children_sim {V} (R : cJsonDap → V → Prop) l : (∀ t v t', R t v → R t' v →
    item_string t = item_string t' ∧ ∃ w, denotes t w ∧ denotes t' w) →
  Forall (λ t, ∀ t' w, denotes t w → denotes t' w → item_string t = item_string t' → sim t t') l →
  ∀ l' vs, Forall2 R l vs → Forall2 R l' vs → Forall2 sim l l'.
Proof.
  intros HR. induction 1 as [|t l Ht _ IH]; intros l' vs Hl Hl'.
  - inversion Hl; subst. inversion Hl'. constructor.
  - inversion Hl as [|? m ? ms Hm Hms]; subst.
    inversion Hl' as [|t' ? l'' ? Hm' Hms']; subst.
    destruct (HR _ _ _ Hm Hm') as (Hn & w & Hd & Hd').
    constructor; [by eapply Ht|by eapply IH].
Qed.

Lemma denotes_sim t : ∀ t' v, denotes t v → denotes t' v → item_string t = item_string t' →
  sim t t'.
Proof.
  induction t as [ty vs vi vd n l IH] using cJsonDap_children_ind.
  intros t' v Ht%denotes_inv Ht'%denotes_inv Hn.
  assert (Forall2 sim l (child t')) as Hc.
  { simpl in Ht. destruct v; destruct_and?; subst;
      try (match goal with E : child t' = [] |- _ => rewrite E end; constructor).
    - eapply (denotes_children_sim element_denotes); [|done..].
      intros ? ? ? [-> ?] [-> ?]. eauto.
    - eapply (denotes_children_sim member_denotes); [|done..].
      intros ? ? ? (-> & _ & ?) (-> & _ & ?). eauto. }
  constructor; simpl in *; (destruct v as [|[]| | | |]; destruct_and?; subst);
    try done; try congruence; intros; split; congruence.
Qed.

Lemma jdenotes_jsim j j' v : jdenotes j v → jdenotes j' v → jsim j j'.
Proof.
  intros (t & -> & Hn & Ht) (t' & -> & Hn' & Ht'). constructor. apply sim_same_node.
  eapply denotes_sim; [done..|congruence].
Qed.

(** A handle reads the same after its node was given a name. *)
Lemma sim_refl t : sim t t.
Proof.
  induction t as [ty vs vi vd n l IH] using cJsonDap_children_ind.
  constructor; try done. simpl. by induction IH; constructor.
Qed.

#[export] Instance jsim_refl : Reflexive jsim.
Proof. intros [t|]; constructor. apply sim_same_node, sim_refl. Qed.

Lemma jsim_set_string n t : jsim (Some (set_string n t)) (Some t).
Proof. constructor. pose proof (sim_same_node _ _ (sim_refl t)) as H. by destruct t. Qed.

#[global] Arguments Add_string : simpl never.
#[global] Arguments Add_double : simpl never.
#[global] Arguments Add_int : simpl never.
#[global] Arguments Add_bool : simpl never.
#[global] Arguments Add_json : simpl never.
#[global] Arguments Add_strings : simpl never.
#[global] Arguments AddObject_json : simpl never.
#[global] Arguments AddObject_then : simpl never.
#[global] Arguments AddArray_then : simpl never.
#[global] Arguments member : simpl never.
#[global] Arguments GetStringArray : simpl never.
#[global] Arguments GetString : simpl never.
#[global] Arguments GetInteger : simpl never.
#[global] Arguments GetNumber : simpl never.
#[global] Arguments GetBool : simpl never.
