(* ===== verification/CJsonHeap.v ===== *)
(** * cJSON.cpp: the nodes as they are in memory.

    [CJson] and [CJsonTree] describe the values; here the functions of cJSON.cpp are programs on
    a heap.  A block is a node, with its pointers to the siblings, to the first child and to its
    two strings, or the text of a string.  To read, write or free a block that is not there is
    undefined behaviour ([Undef]).  An address is not used twice, and allocation does not fail. *)
From S2P Require Import Prelude.
From S2P Require Import Double.
From S2P Require Import CJson.
From S2P Require Import CJsonTree.
Local Open Scope Z_scope.

Abbreviation ptr := (option nat).

(** ** The structure *)

Record cell := mkCell {
  next : ptr;
  prev : ptr;
  child : ptr;
  type : Z;
  valuestring : ptr;
  valueint : Z;
  valuedouble : double;
  string : ptr;
}.

#[export] Instance cell_settable : Settable cell :=
  rebuild mkCell <@> next <@> prev <@> child <@> type <@> valuestring <@> valueint
    <@> valuedouble <@> string.

Inductive block := node_block (n : cell) | text_block (t : text).

Abbreviation blocks := (gmap nat block).

(** The blocks, and the first address that was never used. *)
Record heap := mkHeap { contents : blocks; unused : nat }.

#[export] Instance heap_settable : Settable heap := rebuild mkHeap <@> contents <@> unused.

(** [*p] of a node, and of a string up to its terminator. *)
Definition load (p : nat) (h : blocks) : exec unit cell :=
  match h !! p with Some (node_block n) => Ret n | _ => Undef end.

Definition load_text (p : nat) (h : blocks) : exec unit text :=
  match h !! p with Some (text_block t) => Ret t | _ => Undef end.

(** A member of [*p] is assigned. *)
Definition update (p : nat) (f : cell → cell) (h : blocks) : exec unit blocks :=
  let* n := load p h in Ret (<[p := node_block (f n)]> h).

Definition free (p : nat) (h : blocks) : exec unit blocks :=
  match h !! p with Some _ => Ret (delete p h) | None => Undef end.

(** [if(p) free(p);] *)
Definition free_if (p : ptr) (h : blocks) : exec unit blocks :=
  match p with Some p => free p h | None => Ret h end.

Definition on_contents (f : blocks → exec unit blocks) (h : heap) : exec unit heap :=
  let* b := f (contents h) in Ret (h <| contents := b |>).

Definition malloc (b : block) (h : heap) : nat * heap :=
  (unused h, mkHeap (<[unused h := b]> (contents h)) (S (unused h))).

(** A walk visits every node at most once: as many steps as there are blocks are enough. *)
Definition steps (h : blocks) : nat := S (size h).

(** ** Allocation *)

Definition cJSON_strdup (str : text) : heap → nat * heap := malloc (text_block (c_str str)).

(** [memset(node, 0, sizeof(cJsonDap))] *)
Definition zero_cell : cell := mkCell None None None 0 None 0 dzero None.

Definition cJSON_New_Item : heap → nat * heap := malloc (node_block zero_cell).

(** ** Deleting *)

Definition is_reference (n : cell) : bool := negb (Z.land (type n) cJsonDap_IsReference =? 0).

Fixpoint cJSON_Delete_loop (fuel : nat) (c : ptr) (h : blocks) : exec unit blocks :=
  match fuel with
  | O => NoFuel
  | S fuel =>
      match c with
      | None => Ret h
      | Some c =>
          let* n := load c h in
          let* h := (if negb (is_reference n) && bool_decide (is_Some (child n))
                     then cJSON_Delete_loop fuel (child n) h else Ret h) in
          let* h := (if negb (is_reference n) then free_if (valuestring n) h else Ret h) in
          let* h := free_if (string n) h in
          let* h := free c h in
          cJSON_Delete_loop fuel (next n) h
      end
  end.

Definition cJSON_Delete (c : ptr) (h : heap) : exec unit heap :=
  on_contents (λ b, cJSON_Delete_loop (steps b) c b) h.

(** ** Reading *)

(** [while(c) i++, c = c->next;] *)
Fixpoint count_loop (fuel : nat) (c : ptr) (h : blocks) : exec unit Z :=
  match fuel with
  | O => NoFuel
  | S fuel =>
      match c with
      | None => Ret 0
      | Some c => let* n := load c h in exec_map (Z.add 1) (count_loop fuel (next n) h)
      end
  end.

Definition cJSON_GetArraySize (array : nat) (h : heap) : exec unit Z :=
  let* a := load array (contents h) in count_loop (steps (contents h)) (child a) (contents h).

(** [while(c && item > 0) item--, c = c->next;]: at most [item] steps. *)
Fixpoint nth_loop (item : nat) (c : ptr) (h : blocks) : exec unit ptr :=
  match c, item with
  | Some c, S item => let* n := load c h in nth_loop item (next n) h
  | _, _ => Ret c
  end.

Definition cJSON_GetArrayItem (array : nat) (item : Z) (h : heap) : exec unit ptr :=
  let* a := load array (contents h) in nth_loop (Z.to_nat item) (child a) (contents h).

(** The name of a node, as the comparison reads it. *)
Definition name_of (n : cell) (h : blocks) : exec unit (option text) :=
  match string n with
  | None => Ret None
  | Some s => exec_map Some (load_text s h)
  end.

(** [while(c && cJSON_strcasecmp(c->string, string)) i++, c = c->next;] *)
Fixpoint find_loop (fuel : nat) (i : Z) (c : ptr) (string : text) (h : blocks) :
    exec unit (Z * ptr) :=
  match fuel with
  | O => NoFuel
  | S fuel =>
      match c with
      | None => Ret (i, None)
      | Some p =>
          let* n := load p h in
          let* name := name_of n h in
          if cJSON_strcasecmp name (Some string) =? 0 then Ret (i, c)
          else find_loop fuel (i + 1) (next n) string h
      end
  end.

Definition find_item (object : nat) (string : text) (h : heap) : exec unit (Z * ptr) :=
  let* o := load object (contents h) in
  find_loop (steps (contents h)) 0 (child o) string (contents h).

Definition cJSON_GetObjectItem (object : nat) (string : text) (h : heap) : exec unit ptr :=
  exec_map snd (find_item object string h).

(** ** Adding *)

Definition suffix_object (p item : nat) (h : blocks) : exec unit blocks :=
  let* h := update p (λ n, n <| next := Some item |>) h in
  update item (λ n, n <| prev := Some p |>) h.

(** [while(c && c->next) c = c->next;] *)
Fixpoint last_loop (fuel : nat) (c : nat) (h : blocks) : exec unit nat :=
  match fuel with
  | O => NoFuel
  | S fuel =>
      let* n := load c h in
      match next n with None => Ret c | Some c => last_loop fuel c h end
  end.

Definition AddItemToArray (array : nat) (item : ptr) (h : blocks) : exec unit blocks :=
  let* a := load array h in
  match item with
  | None => Ret h
  | Some item =>
      match child a with
      | None => update array (λ n, n <| child := Some item |>) h
      | Some c => let* c := last_loop (steps h) c h in suffix_object c item h
      end
  end.

Definition cJSON_AddItemToArray (array : nat) (item : ptr) : heap → exec unit heap :=
  on_contents (AddItemToArray array item).

(** [item->string = cJSON_strdup(name);] *)
Definition assign_name (item : nat) (name : text) (h : heap) : exec unit heap :=
  let '(s, h) := cJSON_strdup name h in
  on_contents (update item (λ n, n <| string := Some s |>)) h.

Definition cJSON_AddItemToObject (object : nat) (name : text) (item : ptr) (h : heap) :
    exec unit heap :=
  match item with
  | None => Ret h
  | Some i =>
      let* n := load i (contents h) in
      let* h := on_contents (free_if (string n)) h in
      let* h := assign_name i name h in
      cJSON_AddItemToArray object item h
  end.

(** A node without a name and without siblings that shares the children and the string. *)
Definition create_reference (item : nat) (h : heap) : exec unit (nat * heap) :=
  let '(ref, h) := cJSON_New_Item h in
  let* n := load item (contents h) in
  let* h := on_contents (update ref (λ _, n <| string := None |>
    <| type := Z.lor (type n) cJsonDap_IsReference |> <| next := None |> <| prev := None |>)) h in
  Ret (ref, h).

Definition cJSON_AddItemReferenceToArray (array item : nat) (h : heap) : exec unit heap :=
  let* (ref, h) := create_reference item h in cJSON_AddItemToArray array (Some ref) h.

Definition cJSON_AddItemReferenceToObject (object : nat) (name : text) (item : nat) (h : heap) :
    exec unit heap :=
  let* (ref, h) := create_reference item h in cJSON_AddItemToObject object name (Some ref) h.

(** ** Detaching *)

(** [if(p) p->f = ...;] *)
Definition update_if (p : ptr) (f : cell → cell) (h : blocks) : exec unit blocks :=
  match p with Some p => update p f h | None => Ret h end.

Definition DetachItemFromArray (array : nat) (which : Z) (h : blocks) : exec unit (ptr * blocks) :=
  let* a := load array h in
  let* c := nth_loop (Z.to_nat which) (child a) h in
  match c with
  | None => Ret (None, h)
  | Some p =>
      let* n := load p h in
      let* h := update_if (prev n) (λ m, m <| next := next n |>) h in
      let* n := load p h in
      let* h := update_if (next n) (λ m, m <| prev := prev n |>) h in
      let* a := load array h in
      let* n := load p h in
      let* h := (if decide (c = child a) then update array (λ m, m <| child := next n |>) h
                 else Ret h) in
      let* h := update p (λ m, m <| next := None |> <| prev := None |>) h in
      Ret (c, h)
  end.

Definition cJSON_DetachItemFromArray (array : nat) (which : Z) (h : heap) :
    exec unit (ptr * heap) :=
  let* (c, b) := DetachItemFromArray array which (contents h) in Ret (c, h <| contents := b |>).

Definition cJSON_DeleteItemFromArray (array : nat) (which : Z) (h : heap) : exec unit heap :=
  let* (c, h) := cJSON_DetachItemFromArray array which h in cJSON_Delete c h.

Definition cJSON_DetachItemFromObject (object : nat) (name : text) (h : heap) :
    exec unit (ptr * heap) :=
  let* (i, c) := find_item object name h in
  match c with
  | Some _ => cJSON_DetachItemFromArray object i h
  | None => Ret (None, h)
  end.

Definition cJSON_DeleteItemFromObject (object : nat) (name : text) (h : heap) : exec unit heap :=
  let* (c, h) := cJSON_DetachItemFromObject object name h in cJSON_Delete c h.

(** ** Replacing *)

Definition link_in_place (array p newitem : nat) (h : blocks) : exec unit blocks :=
  let* n := load p h in
  let* h := update newitem (λ m, m <| next := next n |>) h in
  let* n := load p h in
  let* h := update newitem (λ m, m <| prev := prev n |>) h in
  let* m := load newitem h in
  let* h := update_if (next m) (λ x, x <| prev := Some newitem |>) h in
  let* a := load array h in
  let* h := (if decide (Some p = child a) then update array (λ x, x <| child := Some newitem |>) h
             else
               let* m := load newitem h in
               match prev m with
               | Some q => update q (λ x, x <| next := Some newitem |>) h
               | None => Undef
               end) in
  update p (λ x, x <| prev := None |> <| next := None |>) h.

Definition cJSON_ReplaceItemInArray (array : nat) (which : Z) (newitem : nat) (h : heap) :
    exec unit heap :=
  let* a := load array (contents h) in
  let* c := nth_loop (Z.to_nat which) (child a) (contents h) in
  match c with
  | None => Ret h
  | Some p => let* h := on_contents (link_in_place array p newitem) h in cJSON_Delete c h
  end.

(** The name that [newitem] had is not freed. *)
Definition cJSON_ReplaceItemInObject (object : nat) (name : text) (newitem : nat) (h : heap) :
    exec unit heap :=
  let* (i, c) := find_item object name h in
  match c with
  | Some _ =>
      let* h := assign_name newitem name h in
      cJSON_ReplaceItemInArray object i newitem h
  | None => Ret h
  end.

(** ** Creating *)

(** A new item whose members are assigned. *)
Definition create (f : cell → cell) (h : heap) : nat * heap :=
  let '(item, h) := cJSON_New_Item h in
  (item, h <| contents := <[item := node_block (f zero_cell)]> (contents h) |>).

Definition cJSON_CreateNull : heap → nat * heap := create (λ n, n <| type := cJsonDap_Null |>).
Definition cJSON_CreateTrue : heap → nat * heap := create (λ n, n <| type := cJsonDap_True |>).
Definition cJSON_CreateFalse : heap → nat * heap := create (λ n, n <| type := cJsonDap_False |>).
Definition cJSON_CreateBool (b : bool) : heap → nat * heap :=
  create (λ n, n <| type := if b then cJsonDap_True else cJsonDap_False |>).
Definition cJSON_CreateNumber `{Platform} (num : double) : heap → nat * heap :=
  create (λ n, n <| type := cJsonDap_Number |> <| valuedouble := num |> <| valueint := to_int num |>).
Definition cJSON_CreateString (str : text) (h : heap) : nat * heap :=
  let '(item, h) := create (λ n, n <| type := cJsonDap_String |>) h in
  let '(s, h) := cJSON_strdup str h in
  (item, h <| contents := alter (λ b, match b with
     | node_block n => node_block (n <| valuestring := Some s |>)
     | text_block _ => b
     end) item (contents h) |>).
Definition cJSON_CreateArray : heap → nat * heap := create (λ n, n <| type := cJsonDap_Array |>).
Definition cJSON_CreateObject : heap → nat * heap := create (λ n, n <| type := cJsonDap_Object |>).

(** The loop of the [cJSON_Create...Array] functions: [p] is the item of the iteration before. *)
Fixpoint create_items {A} (make : A → heap → nat * heap) (l : list A) (a : nat) (p : ptr)
    (h : heap) : exec unit heap :=
  match l with
  | [] => Ret h
  | x :: l =>
      let '(n, h) := make x h in
      let* h := on_contents (match p with
        | None => update a (λ m, m <| child := Some n |>)
        | Some p => suffix_object p n
        end) h in
      create_items make l a (Some n) h
  end.

Definition create_array {A} (make : A → heap → nat * heap) (l : list A) (h : heap) :
    exec unit (nat * heap) :=
  let '(a, h) := cJSON_CreateArray h in
  let* h := create_items make l a None h in Ret (a, h).

Definition cJSON_CreateIntArray `{Platform} (numbers : list Z) : heap → exec unit (nat * heap) :=
  create_array (λ n, cJSON_CreateNumber (of_int n)) numbers.
Definition cJSON_CreateFloatArray `{Platform} (numbers : list spec_float) :
    heap → exec unit (nat * heap) :=
  create_array (λ n, cJSON_CreateNumber (double_of_float n)) numbers.
Definition cJSON_CreateDoubleArray `{Platform} (numbers : list double) :
    heap → exec unit (nat * heap) :=
  create_array cJSON_CreateNumber numbers.
Definition cJSON_CreateStringArray (strings : list text) : heap → exec unit (nat * heap) :=
  create_array cJSON_CreateString strings.
