(* ===== verification/CJsonHeapSpec.v ===== *)
(** * The nodes in memory stand for the trees.

    A [forest] is a chain of sibling nodes with everything they own: the addresses of the nodes,
    their strings and their children.  [seg] says that a heap holds a forest between two
    siblings, and [vals] what it stands for. *)
From S2P Require Import Prelude.
From S2P Require Import Double.
From S2P Require Import CJson.
From S2P Require Import CJsonTree.
From S2P Require Import CJsonHeap.
Local Open Scope Z_scope.

(** ** Forests *)

(** What a node has of its own; a string is its address and its text. *)
Record label := mkLabel {
  l_type : Z;
  l_value : option (nat * text);
  l_int : Z;
  l_double : double;
  l_name : option (nat * text);
}.

Inductive forest := leaf | node (l : nat) (d : label) (children siblings : forest).

Definition strings_of (d : label) : list (nat * text) :=
  option_list (l_value d) ++ option_list (l_name d).

(** Everything that is freed with the forest. *)
Fixpoint locs (f : forest) : list nat :=
  match f with
  | leaf => []
  | node l d c s => l :: (strings_of d).*1 ++ locs c ++ locs s
  end.

(** The first node of a chain that [nxt] follows, and the last of one that follows [prv]. *)
Definition head (f : forest) (nxt : ptr) : ptr :=
  match f with leaf => nxt | node l _ _ _ => Some l end.

Fixpoint last_of (f : forest) (prv : ptr) : ptr :=
  match f with leaf => prv | node l _ _ s => last_of s (Some l) end.

Fixpoint append (f u : forest) : forest :=
  match f with leaf => u | node l d c s => node l d c (append s u) end.

(** The values of the nodes. *)
Definition item (d : label) (l : list cJsonDap) : cJsonDap :=
  Item (l_type d) (snd <$> l_value d) (l_int d) (l_double d) (snd <$> l_name d) l.

Fixpoint vals (f : forest) : list cJsonDap :=
  match f with leaf => [] | node _ d c s => item d (vals c) :: vals s end.

(** ** The heap *)

Definition cell_of (d : label) (prv nxt c : ptr) : cell :=
  mkCell nxt prv c (l_type d) (fst <$> l_value d) (l_int d) (l_double d) (fst <$> l_name d).

Definition holds_texts (ts : list (nat * text)) (h : blocks) : Prop :=
  Forall (λ at_, h !! at_.1 = Some (text_block at_.2)) ts.

(** The heap holds the forest, in a chain after [prv] and before [nxt]. *)
Fixpoint seg (prv : ptr) (f : forest) (nxt : ptr) (h : blocks) : Prop :=
  match f with
  | leaf => True
  | node l d c s =>
      h !! l = Some (node_block (cell_of d prv (head s nxt) (head c None)))
      ∧ Z.land (l_type d) cJsonDap_IsReference = 0
      ∧ holds_texts (strings_of d) h
      ∧ seg None c None h
      ∧ seg (Some l) s nxt h
  end.

Lemma holds_texts_frame ts h h' : holds_texts ts h → (∀ x, x ∈ ts.*1 → h' !! x = h !! x) →
  holds_texts ts h'.
Proof.
  unfold holds_texts. rewrite !list.Forall_forall. intros Ht Hh a Ha. rewrite Hh; [by apply Ht|].
  apply list_elem_of_fmap. by exists a.
Qed.

Lemma seg_frame prv f nxt h h' : seg prv f nxt h → (∀ x, x ∈ locs f → h' !! x = h !! x) →
  seg prv f nxt h'.
Proof.
  revert prv nxt. induction f as [|l d c IHc s IHs]; [done|].
  intros prv nxt (Hl & Hr & Ht & Hc & Hs) Hh. cbn [locs] in Hh.
  setoid_rewrite elem_of_cons in Hh. setoid_rewrite elem_of_app in Hh.
  setoid_rewrite elem_of_app in Hh. split; [by rewrite Hh by by left|]. split; [done|].
  split; [|split].
  - apply (holds_texts_frame _ h); [done|]. intros x ?. apply Hh. tauto.
  - apply IHc; [done|]. intros x ?. apply Hh. tauto.
  - apply IHs; [done|]. intros x ?. apply Hh. tauto.
Qed.

Lemma seg_live prv f nxt h x : seg prv f nxt h → x ∈ locs f → is_Some (h !! x).
Proof.
  revert prv nxt. induction f as [|l d c IHc s IHs]; [by intros ? ? _ ?%elem_of_nil|].
  intros prv nxt (Hl & _ & Ht & Hc & Hs). cbn [locs].
  intros [->|[Hx|[Hx|Hx]%elem_of_app]%elem_of_app]%elem_of_cons; [by eexists| |by eauto..].
  apply list_elem_of_fmap in Hx as (a & -> & Ha). unfold holds_texts in Ht.
  rewrite list.Forall_forall in Ht. eexists. by apply Ht.
Qed.

Lemma locs_append f u : locs (append f u) = locs f ++ locs u.
Proof. induction f as [|l d c _ s IHs]; [done|]. simpl. by rewrite IHs, <- !app_assoc. Qed.

Lemma vals_append f u : vals (append f u) = vals f ++ vals u.
Proof. induction f as [|l d c _ s IHs]; [done|]. simpl. by rewrite IHs. Qed.

Lemma head_append f u nxt : head (append f u) nxt = head f (head u nxt).
Proof. by destruct f. Qed.

Lemma last_of_append f u prv : last_of (append f u) prv = last_of u (last_of f prv).
Proof. revert prv. induction f as [|l d c _ s IHs]; intros prv; [done|]. apply IHs. Qed.

Lemma append_leaf f : append f leaf = f.
Proof. induction f as [|l d c _ s IHs]; [done|]. simpl. by rewrite IHs. Qed.

(** A chain is in the heap when its two parts are. *)
Lemma seg_append prv f u nxt h :
  seg prv (append f u) nxt h ↔ seg prv f (head u nxt) h ∧ seg (last_of f prv) u nxt h.
Proof.
  revert prv. induction f as [|l d c _ s IHs]; intros prv; [simpl; tauto|].
  cbn [append seg last_of]. rewrite IHs, head_append. tauto.
Qed.

Lemma NoDup_node l d c s : NoDup (locs (node l d c s)) →
  (l ∉ (strings_of d).*1 ++ locs c ++ locs s) ∧ NoDup (strings_of d).*1 ∧ NoDup (locs c) ∧
  NoDup (locs s) ∧ (∀ x, x ∈ (strings_of d).*1 → (x ∉ locs c) ∧ (x ∉ locs s)) ∧
  ∀ x, x ∈ locs c → x ∉ locs s.
Proof.
  simpl. intros [Hl H]%list.NoDup_cons. apply list.NoDup_app in H as (Ht & Hd & H).
  apply list.NoDup_app in H as (Hc & Hcs & Hs). setoid_rewrite not_elem_of_app in Hd. tauto.
Qed.

(** A forest has no more blocks than the heap. *)
Lemma locs_size prv f nxt h : seg prv f nxt h → NoDup (locs f) → (length (locs f) ≤ size h)%nat.
Proof.
  intros Hf Hn. rewrite <- size_dom, <- (size_list_to_set (C := gset nat)) by done.
  apply subseteq_size. intros l Hl%elem_of_list_to_set. apply elem_of_dom. by eapply seg_live.
Qed.

(** ** Deleting *)

Definition erase (ls : list nat) (h : blocks) : blocks := foldr delete h ls.

Lemma lookup_erase ls h x : erase ls h !! x = if decide (x ∈ ls) then None else h !! x.
Proof.
  induction ls as [|l ls IH]; [by rewrite decide_False by apply not_elem_of_nil|].
  cbn [erase foldr]. fold (erase ls h).
  destruct (decide (x = l)) as [->|Hx].
  - rewrite lookup_delete_eq, decide_True; [done|by left].
  - rewrite lookup_delete_ne, IH by done. do 2 case_decide; try done; exfalso;
      rewrite elem_of_cons in *; tauto.
Qed.

Lemma erase_absent ls h x : x ∉ ls → erase ls h !! x = h !! x.
Proof. intros. by rewrite lookup_erase, decide_False. Qed.

Lemma free_strings d h : holds_texts (strings_of d) h → NoDup (strings_of d).*1 →
  (let* h := free_if (fst <$> l_value d) h in free_if (fst <$> l_name d) h)
  = Ret (erase (strings_of d).*1 h).
Proof.
  unfold strings_of, holds_texts. destruct (l_value d) as [[a t]|], (l_name d) as [[b u]|]; simpl.
  - rewrite list.Forall_cons, Forall_singleton. unfold free. cbn. intros [Ha Hb] Hn.
    apply list.NoDup_cons in Hn as [Hab _]. rewrite list_elem_of_singleton in Hab.
    rewrite Ha. cbn. rewrite lookup_delete_ne, Hb by done. f_equal. apply delete_delete.
  - rewrite Forall_singleton. unfold free. cbn. by intros -> _.
  - rewrite Forall_singleton. unfold free. cbn. by intros -> _.
  - done.
Qed.

Lemma Delete_loop_spec f prv fuel h : seg prv f None h → NoDup (locs f) →
  (length (locs f) < fuel)%nat →
  cJSON_Delete_loop fuel (head f None) h = Ret (erase (locs f) h).
Proof.
  revert prv fuel h. induction f as [|l d c IHc s IHs]; intros prv [|fuel] h Hf Hn Hfuel;
    [simpl in Hfuel; lia|done|simpl in Hfuel; lia|].
  apply NoDup_node in Hn as (Hl & Hnt & Hnc & Hns & Htd & Hcs).
  destruct Hf as (Hcell & Href & Ht & Hc & Hs). rewrite !not_elem_of_app in Hl.
  simpl in Hfuel. rewrite !length_app in Hfuel.
  cbn [cJSON_Delete_loop head]. unfold load. rewrite Hcell. cbn [exec_bind].
  unfold is_reference. cbn [type cell_of]. rewrite Href. cbn [Z.eqb negb andb].
  assert ((if bool_decide (is_Some (child (cell_of d prv (head s None) (head c None))))
           then cJSON_Delete_loop fuel (child (cell_of d prv (head s None) (head c None))) h
           else Ret h) = Ret (erase (locs c) h)) as ->.
  { cbn [child cell_of]. destruct c as [|lc dc cc sc]; [done|].
    rewrite bool_decide_true by by eexists. apply (IHc None); [done|done|lia]. }
  cbn [exec_bind valuestring string next cell_of].
  rewrite <- (exec_bind_assoc (free_if _ _) (free_if (fst <$> l_name d))), free_strings; [|
    apply (holds_texts_frame _ h); [done|]; intros x Hx; by apply erase_absent, Htd|done].
  cbn [exec_bind]. unfold free.
  rewrite !erase_absent, Hcell by tauto. cbn [exec_bind].
  rewrite (IHs (Some l)); [|apply (seg_frame _ _ _ h); [done|]|done|lia].
  - f_equal. apply map_eq. intros x. rewrite !lookup_erase. cbn [locs].
    destruct (decide (x = l)) as [->|Hx].
    + rewrite lookup_delete_eq, (decide_False (P := l ∈ locs s)) by tauto.
      by rewrite decide_True by by left.
    + rewrite lookup_delete_ne, !lookup_erase by done.
      repeat case_decide; try done; rewrite !elem_of_cons, !elem_of_app in *; tauto.
  - intros x Hx. rewrite lookup_delete_ne by (intros ->; tauto).
    rewrite !erase_absent; [done| |]; intros Hx'; [by apply (Hcs x)|by apply (Htd x)].
Qed.

(** A tree that nothing follows is freed with all it owns, and nothing else is. *)
Lemma cJSON_Delete_spec f prv h : seg prv f None (contents h) → NoDup (locs f) →
  cJSON_Delete (head f None) h = Ret (h <| contents := erase (locs f) (contents h) |>).
Proof.
  intros Hf Hn. unfold cJSON_Delete, on_contents.
  rewrite (Delete_loop_spec f prv); [done..|by eapply Nat.lt_succ_r, locs_size].
Qed.

(** ** Walking along a chain *)

(** The addresses of the nodes of the chain. *)
Fixpoint addrs (f : forest) : list nat :=
  match f with leaf => [] | node l _ _ s => l :: addrs s end.

Lemma addrs_append f u : addrs (append f u) = addrs f ++ addrs u.
Proof. induction f as [|l d c _ s IHs]; [done|]. simpl. by rewrite IHs. Qed.

Lemma addrs_vals f : length (addrs f) = length (vals f).
Proof. induction f as [|l d c _ s IHs]; [done|]. simpl. by rewrite IHs. Qed.

Lemma addrs_locs f x : x ∈ addrs f → x ∈ locs f.
Proof.
  induction f as [|l d c _ s IHs]; [done|]. simpl. rewrite !elem_of_cons, !elem_of_app. tauto.
Qed.

(** A node of the chain, what is before it and what is behind it. *)
Lemma split_at f i p : addrs f !! i = Some p → ∃ f1 d c f2,
  f = append f1 (node p d c f2) ∧ length (addrs f1) = i ∧ vals f !! i = Some (item d (vals c)).
Proof.
  revert i. induction f as [|l d c _ s IHs]; intros [|i] Hi; simplify_eq/=.
  - by exists leaf, d, c, s.
  - destruct (IHs i Hi) as (f1 & d1 & c1 & f2 & -> & Hlen & Hv).
    exists (node l d c f1), d1, c1, f2. simpl. by rewrite Hlen.
Qed.

Lemma split_last f : f = leaf ∨ ∃ f' z d c, f = append f' (node z d c leaf).
Proof.
  induction f as [|l d c _ s [->|(f' & z & dz & cz & ->)]]; [by left|..]; right.
  - by exists leaf, l, d, c.
  - by exists (node l d c f'), z, dz, cz.
Qed.

Lemma count_loop_spec f prv fuel h : seg prv f None h → (length (locs f) < fuel)%nat →
  count_loop fuel (head f None) h = Ret (Z.of_nat (length (vals f))).
Proof.
  revert prv fuel. induction f as [|l d c _ s IHs]; intros prv [|fuel] Hf Hfuel;
    try (simpl in Hfuel; lia); [done|]. destruct Hf as (Hl & _ & _ & _ & Hs).
  simpl in Hfuel. rewrite !length_app in Hfuel. cbn [count_loop head]. unfold load. rewrite Hl.
  cbn [exec_bind next cell_of]. rewrite (IHs (Some l)) by (done || lia). simpl. f_equal. lia.
Qed.

Lemma nth_loop_spec f prv i h : seg prv f None h →
  nth_loop i (head f None) h = Ret (addrs f !! i).
Proof.
  revert prv i. induction f as [|l d c _ s IHs]; intros prv [|i] Hf; try done.
  destruct Hf as (Hl & _ & _ & _ & Hs). cbn [nth_loop head]. unfold load. rewrite Hl.
  cbn [exec_bind next cell_of]. by rewrite (IHs (Some l)).
Qed.

Lemma last_loop_spec f z d c prv p fuel h : seg prv (append f (node z d c leaf)) None h →
  head (append f (node z d c leaf)) None = Some p →
  (length (locs (append f (node z d c leaf))) < fuel)%nat → last_loop fuel p h = Ret z.
Proof.
  revert prv p fuel. induction f as [|l d' c' _ s IHs]; intros prv p [|fuel] Hf [= <-] Hfuel;
    try (simpl in Hfuel; lia); destruct Hf as (Hl & _ & _ & _ & Hs);
    cbn [last_loop]; unfold load; rewrite Hl; [done|]. fold append in *.
  cbn [exec_bind next cell_of]. simpl in Hfuel. rewrite !length_app in Hfuel.
  destruct (head (append s (node z d c leaf)) None) as [q|] eqn:Hq.
  - apply (IHs (Some l)); [done..|lia].
  - by destruct s.
Qed.

Lemma name_of_spec d prv nxt c h : holds_texts (strings_of d) h →
  name_of (cell_of d prv nxt c) h = Ret (snd <$> l_name d).
Proof.
  unfold name_of, holds_texts, strings_of. cbn. destruct (l_name d) as [[a t]|]; [|done].
  rewrite list.Forall_forall. intros Ht. unfold load_text.
  cbn. assert (h !! a = Some (text_block t)) as ->; [|done].
  apply (Ht (a, t)), elem_of_app. right. by left.
Qed.

Lemma find_loop_spec f prv fuel i name h : seg prv f None h → (length (locs f) < fuel)%nat →
  find_loop fuel i (head f None) name h =
  Ret (match find_child (vals f) i name with
       | Some (j, _) => (j, addrs f !! Z.to_nat (j - i))
       | None => (i + Z.of_nat (length (addrs f)), None)
       end).
Proof.
  revert prv fuel i. induction f as [|l d c _ s IHs]; intros prv [|fuel] i Hf Hfuel;
    try (simpl in Hfuel; lia); [simpl; do 2 f_equal; lia|]. destruct Hf as (Hl & _ & Ht & _ & Hs).
  simpl in Hfuel. rewrite !length_app in Hfuel. cbn [find_loop head vals find_child addrs].
  unfold load. rewrite Hl. cbn [exec_bind next]. rewrite name_of_spec by done.
  cbn [exec_bind item item_string]. case_match; [by rewrite Z.sub_diag|].
  cbn [cell_of next]. rewrite (IHs (Some l)) by (done || lia).
  destruct (find_child (vals s) (i + 1) name) as [[j t]|] eqn:E.
  - apply find_child_index in E as (n & -> & _).
    replace (Z.to_nat (i + 1 + Z.of_nat n - i)) with (S n) by lia.
    by replace (Z.to_nat (i + 1 + Z.of_nat n - (i + 1))) with n by lia.
  - cbn [length]. do 2 f_equal. lia.
Qed.

(** ** Writing a link *)

Lemma seg_insert prv f nxt h x b : seg prv f nxt h → x ∉ locs f → seg prv f nxt (<[x := b]> h).
Proof.
  intros Hf Hx. apply (seg_frame _ _ _ h); [done|]. intros y Hy. apply lookup_insert_ne. congruence.
Qed.

Lemma holds_texts_insert ts h x b : holds_texts ts h → x ∉ ts.*1 → holds_texts ts (<[x := b]> h).
Proof.
  intros Hf Hx. apply (holds_texts_frame _ h); [done|]. intros y Hy. apply lookup_insert_ne.
  congruence.
Qed.

(** The head of a chain gets another cell: other siblings, or other children. *)
Lemma seg_cell prv prv' l d c c' s nxt h : seg prv (node l d c s) nxt h →
  NoDup (locs (node l d c s)) → seg None c' None h → l ∉ locs c' →
  seg prv' (node l d c' s) nxt
    (<[l := node_block (cell_of d prv' (head s nxt) (head c' None))]> h).
Proof.
  intros (Hl & Hr & Ht & Hc & Hs) (Hn & _)%NoDup_node Hc' Hlc'. rewrite !not_elem_of_app in Hn.
  split; [by rewrite lookup_insert_eq|]. split; [done|].
  split; [apply holds_texts_insert; tauto|]. split; apply seg_insert; tauto.
Qed.

(** The last node of a chain is followed by another one. *)
Lemma seg_last prv f z d c nxt nxt' h : seg prv (append f (node z d c leaf)) nxt h →
  NoDup (locs (append f (node z d c leaf))) →
  seg prv (append f (node z d c leaf)) nxt'
    (<[z := node_block (cell_of d (last_of f prv) nxt' (head c None))]> h).
Proof.
  rewrite locs_append. intros (Hf & Hz & Hr & Ht & Hc & _)%seg_append (_ & Hd & Hn)%list.NoDup_app.
  apply NoDup_node in Hn as (Hn & _). rewrite !not_elem_of_app in Hn. apply seg_append. split.
  - apply seg_insert; [done|]. intros Hzf. apply (Hd z); [done|by left].
  - split; [by rewrite lookup_insert_eq|]. split; [done|].
    split; [apply holds_texts_insert; tauto|]. split; [|done]. apply seg_insert; tauto.
Qed.

(** A single node gets other siblings. *)
Lemma seg_alone prv prv' l d c nxt nxt' h : seg prv (node l d c leaf) nxt h →
  NoDup (locs (node l d c leaf)) →
  seg prv' (node l d c leaf) nxt' (<[l := node_block (cell_of d prv' nxt' (head c None))]> h).
Proof.
  intros (Hl & Hr & Ht & Hc & _) (Hn & _)%NoDup_node. rewrite !not_elem_of_app in Hn.
  split; [by rewrite lookup_insert_eq|]. split; [done|].
  split; [apply holds_texts_insert; tauto|]. split; [|done]. apply seg_insert; tauto.
Qed.

(** ** What an operation leaves alone *)

(** Only the nodes [ls] were written, and none was allocated or freed. *)
Definition writes (ls : list nat) (h h' : blocks) : Prop :=
  (∀ x, x ∉ ls → h' !! x = h !! x) ∧ ∀ x, is_Some (h' !! x) ↔ is_Some (h !! x).

Lemma writes_refl ls h : writes ls h h.
Proof. done. Qed.

Lemma writes_insert ls h h' x b : writes ls h h' → x ∈ ls → is_Some (h !! x) →
  writes ls h (<[x := b]> h').
Proof.
  intros [Hs Hd] Hx Hl. split; intros y.
  - intros Hy. rewrite lookup_insert_ne by congruence. by apply Hs.
  - rewrite <- Hd. destruct (decide (x = y)) as [->|]; [|by rewrite lookup_insert_ne].
    rewrite lookup_insert_eq, Hd. split; [done|by eexists].
Qed.

Lemma writes_mono ls ls' h h' : writes ls h h' → ls ⊆ ls' → writes ls' h h'.
Proof. intros [Hs Hd] Hls. split; [|done]. intros x Hx. apply Hs. by intros ?%Hls. Qed.

Lemma seg_writes ls prv f nxt h h' : writes ls h h' → seg prv f nxt h →
  (∀ x, x ∈ ls → x ∉ locs f) → seg prv f nxt h'.
Proof. intros [Hs _] Hf Hd. apply (seg_frame _ _ _ h); [done|]. intros x Hx. apply Hs. naive_solver. Qed.

Lemma seg_head_cell prv l d c s nxt h : seg prv (node l d c s) nxt h →
  h !! l = Some (node_block (cell_of d prv (head s nxt) (head c None))).
Proof. by intros [? _]. Qed.

Lemma update_Ret p f n h : h !! p = Some (node_block n) →
  update p f h = Ret (<[p := node_block (f n)]> h).
Proof. unfold update, load. by intros ->. Qed.

(** The node after a chain changes, and the node before it. *)
Lemma relink_last f nxt nxt' h : seg None f nxt h → NoDup (locs f) →
  ∃ h', update_if (last_of f None) (λ m, m <| next := nxt' |>) h = Ret h' ∧
    seg None f nxt' h' ∧ writes (locs f) h h'.
Proof.
  intros Hf Hn. destruct (split_last f) as [->|(f' & z & d & c & ->)].
  { exists h. done. }
  pose proof (seg_last None f' z d c nxt nxt' h Hf Hn) as Hf'.
  apply seg_append in Hf as [_ Hz%seg_head_cell].
  eexists. split; [|split; [exact Hf'|]].
  - rewrite last_of_append. cbn [last_of update_if]. by rewrite (update_Ret _ _ _ _ Hz).
  - apply writes_insert; [done| |by eexists]. rewrite locs_append, elem_of_app. right. by left.
Qed.

Lemma relink_first f prv prv' h : seg prv f None h → NoDup (locs f) →
  ∃ h', update_if (head f None) (λ m, m <| prev := prv' |>) h = Ret h' ∧
    seg prv' f None h' ∧ writes (locs f) h h'.
Proof.
  intros Hf Hn. destruct f as [|l d c s]; [by exists h|].
  pose proof (seg_head_cell _ _ _ _ _ _ _ Hf) as Hl. eexists. split; [|split].
  - cbn [head update_if]. by rewrite (update_Ret _ _ _ _ Hl).
  - apply (seg_cell prv prv' l d c c s None h Hf Hn); [by destruct Hf as (_ & _ & _ & ? & _)|].
    apply NoDup_node in Hn as (Hn & _). rewrite !not_elem_of_app in Hn. tauto.
  - apply writes_insert; [done|by left|by eexists].
Qed.

(** ** The operations on the children of a node *)

Lemma parent_cell prv nxt p d c h : seg prv (node p d c leaf) nxt h →
  h !! p = Some (node_block (cell_of d prv nxt (head c None))) ∧ seg None c None h.
Proof. by intros (? & _ & _ & ? & _). Qed.

Lemma parent_apart p d c : NoDup (locs (node p d c leaf)) →
  (p ∉ locs c) ∧ (p ∉ (strings_of d).*1) ∧ NoDup (locs c) ∧
  ∀ x, x ∈ (strings_of d).*1 → x ∉ locs c.
Proof. intros H%NoDup_node. rewrite !not_elem_of_app in H. naive_solver. Qed.

Lemma node_rest p d c : NoDup (locs (node p d c leaf)) →
  (∀ x, x ∈ locs c → x ∈ locs (node p d c leaf) ∧ x ≠ p) ∧
  ∀ x, x ∈ (strings_of d).*1 → x ∈ locs (node p d c leaf) ∧ x ≠ p.
Proof.
  intros (Hc & Hs & _)%parent_apart. cbn [locs]. setoid_rewrite elem_of_cons.
  setoid_rewrite elem_of_app. setoid_rewrite elem_of_app.
  split; intros x Hx; (split; [tauto|congruence]).
Qed.

(** A node got other siblings or children; its strings are as they were. *)
Lemma node_after prv nxt prv' nxt' p d c c' h h' : seg prv (node p d c leaf) nxt h →
  seg None c' None h' → h' !! p = Some (node_block (cell_of d prv' nxt' (head c' None))) →
  (∀ x, x ∈ (strings_of d).*1 → h' !! x = h !! x) →
  seg prv' (node p d c' leaf) nxt' h'.
Proof.
  intros (_ & Hr & Ht' & _) Hc' Hp' Ht. split; [done|]. split; [done|].
  split; [by apply (holds_texts_frame _ h)|done].
Qed.

(** The children changed, and the pointer of the parent with them. *)
Lemma parent_after prv nxt p d c c' h h' : seg prv (node p d c leaf) nxt h →
  seg None c' None h' → h' !! p = Some (node_block (cell_of d prv nxt (head c' None))) →
  (∀ x, x ∈ (strings_of d).*1 → h' !! x = h !! x) →
  seg prv (node p d c' leaf) nxt h'.
Proof. apply node_after. Qed.

Lemma AddItemToArray_spec prv nxt p d c h i di ci (u := node i di ci leaf) :
  seg prv (node p d c leaf) nxt h → NoDup (locs (node p d c leaf)) → seg None u None h → NoDup (locs u) → (∀ x, x ∈ locs (node p d c leaf) → x ∉ locs u) →
  ∃ h', AddItemToArray p (Some i) h = Ret h' ∧
    seg prv (node p d (append c u) leaf) nxt h' ∧
    writes (locs (node p d c leaf) ++ locs u) h h'.
Proof.
  intros Hp Hn Hu Hnu Hd. destruct (parent_cell _ _ _ _ _ _ Hp) as [Hpc Hc].
  destruct (parent_apart _ _ _ Hn) as (Hpc' & Hpd & Hnc & Htc).
  pose proof (seg_head_cell _ _ _ _ _ _ _ Hu) as Hi.
  assert (p ∉ locs u) as Hpu by (apply Hd; by left).
  unfold AddItemToArray, load. rewrite Hpc. cbn [exec_bind child cell_of].
  destruct (split_last c) as [->|(c1 & z & dz & cz & ->)].
  - eexists. cbn [head]. rewrite (update_Ret _ _ _ _ Hpc). split; [done|]. split.
    + by apply (seg_cell prv prv p d leaf u leaf nxt h).
    + apply writes_insert; [done|by left|by eexists].
  - set (f := append c1 (node z dz cz leaf)) in *.
    assert (z ∈ locs f) as Hzf by (unfold f; rewrite locs_append, elem_of_app; right; by left).
    assert (Hz : h !! z = Some (node_block (cell_of dz (last_of c1 None) None (head cz None)))).
    { by apply seg_append in Hc as [_ ?%seg_head_cell]. }
    assert (z ∉ locs u) as Hzu.
    { apply Hd. cbn [locs]. rewrite !elem_of_cons, !elem_of_app. tauto. }
    assert (i ≠ z) as Hiz by (intros ->; apply Hzu; by left).
    assert (z ≠ p) as Hzp by congruence. assert (i ≠ p) as Hip by (intros ->; apply Hpu; by left).
    destruct (head f None) as [q|] eqn:Hq; [|by destruct c1].
    rewrite (last_loop_spec c1 z dz cz None q (steps h) h)
      by (done || by apply Nat.lt_succ_r, (locs_size None f None)).
    cbn [exec_bind]. unfold suffix_object. rewrite (update_Ret _ _ _ _ Hz). cbn [exec_bind].
    erewrite update_Ret by by rewrite lookup_insert_ne.
    eexists. split; [reflexivity|]. split.
    + apply (parent_after prv nxt p d f _ h); [exact Hp|..].
      * apply seg_append. split.
        -- apply seg_insert; [|intros Hif; apply (Hd i); [|by left];
             cbn [locs]; rewrite !elem_of_cons, !elem_of_app; tauto].
           by apply (seg_last None c1 z dz cz None (Some i)).
        -- unfold f. rewrite last_of_append. apply (seg_cell None (Some z) i di ci ci leaf None);
             [by apply seg_insert|done|apply seg_insert|].
           ++ by destruct Hu as (_ & _ & _ & ? & _).
           ++ intros Hx. apply Hzu. cbn [u locs]. rewrite !elem_of_cons, !elem_of_app. tauto.
           ++ apply NoDup_node in Hnu as (Hnu & _). rewrite !not_elem_of_app in Hnu. tauto.
      * rewrite !lookup_insert_ne by congruence.
        by rewrite Hpc, head_append; destruct c1; cbn in *; injection Hq as <-.
      * intros x Hx. rewrite !lookup_insert_ne; [done|intros <-; by apply (Htc z)|].
        intros <-. apply (Hd i); [|by left]. cbn [locs]. rewrite elem_of_cons, elem_of_app. tauto.
    + apply writes_insert; [apply writes_insert|..]; [done| |by eexists| |by eexists].
      * cbn [locs]. rewrite !elem_of_app, !elem_of_cons, !elem_of_app. tauto.
      * rewrite elem_of_app. right. by left.
Qed.

Lemma writes_trans a b h1 h2 h3 : writes a h1 h2 → writes b h2 h3 → writes (a ++ b) h1 h3.
Proof.
  intros [Ha Hda] [Hb Hdb]. split; intros x; [|by rewrite Hdb].
  rewrite not_elem_of_app. intros [??]. by rewrite Hb, Ha.
Qed.

(** A chain cut at one of its nodes. *)
Lemma seg_middle prv f1 q dq cq f2 nxt h : seg prv (append f1 (node q dq cq f2)) nxt h ↔
  seg prv f1 (Some q) h ∧ seg (last_of f1 prv) (node q dq cq leaf) (head f2 nxt) h ∧
  seg (Some q) f2 nxt h.
Proof. rewrite seg_append. simpl. tauto. Qed.

Lemma locs_middle f1 q dq cq f2 :
  locs (append f1 (node q dq cq f2)) = locs f1 ++ locs (node q dq cq leaf) ++ locs f2.
Proof. rewrite locs_append. cbn [locs]. by rewrite app_nil_r, <- app_comm_cons, <- app_assoc. Qed.

Lemma NoDup_middle (a b c : list nat) : NoDup (a ++ b ++ c) →
  NoDup a ∧ NoDup b ∧ NoDup c ∧ (∀ x, x ∈ a → (x ∉ b) ∧ (x ∉ c)) ∧ ∀ x, x ∈ b → x ∉ c.
Proof.
  intros (Ha & Hd & H)%list.NoDup_app. apply list.NoDup_app in H as (Hb & Hbc & Hc).
  setoid_rewrite not_elem_of_app in Hd. tauto.
Qed.

Lemma addrs_middle f1 q dq cq f2 : addrs (append f1 (node q dq cq f2)) !! length (addrs f1) = Some q.
Proof. rewrite addrs_append, lookup_app_r, Nat.sub_diag by done. done. Qed.

(** The head of a chain is a given node when nothing is before that. *)
Lemma head_middle f1 q dq cq f2 : NoDup (locs (append f1 (node q dq cq f2))) →
  (Some q = head (append f1 (node q dq cq f2)) None ↔ f1 = leaf).
Proof.
  rewrite locs_middle. intros (_ & _ & _ & Hd & _)%NoDup_middle. split; [|by intros ->].
  destruct f1 as [|l d c s]; [done|]. intros [= ->]. destruct (Hd l) as [Hl _]; [by left|].
  destruct Hl. by left.
Qed.

(** Membership of [x] in the parts of a list whose addresses are all different. *)
Ltac elem x :=
  repeat match goal with H : ∀ y : nat, y ∈ _ → _ |- _ => specialize (H x) end;
  rewrite ?elem_of_cons, ?elem_of_app, ?elem_of_nil in *; intuition (congruence || done || (subst; tauto)).

(** A node [p] whose children are cut at one of them, [q]. *)
Record cut (prv nxt : ptr) (p : nat) (d : label) (f1 : forest) (q : nat) (dq : label)
    (cq f2 : forest) (h : blocks) : Prop := {
  cut_parent : h !! p = Some (node_block (cell_of d prv nxt (head f1 (Some q))));
  cut_node : h !! q = Some (node_block (cell_of dq (last_of f1 None) (head f2 None) (head cq None)));
  cut_before : seg None f1 (Some q) h;
  cut_at : seg (last_of f1 None) (node q dq cq leaf) (head f2 None) h;
  cut_behind : seg (Some q) f2 None h;
  cut_NoDup : NoDup (locs f1) ∧ NoDup (locs (node q dq cq leaf)) ∧ NoDup (locs f2);
  cut_1 x : x ∈ locs f1 → (x ∉ locs (node q dq cq leaf)) ∧ (x ∉ locs f2);
  cut_2 x : x ∈ locs (node q dq cq leaf) → x ∉ locs f2;
  cut_p x : x ∈ p :: (strings_of d).*1 →
    (x ∉ locs f1) ∧ (x ∉ locs (node q dq cq leaf)) ∧ (x ∉ locs f2);
  cut_3 : p ∉ (strings_of d).*1;
  cut_q : (q ∉ locs f1) ∧ (q ∉ locs f2) ∧ q ≠ p ∧ (q ∉ (strings_of d).*1) ∧ q ∉ locs cq;
}.

Lemma cut_of prv nxt p d f1 q dq cq f2 h (c := append f1 (node q dq cq f2)) :
  seg prv (node p d c leaf) nxt h → NoDup (locs (node p d c leaf)) →
  cut prv nxt p d f1 q dq cq f2 h.
Proof.
  intros Hp Hn. destruct (parent_cell _ _ _ _ _ _ Hp) as [Hpc Hc].
  destruct (parent_apart _ _ _ Hn) as (Hpc' & Hpd & Hnc & Htc).
  assert (Hlocs : locs c = locs f1 ++ locs (node q dq cq leaf) ++ locs f2) by apply locs_middle.
  rewrite Hlocs in Hnc. apply NoDup_middle in Hnc as (Hn1 & Hnq & Hn2 & Hd1 & Hdq).
  apply seg_middle in Hc as (H1 & Hq & H2). split; try done.
  - rewrite Hpc. unfold c. by rewrite head_append.
  - by apply seg_head_cell in Hq.
  - intros x [->|Hx]%elem_of_cons; [rewrite Hlocs, !not_elem_of_app in Hpc'; done|].
    specialize (Htc x Hx). by rewrite Hlocs, !not_elem_of_app in Htc.
  - assert (Hql : q ∈ locs (node q dq cq leaf)) by by left.
    apply NoDup_node in Hnq as (Hq1 & _). rewrite Hlocs, !not_elem_of_app in *.
    specialize (Hd1 q). specialize (Hdq q Hql). specialize (Htc q).
    rewrite !elem_of_app in Htc. intuition congruence.
Qed.

(** The pointer of the parent to its first child, when that was [q]. *)
Lemma relink_parent prv nxt p d f1 q dq cq f2 x h0 h : cut prv nxt p d f1 q dq cq f2 h0 →
  h !! p = h0 !! p →
  ∃ h', (if decide (Some q = head f1 (Some q)) then update p (λ m, m <| child := x |>) h else Ret h)
      = Ret h' ∧
    h' !! p = Some (node_block (cell_of d prv nxt (head f1 x))) ∧ writes [p] h h'.
Proof.
  intros Hcut Hp. pose proof (cut_parent _ _ _ _ _ _ _ _ _ _ Hcut) as Hpc. rewrite <- Hp in Hpc.
  destruct f1 as [|l dl cl s].
  - rewrite decide_True by done. erewrite update_Ret by exact Hpc. eexists. split; [reflexivity|].
    split; [by rewrite lookup_insert_eq|]. apply writes_insert; [done|by left|by eexists].
  - rewrite decide_False; [by exists h|]. intros [= ->].
    destruct (cut_1 _ _ _ _ _ _ _ _ _ _ Hcut l) as [Hl _]; [by left|]. apply Hl. by left.
Qed.

Lemma locs_cut p d f1 q dq cq f2 x :
  x ∈ locs f1 ++ locs f2 ++ [p] ++ locs (node q dq cq leaf) →
  x ∈ locs (node p d (append f1 (node q dq cq f2)) leaf).
Proof.
  cbn [locs]. rewrite locs_middle. rewrite !elem_of_cons, !elem_of_app, elem_of_cons, elem_of_nil.
  tauto.
Qed.

Lemma DetachItemFromArray_spec prv nxt p d f1 q dq cq f2 h which
    (c := append f1 (node q dq cq f2)) :
  seg prv (node p d c leaf) nxt h → NoDup (locs (node p d c leaf)) →
  Z.to_nat which = length (addrs f1) →
  ∃ h', DetachItemFromArray p which h = Ret (Some q, h') ∧
    seg prv (node p d (append f1 f2) leaf) nxt h' ∧ seg None (node q dq cq leaf) None h' ∧
    writes (locs (node p d c leaf)) h h'.
Proof.
  intros Hp Hn Hwhich. pose proof (cut_of _ _ _ _ _ _ _ _ _ _ Hp Hn) as Hcut.
  pose proof Hcut as [Hpc Hqc H1 Hq H2 (Hn1 & Hnq & Hn2) Hd1 Hd2 Hdp Hpd Hqn].
  destruct (relink_last f1 (Some q) (head f2 None) h H1 Hn1) as (h1 & Hr1 & H1' & W1).
  destruct (relink_first f2 (Some q) (last_of f1 None) h1) as (h2 & Hr2 & H2' & W2); [|done|].
  { apply (seg_writes _ _ _ _ _ _ W1); [done|]. intros x Hx. elem x. }
  destruct (relink_parent _ _ _ _ _ _ _ _ _ (head f2 None) h h2 Hcut) as (h3 & Hr3 & Hp3 & W3).
  { rewrite (proj1 W2), (proj1 W1); [done|elem p..]. }
  set (h4 := <[q := node_block (cell_of dq None None (head cq None))]> h3).
  assert (Hq3 : h3 !! q = h !! q).
  { rewrite (proj1 W3), (proj1 W2), (proj1 W1); [done|elem q..]. }
  exists h4. split; [|split; [|split]].
  - unfold DetachItemFromArray, load. destruct (parent_cell _ _ _ _ _ _ Hp) as [Hpc' Hc].
    rewrite Hpc'. cbn [exec_bind child cell_of]. rewrite (nth_loop_spec c None), Hwhich by done.
    unfold c at 1. rewrite addrs_middle. cbn [exec_bind].
    rewrite Hqc. cbn [exec_bind prev next cell_of]. rewrite Hr1. cbn [exec_bind].
    rewrite (proj1 W1), Hqc by elem q. cbn [exec_bind prev next cell_of]. rewrite Hr2.
    cbn [exec_bind]. rewrite !(proj1 W2), !(proj1 W1), Hpc, Hqc by (elem q || elem p).
    cbn [exec_bind child next cell_of]. rewrite Hr3. cbn [exec_bind].
    erewrite update_Ret by (rewrite Hq3; exact Hqc). done.
  - apply (parent_after prv nxt p d c _ h); [exact Hp| | |].
    + apply seg_append. split; (apply seg_insert; [|elem q]);
        (apply (seg_writes _ _ _ _ _ _ W3); [|intros x Hx; elem x]).
      * apply (seg_writes _ _ _ _ _ _ W2); [done|]. intros x Hx. elem x.
      * done.
    + unfold h4. rewrite lookup_insert_ne by elem q. by rewrite Hp3, head_append.
    + intros x Hx. unfold h4. rewrite lookup_insert_ne by (intros <-; elem q).
      rewrite (proj1 W3), (proj1 W2), (proj1 W1); [done|elem x..].
  - apply (seg_alone (last_of f1 None) None q dq cq (head f2 None)); [|done].
    apply (seg_writes _ _ _ _ _ _ W3); [|intros x Hx; elem x].
    apply (seg_writes _ _ _ _ _ _ W2); [|intros x Hx; elem x].
    apply (seg_writes _ _ _ _ _ _ W1); [done|intros x Hx; elem x].
  - apply (writes_mono (locs f1 ++ (locs f2 ++ ([p] ++ [q])))).
    + do 3 (eapply writes_trans; [eassumption|]). apply writes_insert; [done|by left|].
      rewrite Hq3. by eexists.
    + intros x Hx. apply locs_cut. rewrite !elem_of_app in *.
      destruct Hx as [?|[?|[?|Hx]]]; [tauto..|]. apply list_elem_of_singleton in Hx as ->.
      do 3 right. by left.
Qed.

(** Whatever points to [q], the node before it or the parent, points to [i]. *)
Lemma relink_before prv nxt p d f1 q dq cq f2 i h0 h : cut prv nxt p d f1 q dq cq f2 h0 →
  h !! p = h0 !! p → seg None f1 (Some q) h →
  ∃ h', (if decide (Some q = head f1 (Some q)) then update p (λ m, m <| child := Some i |>) h
         else match last_of f1 None with
              | Some z => update z (λ m, m <| next := Some i |>) h
              | None => Undef
              end) = Ret h' ∧
    seg None f1 (Some i) h' ∧
    h' !! p = Some (node_block (cell_of d prv nxt (head f1 (Some i)))) ∧
    writes (p :: locs f1) h h'.
Proof.
  intros Hcut Hp Hf1. pose proof Hcut as [Hpc _ _ _ _ (Hn1 & _) Hd1 _ Hdp _ Hqn].
  destruct (split_last f1) as [->|(f & z & dz & cz & E)].
  - destruct (relink_parent _ _ _ _ _ _ _ _ _ (Some i) h0 h Hcut Hp) as (h' & Hr & Hp' & W).
    cbn [head] in *. rewrite decide_True in Hr |- * by done. by exists h'.
  - assert (head f1 (Some q) ≠ Some q) as Hne.
    { destruct Hqn as [Hqn _]. rewrite E in Hqn |- *. destruct f; intros [= ->]; apply Hqn; by left. }
    assert (head f1 (Some i) = head f1 (Some q)) as -> by by rewrite E; destruct f.
    rewrite decide_False by done.
    destruct (relink_last f1 (Some q) (Some i) h Hf1 Hn1) as (h' & Hr & Hf' & W).
    exists h'. rewrite E in Hr |- * at 1. rewrite last_of_append in *. split; [exact Hr|].
    split; [done|]. split; [|by apply (writes_mono _ _ _ _ W), list_subseteq_cons].
    rewrite (proj1 W), Hp, Hpc; [done|]. elem p.
Qed.

(** The blocks after [i] took the place of [q], which is left without siblings. *)
Record relinked (prv nxt : ptr) (p : nat) (d : label) (f1 : forest) (q : nat) (dq : label)
    (cq f2 : forest) (i : nat) (di : label) (ci : forest) (h h' : blocks) : Prop := {
  relinked_parent : h' !! p = Some (node_block (cell_of d prv nxt (head f1 (Some i))));
  relinked_new : h' !! i = Some (node_block (cell_of di (last_of f1 None) (head f2 None) (head ci None)));
  relinked_old : h' !! q = Some (node_block (cell_of dq None None (head cq None)));
  relinked_before : seg None f1 (Some i) h';
  relinked_behind : seg (Some i) f2 None h';
  relinked_writes : writes ([i] ++ locs f2 ++ (p :: locs f1) ++ [q]) h h';
}.

Lemma link_in_place_run prv nxt p d f1 q dq cq f2 h i di ci : cut prv nxt p d f1 q dq cq f2 h →
  h !! i = Some (node_block (cell_of di None None (head ci None))) →
  i ∉ p :: q :: locs f1 ++ locs f2 →
  ∃ h', link_in_place p q i h = Ret h' ∧ relinked prv nxt p d f1 q dq cq f2 i di ci h h'.
Proof.
  intros Hcut Hic Hi. pose proof Hcut as [Hpc Hqc H1 Hq H2 (Hn1 & Hnq & Hn2) Hd1 Hd2 Hdp Hpd Hqn].
  assert (Hq1 : q ∈ locs (node q dq cq leaf)) by by left.
  rewrite !not_elem_of_cons, not_elem_of_app in Hi.
  set (h2 := <[i := node_block (cell_of di (last_of f1 None) (head f2 None) (head ci None))]> h).
  assert (W2 : writes [i] h h2) by (apply writes_insert; [done|by left|by eexists]).
  destruct (relink_first f2 (Some q) (Some i) h2) as (h3 & Hr3 & H3 & W3); [|done|].
  { apply (seg_writes _ _ _ _ _ _ W2); [done|]. intros x Hx. elem x. }
  destruct (relink_before _ _ _ _ _ _ _ _ _ i h h3 Hcut) as (h4 & Hr4 & H4 & Hp4 & W4).
  { rewrite (proj1 W3), (proj1 W2); [done|..]; elem p. }
  { apply (seg_writes _ _ _ _ _ _ W3); [|intros x Hx; elem x].
    apply (seg_writes _ _ _ _ _ _ W2); [done|]. intros x Hx. elem x. }
  assert (Hi2 : h2 !! i = Some (node_block (cell_of di (last_of f1 None) (head f2 None) (head ci None))))
    by apply lookup_insert_eq.
  assert (Hi3 : h3 !! i = h2 !! i) by (apply (proj1 W3); elem i). rewrite Hi2 in Hi3.
  assert (Hp3 : h3 !! p = h !! p) by (rewrite (proj1 W3), (proj1 W2); [done|elem p..]).
  rewrite Hpc in Hp3.
  assert (Hq4 : h4 !! q = h !! q).
  { rewrite (proj1 W4), (proj1 W3), (proj1 W2); [done|..]; elem q. }
  exists (<[q := node_block (cell_of dq None None (head cq None))]> h4). split.
  - unfold link_in_place, load. rewrite Hqc. cbn [exec_bind next cell_of].
    rewrite (update_Ret _ _ _ _ Hic). cbn [exec_bind].
    rewrite lookup_insert_ne, Hqc by intuition congruence. cbn [exec_bind prev cell_of].
    erewrite update_Ret by apply lookup_insert_eq. rewrite insert_insert_eq. cbn [exec_bind].
    change (<[i := _]> h) with h2. rewrite Hi2. cbn [exec_bind next cell_of]. rewrite Hr3.
    cbn [exec_bind]. rewrite Hp3, Hi3. cbn [exec_bind child prev cell_of]. rewrite Hr4.
    cbn [exec_bind]. erewrite update_Ret by (rewrite Hq4; exact Hqc). done.
  - split.
    + rewrite lookup_insert_ne by elem q. exact Hp4.
    + rewrite lookup_insert_ne by intuition congruence. rewrite (proj1 W4); [done|elem i].
    + apply lookup_insert_eq.
    + apply seg_insert; [exact H4|elem q].
    + apply seg_insert; [|elem q]. apply (seg_writes _ _ _ _ _ _ W4); [done|]. intros x Hx. elem x.
    + do 3 (eapply writes_trans; [eassumption|]). apply writes_insert; [done|by left|].
      rewrite Hq4. by eexists.
Qed.

(** What the links leave as it was. *)
Lemma cut_untouched prv nxt p d f1 q dq cq f2 h i x : cut prv nxt p d f1 q dq cq f2 h →
  i ∉ locs (node p d (append f1 (node q dq cq f2)) leaf) →
  (x ∈ locs (node q dq cq leaf) ∧ x ≠ q) ∨ x ∈ (strings_of d).*1 →
  x ∉ [i] ++ locs f2 ++ (p :: locs f1) ++ [q].
Proof.
  intros [_ _ _ _ _ _ Hd1 Hd2 Hdp Hpd Hqn] Hi Hx.
  assert (Hxi : x ∈ locs (node p d (append f1 (node q dq cq f2)) leaf)).
  { destruct Hx as [[Hx _]|Hx]; [apply locs_cut|]; [rewrite !elem_of_app; tauto|].
    cbn [locs]. rewrite elem_of_cons, !elem_of_app. tauto. }
  assert (x ≠ i) by congruence. destruct (Hdp p) as (_ & Hpq & _); [by left|].
  specialize (Hd1 x). specialize (Hd2 x). specialize (Hdp x).
  rewrite !elem_of_app, !elem_of_cons, !elem_of_nil in *.
  destruct Hx as [[Hx Hxq]|Hx].
  - assert (x ≠ p) by congruence. tauto.
  - assert (x ≠ p) by congruence. assert (x ≠ q) by (intros ->; tauto). tauto.
Qed.

Lemma link_in_place_spec prv nxt p d f1 q dq cq f2 h i di ci
    (c := append f1 (node q dq cq f2)) (u := node i di ci leaf) :
  seg prv (node p d c leaf) nxt h → NoDup (locs (node p d c leaf)) →
  seg None u None h → NoDup (locs u) → (∀ x, x ∈ locs (node p d c leaf) → x ∉ locs u) →
  ∃ h', link_in_place p q i h = Ret h' ∧
    seg prv (node p d (append f1 (node i di ci f2)) leaf) nxt h' ∧
    seg None (node q dq cq leaf) None h' ∧
    writes (locs (node p d c leaf) ++ locs u) h h'.
Proof.
  intros Hp Hn Hu Hnu Hpu. pose proof (cut_of _ _ _ _ _ _ _ _ _ _ Hp Hn) as Hcut.
  pose proof Hcut as [_ _ _ Hq _ (_ & Hnq & _) _ _ _ _ _].
  assert (Hsub : ∀ x, x ∈ [i] ++ locs f2 ++ (p :: locs f1) ++ [q] → x = i ∨ x ∈ locs (node p d c leaf)).
  { intros x. pose proof (locs_cut p d f1 q dq cq f2 x) as Hs. fold c in Hs.
    assert (x = q → x ∈ locs (node q dq cq leaf)) by (intros ->; by left).
    rewrite !elem_of_app, !elem_of_cons, elem_of_nil in *. tauto. }
  assert (Hip : i ∉ locs (node p d c leaf)) by (intros Hi; apply (Hpu i Hi); by left).
  assert (HWu : ∀ x, x ∈ locs u → x ≠ i → x ∉ [i] ++ locs f2 ++ (p :: locs f1) ++ [q]).
  { intros x Hx Hxi Hw. apply Hsub in Hw as [?|Hw]; [done|]. by apply (Hpu x). }
  assert (HWq : ∀ x, x ∈ locs (node q dq cq leaf) → x ≠ q → x ∉ [i] ++ locs f2 ++ (p :: locs f1) ++ [q]).
  { intros x Hx Hxq. eapply cut_untouched; [exact Hcut|exact Hip|by left]. }
  destruct (parent_cell _ _ _ _ _ _ Hu) as [Hic Hci].
  destruct (node_rest _ _ _ Hnu) as [Hi1 Hi2]. destruct (node_rest _ _ _ Hnq) as [Hq1 Hq2].
  destruct (link_in_place_run prv nxt p d f1 q dq cq f2 h i di ci Hcut Hic) as (h' & E & [Rp Ri Rq R1 R2 W]).
  { intros Hi. apply Hip. apply locs_cut. assert (q ∈ locs (node q dq cq leaf)) by by left.
    rewrite !elem_of_cons, !elem_of_app, elem_of_cons, elem_of_nil in *. intuition congruence. }
  exists h'. split; [exact E|]. split; [|split].
  - apply (parent_after prv nxt p d c _ h); [exact Hp| |by rewrite head_append|].
    + apply seg_append. split; [exact R1|]. apply (seg_middle _ leaf). split; [done|].
      split; [|exact R2]. apply (node_after None None _ _ i di ci _ h); [exact Hu| |exact Ri|].
      * apply (seg_writes _ _ _ _ _ _ W); [exact Hci|]. intros x Hx Hxc.
        by apply (HWu x); [apply Hi1..|].
      * intros x Hx. apply (proj1 W). by apply HWu; apply Hi2.
    + intros x Hx. apply (proj1 W). eapply cut_untouched; [exact Hcut|exact Hip|by right].
  - apply (node_after (last_of f1 None) (head f2 None) _ _ q dq cq _ h); [exact Hq| |exact Rq|].
    + apply (seg_writes _ _ _ _ _ _ W); [by apply parent_cell in Hq as [_ ?]|]. intros x Hx Hxc.
      by apply (HWq x); [apply Hq1..|].
    + intros x Hx. apply (proj1 W). by apply HWq; apply Hq2.
  - apply (writes_mono _ _ _ _ W). intros x [->|Hx]%Hsub; apply elem_of_app; [right; by left|by left].
Qed.
