(* ===== verification/CJsonHeapOwns.v ===== *)
(** * The trees that a heap consists of.

    [owns Fs R h]: the blocks of [h] are those of the forests [Fs], which have no block in common,
    and those of [R].  Every operation of cJSON.cpp is stated with [owns]: it takes apart, joins or
    rebuilds some of the forests, and leaves the others and [R] as they are. *)
From S2P Require Import Prelude.
From S2P Require Import Double.
From S2P Require Import CJson.
From S2P Require Import CJsonTree.
From S2P Require Import CJsonHeap.
From S2P Require Import CJsonHeapSpec.
Local Open Scope Z_scope.

(** A forest between two siblings. *)
Record part := mkPart { before : ptr; tree : forest; after : ptr }.

(** A forest of its own. *)
Abbreviation whole f := (mkPart None f None).

Definition plocs (Fs : list part) : list nat := concat (map (λ P, locs (tree P)) Fs).

Definition segs (Fs : list part) (h : blocks) : Prop :=
  Forall (λ P, seg (before P) (tree P) (after P) h) Fs.

(** The addresses in use are below [unused]. *)
Definition bounded (h : heap) : Prop := ∀ x, is_Some (contents h !! x) → (x < unused h)%nat.

Record owns (Fs : list part) (R : blocks) (h : heap) : Prop := {
  owns_segs : segs Fs (contents h);
  owns_NoDup : NoDup (plocs Fs);
  owns_rest : erase (plocs Fs) (contents h) = R;
  owns_bounded : bounded h;
}.

Lemma plocs_app Fs Gs : plocs (Fs ++ Gs) = plocs Fs ++ plocs Gs.
Proof. unfold plocs. by rewrite map_app, concat_app. Qed.

#[export] Instance plocs_Permutation : Proper ((≡ₚ) ==> (≡ₚ)) plocs.
Proof.
  induction 1 as [|P Fs Gs _ IH|P Q Fs|Fs Gs Hs _ IH1 _ IH2]; unfold plocs in *; simpl.
  - done.
  - by rewrite IH.
  - by rewrite !app_assoc, (Permutation_app_comm (locs (tree P))).
  - by rewrite IH1.
Qed.

Lemma erase_ext ls ls' h : (∀ x, x ∈ ls ↔ x ∈ ls') → erase ls h = erase ls' h.
Proof.
  intros Hx. apply map_eq. intros x. rewrite !lookup_erase. repeat case_decide; naive_solver.
Qed.

(** The order of the forests does not matter. *)
#[export] Instance owns_Permutation : Proper ((≡ₚ) ==> eq ==> eq ==> iff) owns.
Proof.
  assert (∀ Fs Gs R h, Fs ≡ₚ Gs → owns Fs R h → owns Gs R h) as Hperm.
  { intros Fs Gs R h Hp [Hs Hn Hr Hb]. split; [|by rewrite <- Hp| |done].
    - unfold segs. by rewrite <- Hp.
    - rewrite <- Hr. apply erase_ext. intros x. by rewrite Hp. }
  intros Fs Gs Hp R ? <- h ? <-. split; apply Hperm; by symmetry || done.
Qed.

Lemma segs_live Fs h x : segs Fs h → x ∈ plocs Fs → is_Some (h !! x).
Proof.
  unfold segs, plocs. intros Hs Hx. apply list_elem_of_In, in_concat in Hx as (ls & Hls & Hx).
  apply in_map_iff in Hls as (P & <- & HP). apply list_elem_of_In in HP, Hx.
  rewrite list.Forall_forall in Hs. eapply seg_live; [by apply Hs|done].
Qed.

Lemma segs_frame Fs h h' : segs Fs h → (∀ x, x ∈ plocs Fs → h' !! x = h !! x) → segs Fs h'.
Proof.
  unfold segs, plocs. rewrite !list.Forall_forall. intros Hs Hx P HP.
  apply (seg_frame _ _ _ h); [by apply Hs|]. intros x Hl. apply Hx, list_elem_of_In, in_concat.
  exists (locs (tree P)). split; [|by apply list_elem_of_In].
  apply in_map_iff. exists P. split; [done|by apply list_elem_of_In].
Qed.

Lemma owns_outside Fs R h x : owns Fs R h → x ∉ plocs Fs → contents h !! x = R !! x.
Proof. intros [_ _ <- _] Hx. by rewrite erase_absent. Qed.

(** The rule of the frame: what an operation does to the forests [Ps] it does whatever else there
    is, when it keeps to their blocks and to new ones. *)
Lemma owns_frame Ps Ps' Fs R h h' : owns (Ps ++ Fs) R h →
  segs Ps' (contents h') → NoDup (plocs Ps') →
  (∀ x, x ∈ plocs Ps' → x ∈ plocs Ps ∨ contents h !! x = None) →
  (∀ x, x ∉ plocs Ps' →
    contents h' !! x = if decide (x ∈ plocs Ps) then None else contents h !! x) →
  bounded h' → owns (Ps' ++ Fs) R h'.
Proof.
  intros [Hs Hn Hr Hb] Hs' Hn' Hnew Hold Hb'. unfold segs in Hs. apply Forall_app in Hs as [_ HF].
  rewrite plocs_app in Hn, Hr. apply list.NoDup_app in Hn as (_ & Hd & HnF).
  assert (Hapart : ∀ x, x ∈ plocs Fs → x ∉ plocs Ps').
  { intros x HxF HxP. destruct (Hnew x HxP) as [Hx|Hx]; [by apply (Hd x)|].
    destruct (segs_live Fs _ x HF HxF) as [b Hb1]. congruence. }
  assert (HFs : ∀ x, x ∈ plocs Fs → contents h' !! x = contents h !! x).
  { intros x Hx. rewrite Hold by by apply Hapart. apply decide_False. intros ?. by apply (Hd x). }
  split; [|rewrite plocs_app|rewrite plocs_app|done].
  - apply Forall_app. split; [done|]. by apply (segs_frame _ (contents h)).
  - apply list.NoDup_app. split; [done|]. split; [|done]. intros x ? ?. by apply (Hapart x).
  - rewrite <- Hr. apply map_eq. intros x. rewrite !lookup_erase.
    destruct (decide (x ∈ plocs Ps' ++ plocs Fs)) as [Hx|Hx]; case_decide as Hy; try done;
      rewrite elem_of_app in Hx, Hy.
    + specialize (Hnew x). symmetry. tauto.
    + rewrite Hold, decide_True by tauto. done.
    + by rewrite Hold, decide_False by tauto.
Qed.

(** The same when no block is allocated or freed. *)
Lemma owns_writes Ps Ps' Fs R h b : owns (Ps ++ Fs) R h → writes (plocs Ps) (contents h) b →
  segs Ps' b → plocs Ps' ≡ₚ plocs Ps → owns (Ps' ++ Fs) R (h <| contents := b |>).
Proof.
  intros Ho [Hs Hd] Hs' Hp. apply (owns_frame Ps Ps' Fs R h); try done.
  - rewrite Hp. apply owns_NoDup in Ho. rewrite plocs_app in Ho.
    by apply list.NoDup_app in Ho as (? & _).
  - intros x Hx. left. by rewrite <- Hp.
  - intros x Hx. rewrite Hp in Hx. rewrite decide_False by done. by apply Hs.
  - intros x Hx. cbn in *. apply (owns_bounded _ _ _ Ho), Hd, Hx.
Qed.

(** ** The operations *)

Lemma owns_whole_1 P Fs R h : owns (P :: Fs) R h →
  seg (before P) (tree P) (after P) (contents h) ∧ NoDup (locs (tree P)) ∧
  ∀ x, x ∈ locs (tree P) → x ∉ plocs Fs.
Proof.
  intros [Hs Hn _ _]. unfold segs in Hs. apply list.Forall_cons in Hs as [HP _].
  change (plocs (P :: Fs)) with (locs (tree P) ++ plocs Fs) in Hn.
  apply list.NoDup_app in Hn as (? & ? & _). done.
Qed.

Lemma owns_Delete prv f Fs R h : owns (mkPart prv f None :: Fs) R h →
  ∃ h', cJSON_Delete (head f None) h = Ret h' ∧ owns Fs R h' ∧ unused h' = unused h.
Proof.
  intros Ho. destruct (owns_whole_1 _ _ _ _ Ho) as (Hf & Hn & _). cbn in Hf, Hn.
  eexists. split; [by apply (cJSON_Delete_spec f prv)|]. split; [|done].
  apply (owns_frame [mkPart prv f None] [] Fs R h); [done| |apply base.NoDup_nil_2|..]; unfold plocs; cbn.
  - by apply Forall_nil.
  - by intros x ?%elem_of_nil.
  - intros x _. rewrite lookup_erase. by rewrite app_nil_r.
  - intros x Hx. cbn in Hx. rewrite lookup_erase in Hx. case_decide; [by destruct Hx|].
    by apply (owns_bounded _ _ _ Ho).
Qed.

(** ** Allocation *)

(** A tree whose nodes own their children and strings. *)
Fixpoint no_reference (t : cJsonDap) : bool :=
  (Z.land (CJson.type t) cJsonDap_IsReference =? 0) && forallb no_reference (CJson.child t).

(** [h'] is [h] with the new blocks [ls]. *)
Record grown (ls : list nat) (h h' : heap) : Prop := {
  grown_NoDup : NoDup ls;
  grown_new x : x ∈ ls → (unused h ≤ x < unused h')%nat;
  grown_old x : x ∉ ls → contents h' !! x = contents h !! x;
  grown_bounded : bounded h';
  grown_unused : (unused h ≤ unused h')%nat;
}.

Lemma grown_refl h : bounded h → grown [] h h.
Proof. intros Hb. split; try done; [apply base.NoDup_nil_2|by intros x ?%elem_of_nil]. Qed.

Lemma grown_keep ls h h' x : grown ls h h' → (x < unused h)%nat → contents h' !! x = contents h !! x.
Proof. intros Hg Hx. apply (grown_old _ _ _ Hg). intros Hl%(grown_new _ _ _ Hg). lia. Qed.

Lemma grown_trans a b h1 h2 h3 : grown a h1 h2 → grown b h2 h3 → grown (a ++ b) h1 h3.
Proof.
  intros [Hna Ha Hoa _ Hua] [Hnb Hb Hob Hbb Hub]. split; [|intros x|intros x|done|lia].
  - apply list.NoDup_app. split; [done|]. split; [|done]. intros x ?%Ha ?%Hb. lia.
  - intros [?%Ha|?%Hb]%elem_of_app; lia.
  - rewrite not_elem_of_app. intros [??]. by rewrite Hob, Hoa.
Qed.

Lemma grown_write ls h h' x b : grown ls h h' → x ∈ ls →
  grown ls h (h' <| contents := <[x := b]> (contents h') |>).
Proof.
  intros [Hn Hi Ho Hb Hu] Hx. split; cbn; try done.
  - intros y Hy. rewrite lookup_insert_ne by congruence. by apply Ho.
  - intros y Hy. cbn in *. destruct (decide (x = y)) as [->|]; [apply Hi in Hx; lia|].
    rewrite lookup_insert_ne in Hy by done. by apply Hb.
Qed.

Lemma malloc_grown b h : bounded h → grown [unused h] h (malloc b h).2.
Proof.
  intros Hb. split; cbn.
  - apply NoDup_singleton.
  - intros x ->%list_elem_of_singleton. lia.
  - intros x Hx. apply lookup_insert_ne. intros <-. by apply Hx, list_elem_of_singleton.
  - intros x Hx. cbn in *. destruct (decide (x = unused h)) as [->|]; [lia|].
    rewrite lookup_insert_ne in Hx by done. apply Hb in Hx. lia.
  - lia.
Qed.

(** What was there stays there. *)
Lemma seg_grown prv f nxt ls h h' : bounded h → seg prv f nxt (contents h) → grown ls h h' →
  seg prv f nxt (contents h').
Proof.
  intros Hb Hf Hg. apply (seg_frame _ _ _ (contents h)); [done|]. intros x Hx.
  apply (grown_keep _ _ _ _ Hg), Hb. by eapply seg_live.
Qed.

Lemma owns_grown prv f nxt Fs R h h' : owns Fs R h → seg prv f nxt (contents h') →
  grown (locs f) h h' → owns (mkPart prv f nxt :: Fs) R h'.
Proof.
  intros Ho Hf Hg. pose proof (owns_bounded _ _ _ Ho) as Hb.
  apply (owns_frame [] [mkPart prv f nxt] Fs R h); try done; unfold plocs; cbn; rewrite ?app_nil_r.
  - by apply Forall_singleton.
  - apply (grown_NoDup _ _ _ Hg).
  - intros x Hx. right. apply eq_None_not_Some. intros ?%Hb. apply (grown_new _ _ _ Hg) in Hx. lia.
  - apply (grown_old _ _ _ Hg).
  - apply (grown_bounded _ _ _ Hg).
Qed.

(** ** A tree laid out in the heap: a block for every node and for every string *)

Definition alloc_text (t : option text) (h : heap) : ptr * heap :=
  match t with
  | None => (None, h)
  | Some t => let '(s, h) := malloc (text_block t) h in (Some s, h)
  end.

Definition set_next (n : nat) (after : ptr) (h : heap) : heap :=
  h <| contents := alter (λ b, match b with
    | node_block m => node_block (m <| next := after |>)
    | text_block t => text_block t
    end) n (contents h) |>.

Section Chain.
Context (alloc : cJsonDap → ptr → heap → nat * heap).

Fixpoint alloc_chain (l : list cJsonDap) (before : ptr) (h : heap) : ptr * heap :=
  match l with
  | [] => (None, h)
  | t :: r =>
      let '(n, h) := alloc t before h in
      let '(after, h) := alloc_chain r (Some n) h in
      (Some n, set_next n after h)
  end.
End Chain.

Fixpoint alloc_tree (t : cJsonDap) (before : ptr) (h : heap) : nat * heap :=
  let 'Item ty vs vi vd name l := t in
  let '(item, h) := cJSON_New_Item h in
  let '(vs, h) := alloc_text vs h in
  let '(name, h) := alloc_text name h in
  let '(c, h) := alloc_chain alloc_tree l None h in
  (item, h <| contents := <[item := node_block (mkCell None before c ty vs vi vd name)]>
                            (contents h) |>).

(** The address and the text of a new string. *)
Lemma alloc_text_spec t h : bounded h → ∃ s h', alloc_text t h = (fst <$> s, h') ∧ t = snd <$> s ∧
  holds_texts (option_list s) (contents h') ∧ grown (option_list s).*1 h h'.
Proof.
  intros Hb. destruct t as [t|].
  - exists (Some (unused h, t)). eexists. split; [reflexivity|]. split; [done|]. split.
    + apply Forall_singleton. apply lookup_insert_eq.
    + by apply (malloc_grown (text_block t)).
  - exists None, h. do 2 (split; [done|]). split; [by apply Forall_nil|by apply grown_refl].
Qed.

Lemma holds_texts_grown ts ls h h' : bounded h → holds_texts ts (contents h) → grown ls h h' →
  holds_texts ts (contents h').
Proof.
  intros Hb Ht Hg. apply (holds_texts_frame _ (contents h)); [done|]. intros x Hx.
  apply (grown_keep _ _ _ _ Hg), Hb. apply list_elem_of_fmap in Hx as (a & -> & Ha).
  unfold holds_texts in Ht. rewrite list.Forall_forall in Ht. eexists. by apply Ht.
Qed.

Lemma set_next_insert n a m h : contents h !! n = Some (node_block m) →
  set_next n a h = h <| contents := <[n := node_block (m <| next := a |>)]> (contents h) |>.
Proof.
  intros Hn. unfold set_next. f_equal. apply map_eq. intros x. destruct (decide (n = x)) as [->|].
  - by rewrite lookup_alter_eq, Hn, lookup_insert_eq.
  - by rewrite lookup_alter_ne, lookup_insert_ne.
Qed.

(** What a run of the allocator gives for a tree. *)
Definition allocates (t : cJsonDap) : Prop := ∀ before h, bounded h → ∃ i d c h',
  alloc_tree t before h = (i, h') ∧ seg before (node i d c leaf) None (contents h') ∧
  grown (locs (node i d c leaf)) h h' ∧ item d (vals c) = t.

Lemma alloc_chain_spec l before h : Forall allocates l → bounded h → ∃ c h',
  alloc_chain alloc_tree l before h = (head c None, h') ∧ seg before c None (contents h') ∧
  grown (locs c) h h' ∧ vals c = l.
Proof.
  revert before h. induction l as [|t l IH]; intros before h Hl Hb.
  { exists leaf, h. split; [done|]. split; [done|]. split; [by apply grown_refl|done]. }
  apply list.Forall_cons in Hl as [Ht Hl]. destruct (Ht before h Hb) as (i & d & c & h1 & E1 & S1 & G1 & V1).
  destruct (IH (Some i) h1 Hl (grown_bounded _ _ _ G1)) as (s & h2 & E2 & S2 & G2 & V2).
  pose proof (seg_grown _ _ _ _ _ _ (grown_bounded _ _ _ G1) S1 G2) as S1'.
  pose proof (grown_trans _ _ _ _ _ G1 G2) as G.
  pose proof (seg_head_cell _ _ _ _ _ _ _ S1') as Hi.
  exists (node i d c s). eexists. cbn [alloc_chain]. rewrite E1, E2.
  rewrite (set_next_insert _ _ _ _ Hi). split; [reflexivity|].
  assert (Hlocs : locs (node i d c leaf) ++ locs s = locs (node i d c s)).
  { cbn [locs]. by rewrite app_nil_r, <- app_comm_cons, app_assoc. }
  rewrite Hlocs in G. split; [|split; [apply grown_write; [done|by left]|by simpl; rewrite V1, V2]].
  apply (seg_middle _ leaf). split; [done|]. cbn [last_of contents].
  pose proof (grown_NoDup _ _ _ G) as Hn. split.
  - apply (seg_alone before before i d c None); [exact S1'|apply (grown_NoDup _ _ _ G1)].
  - apply seg_insert; [exact S2|]. apply NoDup_node in Hn as (Hn & _).
    rewrite !not_elem_of_app in Hn. tauto.
Qed.

Lemma alloc_tree_spec t : no_reference t = true → allocates t.
Proof.
  induction t as [ty vs vi vd name l IH] using cJsonDap_children_ind. cbn [no_reference CJson.type CJson.child].
  intros [Hty%Z.eqb_eq Hl]%andb_true_iff before h Hb.
  pose proof (malloc_grown (node_block zero_cell) h Hb) as G1.
  set (h1 := (malloc (node_block zero_cell) h).2) in *.
  destruct (alloc_text_spec vs h1 (grown_bounded _ _ _ G1)) as (sv & h2 & E2 & V2 & T2 & G2).
  destruct (alloc_text_spec name h2 (grown_bounded _ _ _ G2)) as (sn & h3 & E3 & V3 & T3 & G3).
  destruct (alloc_chain_spec l None h3) as (c & h4 & E4 & S4 & G4 & V4).
  { rewrite forallb_forall in Hl. rewrite list.Forall_forall in IH |- *. intros t Ht. apply IH; [done|].
    by apply Hl, list_elem_of_In. }
  { apply (grown_bounded _ _ _ G3). }
  pose proof (grown_trans _ _ _ _ _ G1 (grown_trans _ _ _ _ _ G2 (grown_trans _ _ _ _ _ G3 G4))) as G.
  set (d := mkLabel ty sv vi vd sn). exists (unused h), d, c. eexists. cbn [alloc_tree].
  change (cJSON_New_Item h) with (unused h, h1). cbv beta iota. rewrite E2, E3, E4.
  split; [reflexivity|].
  assert (Hlocs : [unused h] ++ (option_list sv).*1 ++ (option_list sn).*1 ++ locs c
                  = locs (node (unused h) d c leaf)).
  { cbn. unfold strings_of. by rewrite fmap_app, app_nil_r, <- app_assoc. }
  rewrite Hlocs in G. split; [|split; [apply grown_write; [done|by left]|by subst]].
  pose proof (grown_NoDup _ _ _ G) as Hn. apply NoDup_node in Hn as (Hn & _).
  rewrite !not_elem_of_app in Hn. split; [apply lookup_insert_eq|]. split; [done|].
  split; [apply holds_texts_insert; [|tauto]|split; [apply seg_insert; tauto|done]].
  unfold strings_of. apply Forall_app. split.
  - apply (holds_texts_grown _ _ _ _ (grown_bounded _ _ _ G2) T2 (grown_trans _ _ _ _ _ G3 G4)).
  - apply (holds_texts_grown _ _ _ _ (grown_bounded _ _ _ G3) T3 G4).
Qed.

Lemma owns_alloc t before Fs R h : owns Fs R h → no_reference t = true → ∃ i d c h',
  alloc_tree t before h = (i, h') ∧ owns (mkPart before (node i d c leaf) None :: Fs) R h' ∧
  item d (vals c) = t.
Proof.
  intros Ho Ht. destruct (alloc_tree_spec t Ht before h (owns_bounded _ _ _ Ho))
    as (i & d & c & h' & E & S & G & V).
  exists i, d, c, h'. split; [done|]. split; [|done]. by apply (owns_grown _ _ _ Fs R h).
Qed.

(** ** Adding *)

Abbreviation one p d c := (node p d c leaf).

Lemma plocs_two P Q : plocs [P; Q] = locs (tree P) ++ locs (tree Q).
Proof. unfold plocs. simpl. by rewrite app_nil_r. Qed.

Lemma plocs_one P : plocs [P] = locs (tree P).
Proof. unfold plocs. simpl. by rewrite app_nil_r. Qed.

Lemma owns_whole_2 P Q Fs R h : owns (P :: Q :: Fs) R h →
  seg (before P) (tree P) (after P) (contents h) ∧ NoDup (locs (tree P)) ∧
  seg (before Q) (tree Q) (after Q) (contents h) ∧ NoDup (locs (tree Q)) ∧
  ∀ x, x ∈ locs (tree P) → x ∉ locs (tree Q).
Proof.
  intros Ho. destruct (owns_whole_1 _ _ _ _ Ho) as (? & ? & Hd).
  rewrite (Permutation_swap Q P Fs) in Ho. destruct (owns_whole_1 _ _ _ _ Ho) as (? & ? & _).
  repeat split; try done. intros x Hx Hq. apply (Hd x Hx). change (plocs (Q :: Fs)) with (locs (tree Q) ++ plocs Fs).
  apply elem_of_app. by left.
Qed.

Lemma locs_one_append p d c u : locs (one p d (append c u)) ≡ₚ locs (one p d c) ++ locs u.
Proof. cbn [locs]. by rewrite locs_append, !app_nil_r, <- app_comm_cons, <- app_assoc. Qed.

Lemma owns_AddItemToArray prv p d c nxt i di ci Fs R h :
  owns (mkPart prv (one p d c) nxt :: whole (one i di ci) :: Fs) R h →
  ∃ h', cJSON_AddItemToArray p (Some i) h = Ret h' ∧
    owns (mkPart prv (one p d (append c (one i di ci))) nxt :: Fs) R h'.
Proof.
  intros Ho. destruct (owns_whole_2 _ _ _ _ _ Ho) as (Hp & Hn & Hi & Hni & Hd).
  destruct (AddItemToArray_spec prv nxt p d c (contents h) i di ci Hp Hn Hi Hni Hd) as (b & E & S & W).
  unfold cJSON_AddItemToArray, on_contents. rewrite E. eexists. split; [reflexivity|].
  apply (owns_writes [mkPart prv (one p d c) nxt; whole (one i di ci)]
           [mkPart prv (one p d (append c (one i di ci))) nxt]); [done|by rewrite plocs_two| |].
  - by apply Forall_singleton.
  - rewrite plocs_one, plocs_two. apply locs_one_append.
Qed.

Definition set_name (s : option (nat * text)) (d : label) : label :=
  mkLabel (l_type d) (l_value d) (l_int d) (l_double d) s.

Lemma free_name d h : holds_texts (strings_of d) h →
  free_if (fst <$> l_name d) h = Ret (erase (option_list (l_name d)).*1 h).
Proof.
  unfold strings_of, holds_texts. destruct (l_name d) as [[a t]|]; [|done].
  rewrite list.Forall_forall. intros Ht. cbn. unfold free.
  assert (h !! a = Some (text_block t)) as ->; [|done].
  apply (Ht (a, t)), elem_of_app. right. by left.
Qed.

Lemma locs_one p d c : locs (one p d c) = p :: (strings_of d).*1 ++ locs c.
Proof. cbn [locs]. by rewrite app_nil_r. Qed.

(** A node gets other strings: the new ones are new blocks or were its own, and those that are not
    its own any more are free. *)
Lemma owns_strings prv i d d' c nxt Fs R h h' : owns (mkPart prv (one i d c) nxt :: Fs) R h →
  NoDup (locs (one i d' c)) → Z.land (l_type d') cJsonDap_IsReference = 0 →
  contents h' !! i = Some (node_block (cell_of d' prv nxt (head c None))) →
  holds_texts (strings_of d') (contents h') →
  (∀ x, x ∈ (strings_of d').*1 → x ∈ (strings_of d).*1 ∨ contents h !! x = None) →
  (∀ x, x ≠ i → x ∉ (strings_of d').*1 →
    contents h' !! x = if decide (x ∈ (strings_of d).*1) then None else contents h !! x) →
  bounded h' → owns (mkPart prv (one i d' c) nxt :: Fs) R h'.
Proof.
  intros Ho Hn' Hr Hi Ht Hnew Hold Hb.
  destruct (owns_whole_1 _ _ _ _ Ho) as ((_ & _ & _ & Hc & _) & Hn & _). cbn [tree] in Hn.
  apply parent_apart in Hn as (Hic & His & _ & Hd). pose proof Hn' as (_ & _ & _ & Hd')%parent_apart.
  apply (owns_frame [mkPart prv (one i d c) nxt] [mkPart prv (one i d' c) nxt] Fs R h);
    [done|apply Forall_singleton; cbn [tree before after]|..]; rewrite ?plocs_one; cbn [tree];
    rewrite ?locs_one.
  - split; [done|]. split; [done|]. split; [done|]. split; [|done].
    apply (seg_frame _ _ _ (contents h)); [done|]. intros x Hx.
    rewrite Hold, decide_False; [done| | |].
    + intros Hxs. by apply (Hd x).
    + congruence.
    + intros Hxs. by apply (Hd' x).
  - by rewrite <- locs_one.
  - intros x. rewrite !elem_of_cons, !elem_of_app. specialize (Hnew x). tauto.
  - intros x. rewrite not_elem_of_cons, not_elem_of_app. intros (Hxi & Hxs & Hxc).
    rewrite Hold by done.
    destruct (decide (x ∈ (strings_of d).*1)) as [Hx|Hx];
      [rewrite decide_True|rewrite decide_False]; [done| |done|];
      rewrite elem_of_cons, elem_of_app; tauto.
  - done.
Qed.

(** A block that was never used is none of the blocks of a part. *)
Lemma unused_apart P Fs R h : owns (P :: Fs) R h → unused h ∉ locs (tree P).
Proof.
  intros Ho Hx. destruct (owns_whole_1 _ _ _ _ Ho) as (Hs & _).
  apply (seg_live _ _ _ _ _ Hs), (owns_bounded _ _ _ Ho) in Hx. lia.
Qed.

(** The name of an item is replaced: the old one is freed. *)
Lemma owns_name prv i di ci nxt name Fs R h : owns (mkPart prv (one i di ci) nxt :: Fs) R h →
  ∃ h1 s h2, on_contents (free_if (fst <$> l_name di)) h = Ret h1 ∧
    assign_name i name h1 = Ret h2 ∧
    owns (mkPart prv (one i (set_name (Some (s, c_str name)) di) ci) nxt :: Fs) R h2.
Proof.
  intros Ho. pose proof (owns_bounded _ _ _ Ho) as Hb. pose proof (unused_apart _ _ _ _ Ho) as Hs.
  destruct (owns_whole_1 _ _ _ _ Ho) as ((Hi & Hr & Ht & _) & Hn & _). cbn [tree before after] in *.
  set (s := unused h) in *. set (old := (option_list (l_name di)).*1).
  set (val := (option_list (l_value di)).*1).
  assert (Hval : (strings_of di).*1 = val ++ old) by apply fmap_app.
  rewrite locs_one, Hval in Hn, Hs. rewrite not_elem_of_cons, !not_elem_of_app in Hs.
  apply list.NoDup_cons in Hn as [Hin Hn]. rewrite !not_elem_of_app in Hin.
  rewrite <- app_assoc in Hn. apply NoDup_middle in Hn as (Hnv & _ & Hnc & Hd1 & Hd2).
  set (b := <[s := text_block (c_str name)]> (erase old (contents h))).
  assert (Hi1 : b !! i = Some (node_block (cell_of di prv nxt (head ci None)))).
  { unfold b. rewrite lookup_insert_ne, erase_absent by tauto. done. }
  eexists (h <| contents := erase old (contents h) |>), s, _. unfold on_contents at 1.
  rewrite free_name by done. split; [reflexivity|].
  unfold assign_name, on_contents. cbn [cJSON_strdup malloc contents]. fold b.
  erewrite update_Ret by exact Hi1. cbn [exec_bind]. split; [reflexivity|].
  assert (Hsv : (strings_of (set_name (Some (s, c_str name)) di)).*1 = val ++ [s])
    by (unfold strings_of; by rewrite fmap_app).
  assert (Hnot : ∀ x, x ∈ val → x ≠ s ∧ x ≠ i ∧ x ∉ old).
  { intros x Hx. specialize (Hd1 x Hx). split; [intros ->; tauto|]. split; [intros ->; tauto|tauto]. }
  apply (owns_strings _ _ di _ _ _ _ _ h _ Ho); rewrite ?locs_one, ?Hsv; cbn.
  - rewrite <- app_assoc. apply list.NoDup_cons. rewrite !not_elem_of_app, list_elem_of_singleton.
    split; [intuition congruence|]. apply list.NoDup_app. split; [done|]. split.
    + intros x Hx [->|Hxc]%elem_of_cons; [by destruct (Hnot s Hx)|]. by apply (Hd1 x Hx).
    + apply list.NoDup_cons. tauto.
  - done.
  - apply lookup_insert_eq.
  - unfold strings_of in *. apply Forall_app in Ht as [Ht _]. apply Forall_app. split.
    + apply (holds_texts_frame _ (contents h)); [done|]. intros x Hx. destruct (Hnot x Hx) as (? & ? & ?).
      unfold b. fold s. by rewrite !lookup_insert_ne, erase_absent by (unfold s in *; congruence).
    + apply Forall_singleton. cbn. rewrite lookup_insert_ne by (intros <-; tauto). apply lookup_insert_eq.
  - intros x [Hx| ->%list_elem_of_singleton]%elem_of_app; [left; rewrite Hval; apply elem_of_app; by left|].
    right. apply eq_None_not_Some. intros ?%Hb. unfold s in *. lia.
  - intros x Hxi. rewrite not_elem_of_app, list_elem_of_singleton. intros [Hxv Hxs]. unfold b.
    rewrite !lookup_insert_ne, lookup_erase, Hval by (unfold s in *; congruence).
    destruct (decide (x ∈ old)); [rewrite decide_True by (apply elem_of_app; by right)|
      rewrite decide_False by (rewrite elem_of_app; tauto)]; done.
  - intros x Hx. cbn in Hx |- *. destruct (decide (x = s)) as [->|Hxs]; [unfold s; lia|].
    assert (is_Some (contents h !! x)) as ?%Hb; [|lia].
    destruct (decide (x = i)) as [->|Hxi]; [by eexists|]. unfold b in Hx.
    rewrite !lookup_insert_ne, lookup_erase in Hx by done. case_decide; [by destruct Hx|done].
Qed.

Lemma owns_AddItemToObject prv p d c nxt i di ci name Fs R h :
  owns (mkPart prv (one p d c) nxt :: whole (one i di ci) :: Fs) R h →
  ∃ s h', cJSON_AddItemToObject p name (Some i) h = Ret h' ∧
    owns (mkPart prv (one p d (append c (one i (set_name (Some (s, c_str name)) di) ci))) nxt :: Fs)
      R h'.
Proof.
  intros Ho. assert (Hi : load i (contents h) = Ret (cell_of di None None (head ci None))).
  { destruct (owns_whole_2 _ _ _ _ _ Ho) as (_ & _ & Hi%seg_head_cell & _). unfold load.
    cbn in Hi. by rewrite Hi. }
  rewrite Permutation_swap in Ho.
  destruct (owns_name None i di ci None name _ R h Ho) as (h1 & s & h2 & E1 & E2 & Ho2).
  rewrite Permutation_swap in Ho2.
  destruct (owns_AddItemToArray prv p d c nxt i _ ci Fs R h2 Ho2) as (h' & E & Ho').
  exists s, h'. split; [|done]. cbn [cJSON_AddItemToObject]. rewrite Hi. cbn [exec_bind string cell_of].
  rewrite E1. cbn [exec_bind]. rewrite E2. exact E.
Qed.

(** ** Searching *)

Lemma load_parent prv p d c nxt Fs R h : owns (mkPart prv (one p d c) nxt :: Fs) R h →
  load p (contents h) = Ret (cell_of d prv nxt (head c None)) ∧ seg None c None (contents h) ∧
  (length (locs c) < steps (contents h))%nat.
Proof.
  intros Ho. destruct (owns_whole_1 _ _ _ _ Ho) as (Hp & Hn & _). cbn in Hp, Hn.
  destruct (parent_cell _ _ _ _ _ _ Hp) as [Hpc Hc]. unfold load. rewrite Hpc.
  split; [done|]. split; [done|]. apply Nat.lt_succ_r, (locs_size None c None); [done|].
  by apply parent_apart in Hn as (_ & _ & ? & _).
Qed.

Lemma owns_GetArrayItem prv p d c nxt Fs R h item_ : owns (mkPart prv (one p d c) nxt :: Fs) R h →
  cJSON_GetArrayItem p item_ h = Ret (addrs c !! Z.to_nat item_).
Proof.
  intros Ho. destruct (load_parent _ _ _ _ _ _ _ _ Ho) as (Hp & Hc & _).
  unfold cJSON_GetArrayItem. rewrite Hp. cbn [exec_bind child cell_of]. by apply (nth_loop_spec c None).
Qed.

Lemma owns_GetArraySize prv p d c nxt Fs R h : owns (mkPart prv (one p d c) nxt :: Fs) R h →
  cJSON_GetArraySize p h = Ret (Z.of_nat (length (vals c))).
Proof.
  intros Ho. destruct (load_parent _ _ _ _ _ _ _ _ Ho) as (Hp & Hc & Hs).
  unfold cJSON_GetArraySize. rewrite Hp. cbn [exec_bind child cell_of].
  by apply (count_loop_spec c None).
Qed.

Lemma owns_find_item prv p d c nxt Fs R h name : owns (mkPart prv (one p d c) nxt :: Fs) R h →
  find_item p name h = Ret
    match find_child (vals c) 0 name with
    | Some (i, _) => (i, addrs c !! Z.to_nat i)
    | None => (Z.of_nat (length (addrs c)), None)
    end.
Proof.
  intros Ho. destruct (load_parent _ _ _ _ _ _ _ _ Ho) as (Hp & Hc & Hs).
  unfold find_item. rewrite Hp. cbn [exec_bind child cell_of].
  rewrite (find_loop_spec c None) by done. case_match; [|done].
  case_match. by rewrite Z.sub_0_r.
Qed.

(** ** Detaching and replacing *)

Lemma addrs_lookup c i : is_Some (addrs c !! i) ↔ is_Some (vals c !! i).
Proof. by rewrite !lookup_lt_is_Some, addrs_vals. Qed.

Lemma owns_DetachItemFromArray prv p d c nxt Fs R h which q :
  owns (mkPart prv (one p d c) nxt :: Fs) R h → addrs c !! Z.to_nat which = Some q →
  ∃ dq cq c' h', cJSON_DetachItemFromArray p which h = Ret (Some q, h') ∧
    owns (mkPart prv (one p d c') nxt :: whole (one q dq cq) :: Fs) R h' ∧
    vals c !! Z.to_nat which = Some (item dq (vals cq)) ∧
    vals c' = delete (Z.to_nat which) (vals c).
Proof.
  intros Ho Hq. destruct (split_at _ _ _ Hq) as (f1 & dq & cq & f2 & -> & Hlen & Hv).
  destruct (owns_whole_1 _ _ _ _ Ho) as (Hp & Hn & _). cbn [tree before after] in Hp, Hn.
  destruct (DetachItemFromArray_spec prv nxt p d f1 q dq cq f2 (contents h) which)
    as (b & E & S & Sq & W); [done..|].
  exists dq, cq, (append f1 f2). eexists. unfold cJSON_DetachItemFromArray. rewrite E.
  split; [reflexivity|]. split; [|split; [done|]].
  - apply (owns_writes [_] [mkPart prv (one p d (append f1 f2)) nxt; whole (one q dq cq)] Fs R h b Ho).
    + by rewrite plocs_one.
    + unfold segs. rewrite list.Forall_cons, Forall_singleton. done.
    + rewrite plocs_one, plocs_two. cbn [tree locs]. rewrite locs_middle, locs_append. cbn [locs].
      rewrite !app_nil_r. solve_Permutation.
  - rewrite !vals_append. cbn [vals]. rewrite addrs_vals in Hlen. by rewrite <- Hlen, delete_middle.
Qed.

Lemma owns_ReplaceItemInArray prv p d c nxt i di ci Fs R h which q :
  owns (mkPart prv (one p d c) nxt :: whole (one i di ci) :: Fs) R h →
  addrs c !! Z.to_nat which = Some q →
  ∃ c' h', cJSON_ReplaceItemInArray p which i h = Ret h' ∧
    owns (mkPart prv (one p d c') nxt :: Fs) R h' ∧
    vals c' = <[Z.to_nat which := item di (vals ci)]> (vals c).
Proof.
  intros Ho Hq. destruct (load_parent _ _ _ _ _ _ _ _ Ho) as (Hpl & Hc & _).
  destruct (owns_whole_2 _ _ _ _ _ Ho) as (Hp & Hn & Hi & Hni & Hd).
  destruct (split_at _ _ _ Hq) as (f1 & dq & cq & f2 & -> & Hlen & Hv).
  destruct (link_in_place_spec prv nxt p d f1 q dq cq f2 (contents h) i di ci Hp Hn Hi Hni Hd)
    as (b & E & S & Sq & W).
  set (c' := append f1 (node i di ci f2)) in *.
  assert (Ho2 : owns (whole (one q dq cq) :: mkPart prv (one p d c') nxt :: Fs) R
                  (h <| contents := b |>)).
  { apply (owns_writes [_; _] [whole (one q dq cq); mkPart prv (one p d c') nxt] Fs R h b Ho).
    - by rewrite plocs_two.
    - unfold segs. rewrite list.Forall_cons, Forall_singleton. done.
    - rewrite !plocs_two. unfold c'. cbn [tree locs]. rewrite !locs_middle. cbn [locs].
      rewrite !app_nil_r. solve_Permutation. }
  destruct (owns_Delete None _ _ _ _ Ho2) as (h' & Ed & Ho' & _). exists c', h'. split; [|split; [done|]].
  - unfold cJSON_ReplaceItemInArray. rewrite Hpl. cbn [exec_bind child cell_of].
    rewrite (nth_loop_spec _ None), Hq by done. cbn [exec_bind]. unfold on_contents. rewrite E.
    exact Ed.
  - unfold c'. rewrite !vals_append. cbn [vals]. rewrite addrs_vals in Hlen.
    rewrite <- Hlen, <- (Nat.add_0_r (length (vals f1))). by rewrite insert_app_r.
Qed.
