(* ===== verification/CJsonFocus.v ===== *)
(** * A node within a tree.

    What is done to a node, or to any part of a heap, is done to the tree it is in. *)
From S2P Require Import Prelude.
From S2P Require Import Double.
From S2P Require Import CJson.
From S2P Require Import CJsonTree.
From S2P Require Import CJsonHeap.
From S2P Require Import CJsonHeapSpec.
From S2P Require Import CJsonHeapOwns.
Local Open Scope Z_scope.

Lemma plocs_cons P Fs : plocs (P :: Fs) = locs (tree P) ++ plocs Fs.
Proof. done. Qed.

(** What is not of the forests is in the rest, and stays what it is there. *)
Lemma owns_in_rest Fs R h x : owns Fs R h → is_Some (R !! x) →
  (x ∉ plocs Fs) ∧ contents h !! x = R !! x.
Proof.
  intros [_ _ <- _]. rewrite lookup_erase. case_decide; [by intros []|]. done.
Qed.

(** The blocks of a node apart from those of the tree [a] among its children. *)
Definition shell (p : nat) (d : label) (f1 f2 : forest) : list nat :=
  p :: (strings_of d).*1 ++ locs f1 ++ locs f2.

(** A heap that holds them, around the address [a]. *)
Record around (prv : ptr) (p : nat) (d : label) (f1 : forest) (a : nat) (f2 : forest) (nxt : ptr)
    (R : blocks) : Prop := {
  around_cell : R !! p = Some (node_block (cell_of d prv nxt (head f1 (Some a))));
  around_type : Z.land (l_type d) cJsonDap_IsReference = 0;
  around_texts : holds_texts (strings_of d) R;
  around_before : seg None f1 (Some a) R;
  around_after : seg (Some a) f2 None R;
  around_NoDup : NoDup (shell p d f1 f2);
}.

Lemma in_shell x p d f1 f2 : x ∈ shell p d f1 f2 ↔
  x = p ∨ x ∈ (strings_of d).*1 ∨ x ∈ locs f1 ∨ x ∈ locs f2.
Proof. unfold shell. by rewrite elem_of_cons, !elem_of_app. Qed.

Lemma locs_shell p d f1 a da ca f2 : locs (one p d (append f1 (node a da ca f2))) ≡ₚ
  shell p d f1 f2 ++ locs (one a da ca).
Proof.
  unfold shell. cbn [locs]. rewrite locs_middle, !app_nil_r. cbn [locs]. rewrite !app_nil_r.
  solve_Permutation.
Qed.

Lemma around_live prv p d f1 a f2 nxt R x : around prv p d f1 a f2 nxt R →
  x ∈ shell p d f1 f2 → is_Some (R !! x).
Proof.
  intros [Hp _ Ht H1 H2 _]. rewrite in_shell. intros [->|[Hx|[Hx|Hx]]]; [by eexists|..].
  - apply list_elem_of_fmap in Hx as (at_ & -> & Ha). unfold holds_texts in Ht.
    rewrite list.Forall_forall in Ht. eexists. by apply Ht.
  - by apply (seg_live _ _ _ _ _ H1).
  - by apply (seg_live _ _ _ _ _ H2).
Qed.

Lemma around_frame prv p d f1 a f2 nxt R R' : around prv p d f1 a f2 nxt R →
  (∀ x, x ∈ shell p d f1 f2 → R' !! x = R !! x) → around prv p d f1 a f2 nxt R'.
Proof.
  setoid_rewrite in_shell. intros [Hp Hr Ht H1 H2 Hn] Hx. split; try done.
  - by rewrite Hx by by left.
  - apply (holds_texts_frame _ _ _ Ht). intros; apply Hx; tauto.
  - apply (seg_frame _ _ _ _ _ H1). intros; apply Hx; tauto.
  - apply (seg_frame _ _ _ _ _ H2). intros; apply Hx; tauto.
Qed.

(** A node is taken apart into one of its children and what is around it. *)
Lemma owns_open prv p d f1 a da ca f2 nxt Fs R h :
  owns (mkPart prv (one p d (append f1 (node a da ca f2))) nxt :: Fs) R h → ∃ R',
  owns (mkPart (last_of f1 None) (one a da ca) (head f2 None) :: Fs) R' h ∧
  around prv p d f1 a f2 nxt R' ∧ erase (shell p d f1 f2) R' = R.
Proof.
  intros Ho. pose proof Ho as [Hs Hn Hr Hb].
  rewrite plocs_cons in Hn, Hr. cbn [tree] in Hn, Hr.
  rewrite locs_shell in Hn. rewrite <- app_assoc in Hn. apply list.NoDup_app in Hn as (Hno & Hd & Hna).
  apply list.Forall_cons in Hs as [Hs HF]. cbn [tree before after] in Hs.
  assert (Ha : around prv p d f1 a f2 nxt (contents h)).
  { destruct Hs as (Hp & ? & ? & Hc & _). apply seg_middle in Hc as (? & _ & ?).
    rewrite head_append in Hp. done. }
  assert (Hsa : seg (last_of f1 None) (one a da ca) (head f2 None) (contents h)).
  { destruct Hs as (_ & _ & _ & Hc & _). by apply seg_middle in Hc as (_ & ? & _). }
  exists (erase (locs (one a da ca) ++ plocs Fs) (contents h)). split; [|split].
  - split; [by apply list.Forall_cons|done|done|done].
  - apply (around_frame _ _ _ _ _ _ _ _ _ Ha). intros x Hx. by apply erase_absent, Hd.
  - rewrite <- Hr. apply map_eq. intros x. rewrite !lookup_erase.
    assert (x ∈ locs (one p d (append f1 (node a da ca f2))) ++ plocs Fs ↔
      x ∈ shell p d f1 f2 ∨ x ∈ locs (one a da ca) ++ plocs Fs) as Hx
      by (rewrite elem_of_app, locs_shell, !elem_of_app; tauto).
    repeat case_decide; tauto.
Qed.

(** And put together again, whatever has become of the child. *)
Lemma owns_close prv p d f1 a da ca f2 nxt Fs R h :
  owns (mkPart (last_of f1 None) (one a da ca) (head f2 None) :: Fs) R h →
  around prv p d f1 a f2 nxt R →
  owns (mkPart prv (one p d (append f1 (node a da ca f2))) nxt :: Fs) (erase (shell p d f1 f2) R) h.
Proof.
  intros Ho Ha. assert (Hout : ∀ x, x ∈ shell p d f1 f2 →
    (x ∉ locs (one a da ca) ++ plocs Fs) ∧ contents h !! x = R !! x).
  { intros x Hx. apply (owns_in_rest _ _ _ _ Ho). by eapply around_live. }
  pose proof (around_frame _ _ _ _ _ _ _ _ (contents h) Ha (λ x Hx, proj2 (Hout x Hx)))
    as [Hp Hty Ht H1 H2 Hnd].
  destruct Ho as [Hs Hn <- Hb]. apply list.Forall_cons in Hs as [Hs HF]. cbn [tree before after] in Hs.
  rewrite plocs_cons in *. cbn [tree] in *.
  split; [| | |done].
  - apply list.Forall_cons. split; [|done]. cbn [tree before after].
    split; [by rewrite head_append|]. split; [done|]. split; [done|].
    split; [|done]. by apply seg_middle.
  - rewrite plocs_cons. cbn [tree]. rewrite locs_shell, <- app_assoc. apply list.NoDup_app. split; [done|]. split; [|done].
    intros x Hx. by apply Hout.
  - rewrite plocs_cons. cbn [tree]. apply map_eq. intros x. rewrite !lookup_erase.
    assert (x ∈ locs (one p d (append f1 (node a da ca f2))) ++ plocs Fs ↔
      x ∈ shell p d f1 f2 ∨ x ∈ locs (one a da ca) ++ plocs Fs) as Hx
      by (rewrite elem_of_app, locs_shell, !elem_of_app; tauto).
    repeat case_decide; tauto.
Qed.

(** ** Focus

    [focus q dq cq prv p d c nxt R]: the node [q] is in the tree at [p]; what it becomes, the tree
    becomes with it, its value by [K]. *)
Record focus (Fs : list part) (h : heap) (q : nat) (dq : label) (cq : forest)
    (prv : ptr) (p : nat) (d : label) (c : forest) (nxt : ptr) (R : blocks)
    (K : cJsonDap → cJsonDap) : Prop := {
  focus_value : K (item dq (vals cq)) = item d (vals c);
  focus_owns : ∃ pv nx R', owns (mkPart pv (one q dq cq) nx :: Fs) R' h ∧
    ∀ dq' cq' Fs' h', owns (mkPart pv (one q dq' cq') nx :: Fs') R' h' →
      ∃ d' c', owns (mkPart prv (one p d' c') nxt :: Fs') R h' ∧
        item d' (vals c') = K (item dq' (vals cq'));
}.

Lemma focus_here Fs h prv p d c nxt R : owns (mkPart prv (one p d c) nxt :: Fs) R h →
  focus Fs h p d c prv p d c nxt R id.
Proof.
  intros Ho. split; [done|]. exists prv, nxt, R. split; [done|]. intros d' c' Fs' h' Ho'. by exists d', c'.
Qed.

(** The value of a node with another child in the place [i]. *)
Definition put (i : nat) (t : cJsonDap) (x : cJsonDap) : cJsonDap :=
  set_child (<[i := x]> (CJson.child t)) t.

Lemma put_middle d f1 a da ca f2 x :
  put (length (addrs f1)) (item d (vals (append f1 (node a da ca f2)))) x
  = item d (vals f1 ++ x :: vals f2).
Proof.
  unfold put, set_child. cbn [item CJson.child CJson.type CJson.valuestring CJson.valueint
    CJson.valuedouble CJson.item_string]. rewrite vals_append, addrs_vals. cbn [vals].
  rewrite <- (Nat.add_0_r (length (vals f1))). by rewrite insert_app_r.
Qed.

Lemma focus_under Fs h q dq cq prv p d f1 a da ca f2 nxt R K :
  around prv p d f1 a f2 nxt R →
  focus Fs h q dq cq (last_of f1 None) a da ca (head f2 None) R K →
  focus Fs h q dq cq prv p d (append f1 (node a da ca f2)) nxt (erase (shell p d f1 f2) R)
    (λ x, put (length (addrs f1)) (item d (vals (append f1 (node a da ca f2)))) (K x)).
Proof.
  intros Ha [HV (pv & nx & R' & Ho' & Hback)]. split.
  - rewrite HV, put_middle, vals_append. done.
  - exists pv, nx, R'. split; [done|]. intros dq' cq' Fs' h' Hq.
    destruct (Hback dq' cq' Fs' h' Hq) as (da' & ca' & Hoa & Hva).
    exists d, (append f1 (node a da' ca' f2)). split; [by apply owns_close|].
    by rewrite put_middle, <- Hva, vals_append.
Qed.

(** Every node of a tree can be focused on. *)
Lemma in_child x c : x ∈ locs c → ∃ f1 a da ca f2,
  c = append f1 (node a da ca f2) ∧ x ∈ locs (one a da ca).
Proof.
  induction c as [|l d c _ s IHs]; [by intros ?%elem_of_nil|]. cbn [locs].
  rewrite elem_of_cons, !elem_of_app. intros [Hx|[Hx|[Hx|Hx]]].
  1-3: exists leaf, l, d, c, s; split; [done|]; cbn [locs];
    rewrite elem_of_cons, !elem_of_app; tauto.
  destruct (IHs Hx) as (f1 & a & da & ca & f2 & -> & Hin).
  by exists (node l d c f1), a, da, ca, f2.
Qed.

Lemma focus_address n Fs h l m prv p d c nxt R : (length (locs c) < n)%nat →
  owns (mkPart prv (one p d c) nxt :: Fs) R h → l ∈ locs (one p d c) →
  contents h !! l = Some (node_block m) →
  ∃ dq cq K, focus Fs h l dq cq prv p d c nxt R K.
Proof.
  revert prv p d c nxt R. induction n as [|n IH]; intros prv p d c nxt R Hlen Ho Hl Hm; [lia|].
  cbn [locs] in Hl. rewrite app_nil_r in Hl.
  apply elem_of_cons in Hl as [->|[Hl|Hl]%elem_of_app].
  - exists d, c, id. by apply focus_here.
  - destruct (owns_whole_1 _ _ _ _ Ho) as ((_ & _ & Ht & _) & _).
    apply list_elem_of_fmap in Hl as (a & -> & Ha). unfold holds_texts in Ht.
    rewrite list.Forall_forall in Ht. specialize (Ht a Ha). congruence.
  - destruct (in_child l c Hl) as (f1 & a & da & ca & f2 & -> & Hin).
    destruct (owns_open _ _ _ _ _ _ _ _ _ _ _ _ Ho) as (R1 & Ho1 & Ha & <-).
    rewrite locs_middle, !length_app in Hlen. cbn [locs length] in Hlen.
    rewrite !length_app in Hlen.
    destruct (IH (last_of f1 None) a da ca (head f2 None) R1) as (dq & cq & K & HK); [lia|done..|].
    eexists dq, cq, _. by apply focus_under.
Qed.
