(* ===== verification/CJsonHeapParse.v ===== *)
(** * cJSON.cpp: the parser in memory.

    [CJson] says what value a text is; here the parser allocates the nodes and strings of the tree
    it builds, links every node as soon as it is there, and frees all of it when there is an error.
    A result, and an error with its position, comes with the heap. *)
From S2P Require Import Prelude.
From S2P Require Import Double.
From S2P Require Import CJson.
From S2P Require Import CJsonTree.
From S2P Require Import CJsonEscapes.
From S2P Require Import CJsonHeap.
From S2P Require Import CJsonHeapSpec.
From S2P Require Import CJsonHeapOwns.
From S2P Require Import CJsonFocus.
Local Open Scope Z_scope.

Section Parser.
Context `{Platform}.

Abbreviation result := (exec (text * heap) (text * heap)).

(** A member of a node is assigned. *)
Definition assign (item : nat) (f : cell → cell) (h : heap) : exec (text * heap) heap :=
  match on_contents (update item f) h with Ret h => Ret h | NoFuel => NoFuel | _ => Undef end.

(** What only reads the text. *)
Definition reading {A} (h : heap) (m : exec text A) : exec (text * heap) A :=
  match m with Ret a => Ret a | Err e => Err (e, h) | Undef => Undef | NoFuel => NoFuel end.

(** [item->valuedouble = n; item->valueint = (int)n; item->type = cJsonDap_Number;] of the number
    that [CJson] reads. *)
Definition parse_number (item : nat) (num : text) (h : heap) : result :=
  let* (t, num) := reading h (CJson.parse_number CJson.cJSON_New_Item num) in
  let* h := assign item (λ n, n <| valuedouble := CJson.valuedouble t |>
    <| valueint := CJson.valueint t |> <| type := cJsonDap_Number |>) h in
  Ret (num, h).

(** The text [out] of the string is what [CJson] decodes. *)
Definition parse_string (item : nat) (str : text) (h : heap) : result :=
  if negb (deref str =c DQUOTE) then Err (str, h)
  else
    match scan_len (Prelude.next str) with
    | None => Undef
    | Some len =>
        let* (out, ptr) := reading h (unescape (S (length str)) None None (Prelude.next str)) in
        if (len <? length out)%nat then Undef
        else
          let '(s, h) := malloc (text_block out) h in
          let ptr := if deref ptr =c DQUOTE then Prelude.next ptr else ptr in
          let* h := assign item (λ n, n <| valuestring := Some s |> <| type := cJsonDap_String |>) h in
          Ret (ptr, h)
    end.

(** [child->next = new_item; new_item->prev = child;] *)
Definition link_after (child new_item : nat) (h : heap) : exec (text * heap) heap :=
  let* h := assign child (λ n, n <| next := Some new_item |>) h in
  assign new_item (λ n, n <| prev := Some child |>) h.

(** One [name : value] of an object, in the node [child]. *)
Definition parse_member (parse_value : nat → text → heap → result) (child : nat) (value : text)
    (h : heap) : result :=
  let* (value, h) := parse_string child (skip value) h in
  let value := skip value in
  let* h := assign child (λ n, n <| string := valuestring n |>) h in
  let* h := assign child (λ n, n <| valuestring := None |>) h in
  if negb (deref value =c ":") then Err (value, h)
  else
    let* (value, h) := parse_value child (skip (Prelude.next value)) h in
    Ret (skip value, h).

Fixpoint parse_value (fuel : nat) (item : nat) (value : text) (h : heap) {struct fuel} : result :=
  match fuel with
  | O => NoFuel
  | S f =>
      if starts_with "null" value then
        let* h := assign item (λ n, n <| type := cJsonDap_Null |>) h in Ret (drop 4 value, h)
      else if starts_with "false" value then
        let* h := assign item (λ n, n <| type := cJsonDap_False |>) h in Ret (drop 5 value, h)
      else if starts_with "true" value then
        let* h := assign item (λ n, n <| type := cJsonDap_True |> <| valueint := 1 |>) h in
        Ret (drop 4 value, h)
      else if deref value =c DQUOTE then parse_string item value h
      else if (deref value =c "-") || is_digit (deref value) then parse_number item value h
      else if deref value =c "[" then parse_array f item value h
      else if deref value =c "{" then parse_object f item value h
      else Err (value, h)
  end

with parse_array (fuel : nat) (item : nat) (value : text) (h : heap) {struct fuel} : result :=
  match fuel with
  | O => NoFuel
  | S f =>
      if negb (deref value =c "[") then Err (value, h)
      else
        let* h := assign item (λ n, n <| type := cJsonDap_Array |>) h in
        let value := skip (Prelude.next value) in
        if deref value =c "]" then Ret (Prelude.next value, h)
        else
          let '(child, h) := cJSON_New_Item h in
          let* h := assign item (λ n, n <| CJsonHeap.child := Some child |>) h in
          let* (value, h) := parse_value f child (skip value) h in
          parse_array_loop f child (skip value) h
  end

(** The loop over the commas and the end of the array: [child] is the last item. *)
with parse_array_loop (fuel : nat) (child : nat) (value : text) (h : heap) {struct fuel} : result :=
  match fuel with
  | O => NoFuel
  | S f =>
      if deref value =c "," then
        let '(new_item, h) := cJSON_New_Item h in
        let* h := link_after child new_item h in
        let* (value, h) := parse_value f new_item (skip (Prelude.next value)) h in
        parse_array_loop f new_item (skip value) h
      else if deref value =c "]" then Ret (Prelude.next value, h)
      else Err (value, h)
  end

with parse_object (fuel : nat) (item : nat) (value : text) (h : heap) {struct fuel} : result :=
  match fuel with
  | O => NoFuel
  | S f =>
      if negb (deref value =c "{") then Err (value, h)
      else
        let* h := assign item (λ n, n <| type := cJsonDap_Object |>) h in
        let value := skip (Prelude.next value) in
        if deref value =c "}" then Ret (Prelude.next value, h)
        else
          let '(child, h) := cJSON_New_Item h in
          let* h := assign item (λ n, n <| CJsonHeap.child := Some child |>) h in
          let* (value, h) := parse_member (parse_value f) child value h in
          parse_object_loop f child value h
  end

with parse_object_loop (fuel : nat) (child : nat) (value : text) (h : heap) {struct fuel} : result :=
  match fuel with
  | O => NoFuel
  | S f =>
      if deref value =c "," then
        let '(new_item, h) := cJSON_New_Item h in
        let* h := link_after child new_item h in
        let* (value, h) := parse_member (parse_value f) new_item (Prelude.next value) h in
        parse_object_loop f new_item value h
      else if deref value =c "}" then Ret (Prelude.next value, h)
      else Err (value, h)
  end.

(** [cJSON_Parse] on the buffer [source]: the root, or null when what was allocated is freed. *)
Definition cJSON_Parse (source : text) (h : heap) : exec unit (ptr * heap) :=
  let '(c, h) := cJSON_New_Item h in
  let value := skip (c_str source) in
  match parse_value (parse_fuel value) c value h with
  | Ret (_, h) => Ret (Some c, h)
  | Err (_, h) => let* h := cJSON_Delete (Some c) h in Ret (None, h)
  | Undef => Undef
  | NoFuel => NoFuel
  end.
End Parser.
