(* ===== verification/CJsonHeapParseSpec.v ===== *)
(** * The parser in memory builds the tree of the value that [CJson] reads, and nothing else. *)
From S2P Require Import Prelude.
From S2P Require Import Double.
From S2P Require Import CJson.
From S2P Require Import CJsonTree.
From S2P Require Import CJsonEscapes.
From S2P Require Import CJsonHeap.
From S2P Require Import CJsonHeapSpec.
From S2P Require Import CJsonHeapOwns.
From S2P Require Import CJsonFocus.
From S2P Require Import CJsonHeapParse.
Local Open Scope Z_scope.

(** ** Assignments to a node *)

Lemma assign_Ret x f n h : contents h !! x = Some (node_block n) →
  assign x f h = Ret (h <| contents := <[x := node_block (f n)]> (contents h) |>).
Proof. intros Hx. unfold assign, on_contents. by rewrite (update_Ret _ _ _ _ Hx). Qed.

Lemma owns_cell pv x d c nx Fs R h : owns (mkPart pv (one x d c) nx :: Fs) R h →
  contents h !! x = Some (node_block (cell_of d pv nx (head c None))).
Proof. intros Ho. by destruct (owns_whole_1 _ _ _ _ Ho) as (Hx%seg_head_cell & _). Qed.

(** Members that are no pointers to other blocks are assigned, or the strings change places. *)
Lemma owns_relabel d' f pv x d c nx Fs R h : owns (mkPart pv (one x d c) nx :: Fs) R h →
  strings_of d' = strings_of d → Z.land (l_type d') cJsonDap_IsReference = 0 →
  (∀ p n q, f (cell_of d p n q) = cell_of d' p n q) →
  ∃ h', assign x f h = Ret h' ∧ owns (mkPart pv (one x d' c) nx :: Fs) R h'.
Proof.
  intros Ho Hs Hr Hf. rewrite (assign_Ret _ _ _ _ (owns_cell _ _ _ _ _ _ _ _ Ho)), Hf.
  eexists. split; [reflexivity|].
  destruct (owns_whole_1 _ _ _ _ Ho) as ((_ & _ & Ht & Hc & _) & Hn & _). cbn [tree before after] in *.
  apply NoDup_node in Hn as (Hx & _). rewrite !not_elem_of_app in Hx.
  apply (owns_writes [mkPart pv (one x d c) nx] [mkPart pv (one x d' c) nx] Fs R h _ Ho).
  - apply writes_insert; [done|by left|]. eexists. by apply (owns_cell _ _ _ _ _ _ _ _ Ho).
  - apply Forall_singleton. cbn [tree before after seg]. split; [apply lookup_insert_eq|].
    split; [done|]. rewrite Hs. split; [apply holds_texts_insert; tauto|].
    split; [apply seg_insert; tauto|done].
  - rewrite !plocs_one. cbn [tree locs]. by rewrite Hs.
Qed.

(** A new string is given to a node that had none. *)
Definition string_label (s : nat) (out : text) (d : label) : label :=
  mkLabel cJsonDap_String (Some (s, out)) (l_int d) (l_double d) (l_name d).

Lemma owns_new_string pv x d c nx Fs R h out : owns (mkPart pv (one x d c) nx :: Fs) R h →
  l_value d = None →
  ∃ h', assign x (λ n, n <| valuestring := Some (unused h) |> <| type := cJsonDap_String |>)
          (malloc (text_block out) h).2 = Ret h' ∧
    owns (mkPart pv (one x (string_label (unused h) out d) c) nx :: Fs) R h'.
Proof.
  intros Ho Hv. pose proof (owns_cell _ _ _ _ _ _ _ _ Ho) as Hx. pose proof (owns_bounded _ _ _ Ho) as Hb.
  pose proof (unused_apart _ _ _ _ Ho) as Hs. cbn [tree] in Hs.
  destruct (owns_whole_1 _ _ _ _ Ho) as ((_ & _ & Ht & _) & Hn & _). cbn [tree] in *.
  set (s := unused h) in *. assert (Hn0 : contents h !! s = None).
  { apply eq_None_not_Some. intros ?%Hb. unfold s in *. lia. }
  assert (Hstr : strings_of (string_label s out d) = (s, out) :: strings_of d)
    by (unfold strings_of; by rewrite Hv).
  rewrite locs_one in Hs, Hn. rewrite not_elem_of_cons, not_elem_of_app in Hs.
  apply list.NoDup_cons in Hn as [Hxn Hn]. rewrite not_elem_of_app in Hxn.
  erewrite (assign_Ret x) by (cbn; rewrite lookup_insert_ne by tauto; exact Hx).
  eexists. split; [reflexivity|].
  apply (owns_strings _ _ d _ _ _ _ _ h _ Ho); rewrite ?locs_one, ?Hstr; cbn [list_fmap fmap fst contents].
  - apply list.NoDup_cons. rewrite not_elem_of_app, not_elem_of_cons. split; [intuition congruence|].
    apply list.NoDup_cons. rewrite not_elem_of_app. tauto.
  - done.
  - apply lookup_insert_eq.
  - apply list.Forall_cons. cbn. rewrite lookup_insert_ne by (intros <-; tauto). split; [apply lookup_insert_eq|].
    apply holds_texts_insert; [apply holds_texts_insert|]; tauto.
  - intros y [->|?]%elem_of_cons; [by right|by left].
  - intros y Hy [Hys Hyd]%not_elem_of_cons. rewrite decide_False by done. cbn.
    by rewrite !lookup_insert_ne by (unfold s in *; congruence).
  - intros y Hy. cbn in *. destruct (decide (y = s)) as [->|]; [unfold s; lia|].
    destruct (decide (y = x)) as [->|]; [assert (is_Some (contents h !! x)) as ?%Hb by (by eexists); lia|].
    rewrite !lookup_insert_ne in Hy by done. apply Hb in Hy. lia.
Qed.

(** ** New nodes *)

Definition zero_label : label := mkLabel 0 None 0 dzero None.

Lemma owns_New_Item Fs R h : owns Fs R h →
  owns (whole (one (unused h) zero_label leaf) :: Fs) R (cJSON_New_Item h).2.
Proof.
  intros Ho. apply (owns_grown _ _ _ Fs R h); [done| |by apply malloc_grown, (owns_bounded _ _ _ Ho)].
  cbn. rewrite lookup_insert_eq. repeat split; try done. by apply Forall_nil.
Qed.

(** The first child, and one after the last child. *)
Lemma owns_first_child pv p d nx Fs R h : owns (mkPart pv (one p d leaf) nx :: Fs) R h →
  ∃ h', assign p (λ n, n <| CJsonHeap.child := Some (unused h) |>) (cJSON_New_Item h).2 = Ret h' ∧
    owns (mkPart pv (one p d (one (unused h) zero_label leaf)) nx :: Fs) R h'.
Proof.
  intros Ho. apply owns_New_Item in Ho. rewrite Permutation_swap in Ho.
  pose proof (owns_cell _ _ _ _ _ _ _ _ Ho) as Hp.
  destruct (owns_AddItemToArray _ _ _ _ _ _ _ _ _ _ _ Ho) as (h' & E & Ho'). exists h'. split; [|exact Ho'].
  unfold cJSON_AddItemToArray, on_contents, AddItemToArray, load in E. rewrite Hp in E.
  cbn [exec_bind CJsonHeap.child cell_of head] in E. unfold assign, on_contents.
  destruct (update p _ _) as [b| | |]; [|done..]. cbn in *. by injection E as <-.
Qed.

Lemma owns_next_child pv p d f x dx cx nx Fs R h :
  owns (mkPart pv (one p d (append f (one x dx cx))) nx :: Fs) R h →
  ∃ h', link_after x (unused h) (cJSON_New_Item h).2 = Ret h' ∧
    owns (mkPart pv (one p d (append (append f (one x dx cx)) (one (unused h) zero_label leaf))) nx :: Fs) R h'.
Proof.
  intros Ho. set (c := append f (one x dx cx)) in *. apply owns_New_Item in Ho. rewrite Permutation_swap in Ho.
  destruct (load_parent _ _ _ _ _ _ _ _ Ho) as (Hp & Hc & Hsteps).
  destruct (owns_AddItemToArray _ _ _ _ _ _ _ _ _ _ _ Ho) as (h' & E & Ho'). exists h'. split; [|exact Ho'].
  unfold cJSON_AddItemToArray, on_contents, AddItemToArray in E. rewrite Hp in E.
  cbn [exec_bind CJsonHeap.child cell_of] in E.
  destruct (head c None) as [q|] eqn:Eq; [|by destruct f].
  rewrite (last_loop_spec f x dx cx None q _ _ Hc Eq Hsteps) in E. cbn [exec_bind] in E.
  unfold suffix_object in E. unfold link_after, assign, on_contents.
  destruct (update x _ _) as [b| | |]; [|done..]. cbn [exec_bind] in *. cbn.
  destruct (update (unused h) _ b) as [b'| | |]; [|done..]. cbn in *. by injection E as <-.
Qed.

(** ** The simulation *)

Section Parser.
Context `{Platform}.

(** The parser in memory on the node [x] ends as [CJson] does: the node stands for the value; after
    an error it is some tree, that can be freed. *)
Definition parsed (pv nx : ptr) (x : nat) (Fs : list part) (R : blocks)
    (r : exec text (cJsonDap * text)) (m : exec (text * heap) (text * heap)) : Prop :=
  match r with
  | Ret (t, rest) => ∃ h d c, m = Ret (rest, h) ∧ owns (mkPart pv (one x d c) nx :: Fs) R h ∧
      item d (vals c) = t
  | Err e => ∃ h d c, m = Err (e, h) ∧ owns (mkPart pv (one x d c) nx :: Fs) R h
  | Undef => m = Undef
  | NoFuel => m = NoFuel
  end.

(** The last child of a node is parsed, and what follows goes on with the node. *)
Lemma parsed_child pv nx p d f x dx Fs R h r m k K :
  owns (mkPart pv (one p d (append f (one x dx leaf))) nx :: Fs) R h →
  (∀ pv nx Fs R, owns (mkPart pv (one x dx leaf) nx :: Fs) R h → parsed pv nx x Fs R r m) →
  (∀ rest h dx cx, owns (mkPart pv (one p d (append f (one x dx cx))) nx :: Fs) R h →
    parsed pv nx p Fs R (k (item dx (vals cx), rest)) (K (rest, h))) →
  parsed pv nx p Fs R (exec_bind r k) (exec_bind m K).
Proof.
  intros Ho Hm HK. destruct (owns_open _ _ _ _ _ _ _ _ _ _ _ _ Ho) as (R' & Ho' & Ha & <-).
  specialize (Hm _ _ _ _ Ho'). destruct r as [[t rest]|e| |]; cbn in Hm |- *; [| |by rewrite Hm..].
  - destruct Hm as (h' & dx' & cx' & -> & Hx & <-). apply HK. by apply owns_close.
  - destruct Hm as (h' & dx' & cx' & -> & Hx). exists h', d, (append f (one x dx' cx')).
    split; [done|]. by apply owns_close.
Qed.

Definition typed (ty : Z) (d : label) : label := mkLabel ty (l_value d) (l_int d) (l_double d) (l_name d).

(** The type of a node is assigned, and then the parser goes on. *)
Lemma owns_typed ty pv x d c nx Fs R h : owns (mkPart pv (one x d c) nx :: Fs) R h →
  Z.land ty cJsonDap_IsReference = 0 →
  ∃ h', assign x (λ n, n <| type := ty |>) h = Ret h' ∧ owns (mkPart pv (one x (typed ty d) c) nx :: Fs) R h'.
Proof. intros Ho Hty. by apply (owns_relabel (typed ty d) _ _ _ _ _ _ _ _ _ Ho). Qed.

Lemma parse_string_spec pv nx x d Fs R h v : owns (mkPart pv (one x d leaf) nx :: Fs) R h →
  l_value d = None →
  match CJson.parse_string (item d []) v with
  | Ret (t, rest) => ∃ out h', parse_string x v h = Ret (rest, h') ∧
      owns (mkPart pv (one x (string_label (unused h) out d) leaf) nx :: Fs) R h' ∧
      t = item (string_label (unused h) out d) []
  | Err e => parse_string x v h = Err (e, h)
  | Undef => parse_string x v h = Undef
  | NoFuel => parse_string x v h = NoFuel
  end.
Proof.
  intros Ho Hv. unfold CJson.parse_string, parse_string.
  destruct (negb (deref v =c DQUOTE)); [done|]. destruct (scan_len _) as [len|]; [|done].
  destruct (unescape _ _ _ _) as [[out ptr]| | |]; [|done..]. cbn [exec_bind reading].
  destruct (len <? length out)%nat; [done|].
  destruct (owns_new_string _ _ _ _ _ _ _ _ out Ho Hv) as (h' & E & Ho').
  exists out, h'. change (malloc (text_block out) h) with (unused h, (malloc (text_block out) h).2).
  cbv beta iota zeta. rewrite E. done.
Qed.

Lemma parse_string_parsed pv nx x d Fs R h v : owns (mkPart pv (one x d leaf) nx :: Fs) R h →
  l_value d = None → parsed pv nx x Fs R (CJson.parse_string (item d []) v) (parse_string x v h).
Proof.
  intros Ho Hv. pose proof (parse_string_spec _ _ _ _ _ _ _ v Ho Hv) as Hs.
  destruct (CJson.parse_string _ _) as [[t rest]|e| |]; [|by exists h, d, leaf|done..].
  destruct Hs as (out & h' & E & Ho' & ->). by eexists h', _, leaf.
Qed.

(** The number does not depend on the item it is stored in. *)
Lemma parse_number_item i v : CJson.parse_number i v =
  exec_map (λ p, (set_type cJsonDap_Number
      (set_number (CJson.valueint p.1) (CJson.valuedouble p.1) i), p.2))
    (CJson.parse_number CJson.cJSON_New_Item v).
Proof.
  assert (Hu : ∀ s w, parse_unsigned i s w = exec_map (λ p, (set_type cJsonDap_Number
      (set_number (CJson.valueint p.1) (CJson.valuedouble p.1) i), p.2))
    (parse_unsigned CJson.cJSON_New_Item s w)).
  { intros s w. unfold parse_unsigned. cbv zeta.
    repeat match goal with |- (match ?x with _ => _ end) = _ => destruct x end.
    match goal with |- exec_bind ?x _ = _ => destruct x as [[[? ?] ?]| | |]; [|done..] end. done. }
  unfold CJson.parse_number. by destruct (deref v =c "-").
Qed.

Lemma parse_number_parsed pv nx x d Fs R h v : owns (mkPart pv (one x d leaf) nx :: Fs) R h →
  parsed pv nx x Fs R (CJson.parse_number (item d []) v) (parse_number x v h).
Proof.
  intros Ho. rewrite parse_number_item. unfold parse_number.
  destruct (CJson.parse_number _ _) as [[t rest]|e| |]; [|by exists h, d, leaf|done..].
  cbn [exec_map reading exec_bind fst snd].
  set (d' := mkLabel cJsonDap_Number (l_value d) (CJson.valueint t) (CJson.valuedouble t) (l_name d)).
  destruct (owns_relabel d' (λ n, n <| valuedouble := CJson.valuedouble t |>
    <| valueint := CJson.valueint t |> <| type := cJsonDap_Number |>) _ _ _ _ _ _ _ _ Ho) as (h' & -> & Ho');
    [done..|]. by exists h', d', leaf.
Qed.

(** The string of a node becomes its name. *)
Lemma owns_move_name pv x d c nx Fs R h : owns (mkPart pv (one x d c) nx :: Fs) R h →
  l_name d = None → ∃ h1 h2, assign x (λ n, n <| string := valuestring n |>) h = Ret h1 ∧
    assign x (λ n, n <| valuestring := None |>) h1 = Ret h2 ∧
    owns (mkPart pv (one x (mkLabel (l_type d) None (l_int d) (l_double d) (l_value d)) c) nx :: Fs) R h2.
Proof.
  intros Ho Hn. pose proof (owns_cell _ _ _ _ _ _ _ _ Ho) as Hx.
  destruct (owns_relabel (mkLabel (l_type d) None (l_int d) (l_double d) (l_value d))
    (λ n, n <| string := valuestring n |> <| valuestring := None |>) _ _ _ _ _ _ _ _ Ho)
    as (h2 & E & Ho2); [by unfold strings_of; rewrite Hn, app_nil_r| |done|].
  { destruct (owns_whole_1 _ _ _ _ Ho) as ((_ & Hr & _) & _). exact Hr. }
  do 2 eexists. rewrite (assign_Ret _ _ _ _ Hx). split; [reflexivity|].
  erewrite assign_Ret by apply lookup_insert_eq. split; [reflexivity|].
  rewrite (assign_Ret _ _ _ _ Hx) in E. injection E as <-. destruct h as [b u]. cbn in Ho2 |- *.
  by rewrite insert_insert_eq.
Qed.

(** A member: the name is read as a string, and moved. *)
Lemma parse_member_parsed g G pv nx x Fs R h v :
  (∀ pv nx x d Fs R h v, owns (mkPart pv (one x d leaf) nx :: Fs) R h → l_value d = None →
    parsed pv nx x Fs R (g (item d []) v) (G x v h)) →
  owns (mkPart pv (one x zero_label leaf) nx :: Fs) R h →
  parsed pv nx x Fs R (CJson.parse_member g v) (parse_member G x v h).
Proof.
  intros HG Ho. unfold CJson.parse_member, parse_member.
  pose proof (parse_string_spec _ _ _ _ _ _ _ (skip v) Ho eq_refl) as Hs.
  change CJson.cJSON_New_Item with (item zero_label []).
  destruct (CJson.parse_string _ _) as [[t rest]|e| |]; cbn [exec_bind];
    [|rewrite Hs; by exists h, zero_label, leaf|by rewrite Hs..].
  destruct Hs as (out & h1 & -> & Ho1 & ->). cbn [exec_bind].
  set (dn := mkLabel cJsonDap_String None 0 dzero (Some (unused h, out))).
  destruct (owns_move_name _ _ _ _ _ _ _ _ Ho1 eq_refl) as (h2 & h3 & -> & E & Ho2).
  cbn [exec_bind]. rewrite E. cbn [exec_bind].
  destruct (negb (deref (skip rest) =c ":")); [by exists h3, dn, leaf|].
  specialize (HG _ _ _ _ _ _ _ (skip (Prelude.next (skip rest))) Ho2 eq_refl).
  change (name_from_value _) with (item dn []).
  destruct (g _ _) as [[t rest']|e| |]; cbn [exec_bind] in HG |- *.
  - destruct HG as (h4 & d4 & c4 & -> & Ho4 & <-). by exists h4, d4, c4.
  - destruct HG as (h4 & d4 & c4 & -> & Ho4). by exists h4, d4, c4.
  - by rewrite HG.
  - by rewrite HG.
Qed.

(** What holds of a function on a new node, and of a loop after the last child. *)
Definition on_node (g : cJsonDap → text → exec text (cJsonDap * text))
    (G : nat → text → heap → exec (text * heap) (text * heap)) : Prop :=
  ∀ pv nx x d Fs R h v, owns (mkPart pv (one x d leaf) nx :: Fs) R h → l_value d = None →
    parsed pv nx x Fs R (g (item d []) v) (G x v h).

Definition on_last (g : cJsonDap → list cJsonDap → text → exec text (cJsonDap * text))
    (G : nat → text → heap → exec (text * heap) (text * heap)) : Prop :=
  ∀ pv nx p d f x dx cx Fs R h v,
    owns (mkPart pv (one p d (append f (one x dx cx))) nx :: Fs) R h →
    parsed pv nx p Fs R (g (item d []) (vals (append f (one x dx cx))) v) (G x v h).

(** A new item after the last one is parsed, and the loop goes on. *)
Lemma next_parsed g G k K pv nx p d f x dx cx Fs R h :
  owns (mkPart pv (one p d (append f (one x dx cx))) nx :: Fs) R h →
  (∀ pv nx y Fs R h, owns (mkPart pv (one y zero_label leaf) nx :: Fs) R h →
    parsed pv nx y Fs R g (G y h)) →
  (∀ rest y h dy cy, owns (mkPart pv (one p d (append (append f (one x dx cx)) (one y dy cy))) nx :: Fs) R h →
    parsed pv nx p Fs R (k (vals (append f (one x dx cx)) ++ [item dy (vals cy)]) rest) (K y rest h)) →
  parsed pv nx p Fs R (let* (t, rest) := g in k (vals (append f (one x dx cx)) ++ [t]) rest)
    (let '(y, h) := cJSON_New_Item h in let* h := link_after x y h in
     let* (rest, h) := G y h in K y rest h).
Proof.
  intros Ho HG HK. destruct (owns_next_child _ _ _ _ _ _ _ _ _ _ _ Ho) as (h1 & E & Ho1).
  change (cJSON_New_Item h) with (unused h, (cJSON_New_Item h).2). cbv beta iota. rewrite E.
  cbn [exec_bind]. eapply parsed_child; [exact Ho1|intros; by apply HG|].
  intros rest h2 dy cy Ho2. by apply HK.
Qed.

(** The first item. *)
Lemma first_parsed g G k K pv nx p d Fs R h : owns (mkPart pv (one p d leaf) nx :: Fs) R h →
  (∀ pv nx y Fs R h, owns (mkPart pv (one y zero_label leaf) nx :: Fs) R h →
    parsed pv nx y Fs R g (G y h)) →
  (∀ rest y h dy cy, owns (mkPart pv (one p d (one y dy cy)) nx :: Fs) R h →
    parsed pv nx p Fs R (k [item dy (vals cy)] rest) (K y rest h)) →
  parsed pv nx p Fs R (let* (t, rest) := g in k [t] rest)
    (let '(y, h) := cJSON_New_Item h in
     let* h := assign p (λ n, n <| CJsonHeap.child := Some y |>) h in
     let* (rest, h) := G y h in K y rest h).
Proof.
  intros Ho HG HK. destruct (owns_first_child _ _ _ _ _ _ _ Ho) as (h1 & E & Ho1).
  change (cJSON_New_Item h) with (unused h, (cJSON_New_Item h).2). cbv beta iota. rewrite E.
  cbn [exec_bind]. apply (parsed_child pv nx p d leaf (unused h) zero_label Fs R h1); [exact Ho1|intros; by apply HG|].
  intros rest h2 dy cy Ho2. by apply HK.
Qed.

Lemma vals_snoc f y dy cy : vals f ++ [item dy (vals cy)] = vals (append f (one y dy cy)).
Proof. by rewrite vals_append. Qed.

(** A value is parsed when arrays and objects are. *)
Lemma parse_value_parsed f : on_node (CJson.parse_array f) (parse_array f) →
  on_node (CJson.parse_object f) (parse_object f) →
  on_node (CJson.parse_value (S f)) (parse_value (S f)).
Proof.
  intros IHa IHo pv nx x d Fs R h v Ho Hv. cbn [CJson.parse_value parse_value].
  case_match; [destruct (owns_typed cJsonDap_Null _ _ _ _ _ _ _ _ Ho eq_refl) as (h' & -> & ?); by eexists h', _, leaf|].
  case_match; [destruct (owns_typed cJsonDap_False _ _ _ _ _ _ _ _ Ho eq_refl) as (h' & -> & ?); by eexists h', _, leaf|].
  case_match.
  { destruct (owns_relabel (mkLabel cJsonDap_True (l_value d) 1 (l_double d) (l_name d))
      (λ n, n <| type := cJsonDap_True |> <| valueint := 1 |>) _ _ _ _ _ _ _ _ Ho) as (h' & -> & ?);
      [done..|]. by eexists h', _, leaf. }
  case_match; [by apply parse_string_parsed|]. case_match; [by apply parse_number_parsed|].
  case_match; [by apply IHa|]. case_match; [by apply IHo|by eexists h, d, leaf].
Qed.

Lemma all_parsed f :
  on_node (CJson.parse_value f) (parse_value f) ∧
  on_node (CJson.parse_array f) (parse_array f) ∧
  on_last (CJson.parse_array_loop f) (parse_array_loop f) ∧
  on_node (CJson.parse_object f) (parse_object f) ∧
  on_last (CJson.parse_object_loop f) (parse_object_loop f).
Proof.
  induction f as [|f (IHv & IHa & IHal & IHo & IHol)]; [by repeat split|].
  assert (Hzero : ∀ pv nx y Fs R h w, owns (mkPart pv (one y zero_label leaf) nx :: Fs) R h →
    parsed pv nx y Fs R (CJson.parse_value f CJson.cJSON_New_Item w) (parse_value f y w h)).
  { intros *. intros Ho. by apply (IHv _ _ _ zero_label). }
  assert (Hmem : ∀ pv nx y Fs R h w, owns (mkPart pv (one y zero_label leaf) nx :: Fs) R h →
    parsed pv nx y Fs R (CJson.parse_member (CJson.parse_value f) w)
      (parse_member (parse_value f) y w h)).
  { intros *. by apply parse_member_parsed. }
  split; [by apply parse_value_parsed|]. repeat split; intros pv nx x d.
  - intros Fs R h v Ho Hv. cbn [CJson.parse_array parse_array]. case_match; [by eexists h, d, leaf|].
    destruct (owns_typed cJsonDap_Array _ _ _ _ _ _ _ _ Ho eq_refl) as (h1 & -> & Ho1). cbn [exec_bind].
    case_match; [by eexists h1, _, leaf|]. cbv zeta.
    apply (first_parsed _ (λ y, parse_value f y _)
      (λ l rest, CJson.parse_array_loop f (set_type cJsonDap_Array (item d [])) l (skip rest))
      (λ y rest, parse_array_loop f y (skip rest)) _ _ _ (typed cJsonDap_Array d)); [exact Ho1|intros; by apply Hzero|].
    intros rest y h2 dy cy Ho2. by apply (IHal _ _ _ (typed cJsonDap_Array d) leaf y dy cy).
  - intros g y dy cy Fs R h v Ho. cbn [CJson.parse_array_loop parse_array_loop].
    case_match; [|case_match; by eexists h, d, _].
    apply (next_parsed _ (λ z, parse_value f z _)
      (λ l rest, CJson.parse_array_loop f (item d []) l (skip rest))
      (λ z rest, parse_array_loop f z (skip rest)) pv nx x d g y dy cy); [exact Ho|intros; by apply Hzero|].
    intros rest z h2 dz cz Ho2. rewrite (vals_snoc _ z). by apply IHal.
  - intros Fs R h v Ho Hv. cbn [CJson.parse_object parse_object]. case_match; [by eexists h, d, leaf|].
    destruct (owns_typed cJsonDap_Object _ _ _ _ _ _ _ _ Ho eq_refl) as (h1 & -> & Ho1). cbn [exec_bind].
    case_match; [by eexists h1, _, leaf|]. cbv zeta.
    apply (first_parsed _ (λ y, parse_member (parse_value f) y _)
      (λ l rest, CJson.parse_object_loop f (set_type cJsonDap_Object (item d [])) l rest)
      (λ y rest, parse_object_loop f y rest) _ _ _ (typed cJsonDap_Object d)); [exact Ho1|intros; by apply Hmem|].
    intros rest y h2 dy cy Ho2. by apply (IHol _ _ _ (typed cJsonDap_Object d) leaf y dy cy).
  - intros g y dy cy Fs R h v Ho. cbn [CJson.parse_object_loop parse_object_loop].
    case_match; [|case_match; by eexists h, d, _].
    apply (next_parsed _ (λ z, parse_member (parse_value f) z _)
      (λ l rest, CJson.parse_object_loop f (item d []) l rest)
      (λ z rest, parse_object_loop f z rest) pv nx x d g y dy cy); [exact Ho|intros; by apply Hmem|].
    intros rest z h2 dz cz Ho2. rewrite (vals_snoc _ z). by apply IHol.
Qed.

(** [cJSON_Parse] in memory, whatever else is there: [None] when nothing is left of what it
    allocated. *)
Lemma cJSON_Parse_owns source Fs R h : owns Fs R h →
  match CJson.cJSON_Parse source with
  | Ret t => ∃ p d c h', cJSON_Parse source h = Ret (Some p, h') ∧
      owns (whole (one p d c) :: Fs) R h' ∧ item d (vals c) = t
  | Err _ => ∃ h', cJSON_Parse source h = Ret (None, h') ∧ owns Fs R h'
  | Undef => cJSON_Parse source h = Undef
  | NoFuel => False
  end.
Proof.
  intros Ho. pose proof (cJSON_Parse_total source) as Ht. unfold CJson.cJSON_Parse, cJSON_Parse in *.
  pose proof (owns_New_Item _ _ _ Ho) as Ho1.
  change (cJSON_New_Item h) with (unused h, (cJSON_New_Item h).2). cbv beta iota zeta in *.
  set (v := skip (c_str source)) in *.
  destruct (all_parsed (parse_fuel v)) as [Hv _]. specialize (Hv _ _ _ _ _ _ _ v Ho1 eq_refl).
  change CJson.cJSON_New_Item with (item zero_label []) in *.
  destruct (CJson.parse_value _ _ _) as [[t rest]|e| |]; cbn [exec_bind parsed] in *; [| | |done].
  - destruct Hv as (h' & d & c & -> & Ho' & <-). by exists (unused h), d, c, h'.
  - destruct Hv as (h' & d & c & -> & Ho'). destruct (owns_Delete None _ _ _ _ Ho') as (h2 & E & Ho2 & _).
    cbn [head] in E. rewrite E. by exists h2.
  - by rewrite Hv.
Qed.

(** C16: the parser in memory does what [CJson] says of the values, whatever else the heap holds: it
    returns the root of a tree of new blocks that stands for the value, with its links in both
    directions and its strings, and [cJSON_Delete] of the root leaves the heap as it was; when the
    text has no value it returns null and has freed every block it allocated, at whatever position
    the error is. *)
Theorem parser_in_memory source R u : bounded (mkHeap R u) →
  match CJson.cJSON_Parse source with
  | Ret t => ∃ p h, cJSON_Parse source (mkHeap R u) = Ret (Some p, h) ∧
      (∃ d c, owns [whole (one p d c)] R h ∧ item d (vals c) = t) ∧
      ∃ h', cJSON_Delete (Some p) h = Ret h' ∧ contents h' = R
  | Err _ => ∃ h, cJSON_Parse source (mkHeap R u) = Ret (None, h) ∧ contents h = R
  | Undef => cJSON_Parse source (mkHeap R u) = Undef
  | NoFuel => False
  end.
Proof.
  intros Hb. assert (Ho : owns [] R (mkHeap R u)).
  { split; [by apply Forall_nil|apply base.NoDup_nil_2|done|done]. }
  pose proof (cJSON_Parse_owns source _ _ _ Ho) as Hp.
  destruct (CJson.cJSON_Parse source) as [t|e| |]; [| |done..].
  - destruct Hp as (p & d & c & h & E & Ho1 & V). exists p, h. split; [done|]. split; [by exists d, c|].
    destruct (owns_Delete None _ _ _ _ Ho1) as (h' & E' & Ho2 & _). exists h'. split; [done|].
    apply (owns_rest _ _ _ Ho2).
  - destruct Hp as (h & E & Ho1). exists h. split; [done|]. apply (owns_rest _ _ _ Ho1).
Qed.
End Parser.

(** ** Samples *)

Section Samples.
#[local] Existing Instance sample_platform.

(** A heap with a block of its own. *)
Definition sample_rest : blocks := {[3%nat := text_block "rest"]}.

Lemma sample_bounded : bounded (mkHeap sample_rest 7).
Proof.
  intros x Hx. cbn in *. destruct (decide (x = 3%nat)) as [->|Hn]; [lia|].
  unfold sample_rest in Hx. rewrite lookup_singleton_ne in Hx by done. by destruct Hx.
Qed.

(** An array with an array in it, and one that breaks off within the second item. *)
Lemma parser_in_memory_witness :
  (∃ t p h, CJson.cJSON_Parse "[true, [null, false]]" = Ret t ∧
     cJSON_Parse "[true, [null, false]]" (mkHeap sample_rest 7) = Ret (Some p, h) ∧
     (∃ d c, owns [whole (one p d c)] sample_rest h ∧ item d (vals c) = t) ∧
     ∃ h', cJSON_Delete (Some p) h = Ret h' ∧ contents h' = sample_rest) ∧
  ∃ h, cJSON_Parse "[true, [null, false" (mkHeap sample_rest 7) = Ret (None, h) ∧ contents h = sample_rest.
Proof.
  split.
  - pose proof (parser_in_memory "[true, [null, false]]" sample_rest 7 sample_bounded) as P.
    assert (∃ t, CJson.cJSON_Parse "[true, [null, false]]" = Ret t) as [t E]
      by (eexists; vm_compute; reflexivity).
    rewrite E in P. destruct P as (p & h & Hp). by exists t, p, h.
  - pose proof (parser_in_memory "[true, [null, false" sample_rest 7 sample_bounded) as P.
    assert (∃ e, CJson.cJSON_Parse "[true, [null, false" = Err e) as [e E]
      by (eexists; vm_compute; reflexivity).
    rewrite E in P. exact P.
Defined.

(** The nodes of the error were four, and are gone. *)
Example sample_parse_error : ∃ h, cJSON_Parse "[true, [null, false" (mkHeap ∅ 0) = Ret (None, h) ∧
  unused h = 5%nat ∧ size (contents h) = 0%nat.
Proof. eexists. vm_compute. split; [reflexivity|]. done. Qed.
End Samples.
