(* ===== verification/CJsonEdits.v ===== *)
(** * A tree in memory is edited as its value is.

    A program that edits a tree through the functions of cJSON.cpp does on the heap what
    [CJsonTree] does on the values, at any node of the tree, and frees what it takes out. *)
From S2P Require Import Prelude.
From S2P Require Import Double.
From S2P Require Import CJson.
From S2P Require Import CJsonTree.
From S2P Require Import CJsonHeap.
From S2P Require Import CJsonHeapSpec.
From S2P Require Import CJsonHeapOwns.
From S2P Require Import CJsonFocus.
Local Open Scope Z_scope.

(** ** Paths *)

(** The subtree at a path is changed; there may be none. *)
Fixpoint edit_at (path : list Z) (g : cJsonDap → cJsonDap) (t : cJsonDap) : cJsonDap :=
  match path with
  | [] => g t
  | i :: path =>
      match CJsonTree.cJSON_GetArrayItem t i with
      | Some c => CJsonTree.cJSON_ReplaceItemInArray t i (edit_at path g c)
      | None => t
      end
  end.

(** The same walk on the heap. *)
Fixpoint walk (path : list Z) (p : nat) (h : heap) : exec unit ptr :=
  match path with
  | [] => Ret (Some p)
  | i :: path =>
      let* c := cJSON_GetArrayItem p i h in
      match c with Some c => walk path c h | None => Ret None end
  end.

Lemma nth_child_nat l i : nth_child l i = l !! Z.to_nat i.
Proof.
  destruct (Z.le_gt_cases 0 i); [rewrite <- (Z2Nat.id i) at 1 by done; apply nth_child_lookup|].
  replace (Z.to_nat i) with 0%nat by lia. destruct l as [|c l]; [done|]. simpl.
  by destruct (Z.ltb_spec 0 i); [lia|].
Qed.

Lemma detach_nth_nat l i : detach_nth l i = (l !! Z.to_nat i, delete (Z.to_nat i) l).
Proof.
  destruct (Z.le_gt_cases 0 i); [rewrite <- (Z2Nat.id i) at 1 by done; apply detach_nth_spec|].
  replace (Z.to_nat i) with 0%nat by lia. destruct l as [|c l]; [done|]. simpl.
  by destruct (Z.ltb_spec 0 i); [lia|].
Qed.

Lemma replace_nth_nat l i x : replace_nth l i x = <[Z.to_nat i := x]> l.
Proof.
  destruct (Z.le_gt_cases 0 i); [rewrite <- (Z2Nat.id i) at 1 by done; apply replace_nth_spec|].
  replace (Z.to_nat i) with 0%nat by lia. destruct l as [|c l]; [done|]. simpl.
  by destruct (Z.ltb_spec 0 i); [lia|].
Qed.

(** The walk finds the node of the subtree, and what is done to the one is done to the other. *)
Lemma walk_spec path prv p d c nxt R h : owns [mkPart prv (one p d c) nxt] R h →
  (walk path p h = Ret None ∧ ∀ g, edit_at path g (item d (vals c)) = item d (vals c)) ∨
  ∃ q dq cq K, walk path p h = Ret (Some q) ∧ focus [] h q dq cq prv p d c nxt R K ∧
    ∀ g, edit_at path g (item d (vals c)) = K (g (item dq (vals cq))).
Proof.
  revert prv p d c nxt R. induction path as [|i path IH]; intros prv p d c nxt R Ho.
  { right. exists p, d, c, id. split; [done|]. split; [by apply focus_here|done]. }
  cbn [walk edit_at]. unfold CJsonTree.cJSON_GetArrayItem, CJsonTree.cJSON_ReplaceItemInArray.
  cbn [CJson.child item]. rewrite (owns_GetArrayItem _ _ _ _ _ _ _ _ _ Ho), nth_child_nat.
  cbn [exec_bind]. destruct (addrs c !! Z.to_nat i) as [a|] eqn:Ha.
  2: { left. split; [done|]. intros g. destruct (vals c !! Z.to_nat i) eqn:Hv; [|done].
       apply eq_None_not_Some in Ha. destruct Ha. apply addrs_lookup. by eexists. }
  destruct (split_at _ _ _ Ha) as (f1 & da & ca & f2 & -> & Hlen & Hv). rewrite Hv.
  destruct (owns_open _ _ _ _ _ _ _ _ _ _ _ _ Ho) as (R1 & Ho1 & Har & <-).
  destruct (IH _ _ _ _ _ _ Ho1) as [[Hw Hg]|(q & dq & cq & K & Hw & Hf & Hg)].
  - left. split; [done|]. intros g. rewrite Hg, replace_nth_nat, list_insert_id by done. done.
  - right. eexists q, dq, cq, _. split; [done|]. split; [by apply focus_under|].
    intros g. by rewrite Hg, replace_nth_nat, Hlen.
Qed.

(** ** Edits *)

(** What a program does to a node: it adds a new item, deletes, puts a new item in the place of
    another one that is there, or takes a member out and adds it under another name. *)
Inductive edit :=
| add_to_array (item : cJsonDap)
| add_to_object (name : text) (item : cJsonDap)
| delete_from_array (which : Z)
| delete_from_object (name : text)
| replace_in_array (which : Z) (item : cJsonDap)
| replace_in_object (name : text) (item : cJsonDap)
| rename (name new_name : text).

(** On the values. *)
Definition edited (e : edit) (t : cJsonDap) : cJsonDap :=
  match e with
  | add_to_array item => CJsonTree.cJSON_AddItemToArray t (Some item)
  | add_to_object name item => CJsonTree.cJSON_AddItemToObject t name (Some item)
  | delete_from_array which => CJsonTree.cJSON_DeleteItemFromArray t which
  | delete_from_object name => CJsonTree.cJSON_DeleteItemFromObject t name
  | replace_in_array which item => CJsonTree.cJSON_ReplaceItemInArray t which item
  | replace_in_object name item => CJsonTree.cJSON_ReplaceItemInObject t name item
  | rename name new_name =>
      let '(item, t) := CJsonTree.cJSON_DetachItemFromObject t name in
      CJsonTree.cJSON_AddItemToObject t new_name item
  end.

(** On the heap. *)
Definition run_edit (e : edit) (p : nat) (h : heap) : exec unit heap :=
  match e with
  | add_to_array item =>
      let '(i, h) := alloc_tree item None h in cJSON_AddItemToArray p (Some i) h
  | add_to_object name item =>
      let '(i, h) := alloc_tree item None h in cJSON_AddItemToObject p name (Some i) h
  | delete_from_array which => cJSON_DeleteItemFromArray p which h
  | delete_from_object name => cJSON_DeleteItemFromObject p name h
  | replace_in_array which item =>
      let* c := cJSON_GetArrayItem p which h in
      match c with
      | Some _ =>
          let '(i, h) := alloc_tree item None h in cJSON_ReplaceItemInArray p which i h
      | None => Ret h
      end
  | replace_in_object name item =>
      let* c := cJSON_GetObjectItem p name h in
      match c with
      | Some _ =>
          let '(i, h) := alloc_tree item None h in cJSON_ReplaceItemInObject p name i h
      | None => Ret h
      end
  | rename name new_name =>
      let* (i, h) := cJSON_DetachItemFromObject p name h in
      cJSON_AddItemToObject p new_name i h
  end.

(** The new items own what they have; one that replaces a member has no name yet. *)
Definition valid_edit (e : edit) : bool :=
  match e with
  | add_to_array item | add_to_object _ item | replace_in_array _ item => no_reference item
  | replace_in_object _ item => no_reference item && bool_decide (item_string item = None)
  | delete_from_array _ | delete_from_object _ | rename _ _ => true
  end.

(** ** Every edit *)

Lemma delete_absent {A} (l : list A) i : l !! i = None → delete i l = l.
Proof. revert i. induction l as [|x l IH]; intros [|i] Hi; simplify_eq/=; [done..|]. by rewrite IH. Qed.

Lemma detach_value d l which : CJsonTree.cJSON_DetachItemFromArray (item d l) which
  = (l !! Z.to_nat which, item d (delete (Z.to_nat which) l)).
Proof. unfold CJsonTree.cJSON_DetachItemFromArray. cbn [CJson.child item]. by rewrite detach_nth_nat. Qed.

Lemma replace_value d l which x : CJsonTree.cJSON_ReplaceItemInArray (item d l) which x
  = item d (<[Z.to_nat which := x]> l).
Proof. unfold CJsonTree.cJSON_ReplaceItemInArray. cbn [CJson.child item]. by rewrite replace_nth_nat. Qed.

Section Node.
Context (prv : ptr) (p : nat) (d : label) (c : forest) (nxt : ptr) (R : blocks) (h : heap).
Hypothesis Ho : owns [mkPart prv (one p d c) nxt] R h.

(** The item that is taken out, and the node without it. *)
Local Definition takes_out (m : exec unit (ptr * heap)) (o : option cJsonDap * cJsonDap) : Prop :=
  match o with
  | (None, t) => m = Ret (None, h) ∧ t = item d (vals c)
  | (Some v, t) => ∃ q dq cq c' h', m = Ret (Some q, h') ∧
      owns [mkPart prv (one p d c') nxt; whole (one q dq cq)] R h' ∧
      item dq (vals cq) = v ∧ item d (vals c') = t
  end.

Lemma DetachItemFromArray_takes which :
  takes_out (cJSON_DetachItemFromArray p which h)
    (CJsonTree.cJSON_DetachItemFromArray (item d (vals c)) which).
Proof.
  rewrite detach_value. destruct (load_parent _ _ _ _ _ _ _ _ Ho) as (Hp & Hc & _).
  destruct (addrs c !! Z.to_nat which) as [q|] eqn:Hq.
  - destruct (owns_DetachItemFromArray _ _ _ _ _ _ _ _ _ _ Ho Hq) as (dq & cq & c' & h' & E & O & V & V').
    rewrite V. exists q, dq, cq, c', h'. by rewrite V'.
  - assert (vals c !! Z.to_nat which = None) as Hv.
    { apply eq_None_not_Some. intros Hs%addrs_lookup. rewrite Hq in Hs. by destruct Hs. }
    rewrite Hv. split.
    + unfold cJSON_DetachItemFromArray, DetachItemFromArray. rewrite Hp. cbn [exec_bind child cell_of].
      rewrite (nth_loop_spec c None), Hq by done. by destruct h.
    + by rewrite delete_absent.
Qed.

Lemma DetachItemFromObject_takes name :
  takes_out (cJSON_DetachItemFromObject p name h)
    (CJsonTree.cJSON_DetachItemFromObject (item d (vals c)) name).
Proof.
  unfold cJSON_DetachItemFromObject, CJsonTree.cJSON_DetachItemFromObject.
  rewrite (owns_find_item _ _ _ _ _ _ _ _ name Ho). cbn [CJson.child item exec_bind].
  destruct (find_child (vals c) 0 name) as [[i v]|] eqn:E; [|done].
  apply find_child_index in E as (n & -> & Hv).
  destruct (proj2 (addrs_lookup c n)) as [q Hq]; [by eexists|].
  rewrite Z.add_0_l, Nat2Z.id, Hq. apply DetachItemFromArray_takes.
Qed.

(** The node after an edit. *)
Local Definition becomes (m : exec unit heap) (t : cJsonDap) : Prop :=
  ∃ d' c' h', m = Ret h' ∧ owns [mkPart prv (one p d' c') nxt] R h' ∧ item d' (vals c') = t.

Lemma delete_becomes m o : takes_out m o →
  becomes (let* (c, h) := m in cJSON_Delete c h) o.2.
Proof.
  destruct o as [[v|] t].
  - intros (q & dq & cq & c' & h' & -> & Hown & _ & Ht). rewrite Permutation_swap in Hown.
    destruct (owns_Delete None _ _ _ _ Hown) as (h2 & E & O & _).
    exists d, c', h2. cbn [exec_bind]. split; [exact E|done].
  - intros [-> ->]. exists d, c, h. split; [|done]. cbn [exec_bind]. by destruct h.
Qed.

Lemma replace_becomes i di ci h1 which :
  owns [mkPart prv (one p d c) nxt; whole (one i di ci)] R h1 → is_Some (vals c !! Z.to_nat which) →
  becomes (cJSON_ReplaceItemInArray p which i h1)
    (CJsonTree.cJSON_ReplaceItemInArray (item d (vals c)) which (item di (vals ci))).
Proof.
  intros Ho1 [q Hq]%addrs_lookup.
  destruct (owns_ReplaceItemInArray _ _ _ _ _ _ _ _ _ _ _ _ _ Ho1 Hq) as (c' & h' & E & O & V).
  exists d, c', h'. by rewrite E, replace_value, V.
Qed.

Lemma alloc_at t : no_reference t = true → ∃ i di ci h1, alloc_tree t None h = (i, h1) ∧
  owns [mkPart prv (one p d c) nxt; whole (one i di ci)] R h1 ∧ item di (vals ci) = t.
Proof.
  intros Ht. destruct (owns_alloc t None _ _ _ Ho Ht) as (i & di & ci & h1 & E & O & V).
  rewrite Permutation_swap in O. by exists i, di, ci, h1.
Qed.

Lemma add_to_object_becomes i di ci h1 name :
  owns [mkPart prv (one p d c) nxt; whole (one i di ci)] R h1 →
  becomes (cJSON_AddItemToObject p name (Some i) h1)
    (CJsonTree.cJSON_AddItemToObject (item d (vals c)) name (Some (item di (vals ci)))).
Proof.
  intros Ho1. destruct (owns_AddItemToObject _ _ _ _ _ _ _ _ name _ _ _ Ho1) as (s & h' & E & O).
  eexists d, _, h'. split; [done|]. split; [done|]. by rewrite vals_append.
Qed.
End Node.

Lemma assign_name_unnamed prv i di ci nxt name Fs R h : l_name di = None →
  owns (mkPart prv (one i di ci) nxt :: Fs) R h →
  ∃ s h', assign_name i name h = Ret h' ∧
    owns (mkPart prv (one i (set_name (Some (s, c_str name)) di) ci) nxt :: Fs) R h'.
Proof.
  intros Hdi Ho. destruct (owns_name _ _ _ _ _ name _ _ _ Ho) as (h1 & s & h2 & E1 & E2 & O).
  rewrite Hdi in E1. assert (h1 = h) as -> by (destruct h; injection E1 as <-; done).
  by exists s, h2.
Qed.

Lemma replace_in_object_becomes prv p d c nxt R i di ci h1 name j v :
  owns [mkPart prv (one p d c) nxt; whole (one i di ci)] R h1 → l_name di = None →
  find_child (vals c) 0 name = Some (j, v) →
  becomes prv p nxt R (cJSON_ReplaceItemInObject p name i h1)
    (CJsonTree.cJSON_ReplaceItemInObject (item d (vals c)) name (item di (vals ci))).
Proof.
  intros Ho Hdi Hf. unfold cJSON_ReplaceItemInObject, CJsonTree.cJSON_ReplaceItemInObject.
  rewrite (owns_find_item _ _ _ _ _ _ _ _ name Ho). cbn [CJson.child item]. rewrite Hf.
  apply find_child_index in Hf as (n & -> & Hv). destruct (proj2 (addrs_lookup c n)) as [q Hq];
    [by eexists|]. cbn [exec_bind]. rewrite Z.add_0_l, Nat2Z.id, Hq.
  rewrite Permutation_swap in Ho.
  destruct (assign_name_unnamed _ _ _ _ _ name _ _ _ Hdi Ho) as (s & h2 & E & O). rewrite E.
  cbn [exec_bind]. rewrite Permutation_swap in O.
  apply (replace_becomes prv p d c nxt R i _ ci h2 _ O). rewrite Nat2Z.id. by eexists.
Qed.

Lemma run_edit_spec prv p d c nxt R h e : owns [mkPart prv (one p d c) nxt] R h →
  valid_edit e = true → becomes prv p nxt R (run_edit e p h) (edited e (item d (vals c))).
Proof.
  intros Ho He. destruct e as [t|name t|which|name|which t|name t|name new]; cbn [run_edit edited].
  - destruct (alloc_at _ _ _ _ _ _ _ Ho t He) as (i & di & ci & h1 & -> & O & <-).
    destruct (owns_AddItemToArray _ _ _ _ _ _ _ _ _ _ _ O) as (h' & E & O').
    eexists d, _, h'. split; [done|]. split; [done|]. by rewrite vals_append.
  - destruct (alloc_at _ _ _ _ _ _ _ Ho t He) as (i & di & ci & h1 & -> & O & <-).
    apply (add_to_object_becomes prv p d c nxt R i di ci h1 name O).
  - apply (delete_becomes prv p d c nxt R h Ho), DetachItemFromArray_takes, Ho.
  - apply (delete_becomes prv p d c nxt R h Ho), DetachItemFromObject_takes, Ho.
  - rewrite (owns_GetArrayItem _ _ _ _ _ _ _ _ _ Ho). cbn [exec_bind].
    destruct (addrs c !! Z.to_nat which) as [q|] eqn:Hq.
    + destruct (alloc_at _ _ _ _ _ _ _ Ho t He) as (i & di & ci & h1 & -> & O & <-).
      apply (replace_becomes prv p d c nxt R i di ci h1 which O), addrs_lookup. by eexists.
    + exists d, c, h. split; [done|]. split; [done|]. rewrite replace_value, list_insert_ge; [done|].
      rewrite <- addrs_vals. by apply lookup_ge_None.
  - apply andb_true_iff in He as [He Hn%bool_decide_eq_true]. unfold cJSON_GetObjectItem, exec_map.
    rewrite (owns_find_item _ _ _ _ _ _ _ _ name Ho). cbn [exec_bind].
    destruct (find_child (vals c) 0 name) as [[j v]|] eqn:Hf; cbn [snd].
    + destruct (alloc_at _ _ _ _ _ _ _ Ho t He) as (i & di & ci & h1 & -> & O & <-).
      pose proof (find_child_index _ _ _ _ _ Hf) as (n & -> & Hv).
      destruct (proj2 (addrs_lookup c n)) as [q Hq]; [by eexists|].
      rewrite Z.add_0_l, Nat2Z.id, Hq.
      eapply (replace_in_object_becomes prv p d c nxt R); [exact O|cbn in Hn; by destruct (l_name di)|done].
    + exists d, c, h. split; [done|]. split; [done|].
      unfold CJsonTree.cJSON_ReplaceItemInObject. cbn [CJson.child item]. by rewrite Hf.
  - pose proof (DetachItemFromObject_takes _ _ _ _ _ _ _ Ho name) as Ht.
    destruct (CJsonTree.cJSON_DetachItemFromObject (item d (vals c)) name) as [[v|] t].
    + destruct Ht as (q & dq & cq & c' & h' & -> & O & <- & <-). cbn [exec_bind].
      apply (add_to_object_becomes prv p d c' nxt R q dq cq h' new O).
    + destruct Ht as [-> ->]. cbn [exec_bind cJSON_AddItemToObject CJsonTree.cJSON_AddItemToObject].
      by exists d, c, h.
Qed.

(** ** Programs *)

Definition run_at (pe : list Z * edit) (p : nat) (h : heap) : exec unit heap :=
  let* q := walk pe.1 p h in
  match q with Some q => run_edit pe.2 q h | None => Ret h end.

Fixpoint run_edits (es : list (list Z * edit)) (p : nat) (h : heap) : exec unit heap :=
  match es with
  | [] => Ret h
  | e :: es => let* h := run_at e p h in run_edits es p h
  end.

Definition edited_at (t : cJsonDap) (pe : list Z * edit) : cJsonDap := edit_at pe.1 (edited pe.2) t.

(** The blocks of the heap are those of the tree [t] at [p], and [R]. *)
Definition stands_for (p : nat) (t : cJsonDap) (R : blocks) (h : heap) : Prop :=
  ∃ d c, owns [whole (one p d c)] R h ∧ item d (vals c) = t.

Lemma run_at_spec p t R h pe : stands_for p t R h → valid_edit pe.2 = true →
  ∃ h', run_at pe p h = Ret h' ∧ stands_for p (edited_at t pe) R h'.
Proof.
  destruct pe as [path e]. intros (d & c & Ho & <-) He. unfold run_at, edited_at. cbn [fst snd].
  destruct (walk_spec path _ _ _ _ _ _ _ Ho)
    as [[Hw Hg]|(q & dq & cq & K & Hw & [_ (pv & nx & R' & Hq & Hback)] & Hg)];
    rewrite Hw; cbn [exec_bind].
  - exists h. split; [done|]. exists d, c. by rewrite Hg.
  - destruct (run_edit_spec _ _ _ _ _ _ _ e Hq He) as (dq' & cq' & h' & E & O & V).
    destruct (Hback dq' cq' [] h' O) as (d' & c' & O' & V').
    exists h'. split; [done|]. exists d', c'. by rewrite V', V, Hg.
Qed.

Lemma run_edits_spec es p t R h : stands_for p t R h → Forall (λ pe, valid_edit pe.2 = true) es →
  ∃ h', run_edits es p h = Ret h' ∧ stands_for p (foldl edited_at t es) R h'.
Proof.
  revert t h. induction es as [|pe es IH]; intros t h Hs He; [by exists h|].
  apply list.Forall_cons in He as [Hpe He].
  destruct (run_at_spec p t R h pe Hs Hpe) as (h1 & E1 & S1). cbn [run_edits foldl]. rewrite E1.
  by apply IH.
Qed.


(** An object with two members; the second is an array, in which an item is replaced and to which
    one is added; the first member is deleted and the second renamed. *)
Definition sample_tree : cJsonDap :=
  CJsonTree.cJSON_AddItemToObject
    (CJsonTree.cJSON_AddItemToObject CJsonTree.cJSON_CreateObject "a"
       (Some (CJsonTree.cJSON_CreateString "x")))
    "b" (Some (CJsonTree.cJSON_AddItemToArray CJsonTree.cJSON_CreateArray
                 (Some CJsonTree.cJSON_CreateTrue))).

Definition sample_edits : list (list Z * edit) :=
  [([1], replace_in_array 0 CJsonTree.cJSON_CreateNull);
   ([1], add_to_array (CJsonTree.cJSON_CreateString "y"));
   ([], delete_from_object "A");
   ([], rename "b" "c")].


(** What comes of it: one member, the array of the null and the string. *)
Example sample_result : foldl edited_at sample_tree sample_edits =
  CJsonTree.cJSON_AddItemToObject CJsonTree.cJSON_CreateObject "c"
    (Some (CJsonTree.cJSON_AddItemToArray
       (CJsonTree.cJSON_AddItemToArray CJsonTree.cJSON_CreateArray (Some CJsonTree.cJSON_CreateNull))
       (Some (CJsonTree.cJSON_CreateString "y")))).
Proof. reflexivity. Qed.

(** ** A name that is lost *)

(** An item without its name: the name is a block that belongs to nothing. *)
Lemma owns_unnamed P i di ci a old R h : owns [P; whole (one i di ci)] R h →
  l_name di = Some (a, old) →
  owns [P; whole (one i (set_name None di) ci)] (<[a := text_block old]> R)
    (h <| contents := <[i := node_block (cell_of (set_name None di) None None (head ci None))]>
                        (contents h) |>).
Proof.
  intros Ho Hdi. destruct (owns_whole_2 _ _ _ _ _ Ho) as (HP & HnP & Hi & Hni & Hd).
  pose proof (owns_rest _ _ _ Ho) as Hr. pose proof (owns_bounded _ _ _ Ho) as Hb.
  destruct Hi as (Hcell & Href & Ht & Hci & _). cbn [tree before after] in *.
  assert (Hlocs : locs (one i di ci) ≡ₚ a :: locs (one i (set_name None di) ci)).
  { cbn. unfold strings_of. rewrite Hdi. cbn. rewrite fmap_app. cbn. rewrite !app_nil_r. solve_Permutation. }
  unfold strings_of in Ht. rewrite Hdi in Ht. apply Forall_app in Ht as [Htv Hta].
  apply list.Forall_cons in Hta as [Hta _]. cbn in Hta.
  rewrite Hlocs in Hni. apply list.NoDup_cons in Hni as [Ha Hni].
  assert (Hid : i ∉ locs (tree P)).
  { intros Hx. apply (Hd i Hx). rewrite Hlocs. right. by left. }
  pose proof Hni as Hni'. apply NoDup_node in Hni' as (Hii & _). rewrite !not_elem_of_app in Hii.
  split; [| | |].
  - apply list.Forall_cons. split; [by apply seg_insert|]. apply Forall_singleton. cbn [tree before after].
    split; [apply lookup_insert_eq|]. split; [done|].
    split; [|split; [apply seg_insert; tauto|done]]. apply holds_texts_insert; [|tauto].
    unfold strings_of, set_name. cbn. by rewrite app_nil_r.
  - rewrite plocs_two. apply list.NoDup_app. split; [done|]. split; [|done].
    intros x Hx Hx'. apply (Hd x Hx). rewrite Hlocs. by right.
  - rewrite plocs_two in Hr |- *. cbn [tree] in *. cbn -[locs erase]. apply map_eq. intros x.
    assert (Hx : x ∈ locs (tree P) ++ locs (one i di ci) ↔
      x = a ∨ x ∈ locs (tree P) ++ locs (one i (set_name None di) ci)).
    { rewrite !elem_of_app, Hlocs, elem_of_cons. tauto. }
    destruct (decide (x = a)) as [->|Hxa].
    + rewrite lookup_insert_eq, lookup_erase, decide_False.
      * rewrite lookup_insert_ne; [done|]. intros ->. apply Ha. by left.
      * rewrite elem_of_app. intros [Hx'|Hx']; [|done]. apply (Hd a Hx'). rewrite Hlocs. by left.
    + rewrite lookup_insert_ne, <- Hr, !lookup_erase by done.
      repeat case_decide; try tauto. rewrite lookup_insert_ne; [done|]. intros <-.
      match goal with H : i ∉ _ ++ locs (one i (set_name None di) ci) |- _ => apply H end.
      apply elem_of_app. right. by left.
  - intros x Hx. cbn in *. apply Hb. destruct (decide (x = i)) as [->|]; [by eexists|].
    by rewrite lookup_insert_ne in Hx.
Qed.

(** The name that is assigned does not depend on the one that was there. *)
Lemma assign_name_overwrites i name h n : contents h !! i = Some (node_block n) → i ≠ unused h →
  assign_name i name
    (h <| contents := <[i := node_block (n <| string := None |>)]> (contents h) |>)
  = assign_name i name h.
Proof.
  intros Hi His. unfold assign_name, on_contents. cbn.
  erewrite (update_Ret i) by (rewrite lookup_insert_ne by congruence; apply lookup_insert_eq).
  rewrite (update_Ret i _ n) by (rewrite lookup_insert_ne by congruence; done).
  cbn. by rewrite (insert_insert_ne _ _ i), insert_insert_eq.
Qed.

(** [cJSON_ReplaceItemInObject] gives the new item a name without freeing the one it has, as
    [cJSON_AddItemToObject] does: the tree changes as its value does, and the block of the old name
    stays allocated and belongs to nothing. *)
Theorem replaced_name_leaks prv p d c nxt R h i di ci a old name j v :
  owns [mkPart prv (one p d c) nxt; whole (one i di ci)] R h → l_name di = Some (a, old) →
  find_child (vals c) 0 name = Some (j, v) →
  ∃ d' c' h', cJSON_ReplaceItemInObject p name i h = Ret h' ∧
    owns [mkPart prv (one p d' c') nxt] (<[a := text_block old]> R) h' ∧
    item d' (vals c') =
      CJsonTree.cJSON_ReplaceItemInObject (item d (vals c)) name (item di (vals ci)).
Proof.
  intros Ho Hdi Hf. pose proof (owns_unnamed _ _ _ _ _ _ _ _ Ho Hdi) as Ho0.
  destruct (replace_in_object_becomes _ _ _ _ _ _ _ _ _ _ name j v Ho0) as (d' & c' & h' & E & O & V);
    [done..|].
  exists d', c', h'. split; [|split; [done|]].
  - rewrite <- E. unfold cJSON_ReplaceItemInObject.
    rewrite (owns_find_item _ _ _ _ _ _ _ _ name Ho), (owns_find_item _ _ _ _ _ _ _ _ name Ho0).
    rewrite Hf. apply find_child_index in Hf as (n & -> & Hv).
    destruct (proj2 (addrs_lookup c n)) as [q Hq]; [by eexists|].
    destruct (owns_whole_2 _ _ _ _ _ Ho) as (_ & _ & Hi%seg_head_cell & _).
    rewrite <- (assign_name_overwrites i name h _ Hi); [by cbn [exec_bind]; rewrite Z.add_0_l, Nat2Z.id, Hq|].
    intros E0. pose proof (owns_bounded _ _ _ Ho i (mk_is_Some _ _ Hi)). lia.
  - rewrite V. unfold CJsonTree.cJSON_ReplaceItemInObject. cbn [CJson.child item]. by rewrite Hf.
Qed.

(** ** References *)

Lemma is_reference_type n ty : type n = Z.lor ty cJsonDap_IsReference → is_reference n = true.
Proof.
  intros E. unfold is_reference. rewrite E. destruct (Z.eqb_spec (Z.land (Z.lor ty cJsonDap_IsReference)
    cJsonDap_IsReference) 0) as [E0|]; [|done].
  apply (f_equal (λ z, Z.testbit z 8)) in E0.
  by rewrite Z.land_spec, Z.lor_spec, andb_true_r, orb_true_r in E0.
Qed.

(** A reference owns nothing: to delete it leaves the heap it was made in. *)
Lemma reference_owns_nothing item h ref h' : create_reference item h = Ret (ref, h') → bounded h →
  ∃ h2, cJSON_Delete (Some ref) h' = Ret h2 ∧ contents h2 = contents h.
Proof.
  intros Hc Hb. unfold create_reference in Hc.
  pose proof (malloc_grown (node_block zero_cell) h Hb) as G. cbn in Hc.
  destruct (load item _) as [n| | |]; [|done..]. cbn [exec_bind] in Hc. unfold on_contents in Hc.
  erewrite (update_Ret (unused h)) in Hc by apply lookup_insert_eq. cbn in Hc. injection Hc as <- <-.
  rewrite insert_insert_eq. unfold cJSON_Delete, on_contents. cbn [contents].
  set (r := n <| string := None |> <| type := _ |> <| next := _ |> <| prev := _ |>).
  assert (Hr : is_reference r = true) by by eapply is_reference_type.
  assert (Hu : contents h !! unused h = None).
  { apply eq_None_not_Some. intros ?%Hb. lia. }
  assert (E : cJSON_Delete_loop (steps (<[unused h := node_block r]> (contents h))) (Some (unused h))
    (<[unused h := node_block r]> (contents h)) = Ret (contents h)).
  { unfold steps. rewrite map_size_insert_None by done. cbn [cJSON_Delete_loop]. unfold load.
    rewrite lookup_insert_eq. cbn [exec_bind]. rewrite Hr. cbn. unfold free. rewrite lookup_insert_eq.
    cbn. by rewrite delete_insert_id. }
  cbn in E |- *. rewrite E. by eexists.
Qed.
