(* ===== verification/JsonMemory.v ===== *)
(** * JSON.cpp: the handles in memory.

    [Json] describes the values; here a [Json] is a pointer to a node with a pointer to a counter,
    which is null in the handles that do not own their tree.  The nodes are those of [CJsonHeap],
    and what is undefined behaviour, the use of a node or of a counter that was freed, is [Undef].
    A program is a sequence of operations on handles held in variables: temporaries, and results
    that are not kept, are variables that are destroyed.  Names and texts are the C strings that
    the conversions of [wxString] give. *)
From S2P Require Import Prelude.
From S2P Require Import Double.
From S2P Require Import CJson.
From S2P Require Import CJsonTree.
From S2P Require Import CJsonHeap.
From S2P Require Import CJsonHeapParse.
Local Open Scope Z_scope.

(** The nodes, the counters, and the first counter that was never used. *)
Record memory := mkMemory { store : heap; counters : gmap nat Z; new_counter : nat }.

#[export] Instance memory_settable : Settable memory :=
  rebuild mkMemory <@> store <@> counters <@> new_counter.

Definition memory_start : memory := mkMemory (mkHeap ∅ 0) ∅ 0.

Record Json := mkJson { m_cjson : ptr; m_refCount : ptr }.

#[export] Instance Json_settable : Settable Json := rebuild mkJson <@> m_cjson <@> m_refCount.

Definition null : Json := mkJson None None.

Definition on_store (f : heap → exec unit heap) (m : memory) : exec unit memory :=
  let* h := f (store m) in Ret (m <| store := h |>).

(** ** The counters *)

Definition IsManaged (j : Json) : bool := if m_refCount j is Some _ then true else false.

Definition Delete (j : Json) (m : memory) : exec unit (Json * memory) :=
  match m_cjson j with
  | None => Ret (j, m)
  | Some l =>
      let* m := on_store (cJSON_Delete (Some l)) m in Ret (j <| m_cjson := None |>, m)
  end.

(** The counter as a number: the [int] of [std::atomic_int]. *)
Definition DecRef (j : Json) (m : memory) : exec unit (Json * memory) :=
  match m_refCount j with
  | None => Ret (j, m)
  | Some c =>
      match counters m !! c with
      | None => Undef
      | Some n =>
          let n := to_int32 (n - 1) in
          let m := m <| counters := <[c := n]> (counters m) |> in
          if n =? 0 then
            let* (j, m) := Delete j m in
            let m := m <| counters := delete c (counters m) |> in
            Ret (j <| m_refCount := None |>, m)
          else Ret (j, m)
      end
  end.

Definition IncRef (j : Json) (m : memory) : exec unit memory :=
  match m_refCount j with
  | None => Ret m
  | Some c =>
      match counters m !! c with
      | None => Undef
      | Some n => Ret (m <| counters := <[c := to_int32 (n + 1)]> (counters m) |>)
      end
  end.

Definition Manage (j : Json) (m : memory) : Json * memory :=
  if IsManaged j then (j, m)
  else
    let c := new_counter m in
    (j <| m_refCount := Some c |>,
     m <| counters := <[c := 1]> (counters m) |> <| new_counter := S c |>).

Definition UnManage (j : Json) (m : memory) : exec unit (Json * memory) :=
  match m_refCount j with
  | None => Ret (j, m)
  | Some c =>
      match counters m !! c with
      | None => Undef
      | Some _ => Ret (j <| m_refCount := None |>, m <| counters := delete c (counters m) |>)
      end
  end.

(** [operator=] from another handle: [this] was tested to be another one. *)
Definition assign_from (this other : Json) (m : memory) : exec unit (Json * memory) :=
  let* (this, m) := DecRef this m in
  let this := this <| m_refCount := m_refCount other |> in
  let this := this <| m_cjson := m_cjson other |> in
  let* m := IncRef this m in
  Ret (this, m).

(** [Json(const Json&)] *)
Definition copy_of (other : Json) (m : memory) : exec unit (Json * memory) :=
  assign_from null other m.

(** [~Json] *)
Definition destroy (j : Json) (m : memory) : exec unit memory :=
  let* (j, m) := DecRef j m in Ret m.

(** ** Creating *)

Definition CreateArray (m : memory) : Json * memory :=
  let '(p, h) := cJSON_CreateArray (store m) in Manage (mkJson (Some p) None) (m <| store := h |>).

Definition CreateObject (m : memory) : Json * memory :=
  let '(p, h) := cJSON_CreateObject (store m) in Manage (mkJson (Some p) None) (m <| store := h |>).

Definition Parse `{Platform} (source : text) (m : memory) : exec unit (Json * memory) :=
  let* (p, h) := cJSON_Parse source (store m) in
  Ret (Manage (mkJson p None) (m <| store := h |>)).

(** ** Reading *)

Definition nodes (m : memory) : blocks := contents (store m).

Definition IsOK (j : Json) : bool := bool_decide (is_Some (m_cjson j)).

(** [m_cjson && m_cjson->type == ty] *)
Definition has_type (ty : Z) (j : Json) (m : memory) : exec unit bool :=
  match m_cjson j with
  | None => Ret false
  | Some l => let* n := load l (nodes m) in Ret (type n =? ty)
  end.

Definition IsArray : Json → memory → exec unit bool := has_type cJsonDap_Array.
Definition IsObject : Json → memory → exec unit bool := has_type cJsonDap_Object.

(** The text of a string that may be null. *)
Definition text_at (p : ptr) (m : memory) : exec unit text :=
  match p with Some s => load_text s (nodes m) | None => Ret [] end.

Definition GetName (j : Json) (m : memory) : exec unit text :=
  match m_cjson j with
  | None => Ret []
  | Some l => let* n := load l (nodes m) in text_at (string n) m
  end.

Definition GetString (defaultVaule : text) (j : Json) (m : memory) : exec unit text :=
  match m_cjson j with
  | None => Ret defaultVaule
  | Some l =>
      let* n := load l (nodes m) in
      if negb (type n =? cJsonDap_String) then Ret defaultVaule else text_at (valuestring n) m
  end.

Definition GetNumber (defaultVaule : double) (j : Json) (m : memory) : exec unit double :=
  match m_cjson j with
  | None => Ret defaultVaule
  | Some l =>
      let* n := load l (nodes m) in
      Ret (if negb (type n =? cJsonDap_Number) then defaultVaule else valuedouble n)
  end.

Definition GetInteger (defaultVaule : Z) (j : Json) (m : memory) : exec unit Z :=
  match m_cjson j with
  | None => Ret defaultVaule
  | Some l =>
      let* n := load l (nodes m) in
      Ret (if negb (type n =? cJsonDap_Number) then defaultVaule else valueint n)
  end.

(** The second test compares the pointer with [cJsonDap_False], which is 0. *)
Definition GetBool (defaultVaule : bool) (j : Json) (m : memory) : exec unit bool :=
  match m_cjson j with
  | None => Ret defaultVaule
  | Some l =>
      let* n := load l (nodes m) in
      Ret (if negb (type n =? cJsonDap_True) && bool_decide (m_cjson j ≠ None) then defaultVaule
           else type n =? cJsonDap_True)
  end.

(** [child->string && strcmp(child->string, index) == 0], up to the end of the chain. *)
Fixpoint member_loop (fuel : nat) (child : ptr) (index : text) (h : blocks) : exec unit ptr :=
  match fuel with
  | O => NoFuel
  | S fuel =>
      match child with
      | None => Ret None
      | Some p =>
          let* n := load p h in
          let* name := name_of n h in
          if (match name with Some s => s =t index | None => false end) then Ret child
          else member_loop fuel (next n) index h
      end
  end.

(** [operator\[\](const wxString&)] *)
Definition member (j : Json) (index : text) (m : memory) : exec unit Json :=
  match m_cjson j with
  | None => Ret null
  | Some l =>
      let* n := load l (nodes m) in
      exec_map (λ p, mkJson p None) (member_loop (steps (nodes m)) (child n) index (nodes m))
  end.

Definition GetCount (j : Json) (m : memory) : exec unit Z :=
  match m_cjson j with
  | None => Ret 0
  | Some l => let* n := load l (nodes m) in count_loop (steps (nodes m)) (child n) (nodes m)
  end.

(** [while(where != index) child = child->next, ++where;] *)
Fixpoint index_loop (index : nat) (child : ptr) (h : blocks) : exec unit ptr :=
  match index with
  | O => Ret child
  | S index =>
      match child with
      | None => Undef
      | Some c => let* n := load c h in index_loop index (next n) h
      end
  end.

(** [operator\[\](size_t)] *)
Definition element (j : Json) (index : nat) (m : memory) : exec unit Json :=
  let* count := GetCount j m in
  if count <=? Z.of_nat index then Ret null
  else
    match m_cjson j with
    | None => Undef
    | Some l =>
        let* n := load l (nodes m) in
        exec_map (λ p, mkJson p None) (index_loop index (child n) (nodes m))
    end.

(** [for(i = 0; i < count; ++i) arr.push_back(this->at(i).GetString());] *)
Fixpoint string_loop (indices : list nat) (j : Json) (m : memory) : exec unit (list text) :=
  match indices with
  | [] => Ret []
  | i :: indices =>
      let* e := element j i m in
      let* s := GetString [] e m in
      exec_map (cons s) (string_loop indices j m)
  end.

Definition GetStringArray (j : Json) (m : memory) : exec unit (list text) :=
  let* a := IsArray j m in
  if negb a then Ret []
  else let* count := GetCount j m in string_loop (seq 0 (Z.to_nat count)) j m.

(** ** Adding *)

(** [CHECK_IS_CONTAINER], and a new node that is added: [Add] of a string, a number, a boolean. *)
Definition add_new (make : heap → nat * heap) (name : text) (j : Json) (m : memory) :
    exec unit (Json * memory) :=
  match m_cjson j with
  | None => Ret (null, m)
  | Some l =>
      let* n := load l (nodes m) in
      if negb (type n =? cJsonDap_Array) && negb (type n =? cJsonDap_Object) then
        Ret (mkJson (Some l) None, m)
      else
        let '(item, h) := make (store m) in
        let* h := (if type n =? cJsonDap_Object then cJSON_AddItemToObject l name (Some item) h
                   else cJSON_AddItemToArray l (Some item) h) in
        Ret (mkJson (Some l) None, m <| store := h |>)
  end.

Definition Add_string (name value : text) : Json → memory → exec unit (Json * memory) :=
  add_new (cJSON_CreateString value) name.
Definition Add_double `{Platform} (name : text) (value : double) :
    Json → memory → exec unit (Json * memory) :=
  add_new (cJSON_CreateNumber value) name.
Definition Add_bool (name : text) (value : bool) : Json → memory → exec unit (Json * memory) :=
  add_new (cJSON_CreateBool value) name.

(** The new node is freed when it cannot be added. *)
Definition AddItem (make : heap → nat * heap) (name : text) (j : Json) (m : memory) :
    exec unit (Json * memory) :=
  let '(item, h) := make (store m) in
  let m := m <| store := h |> in
  let drop_item := let* m := on_store (cJSON_Delete (Some item)) m in Ret (null, m) in
  match m_cjson j with
  | None => drop_item
  | Some l =>
      let* n := load l (nodes m) in
      if negb (type n =? cJsonDap_Array) && negb (type n =? cJsonDap_Object) then drop_item
      else
        let* m := on_store (if type n =? cJsonDap_Array then cJSON_AddItemToArray l (Some item)
                            else cJSON_AddItemToObject l name (Some item)) m in
        Ret (mkJson (Some item) None, m)
  end.

Definition AddArray (name : text) : Json → memory → exec unit (Json * memory) :=
  AddItem cJSON_CreateArray name.
Definition AddObject (name : text) : Json → memory → exec unit (Json * memory) :=
  AddItem cJSON_CreateObject name.

(** [Add(name, const std::vector<wxString>&)] *)
Fixpoint add_all (l : list text) (a : Json) (m : memory) : exec unit memory :=
  match l with
  | [] => Ret m
  | s :: l => let* (_, m) := Add_string [] s a m in add_all l a m
  end.

Definition Add_strings (name : text) (value : list text) (j : Json) (m : memory) :
    exec unit (Json * memory) :=
  let* (a, m) := AddArray name j m in
  let* m := add_all value a m in Ret (a, m).

(** [AddObject(name, obj)]: [obj] as it is left. *)
Definition AddObject_json (name : text) (j obj : Json) (m : memory) : exec unit (Json * memory) :=
  match m_cjson j with
  | None => Ret (obj, m)
  | Some l =>
      let* m := on_store (cJSON_AddItemToObject l name (m_cjson obj)) m in
      if IsManaged obj then UnManage obj m else Ret (obj, m)
  end.

(** [Add(name, value)] of a handle: [value] as it is left. *)
Definition Add_json (name : text) (j value : Json) (m : memory) : exec unit (Json * memory) :=
  match m_cjson j with
  | None => Ret (value, m)
  | Some l =>
      let* n := load l (nodes m) in
      if negb (type n =? cJsonDap_Array) && negb (type n =? cJsonDap_Object) then Ret (value, m)
      else if type n =? cJsonDap_Object then AddObject_json name j value m
      else
        let item := m_cjson value in
        let* (value, m) := (if IsManaged value then UnManage value m else Ret (value, m)) in
        let* m := on_store (cJSON_AddItemToArray l item) m in
        Ret (value, m)
  end.

(** ** Programs *)

Record program := mkProgram { vars : gmap nat Json; mem : memory }.

Definition program_start : program := mkProgram ∅ memory_start.

(** A value of a member that is new. *)
Inductive new_value :=
| new_string (s : text)
| new_double (d : double)
| new_bool (b : bool)
| new_strings (l : list text).

Inductive operation :=
| op_default (x : nat)                             (** [Json x;] *)
| op_CreateArray (x : nat)                         (** [Json x = Json::CreateArray();] *)
| op_CreateObject (x : nat)                        (** [Json x = Json::CreateObject();] *)
| op_Parse (x : nat) (source : text)               (** [Json x = Json::Parse(source);] *)
| op_copy (x y : nat)                              (** [Json x = y;] *)
| op_assign (x y : nat)                            (** [x = y;] *)
| op_destroy (x : nat)                             (** the end of the scope of [x] *)
| op_member (x y : nat) (name : text)              (** [Json x = y\[name\];] *)
| op_element (x y i : nat)                         (** [Json x = y\[i\];] *)
| op_Add (x y : nat) (name : text) (v : new_value) (** [Json x = y.Add(name, v);] *)
| op_AddArray (x y : nat) (name : text)            (** [Json x = y.AddArray(name);] *)
| op_AddObject (x y : nat) (name : text)           (** [Json x = y.AddObject(name);] *)
| op_AddObject_json (y z : nat) (name : text)      (** [y.AddObject(name, z);] *)
| op_Add_json (y z : nat) (name : text).           (** [y.Add(name, z);] *)

Definition Add `{Platform} (name : text) (v : new_value) : Json → memory → exec unit (Json * memory) :=
  match v with
  | new_string s => Add_string name s
  | new_double d => Add_double name d
  | new_bool b => Add_bool name b
  | new_strings l => Add_strings name l
  end.

(** A variable is declared with a handle, given another one, or ends. *)
Definition with_var (x : nat) (p : program) (k : Json → memory → exec unit program) :
    exec unit program :=
  match vars p !! x with Some j => k j (mem p) | None => Undef end.

Definition declare (x : nat) (p : program) (j : Json) (m : memory) : program :=
  mkProgram (<[x := j]> (vars p)) m.

(** [Json x = y.f(...);] *)
Definition declare_from (x y : nat) (f : Json → memory → exec unit (Json * memory)) (p : program) :
    exec unit program :=
  with_var y p (λ j m, let* (j, m) := f j m in Ret (declare x p j m)).

(** [y.f(z);], which changes [z] *)
Definition give_to (y z : nat) (f : Json → Json → memory → exec unit (Json * memory))
    (p : program) : exec unit program :=
  with_var y p (λ j _, with_var z p (λ v m, let* (v, m) := f j v m in Ret (declare z p v m))).

Definition run `{Platform} (op : operation) (p : program) : exec unit program :=
  match op with
  | op_default x => Ret (declare x p null (mem p))
  | op_CreateArray x => let '(j, m) := CreateArray (mem p) in Ret (declare x p j m)
  | op_CreateObject x => let '(j, m) := CreateObject (mem p) in Ret (declare x p j m)
  | op_Parse x source => let* (j, m) := Parse source (mem p) in Ret (declare x p j m)
  | op_copy x y => declare_from x y copy_of p
  | op_assign x y =>
      with_var x p (λ this _, with_var y p (λ other m,
        if decide (x = y) then Ret p
        else let* (j, m) := assign_from this other m in Ret (declare x p j m)))
  | op_destroy x =>
      with_var x p (λ j m, let* m := destroy j m in Ret (mkProgram (delete x (vars p)) m))
  | op_member x y name => declare_from x y (λ j m, let* j := member j name m in Ret (j, m)) p
  | op_element x y i => declare_from x y (λ j m, let* j := element j i m in Ret (j, m)) p
  | op_Add x y name v => declare_from x y (Add name v) p
  | op_AddArray x y name => declare_from x y (AddArray name) p
  | op_AddObject x y name => declare_from x y (AddObject name) p
  | op_AddObject_json y z name => give_to y z (AddObject_json name) p
  | op_Add_json y z name => give_to y z (Add_json name) p
  end.
