(* ===== verification/JsonRefines.v ===== *)
(** * The handles in memory do what [Json] says of the values.

    A handle stands for the value of the node it points to.  Every operation of the class that
    reads or adds is a simulation: on a handle that stands for a value it is defined, gives what
    the operation of [Json] gives, and leaves a handle that stands for its result; whatever else is
    in the memory stays as it is. *)
From S2P Require Import Prelude.
From S2P Require Import Double.
From S2P Require Import CJson.
From S2P Require Import CJsonTree.
From S2P Require Json.
From S2P Require Import CJsonHeap.
From S2P Require Import CJsonHeapSpec.
From S2P Require Import CJsonHeapOwns.
From S2P Require Import CJsonFocus.
From S2P Require Import JsonMemory.
Local Open Scope Z_scope.

(** ** New nodes *)

(** [make] allocates a node of its own, with the value [t]. *)
Definition makes (make : heap → nat * heap) (t : cJsonDap) : Prop := ∀ Fs R h, owns Fs R h →
  ∃ i di ci h', make h = (i, h') ∧ owns (whole (one i di ci) :: Fs) R h' ∧ item di (vals ci) = t.

Lemma create_grown f h : bounded h → ∃ h', create f h = (unused h, h') ∧
  contents h' !! unused h = Some (node_block (f zero_cell)) ∧ grown [unused h] h h'.
Proof.
  intros Hb. eexists. split; [reflexivity|]. split; [apply lookup_insert_eq|].
  apply grown_write; [by apply (malloc_grown (node_block zero_cell))|by left].
Qed.

Lemma makes_create f d : f zero_cell = cell_of d None None None →
  l_value d = None → l_name d = None → Z.land (l_type d) cJsonDap_IsReference = 0 →
  makes (create f) (item d []).
Proof.
  intros Hf Hv Hn Hr Fs R h Ho. destruct (create_grown f h (owns_bounded _ _ _ Ho)) as (h' & E & Hi & Hg).
  exists (unused h), d, leaf, h'. split; [done|]. split; [|done].
  assert (strings_of d = []) as Hs by by unfold strings_of; rewrite Hv, Hn.
  apply (owns_grown None _ None Fs R h); [done| |cbn [locs]; by rewrite Hs].
  cbn [seg]. rewrite Hi, Hf, Hs. repeat split; try done. by apply Forall_nil.
Qed.

Lemma makes_CreateArray : makes cJSON_CreateArray CJsonTree.cJSON_CreateArray.
Proof. by apply (makes_create _ (mkLabel cJsonDap_Array None 0 dzero None)). Qed.

Lemma makes_CreateObject : makes cJSON_CreateObject CJsonTree.cJSON_CreateObject.
Proof. by apply (makes_create _ (mkLabel cJsonDap_Object None 0 dzero None)). Qed.

Lemma makes_CreateBool b : makes (cJSON_CreateBool b) (CJsonTree.cJSON_CreateBool b).
Proof.
  apply (makes_create _ (mkLabel (if b then cJsonDap_True else cJsonDap_False) None 0 dzero None));
    by destruct b.
Qed.

Lemma makes_CreateNumber `{Platform} n : makes (cJSON_CreateNumber n) (CJsonTree.cJSON_CreateNumber n).
Proof. by apply (makes_create _ (mkLabel cJsonDap_Number None (to_int n) n None)). Qed.

Lemma makes_CreateString s : makes (cJSON_CreateString s) (CJsonTree.cJSON_CreateString s).
Proof.
  intros Fs R h Ho. pose proof (owns_bounded _ _ _ Ho) as Hb.
  destruct (create_grown (λ n, n <| type := cJsonDap_String |>) h Hb) as (h1 & E1 & Hi & G1).
  pose proof (malloc_grown (text_block (c_str s)) h1 (grown_bounded _ _ _ G1)) as G2.
  set (a := unused h1) in *. set (h2 := (malloc (text_block (c_str s)) h1).2) in *.
  pose proof (grown_trans _ _ _ _ _ G1 G2) as G. cbn [app] in G.
  set (d := mkLabel cJsonDap_String (Some (a, c_str s)) 0 dzero None).
  assert (Hi2 : contents h2 !! unused h = contents h1 !! unused h).
  { apply (grown_keep _ _ _ _ G2). by apply (grown_new _ _ _ G1); left. }
  rewrite Hi in Hi2.
  exists (unused h), d, leaf. eexists. unfold cJSON_CreateString. rewrite E1.
  change (cJSON_strdup s h1) with (a, h2). split; [reflexivity|].
  set (b := <[unused h := node_block (cell_of d None None None)]> (contents h2)).
  assert (alter (λ b, match b with
     | node_block n => node_block (n <| valuestring := Some a |>)
     | text_block t => b
     end) (unused h) (contents h2) = b) as ->.
  { apply map_eq. intros x. unfold b. destruct (decide (unused h = x)) as [<-|].
    - by rewrite lookup_alter_eq, Hi2, lookup_insert_eq.
    - by rewrite lookup_alter_ne, lookup_insert_ne. }
  split; [|done]. apply (owns_grown None _ None Fs R h); [done| |].
  - assert (a ≠ unused h) as Ha.
    { pose proof (grown_new _ _ _ G1 (unused h)). unfold a. rewrite list_elem_of_singleton in *. lia. }
    cbn. unfold b. rewrite lookup_insert_eq. repeat split; try done. apply Forall_singleton. cbn.
    rewrite lookup_insert_ne by done. apply lookup_insert_eq.
  - apply grown_write; [exact G|by left].
Qed.

(** ** What a handle stands for *)

(** The node of the handle, between [pv] and [nx], is the tree [t]; a null handle is no tree. *)
Definition stands (pv nx : ptr) (Fs : list part) (R : blocks) (j : Json) (t : Json.Json)
    (m : memory) : Prop :=
  match m_cjson j, t with
  | Some l, Some v =>
      ∃ d c, owns (mkPart pv (one l d c) nx :: Fs) R (store m) ∧ item d (vals c) = v
  | None, None => owns Fs R (store m)
  | _, _ => False
  end.

Lemma stands_cases pv nx Fs R j t m : stands pv nx Fs R j t m →
  (m_cjson j = None ∧ t = None ∧ owns Fs R (store m)) ∨
  ∃ l d c, m_cjson j = Some l ∧ t = Some (item d (vals c)) ∧
    owns (mkPart pv (one l d c) nx :: Fs) R (store m) ∧
    load l (nodes m) = Ret (cell_of d pv nx (head c None)) ∧
    seg None c None (nodes m) ∧ (length (locs c) < steps (nodes m))%nat ∧
    holds_texts (strings_of d) (nodes m).
Proof.
  unfold stands. destruct (m_cjson j) as [l|], t as [v|]; try done; [|by left].
  intros (d & c & Ho & <-). right. exists l, d, c.
  destruct (load_parent _ _ _ _ _ _ _ _ Ho) as (Hl & Hc & Hs).
  destruct (owns_whole_1 _ _ _ _ Ho) as ((_ & _ & Ht & _) & _). done.
Qed.

(** The two strings of a node are read. *)
Lemma text_at_spec s d m : holds_texts (strings_of d) (nodes m) → s = l_value d ∨ s = l_name d →
  text_at (fst <$> s) m = Ret (default [] (snd <$> s)).
Proof.
  unfold holds_texts, strings_of. rewrite list.Forall_forall. intros Ht Hs.
  destruct s as [[a t]|]; [|done]. cbn. unfold load_text.
  assert (nodes m !! a = Some (text_block t)) as ->; [|done].
  apply (Ht (a, t)). rewrite elem_of_app. destruct Hs as [<-|<-]; [left|right]; by left.
Qed.

Lemma member_loop_spec f prv fuel index h : seg prv f None h → (length (locs f) < fuel)%nat →
  (member_loop fuel (head f None) index h = Ret None ∧ Json.first_named (vals f) index = None) ∨
  ∃ f1 q dq cq f2, f = append f1 (node q dq cq f2) ∧
    member_loop fuel (head f None) index h = Ret (Some q) ∧
    Json.first_named (vals f) index = Some (item dq (vals cq)).
Proof.
  revert prv fuel. induction f as [|l d c _ s IHs]; intros prv [|fuel] Hf Hfuel;
    try (simpl in Hfuel; lia); [by left|]. destruct Hf as (Hl & _ & Ht & _ & Hs).
  simpl in Hfuel. rewrite !length_app in Hfuel.
  cbn [member_loop head vals Json.first_named]. unfold load. rewrite Hl. cbn [exec_bind].
  rewrite name_of_spec by done. cbn [exec_bind item item_string next cell_of].
  assert (Hrest : (member_loop fuel (head s None) index h = Ret None ∧
      Json.first_named (vals s) index = None) ∨
    ∃ f1 q dq cq f2, node l d c s = append f1 (node q dq cq f2) ∧
      member_loop fuel (head s None) index h = Ret (Some q) ∧
      Json.first_named (vals s) index = Some (item dq (vals cq))).
  { destruct (IHs (Some l) fuel Hs ltac:(lia)) as [?|(f1 & q & dq & cq & f2 & -> & ? & ?)]; [by left|].
    right. by exists (node l d c f1), q, dq, cq, f2. }
  destruct (snd <$> l_name d) as [t|]; [|exact Hrest].
  destruct (t =t index); [|exact Hrest]. right. by exists leaf, l, d, c, s.
Qed.

Lemma index_loop_spec f prv i h : seg prv f None h → (i ≤ length (addrs f))%nat →
  index_loop i (head f None) h = Ret (addrs f !! i).
Proof.
  revert prv i. induction f as [|l d c _ s IHs]; intros prv [|i] Hf Hi; try done;
    [simpl in Hi; lia|]. destruct Hf as (Hl & _ & _ & _ & Hs).
  cbn [index_loop head addrs length] in *. unfold load. rewrite Hl. cbn [exec_bind next cell_of].
  rewrite (IHs (Some l)); [done|done|lia].
Qed.

(** A part of the heap may be counted to the rest. *)
Lemma owns_drop P Fs R h : owns (P :: Fs) R h → ∃ R', owns Fs R' h.
Proof.
  intros [Hs Hn _ Hb]. apply list.Forall_cons in Hs as [_ Hs]. rewrite plocs_cons in Hn.
  apply list.NoDup_app in Hn as (_ & _ & Hn). eexists. by split.
Qed.

(** A child of the node of a handle. *)
Lemma stands_child pv nx Fs R m l d f1 q dq cq f2 :
  owns (mkPart pv (one l d (append f1 (node q dq cq f2))) nx :: Fs) R (store m) →
  ∃ pv' nx' R', stands pv' nx' Fs R' (mkJson (Some q) None) (Some (item dq (vals cq))) m.
Proof.
  intros Ho. destruct (owns_open _ _ _ _ _ _ _ _ _ _ _ _ Ho) as (R1 & Ho1 & _).
  exists (last_of f1 None), (head f2 None), R1, dq, cq. done.
Qed.

(** ** Reading *)

Lemma GetString_refines_at pv nx Fs R j t m : stands pv nx Fs R j t m →
  ∀ dv, GetString dv j m = Ret (Json.GetString dv t).
Proof.
  intros Hj dv. unfold GetString, Json.GetString.
  destruct (stands_cases _ _ _ _ _ _ _ Hj)
    as [(Ej & -> & Ho)|(l & d & c & Ej & -> & Ho & Hl & Hc & Hs & Ht)]; rewrite Ej; [done|].
  rewrite Hl. cbn [exec_bind type valuestring cell_of item CJson.type CJson.valuestring].
  destruct (l_type d =? cJsonDap_String); [|done]. apply (text_at_spec _ d); [done|by left].
Qed.

Section Reading.
Context (pv nx : ptr) (Fs : list part) (R : blocks) (j : Json) (t : Json.Json) (m : memory).
Hypothesis Hj : stands pv nx Fs R j t m.

Ltac handle :=
  destruct (stands_cases _ _ _ _ _ _ _ Hj)
    as [(Ej & -> & Ho)|(l & d & c & Ej & -> & Ho & Hl & Hc & Hs & Ht)].

Lemma IsOK_refines : IsOK j = Json.IsOK t.
Proof. unfold IsOK. handle; by rewrite Ej. Qed.

Lemma IsArray_refines : IsArray j m = Ret (Json.IsArray t).
Proof. unfold IsArray, has_type. handle; rewrite Ej; [done|]. by rewrite Hl. Qed.

Lemma IsObject_refines : IsObject j m = Ret (Json.IsObject t).
Proof. unfold IsObject, has_type. handle; rewrite Ej; [done|]. by rewrite Hl. Qed.

Lemma GetName_refines : GetName j m = Ret (Json.GetName t).
Proof.
  unfold GetName. handle; rewrite Ej; [done|]. rewrite Hl. cbn [exec_bind string cell_of].
  apply (text_at_spec _ d); [done|by right].
Qed.

Lemma GetNumber_refines dv : GetNumber dv j m = Ret (Json.GetNumber dv t).
Proof.
  unfold GetNumber, Json.GetNumber. handle; rewrite Ej; [done|]. rewrite Hl.
  cbn [exec_bind type valuedouble cell_of item CJson.type CJson.valuedouble].
  by destruct (l_type d =? cJsonDap_Number).
Qed.

Lemma GetInteger_refines dv : GetInteger dv j m = Ret (Json.GetInteger dv t).
Proof.
  unfold GetInteger, Json.GetInteger. handle; rewrite Ej; [done|]. rewrite Hl.
  cbn [exec_bind type valueint cell_of item CJson.type CJson.valueint].
  by destruct (l_type d =? cJsonDap_Number).
Qed.

Lemma GetBool_refines dv : GetBool dv j m = Ret (Json.GetBool dv t).
Proof. unfold GetBool, Json.GetBool. handle; rewrite Ej; [done|]. by rewrite Hl. Qed.

Lemma GetCount_refines : GetCount j m = Ret (Z.of_nat (Json.GetCount t)).
Proof.
  unfold GetCount, Json.GetCount. handle; rewrite Ej; [done|]. rewrite Hl.
  cbn [exec_bind child cell_of item CJson.child]. by apply (count_loop_spec c None).
Qed.

(** A member and an element are handles to the children of the value. *)
Lemma member_refines index : ∃ j', member j index m = Ret j' ∧ m_refCount j' = None ∧
  ∃ pv' nx' R', stands pv' nx' Fs R' j' (Json.member t index) m.
Proof.
  unfold member, Json.member. handle; rewrite Ej; [by exists null; repeat split; exists pv, nx, R|].
  rewrite Hl. cbn [exec_bind child cell_of item CJson.child].
  destruct (member_loop_spec c None _ index _ Hc Hs) as [[-> ->]|(f1 & q & dq & cq & f2 & -> & -> & ->)].
  - exists null. split; [done|]. split; [done|].
    destruct (owns_drop _ _ _ _ Ho) as [R' Ho']. by exists pv, nx, R'.
  - exists (mkJson (Some q) None). split; [done|]. split; [done|]. by eapply stands_child.
Qed.

Lemma element_refines i : ∃ j', element j i m = Ret j' ∧ m_refCount j' = None ∧
  ∃ pv' nx' R', stands pv' nx' Fs R' j' (Json.element t i) m.
Proof.
  unfold element, Json.element. rewrite GetCount_refines. cbn [exec_bind].
  destruct (Z.leb_spec (Z.of_nat (Json.GetCount t)) (Z.of_nat i)) as [Hi|Hi];
    destruct (Nat.leb_spec (Json.GetCount t) i); try lia.
  - exists null. split; [done|]. split; [done|].
    destruct (stands_cases _ _ _ _ _ _ _ Hj) as [(_ & _ & Ho)|(l & d & c & _ & _ & Ho & _)].
    + by exists pv, nx, R.
    + destruct (owns_drop _ _ _ _ Ho) as [R' Ho']. exists pv, nx, R'. exact Ho'.
  - handle; rewrite Ej; [simpl in *; lia|]. rewrite Hl. cbn [exec_bind child cell_of item CJson.child].
    cbn [Json.GetCount item CJson.child] in Hi. rewrite <- addrs_vals in Hi.
    destruct (lookup_lt_is_Some_2 (addrs c) i) as [q Hq]; [lia|].
    destruct (split_at _ _ _ Hq) as (f1 & dq & cq & f2 & -> & Hlen & ->).
    exists (mkJson (Some q) None). split; [|split; [done|by eapply stands_child]].
    rewrite (index_loop_spec _ None _ _ Hc), Hq; [done|]. apply Nat.lt_le_incl.
    by eapply lookup_lt_Some.
Qed.

Lemma string_loop_refines indices :
  string_loop indices j m = Ret (map (λ i, Json.GetString [] (Json.element t i)) indices).
Proof.
  induction indices as [|i indices IH]; [done|]. cbn [string_loop map].
  destruct (element_refines i) as (j' & -> & _ & pv' & nx' & R' & Hj'). cbn [exec_bind].
  rewrite (GetString_refines_at _ _ _ _ _ _ _ Hj' []). cbn [exec_bind]. by rewrite IH.
Qed.

Lemma GetStringArray_refines : GetStringArray j m = Ret (Json.GetStringArray t).
Proof.
  unfold GetStringArray, Json.GetStringArray. rewrite IsArray_refines. cbn [exec_bind].
  destruct (Json.IsArray t); [|done]. cbn [negb]. rewrite GetCount_refines. cbn [exec_bind].
  by rewrite Nat2Z.id, string_loop_refines.
Qed.
End Reading.

(** C33: a handle in memory reads as the value it stands for: each accessor of [Json] is defined and
    gives what it gives on the value, and an index gives a handle that stands for the child. *)
Theorem Json_reads pv nx Fs R j t m : stands pv nx Fs R j t m →
  IsOK j = Json.IsOK t ∧ IsArray j m = Ret (Json.IsArray t) ∧ IsObject j m = Ret (Json.IsObject t) ∧
  GetName j m = Ret (Json.GetName t) ∧ GetCount j m = Ret (Z.of_nat (Json.GetCount t)) ∧
  GetStringArray j m = Ret (Json.GetStringArray t) ∧
  (∀ dv, GetString dv j m = Ret (Json.GetString dv t)) ∧
  (∀ dv, GetNumber dv j m = Ret (Json.GetNumber dv t)) ∧
  (∀ dv, GetInteger dv j m = Ret (Json.GetInteger dv t)) ∧
  (∀ dv, GetBool dv j m = Ret (Json.GetBool dv t)) ∧
  (∀ name, ∃ j', member j name m = Ret j' ∧ m_refCount j' = None ∧
     ∃ pv' nx' R', stands pv' nx' Fs R' j' (Json.member t name) m) ∧
  (∀ i, ∃ j', element j i m = Ret j' ∧ m_refCount j' = None ∧
     ∃ pv' nx' R', stands pv' nx' Fs R' j' (Json.element t i) m).
Proof.
  intros Hj. repeat split; try intros dv; eauto using IsOK_refines, IsArray_refines, IsObject_refines,
    GetName_refines, GetCount_refines, GetStringArray_refines, GetString_refines_at, GetNumber_refines,
    GetInteger_refines, GetBool_refines, member_refines, element_refines.
Qed.

(** ** Adding *)

(** The counters are those of before. *)
Definition same_counters (m m' : memory) : Prop :=
  counters m' = counters m ∧ new_counter m' = new_counter m.

(** [f] does to the node of a handle what [g] does to its value. *)
Definition simulates (f : Json → memory → exec unit (Json * memory)) (g : Json.Json → Json.Json) :
    Prop := ∀ pv nx Fs R j t m, stands pv nx Fs R j t m →
  ∃ j' m', f j m = Ret (j', m') ∧ m_refCount j' = None ∧ same_counters m m' ∧
    stands pv nx Fs R j (g t) m'.

(** A node to which another one of the heap is added. *)
Lemma add_part pv nx l d c i di ci Fs R h name :
  owns (mkPart pv (one l d c) nx :: whole (one i di ci) :: Fs) R h →
  ∃ u h', (if l_type d =? cJsonDap_Object then cJSON_AddItemToObject l name (Some i) h
           else cJSON_AddItemToArray l (Some i) h) = Ret h' ∧
    owns (mkPart pv (one l d (append c (one i u ci))) nx :: Fs) R h' ∧
    item u (vals ci) = if l_type d =? cJsonDap_Object
      then set_string (Some (CJsonTree.cJSON_strdup name)) (item di (vals ci)) else item di (vals ci).
Proof.
  intros Ho. destruct (l_type d =? cJsonDap_Object).
  - destruct (owns_AddItemToObject _ _ _ _ _ _ _ _ name _ _ _ Ho) as (s & h' & E & Ho').
    by eexists _, h'.
  - destruct (owns_AddItemToArray _ _ _ _ _ _ _ _ _ _ _ Ho) as (h' & E & Ho'). by exists di, h'.
Qed.

Lemma add_new_refines make v name : makes make v →
  simulates (add_new make name) (Json.add_to_container name (Some v)).
Proof.
  intros Hmake pv nx Fs R j t m Hj. unfold add_new, Json.add_to_container.
  destruct (stands_cases _ _ _ _ _ _ _ Hj) as [(Ej & -> & Ho)|(l & d & c & Ej & -> & Ho & Hl & _)];
    rewrite Ej; [by exists null, m|]. rewrite Hl. cbn [exec_bind type cell_of].
  unfold Json.IsArray, Json.IsObject. cbn [CJson.type item].
  destruct (negb (l_type d =? cJsonDap_Array) && negb (l_type d =? cJsonDap_Object)).
  { eexists _, m. split; [reflexivity|]. do 2 (split; [done|]). unfold stands. rewrite Ej. by exists d, c. }
  destruct (Hmake _ _ _ Ho) as (i & di & ci & h1 & -> & Ho1 & <-). rewrite Permutation_swap in Ho1.
  destruct (add_part _ _ _ _ _ _ _ _ _ _ _ name Ho1) as (u & h2 & -> & Ho2 & Hu).
  cbn [exec_bind]. eexists _, _. split; [reflexivity|]. do 2 (split; [done|]).
  unfold stands. rewrite Ej. destruct (l_type d =? cJsonDap_Object).
  all: eexists d, _; split; [exact Ho2|]; rewrite vals_append; cbn [vals]; rewrite Hu; done.
Qed.

Lemma Add_string_refines name s : simulates (Add_string name s) (Json.Add_string name s).
Proof. apply add_new_refines, makes_CreateString. Qed.

Lemma Add_double_refines `{Platform} name n : simulates (Add_double name n) (Json.Add_double name n).
Proof. apply add_new_refines, makes_CreateNumber. Qed.

Lemma Add_bool_refines name b : simulates (Add_bool name b) (Json.Add_bool name b).
Proof. apply add_new_refines, makes_CreateBool. Qed.

(** The new node of [AddItem]: a handle to the last child, or none when nothing can be added. *)
Definition named (name : text) (t v : cJsonDap) : cJsonDap :=
  if CJson.type t =? cJsonDap_Object then set_string (Some (CJsonTree.cJSON_strdup name)) v else v.

Lemma AddItem_refines make v name pv nx Fs R j t m : makes make v → stands pv nx Fs R j t m →
  (∃ m', AddItem make name j m = Ret (null, m') ∧ same_counters m m' ∧ stands pv nx Fs R j t m' ∧
     ∀ k, Json.AddItem_then name v k t = t) ∨
  ∃ i m' pv' R' tj, t = Some tj ∧ AddItem make name j m = Ret (mkJson (Some i) None, m') ∧
    same_counters m m' ∧
    stands pv' None Fs R' (mkJson (Some i) None) (Some (named name tj v)) m' ∧
    (∀ m2 w, stands pv' None Fs R' (mkJson (Some i) None) (Some w) m2 →
       stands pv nx Fs R j (Some (set_child (CJson.child tj ++ [w]) tj)) m2) ∧
    ∀ k w, k (Some v) = Some w → Json.AddItem_then name v k t =
      Some (set_child (CJson.child tj ++ [named name tj w]) tj).
Proof.
  intros Hmake Hj. unfold AddItem, Json.AddItem_then, named.
  destruct (stands_cases _ _ _ _ _ _ _ Hj) as [(Ej & -> & Ho)|(l & d & c & Ej & -> & Ho & _)].
  - left. destruct (Hmake _ _ _ Ho) as (i & di & ci & h1 & -> & Ho1 & <-). rewrite Ej.
    destruct (owns_Delete None _ _ _ _ Ho1) as (h2 & E & Ho2 & _). cbn [head] in E.
    unfold on_store. cbn [store assign]. cbn. rewrite E. cbn [exec_bind].
    eexists. split; [reflexivity|]. split; [done|]. split; [|done]. unfold stands. by rewrite Ej.
  - destruct (Hmake _ _ _ Ho) as (i & di & ci & h1 & -> & Ho1 & <-). rewrite Ej.
    destruct (load_parent _ _ _ _ _ _ _ _ (proj1 (owns_Permutation _ _ (Permutation_swap _ _ _) _ _
      eq_refl _ _ eq_refl) Ho1)) as (Hl & _).
    unfold nodes. cbn [store]. cbn. rewrite Hl. cbn [exec_bind type cell_of].
    destruct (negb (l_type d =? cJsonDap_Array) && negb (l_type d =? cJsonDap_Object)) eqn:Hty.
    + left. destruct (owns_Delete None _ _ _ _ Ho1) as (h2 & E & Ho2 & _). cbn [head] in E.
      unfold on_store. cbn. rewrite E. cbn [exec_bind]. eexists. split; [reflexivity|]. split; [done|].
      split; [|done]. unfold stands. rewrite Ej. by exists d, c.
    + right. rewrite Permutation_swap in Ho1.
      destruct (add_part _ _ _ _ _ _ _ _ _ _ _ name Ho1) as (u & h2 & E & Ho2 & Hu).
      destruct (owns_open _ _ _ _ _ _ _ _ _ _ _ _ Ho2) as (R1 & Ho3 & Ha & <-).
      assert (Harr : (l_type d =? cJsonDap_Array) = negb (l_type d =? cJsonDap_Object)).
      { unfold cJsonDap_Array, cJsonDap_Object in *. lia. }
      rewrite Harr. eexists i, _, (last_of c None), R1, _. split; [reflexivity|]. split; [|split; [|split; [|split]]].
      * unfold on_store. cbn. destruct (l_type d =? cJsonDap_Object); cbn [negb]; rewrite E; done.
      * done.
      * exists u, ci. split; [exact Ho3|exact Hu].
      * intros m2 w (d3 & c3 & Ho4 & <-). unfold stands. rewrite Ej.
        exists d, (append c (one i d3 c3)). split; [by apply owns_close|]. by rewrite vals_append.
      * intros k w Hk. cbn [CJson.type item]. rewrite Hk.
        by destruct (l_type d =? cJsonDap_Object).
Qed.

(** What the name of a node does not change, and what it does not turn into no node. *)
Definition ignores_name (g : Json.Json → Json.Json) : Prop := ∀ t, ∃ w,
  g (Some t) = Some w ∧ ∀ s, g (Some (set_string s t)) = Some (set_string s w).

Lemma ignores_add_to_container name v : ignores_name (Json.add_to_container name (Some v)).
Proof.
  intros t. unfold Json.add_to_container, Json.IsArray, Json.IsObject. destruct t as [ty vs vi vd n l].
  cbn [CJson.type set_string].
  destruct (negb (ty =? cJsonDap_Array) && negb (ty =? cJsonDap_Object)); [by eexists|].
  by destruct (ty =? cJsonDap_Object); eexists.
Qed.

Lemma ignores_compose g h : ignores_name g → ignores_name h → ignores_name (λ t, h (g t)).
Proof.
  intros Hg Hh t. destruct (Hg t) as (w & E & Es). destruct (Hh w) as (u & E' & Es').
  exists u. rewrite E, E'. split; [done|]. intros s. by rewrite Es, Es'.
Qed.

(** A null handle changes nothing, and its value is none. *)
Lemma simulates_null f g Fs R m : simulates f g → owns Fs R (store m) →
  ∃ j' m', f null m = Ret (j', m') ∧ same_counters m m' ∧ g None = None ∧ owns Fs R (store m').
Proof.
  intros Hf Ho. destruct (Hf None None Fs R null None m Ho) as (j' & m' & E & _ & Hc & S).
  exists j', m'. split; [done|]. split; [done|]. unfold stands in S. cbn in S. by destruct (g None).
Qed.

Lemma same_counters_trans m1 m2 m3 : same_counters m1 m2 → same_counters m2 m3 → same_counters m1 m3.
Proof. intros [E1 E2] [E3 E4]. split; congruence. Qed.

(** What is added through the handle that [AddItem] returns becomes a part of the parent. *)
Lemma AddItem_then_refines make v name f g : makes make v → simulates f g → ignores_name g →
  simulates (λ j m, let* (a, m) := AddItem make name j m in let* (_, m) := f a m in Ret (a, m))
    (Json.AddItem_then name v g).
Proof.
  intros Hmake Hf Hg pv nx Fs R j t m Hj.
  destruct (AddItem_refines make v name pv nx Fs R j t m Hmake Hj)
    as [(m1 & E & Hc & Hj1 & Hk)|(i & m1 & pv' & R' & tj & -> & E & Hc & Hi & Hback & Hk)];
    rewrite E; cbn [exec_bind].
  - rewrite Hk. unfold stands in Hj1 |- *. destruct (m_cjson j) as [l|], t as [v'|]; try done.
    + destruct Hj1 as (d & c & Ho & <-).
      destruct (simulates_null f g _ _ m1 Hf Ho) as (j' & m2 & -> & Hc' & _ & Ho').
      exists null, m2. split; [done|]. split; [done|]. split; [by eapply same_counters_trans|].
      by exists d, c.
    + destruct (simulates_null f g _ _ m1 Hf Hj1) as (j' & m2 & -> & Hc' & _ & Ho').
      exists null, m2. do 2 (split; [done|]). by split; [eapply same_counters_trans|].
  - destruct (Hg v) as (w & Ew & Es). destruct (Hf _ _ _ _ _ _ _ Hi) as (j' & m2 & -> & _ & Hc' & Hi').
    cbn [exec_bind]. eexists _, m2. split; [reflexivity|]. split; [done|].
    split; [by eapply same_counters_trans|]. rewrite (Hk g w Ew). apply Hback.
    assert (g (Some (named name tj v)) = Some (named name tj w)) as <-; [|exact Hi'].
    unfold named. by destruct (CJson.type tj =? cJsonDap_Object).
Qed.

Lemma AddArray_then_refines name f g : simulates f g → ignores_name g →
  simulates (λ j m, let* (a, m) := AddArray name j m in let* (_, m) := f a m in Ret (a, m))
    (Json.AddArray_then name g).
Proof. apply AddItem_then_refines, makes_CreateArray. Qed.

Lemma AddObject_then_refines name f g : simulates f g → ignores_name g →
  simulates (λ j m, let* (a, m) := AddObject name j m in let* (_, m) := f a m in Ret (a, m))
    (Json.AddObject_then name g).
Proof. apply AddItem_then_refines, makes_CreateObject. Qed.

(** One operation on a handle after another. *)
Lemma simulates_then f1 g1 f2 g2 : simulates f1 g1 → simulates f2 g2 →
  simulates (λ j m, let* (_, m) := f1 j m in f2 j m) (λ t, g2 (g1 t)).
Proof.
  intros H1 H2 pv nx Fs R j t m Hj. destruct (H1 _ _ _ _ _ _ _ Hj) as (j1 & m1 & E1 & _ & C1 & S1).
  destruct (H2 _ _ _ _ _ _ _ S1) as (j2 & m2 & E2 & N2 & C2 & S2). exists j2, m2.
  rewrite E1. cbn [exec_bind]. split; [done|]. split; [done|].
  split; [by eapply same_counters_trans|done].
Qed.

Lemma simulates_skip : simulates (λ j m, Ret (null, m)) id.
Proof. intros pv nx Fs R j t m Hj. by exists null, m. Qed.

Lemma add_all_refines l :
  simulates (λ a m, let* m := add_all l a m in Ret (null, m))
    (λ a, foldl (λ a s, Json.Add_string [] s a) a l) ∧
  ignores_name (λ a, foldl (λ a s, Json.Add_string [] s a) a l).
Proof.
  induction l as [|s l [IH IHn]]; cbn [add_all foldl].
  - split; [apply simulates_skip|]. intros t. by exists t.
  - split; [|apply (ignores_compose (Json.Add_string [] s)
      (λ a, foldl (λ a s, Json.Add_string [] s a) a l)); [apply ignores_add_to_container|done]].
    pose proof (simulates_then _ _ _ _ (Add_string_refines [] s) IH) as H.
    intros pv nx Fs R j t m Hj. destruct (H _ _ _ _ _ _ _ Hj) as (j' & m' & E & Hs).
    exists j', m'. split; [|exact Hs]. rewrite <- E. unfold exec_bind.
    destruct (Add_string [] s j m) as [[? ?]| | |]; done.
Qed.

Lemma Add_strings_refines name l : simulates (Add_strings name l) (Json.Add_strings name l).
Proof.
  destruct (add_all_refines l) as [Hf Hg].
  pose proof (AddArray_then_refines name _ _ Hf Hg) as H.
  intros pv nx Fs R j t m Hj. destruct (H _ _ _ _ _ _ _ Hj) as (j' & m' & E & Hs).
  exists j', m'. split; [|exact Hs]. rewrite <- E. unfold Add_strings, exec_bind.
  destruct (AddArray name j m) as [[a m1]| | |]; [|done..]. by destruct (add_all l a m1).
Qed.

(** ** A tree that is given away *)

(** The counter of a handle, when it has one, was not deleted. *)
Definition counted (j : Json) (m : memory) : Prop :=
  ∀ c, m_refCount j = Some c → is_Some (counters m !! c).

Lemma UnManage_store v m : counted v m → ∃ v' m',
  (if IsManaged v then UnManage v m else Ret (v, m)) = Ret (v', m') ∧ m_refCount v' = None ∧
  m_cjson v' = m_cjson v ∧ store m' = store m ∧
  counters m' = (if m_refCount v is Some c then delete c (counters m) else counters m) ∧
  new_counter m' = new_counter m.
Proof.
  unfold counted, IsManaged, UnManage. destruct (m_refCount v) as [c|] eqn:E; intros Hv.
  - destruct (Hv c eq_refl) as [n ->]. by eexists _, _.
  - by exists v, m.
Qed.

(** The tree of [obj] becomes a part of the one of [j]; [obj] keeps a pointer into it. *)
Lemma AddObject_json_refines name pv nx l d c i di ci Fs R rc obj m :
  owns (mkPart pv (one l d c) nx :: whole (one i di ci) :: Fs) R (store m) →
  m_cjson obj = Some i → counted obj m → ∃ obj' m',
  AddObject_json name (mkJson (Some l) rc) obj m = Ret (obj', m') ∧ m_cjson obj' = Some i ∧
  m_refCount obj' = None ∧
  counters m' = (if m_refCount obj is Some c then delete c (counters m) else counters m) ∧
  new_counter m' = new_counter m ∧
  stands pv nx Fs R (mkJson (Some l) rc)
    (Json.AddObject_json name (Some (item di (vals ci))) (Some (item d (vals c)))) m'.
Proof.
  intros Ho Hobj Hc. unfold AddObject_json, on_store. cbn [m_cjson]. rewrite Hobj.
  destruct (owns_AddItemToObject _ _ _ _ _ _ _ _ name _ _ _ Ho) as (s & h' & -> & Ho').
  cbn [exec_bind]. destruct (UnManage_store obj (m <| store := h' |>)) as (v' & m' & -> & Hn & Hj & Hs & Hcs & Hnc);
    [done|].
  exists v', m'. split; [done|]. split; [congruence|]. do 3 (split; [done|]).
  eexists d, _. rewrite Hs. split; [exact Ho'|]. by rewrite vals_append.
Qed.

Lemma Add_json_refines name pv nx l d c i di ci Fs R rc obj m :
  owns (mkPart pv (one l d c) nx :: whole (one i di ci) :: Fs) R (store m) →
  m_cjson obj = Some i → counted obj m →
  l_type d = cJsonDap_Array ∨ l_type d = cJsonDap_Object → ∃ obj' m',
  Add_json name (mkJson (Some l) rc) obj m = Ret (obj', m') ∧ m_cjson obj' = Some i ∧
  m_refCount obj' = None ∧
  counters m' = (if m_refCount obj is Some c then delete c (counters m) else counters m) ∧
  new_counter m' = new_counter m ∧
  stands pv nx Fs R (mkJson (Some l) rc)
    (Json.Add_json name (Some (item di (vals ci))) (Some (item d (vals c)))) m'.
Proof.
  intros Ho Hobj Hc Hty. destruct (load_parent _ _ _ _ _ _ _ _ Ho) as (Hl & _).
  unfold Add_json, Json.Add_json, Json.IsArray, Json.IsObject, nodes. cbn [m_cjson]. rewrite Hl.
  cbn [exec_bind type cell_of CJson.type item]. destruct Hty as [-> | ->]; cbn [negb andb Z.eqb Pos.eqb
    cJsonDap_Array cJsonDap_Object].
  - destruct (UnManage_store obj m Hc) as (v' & m' & -> & Hn & Hj & Hs & Hcs & Hnc). cbn [exec_bind].
    unfold on_store. rewrite Hs, Hobj.
    destruct (owns_AddItemToArray _ _ _ _ _ _ _ _ _ _ _ Ho) as (h' & -> & Ho'). cbn [exec_bind].
    eexists v', _. split; [reflexivity|]. split; [congruence|]. do 3 (split; [done|]).
    eexists d, _. split; [exact Ho'|]. by rewrite vals_append.
  - by apply AddObject_json_refines.
Qed.

(** ** Programs that build *)

(** What a program adds to a handle; to an array or an object that it adds, it adds again. *)
Inductive builder :=
| b_string (name s : text)
| b_double (name : text) (n : double)
| b_bool (name : text) (b : bool)
| b_strings (name : text) (l : list text)
| b_array (name : text) (bs : list builder)
| b_object (name : text) (bs : list builder).

Lemma builder_nested_ind (P : builder → Prop) :
  (∀ name s, P (b_string name s)) → (∀ name n, P (b_double name n)) →
  (∀ name b, P (b_bool name b)) → (∀ name l, P (b_strings name l)) →
  (∀ name bs, Forall P bs → P (b_array name bs)) →
  (∀ name bs, Forall P bs → P (b_object name bs)) → ∀ b, P b.
Proof.
  intros H1 H2 H3 H4 H5 H6. fix IH 1. intros [name s|name n|name b|name l|name bs|name bs];
    [apply H1|apply H2|apply H3|apply H4|apply H5|apply H6].
  all: induction bs as [|b bs IHbs]; constructor; [apply IH|apply IHbs].
Qed.

Section Builders.
Context `{Platform}.

(** In memory, through handles. *)
Fixpoint run_builder (b : builder) : Json → memory → exec unit (Json * memory) :=
  let run_all := fix run_all (bs : list builder) (j : Json) (m : memory) :=
    match bs with
    | [] => Ret (null, m)
    | b :: bs => let* (_, m) := run_builder b j m in run_all bs j m
    end in
  match b with
  | b_string name s => Add_string name s
  | b_double name n => Add_double name n
  | b_bool name b => Add_bool name b
  | b_strings name l => Add_strings name l
  | b_array name bs => λ j m,
      let* (a, m) := AddArray name j m in let* (_, m) := run_all bs a m in Ret (a, m)
  | b_object name bs => λ j m,
      let* (a, m) := AddObject name j m in let* (_, m) := run_all bs a m in Ret (a, m)
  end.

Fixpoint run_builders (bs : list builder) (j : Json) (m : memory) : exec unit (Json * memory) :=
  match bs with
  | [] => Ret (null, m)
  | b :: bs => let* (_, m) := run_builder b j m in run_builders bs j m
  end.

(** On the values. *)
Fixpoint built (b : builder) : Json.Json → Json.Json :=
  match b with
  | b_string name s => Json.Add_string name s
  | b_double name n => Json.Add_double name n
  | b_bool name b => Json.Add_bool name b
  | b_strings name l => Json.Add_strings name l
  | b_array name bs => Json.AddArray_then name (λ t, foldl (λ t b, built b t) t bs)
  | b_object name bs => Json.AddObject_then name (λ t, foldl (λ t b, built b t) t bs)
  end.

Lemma ignores_AddItem_then name v g : ignores_name g → ignores_name (Json.AddItem_then name v g).
Proof.
  intros Hg t. destruct (Hg v) as (w & Ew & _). unfold Json.AddItem_then.
  destruct t as [ty vs vi vd n l]. cbn [CJson.type set_string]. rewrite Ew.
  destruct (negb (ty =? cJsonDap_Array) && negb (ty =? cJsonDap_Object)); [by eexists|].
  by destruct (ty =? cJsonDap_Array); eexists.
Qed.

Definition builds (b : builder) : Prop := simulates (run_builder b) (built b) ∧ ignores_name (built b).

Lemma builds_all bs : Forall builds bs →
  simulates (run_builders bs) (λ t, foldl (λ t b, built b t) t bs) ∧
  ignores_name (λ t, foldl (λ t b, built b t) t bs).
Proof.
  induction 1 as [|b bs [Hs Hi] _ [IHs IHi]].
  - split; [apply simulates_skip|]. intros t. by exists t.
  - split; [by apply (simulates_then (run_builder b) (built b) (run_builders bs)
      (λ t, foldl (λ t b, built b t) t bs))|].
    by apply (ignores_compose (built b) (λ t, foldl (λ t b, built b t) t bs)).
Qed.

Lemma every_builder b : builds b.
Proof.
  induction b as [name s|name n|name b|name l|name bs IH|name bs IH] using builder_nested_ind;
    try apply builds_all in IH as [Hs Hi].
  - split; [apply Add_string_refines|apply ignores_add_to_container].
  - split; [apply Add_double_refines|apply ignores_add_to_container].
  - split; [apply Add_bool_refines|apply ignores_add_to_container].
  - split; [apply Add_strings_refines|]. apply ignores_AddItem_then, add_all_refines.
  - split; [by apply AddArray_then_refines|by apply ignores_AddItem_then].
  - split; [by apply AddObject_then_refines|by apply ignores_AddItem_then].
Qed.

(** C13: the handles of [Json] do in memory what the class says of the values. A program makes an
    object and adds to it members of any kind, and arrays and objects to which it adds again, to any
    depth, through the handles that the operations return: no operation is undefined, the handle of
    the object stands for the value that the same operations make, whatever else is in the memory
    is as it was; and when the handle ends, the memory is what it was before. *)
Theorem Json_builds bs m : bounded (store m) → counters m !! new_counter m = None →
  ∃ j m0 j' m1, CreateObject m = (j, m0) ∧ run_builders bs j m0 = Ret (j', m1) ∧
    stands None None [] (contents (store m)) j
      (foldl (λ t b, built b t) Json.CreateObject bs) m1 ∧
    ∃ m2, destroy j m1 = Ret m2 ∧ contents (store m2) = contents (store m) ∧
      counters m2 = counters m.
Proof.
  intros Hb Hnew. assert (Ho : owns [] (contents (store m)) (store m)).
  { split; [by apply Forall_nil|apply base.NoDup_nil_2|done|done]. }
  destruct (makes_CreateObject _ _ _ Ho) as (i & di & ci & h1 & E1 & Ho1 & V).
  unfold CreateObject. rewrite E1. unfold Manage. cbn [IsManaged m_refCount].
  set (c := new_counter m) in *. set (j := mkJson (Some i) (Some c)).
  set (m0 := m <| store := h1 |> <| counters := <[c := 1]> (counters m) |> <| new_counter := S c |>).
  exists j, m0.
  assert (Hs : stands None None [] (contents (store m)) j Json.CreateObject m0) by (by exists di, ci).
  destruct (builds_all bs) as [Hsim _]; [apply Forall_forall; intros; apply every_builder|].
  destruct (Hsim _ _ _ _ _ _ _ Hs) as (j' & m1 & E & _ & [Hc _] & S1).
  exists j', m1. split; [reflexivity|]. split; [exact E|]. split; [exact S1|].
  destruct (stands_cases _ _ _ _ _ _ _ S1) as [(Ej & _)|(l & d & f & Ej & _ & Ho2 & _)]; [done|].
  injection Ej as <-. destruct (owns_Delete None _ _ _ _ Ho2) as (h2 & Ed & Ho3 & _). cbn [head] in Ed.
  unfold destroy, DecRef. cbn [j m_refCount]. rewrite Hc. cbn. rewrite lookup_insert_eq.
  unfold Delete, on_store. cbn. rewrite Ed. cbn. eexists. split; [reflexivity|]. cbn. split.
  - apply (owns_rest _ _ _ Ho3).
  - by rewrite !delete_insert_eq, delete_id.
Qed.
End Builders.

(** ** Samples *)

Section Samples.
#[local] Existing Instance sample_platform.

(** An object in which there is a name, an array with a number, and a list of texts. *)
Definition sample_builders : list builder :=
  [b_string "name" "value"; b_array "body" [b_double "" done_; b_object "" [b_bool "b" true]];
   b_strings "args" ["x" : text; "y" : text]].

Lemma Json_builds_witness :
  ∃ j m0 j' m1, CreateObject memory_start = (j, m0) ∧ run_builders sample_builders j m0 = Ret (j', m1) ∧
    stands None None [] (contents (store memory_start)) j
      (foldl (λ t b, built b t) Json.CreateObject sample_builders) m1 ∧
    ∃ m2, destroy j m1 = Ret m2 ∧ contents (store m2) = contents (store memory_start) ∧
      counters m2 = counters memory_start.
Proof.
  apply (Json_builds sample_builders memory_start); [|reflexivity].
  intros x Hx. cbn in Hx. rewrite lookup_empty in Hx. by destruct Hx.
Defined.

(** The value that is built. *)
Example sample_built :
  Json.GetStringArray (Json.member (foldl (λ t b, built b t) Json.CreateObject sample_builders) "args")
  = ["x" : text; "y" : text] ∧
  Json.GetCount (foldl (λ t b, built b t) Json.CreateObject sample_builders) = 3%nat.
Proof. split; vm_compute; reflexivity. Qed.

(** The memory after [Json] was given a string. *)
Definition sample_memory : memory := mkMemory (cJSON_CreateString "value" (mkHeap ∅ 0)).2 ∅ 0.
Definition sample_json : Json := mkJson (Some 0%nat) None.
Definition sample_value : Json.Json := Some (CJsonTree.cJSON_CreateString "value").

Lemma sample_stands : stands None None [] ∅ sample_json sample_value sample_memory.
Proof.
  exists (mkLabel cJsonDap_String (Some (1%nat, "value" : text)) 0 dzero None), leaf.
  split; [|reflexivity]. split.
  - apply Forall_singleton. cbn [tree before after seg]. repeat split; try reflexivity.
    apply Forall_singleton. reflexivity.
  - vm_compute. repeat constructor; set_solver.
  - vm_compute. reflexivity.
  - intros x Hx. destruct (decide (x < 2)%nat) as [|Hn]; [done|].
    destruct x as [|[|x]]; [lia..|]. change (is_Some (contents (store sample_memory) !! S (S x))) in Hx.
    unfold sample_memory, cJSON_CreateString in Hx. cbn in Hx.
    rewrite lookup_alter_ne, !lookup_insert_ne, lookup_empty in Hx by lia. by destruct Hx.
Qed.

Lemma Json_reads_witness :
  GetStringArray sample_json sample_memory = Ret (Json.GetStringArray sample_value) ∧
  GetString [] sample_json sample_memory = Ret (Json.GetString [] sample_value) ∧
  Json.GetString [] sample_value = "value".
Proof.
  destruct (Json_reads _ _ _ _ _ _ _ sample_stands) as (_ & _ & _ & _ & _ & Ha & Hs & _).
  split; [exact Ha|]. split; [apply Hs|reflexivity].
Defined.
End Samples.
