(* ===== verification/JsonMemorySpec.v ===== *)
(** * The reference counts of [Json]: nothing is freed twice, used after it was freed, or leaked.

    The invariant gives every counter the tree it stands for: the value of the counter is the number
    of the handles that point to it, and the heap consists of the trees of the counters. *)
From S2P Require Import Prelude.
From S2P Require Import Double.
From S2P Require Import CJson.
From S2P Require Import CJsonTree.
From S2P Require Json.
From S2P Require Import CJsonHeap.
From S2P Require Import CJsonHeapSpec.
From S2P Require Import CJsonHeapOwns.
From S2P Require Import CJsonFocus.
From S2P Require Import CJsonHeapParse.
From S2P Require Import CJsonHeapParseSpec.
From S2P Require Import JsonMemory.
From S2P Require Import JsonRefines.
Local Open Scope Z_scope.

(** ** The invariant *)

(** The trees of the counters. *)
Definition parts (own : gmap nat forest) : list part := (λ f, whole f) <$> (map_to_list own).*2.

Lemma parts_insert own c f : own !! c = None → parts (<[c := f]> own) ≡ₚ whole f :: parts own.
Proof. intros Hc. unfold parts. by rewrite map_to_list_insert. Qed.

Lemma parts_delete own c f : own !! c = Some f → parts own ≡ₚ whole f :: parts (delete c own).
Proof. intros Hc. unfold parts. by rewrite <- (map_to_list_delete _ _ _ Hc). Qed.

Lemma parts_update own c f : parts (<[c := f]> own) ≡ₚ whole f :: parts (delete c own).
Proof. rewrite <- insert_delete_eq. apply parts_insert, lookup_delete_eq. Qed.

Lemma in_parts own x : x ∈ plocs (parts own) → ∃ c f, own !! c = Some f ∧ x ∈ locs f.
Proof.
  unfold plocs, parts. intros Hx. apply list_elem_of_In, in_concat in Hx as (ls & Hls & Hx).
  apply list_elem_of_In in Hls, Hx. apply list_elem_of_fmap in Hls as (P & -> & HP).
  apply list_elem_of_fmap in HP as (f & -> & Hf).
  apply list_elem_of_fmap in Hf as ([c f'] & -> & Hf%elem_of_map_to_list). by exists c, f'.
Qed.

(** The number of the variables whose handle points to the counter [c]. *)
Definition refs (c : nat) (vs : gmap nat Json) : nat :=
  size (filter (λ xj, m_refCount xj.2 = Some c) vs).

(** No tree, or one. *)
Definition single (f : forest) : Prop := f = leaf ∨ ∃ p d c, f = one p d c.

(** The counters and the handles, and the trees [own] they are of. *)
Record handles (own : gmap nat forest) (vs : gmap nat Json) (cs : gmap nat Z) (new : nat) : Prop := {
  handles_count c n : cs !! c = Some n →
    is_Some (own !! c) ∧ n = Z.of_nat (refs c vs) ∧ 0 < n ≤ INT_MAX;
  handles_own c f : own !! c = Some f → is_Some (cs !! c) ∧ single f;
  handles_vars x j c : vs !! x = Some j → m_refCount j = Some c →
    ∃ f, own !! c = Some f ∧ m_cjson j = head f None;
  handles_new c : is_Some (cs !! c) → (c < new)%nat;
}.

Record wf (own : gmap nat forest) (vs : gmap nat Json) (m : memory) : Prop := {
  wf_handles : handles own vs (counters m) (new_counter m);
  wf_store : owns (parts own) ∅ (store m);
}.

Definition well_formed (p : program) : Prop := ∃ own, wf own (vars p) (mem p).

Lemma refs_insert c x j vs : vs !! x = None →
  refs c (<[x := j]> vs) = (refs c vs + if decide (m_refCount j = Some c) then 1 else 0)%nat.
Proof.
  intros Hx. unfold refs. case_decide as Hj.
  - rewrite map_filter_insert_True, map_size_insert_None by (done || by apply map_lookup_filter_None; left).
    lia.
  - rewrite map_filter_insert_False, delete_id by done. lia.
Qed.

Lemma refs_delete c x j vs : vs !! x = Some j →
  refs c vs = (refs c (delete x vs) + if decide (m_refCount j = Some c) then 1 else 0)%nat.
Proof.
  intros Hx. rewrite <- (insert_delete_id vs x j Hx) at 1. apply refs_insert, lookup_delete_eq.
Qed.

Lemma refs_le c vs : (refs c vs ≤ size vs)%nat.
Proof. apply map_size_filter. Qed.

Lemma refs_zero c vs : refs c vs = 0%nat → ∀ x j, vs !! x = Some j → m_refCount j ≠ Some c.
Proof.
  intros Hr x j Hx Hj. rewrite (refs_delete c x j vs Hx), decide_True in Hr by done. lia.
Qed.

Lemma to_int32_pred n : 0 < n ≤ INT_MAX → to_int32 (n - 1) = n - 1.
Proof. intros. apply to_int32_id, is_int_spec. unfold INT_MIN, INT_MAX in *. lia. Qed.

(** ** Counters *)

Section Handles.
Context (own : gmap nat forest) (vs : gmap nat Json) (cs : gmap nat Z) (new : nat).
Hypothesis Hw : handles own vs cs new.

Lemma handles_live c f : own !! c = Some f → ∃ n, cs !! c = Some n.
Proof. intros Hf. by destruct (handles_own _ _ _ _ Hw c f Hf) as [[n Hn] _]; exists n. Qed.

(** The trees stay, the counters and the variables change. *)
Lemma handles_recount vs' cs' :
  (∀ c n, cs' !! c = Some n → is_Some (own !! c) ∧ n = Z.of_nat (refs c vs') ∧ 0 < n ≤ INT_MAX) →
  (∀ c, is_Some (cs' !! c) ↔ is_Some (cs !! c)) →
  (∀ x j c, vs' !! x = Some j → m_refCount j = Some c →
    ∃ f, own !! c = Some f ∧ m_cjson j = head f None) →
  handles own vs' cs' new.
Proof.
  destruct Hw as [Hcount Hown Hvars Hnew]. intros Hcs Hdom Hv. split; try done.
  - intros c f Hf. rewrite Hdom. by apply Hown.
  - intros c. rewrite Hdom. apply Hnew.
Qed.

(** The tree of a counter changes, its root does not. *)
Lemma handles_write c f f' : own !! c = Some f → single f' → head f' None = head f None →
  handles (<[c := f']> own) vs cs new.
Proof.
  destruct Hw as [Hcount Hown Hvars Hnew]. intros Hf Hs Hh. split; [| | |done].
  - intros c' n Hn. destruct (Hcount c' n Hn) as (Ho & ?). split; [|done].
    destruct (decide (c = c')) as [->|]; [rewrite lookup_insert_eq; by eexists|by rewrite lookup_insert_ne].
  - intros c' g [[<- <-]|[Hc Hg]]%lookup_insert_Some; [by split; [apply (Hown c f)|]|by apply Hown].
  - intros x j c' Hx Hj. destruct (Hvars x j c' Hx Hj) as (g & Hg & E).
    destruct (decide (c = c')) as [->|]; [|by exists g; rewrite lookup_insert_ne].
    exists f'. rewrite lookup_insert_eq. split; [done|]. rewrite Hh, E. congruence.
Qed.

(** A counter goes, with the last handle that points to it. *)
Lemma handles_drop vs' c f : own !! c = Some f → (∀ c', c' ≠ c → refs c' vs' = refs c' vs) →
  refs c vs' = 0%nat →
  (∀ y j c', vs' !! y = Some j → m_refCount j = Some c' → ∃ j', vs !! y = Some j' ∧
     m_refCount j' = Some c' ∧ m_cjson j' = m_cjson j) →
  handles (delete c own) vs' (delete c cs) new.
Proof.
  destruct Hw as [Hcount Hown Hvars Hnew]. intros Hf Hrefs Hzero Hsub. split.
  - intros c' n' [Hc' Hn']%lookup_delete_Some. rewrite lookup_delete_ne by done.
    rewrite Hrefs by done. by apply Hcount.
  - intros c' f' [Hc' Hf']%lookup_delete_Some. rewrite lookup_delete_ne by done. by apply Hown.
  - intros y j' c' Hy Hj'. destruct (Hsub y j' c' Hy Hj') as (j & Hy' & Hj & <-).
    destruct (Hvars y j c' Hy' Hj) as (f' & Hf' & ?).
    exists f'. split; [|done]. rewrite lookup_delete_ne; [done|]. intros <-.
    by apply (refs_zero c _ Hzero y j').
  - intros c' Hc'. apply Hnew. destruct (decide (c' = c)) as [->|];
      [by rewrite lookup_delete_eq in Hc'; destruct Hc'|by rewrite lookup_delete_ne in Hc'].
Qed.

(** A variable is declared with a handle that is not managed. *)
Lemma handles_unmanaged x j : vs !! x = None → m_refCount j = None → handles own (<[x := j]> vs) cs new.
Proof.
  intros Hx Hj. apply handles_recount; [|done|].
  - intros c n Hn. rewrite refs_insert, decide_False, Nat.add_0_r by (done || by rewrite Hj).
    by apply (handles_count _ _ _ _ Hw).
  - intros y j' c [[<- <-]|[_ Hy]]%lookup_insert_Some; [by rewrite Hj|].
    by apply (handles_vars _ _ _ _ Hw y).
Qed.

Lemma refs_none c : own !! c = None → refs c vs = 0%nat.
Proof.
  intros Hc. unfold refs. apply map_size_empty_iff, map_empty. intros x.
  apply map_lookup_filter_None. right. intros j Hj Hr. simpl in Hr.
  destruct (handles_vars _ _ _ _ Hw x j c Hj Hr) as (f & Hf & _). congruence.
Qed.

Lemma own_new : own !! new = None.
Proof.
  destruct (own !! new) as [f|] eqn:E; [|done]. destruct (handles_own _ _ _ _ Hw _ _ E) as [Hc _].
  apply (handles_new _ _ _ _ Hw) in Hc. lia.
Qed.

(** A new counter, with one handle. *)
Lemma handles_managed x f : vs !! x = None → single f →
  handles (<[new := f]> own) (<[x := mkJson (head f None) (Some new)]> vs) (<[new := 1]> cs) (S new).
Proof.
  intros Hx Hs. pose proof (refs_none _ own_new) as Hzero. pose proof own_new as Ho.
  destruct Hw as [Hcount Hown Hvars Hnew]. split.
  - intros c' n [[<- <-]|[Hc Hn]]%lookup_insert_Some.
    + rewrite lookup_insert_eq, refs_insert, decide_True, Hzero by done. split; [by eexists|done].
    + rewrite lookup_insert_ne, refs_insert, decide_False, Nat.add_0_r
        by (done || (cbn; congruence)). by apply Hcount.
  - intros c' g [[<- <-]|[Hc Hg]]%lookup_insert_Some.
    + rewrite lookup_insert_eq. split; [by eexists|done].
    + rewrite lookup_insert_ne by done. by apply Hown.
  - intros y j c' [[<- <-]|[Hy Hj]]%lookup_insert_Some Hr.
    + cbn in Hr. injection Hr as <-. exists f. by rewrite lookup_insert_eq.
    + destruct (Hvars y j c' Hj Hr) as (g & Hg & ?). exists g.
      rewrite lookup_insert_ne; [done|congruence].
  - intros c' Hc'. destruct (decide (c' = new)) as [->|]; [lia|].
    rewrite lookup_insert_ne in Hc' by done. apply Hnew in Hc'. lia.
Qed.
End Handles.

Lemma owns_leaf Fs R h : owns (whole leaf :: Fs) R h → owns Fs R h.
Proof. intros [Hs Hn Hr Hb]. apply list.Forall_cons in Hs as [_ Hs]. by split. Qed.

Lemma owns_empty Fs R h : owns Fs R h → owns (whole leaf :: Fs) R h.
Proof. intros [Hs Hn Hr Hb]. split; [by apply list.Forall_cons|done..]. Qed.

(** The tree of a handle is deleted. *)
Lemma Delete_spec f Fs j m : owns (whole f :: Fs) ∅ (store m) → m_cjson j = head f None →
  ∃ h', Delete j m = Ret (mkJson None (m_refCount j), m <| store := h' |>) ∧ owns Fs ∅ h'.
Proof.
  intros Ho Hj. destruct j as [p r]. cbn in Hj. subst p. unfold Delete. cbn [m_cjson m_refCount].
  destruct f as [|l d c s]; cbn [head].
  - exists (store m). split; [by destruct m|by apply owns_leaf].
  - destruct (owns_Delete None _ _ _ _ Ho) as (h' & E & Ho' & _). exists h'.
    cbn [head] in E. unfold on_store. by rewrite E.
Qed.

Lemma handles_vars_delete own vs cs new x : handles own vs cs new →
  ∀ y j c, delete x vs !! y = Some j → m_refCount j = Some c →
    ∃ f, own !! c = Some f ∧ m_cjson j = head f None.
Proof. intros Hw y j c [_ Hy]%lookup_delete_Some. by apply (handles_vars _ _ _ _ Hw y). Qed.

(** A variable ends: its counter is decremented, its tree goes with the last of its handles. *)
Lemma release own vs m x j : wf own vs m → vs !! x = Some j →
  ∃ j' m' own', DecRef j m = Ret (j', m') ∧ wf own' (delete x vs) m'.
Proof.
  intros [Hw Ho] Hx. pose proof (handles_vars_delete own vs _ _ x Hw) as Hvd. unfold DecRef.
  destruct (m_refCount j) as [c|] eqn:Ec.
  2: { exists j, m, own. split; [done|]. split; [|done]. apply (handles_recount own vs (counters m)); [done| |done|done].
       intros c n Hn. destruct (handles_count _ _ _ _ Hw c n Hn) as (? & Hr & ?).
       rewrite (refs_delete c x j vs Hx), decide_False, Nat.add_0_r in Hr by by rewrite Ec. done. }
  destruct (handles_vars _ _ _ _ Hw x j c Hx Ec) as (f & Hf & Hj).
  destruct (handles_live _ _ _ _ Hw c f Hf) as [n Hn]. rewrite Hn.
  destruct (handles_count _ _ _ _ Hw c n Hn) as (_ & Hr & Hpos).
  rewrite (refs_delete c x j vs Hx), decide_True in Hr by done.
  assert (∀ c', c' ≠ c → refs c' (delete x vs) = refs c' vs) as Hrefs.
  { intros c' Hc'. rewrite (refs_delete c' x j vs Hx), decide_False by congruence. lia. }
  cbv zeta. rewrite to_int32_pred by done. destruct (Z.eqb_spec (n - 1) 0) as [E|E].
  - rewrite (parts_delete _ _ _ Hf) in Ho.
    match goal with |- context [Delete j ?m1] =>
      destruct (Delete_spec f _ j m1 Ho Hj) as (h' & Ed & Ho')
    end. rewrite Ed. cbn [exec_bind]. do 2 eexists. exists (delete c own).
    split; [reflexivity|]. split; cbn; [|done]. rewrite delete_insert_eq.
    apply (handles_drop own vs _ _ Hw _ c f); [done..|lia|]. intros y j' c' [_ ?]%lookup_delete_Some ?. by exists j'.
  - exists j. eexists. exists own. split; [reflexivity|]. split; [|done].
    apply (handles_recount own vs (counters m)); cbn; [done| | |done].
    + intros c' n' [[<- <-]|[Hc Hn']]%lookup_insert_Some; [split; [by eexists|lia]|].
      rewrite Hrefs by done. by apply (handles_count _ _ _ _ Hw).
    + intros c'. destruct (decide (c' = c)) as [->|Hc]; [rewrite lookup_insert_eq, Hn|by rewrite lookup_insert_ne].
      split; by eexists.
Qed.

(** A variable is declared with the handle of another one. *)
Lemma acquire own vs m x j : wf own vs m → vs !! x = None → Z.of_nat (size vs) < INT_MAX →
  (∀ c, m_refCount j = Some c → ∃ f, own !! c = Some f ∧ m_cjson j = head f None) →
  ∃ m', IncRef j m = Ret m' ∧ wf own (<[x := j]> vs) m'.
Proof.
  intros [Hw Ho] Hx Hroom Hj. unfold IncRef. destruct (m_refCount j) as [c|] eqn:Ec.
  2: { exists m. split; [done|]. split; [by apply handles_unmanaged|done]. }
  assert (∀ y j' c, <[x := j]> vs !! y = Some j' → m_refCount j' = Some c →
    ∃ f, own !! c = Some f ∧ m_cjson j' = head f None) as Hv.
  { intros y j' c' [[<- <-]|[_ Hy]]%lookup_insert_Some; [rewrite Ec; apply Hj|by apply (handles_vars _ _ _ _ Hw y)]. }
  destruct (Hj c eq_refl) as (f & Hf & _).
  destruct (handles_live _ _ _ _ Hw c f Hf) as [n Hn]. rewrite Hn.
  destruct (handles_count _ _ _ _ Hw c n Hn) as (_ & Hr & Hpos). pose proof (refs_le c vs) as Hle.
  rewrite to_int32_id by (apply is_int_spec; unfold INT_MIN, INT_MAX in *; lia).
  eexists. split; [reflexivity|]. split; [|done].
  apply (handles_recount own vs (counters m)); cbn; [done| | |done].
  - intros c' n' [[<- <-]|[Hc Hn']]%lookup_insert_Some.
    + split; [by eexists|]. rewrite refs_insert, decide_True by done. lia.
    + rewrite refs_insert, decide_False, Nat.add_0_r by (done || congruence).
      by apply (handles_count _ _ _ _ Hw).
  - intros c'. destruct (decide (c' = c)) as [->|Hc]; [rewrite lookup_insert_eq, Hn|by rewrite lookup_insert_ne].
    split; by eexists.
Qed.

(** A variable is declared with a handle that has a tree of its own. *)
Lemma wf_Manage own vs m x f h : wf own vs m → vs !! x = None → single f →
  owns (whole f :: parts own) ∅ h →
  let '(j, m') := Manage (mkJson (head f None) None) (m <| store := h |>) in
  wf (<[new_counter m := f]> own) (<[x := j]> vs) m'.
Proof.
  intros [Hw Ho] Hx Hs Ho'. split; [by apply handles_managed|]. cbn.
  by rewrite (parts_insert own _ f (own_new _ _ _ _ Hw)).
Qed.

Lemma wf_create own vs m x make t : wf own vs m → vs !! x = None → makes make t →
  let '(p, h) := make (store m) in
  let '(j, m') := Manage (mkJson (Some p) None) (m <| store := h |>) in
  ∃ own', wf own' (<[x := j]> vs) m'.
Proof.
  intros Hw Hx Hmake. destruct (Hmake _ _ _ (wf_store _ _ _ Hw)) as (i & di & ci & h' & -> & Ho & _).
  pose proof (wf_Manage own vs m x (one i di ci) h' Hw Hx (or_intror (ex_intro _ i (ex_intro _ di
    (ex_intro _ ci eq_refl)))) Ho) as Hm. cbn in Hm |- *. by eexists.
Qed.

Lemma wf_Parse `{Platform} own vs m x s : wf own vs m → vs !! x = None → CJson.cJSON_Parse s ≠ Undef →
  ∃ j m' own', Parse s m = Ret (j, m') ∧ wf own' (<[x := j]> vs) m'.
Proof.
  intros Hw Hx Hs. unfold Parse. pose proof (cJSON_Parse_owns s _ _ _ (wf_store _ _ _ Hw)) as Hp.
  destruct (CJson.cJSON_Parse s) as [t|e| |]; try done.
  - destruct Hp as (p & d & c & h' & -> & Ho & _). cbn [exec_bind]. do 3 eexists. split; [reflexivity|].
    apply (wf_Manage own vs m x (one p d c) h' Hw Hx); [right; by exists p, d, c|done].
  - destruct Hp as (h' & -> & Ho). cbn [exec_bind]. do 3 eexists. split; [reflexivity|].
    apply (wf_Manage own vs m x leaf h' Hw Hx); [by left|]. by apply owns_empty.
Qed.

(** ** The rules a program follows *)

(** The node of the handle was not freed. *)
Definition live (j : Json) (m : memory) : Prop :=
  ∀ l, m_cjson j = Some l → ∃ n, nodes m !! l = Some (node_block n).

Definition edge (h : blocks) (a b : nat) : Prop :=
  ∃ n, h !! a = Some (node_block n) ∧ (child n = Some b ∨ next n = Some b).

(** [obj] can be given to [j]: it is the only handle of its tree, or null, and [j] is not in that
    tree. *)
Definition may_be_added (j obj : Json) (p : program) : Prop :=
  live j (mem p) ∧
  match m_refCount obj with
  | Some c => refs c (vars p) = 1%nat ∧
      ∀ l r, m_cjson j = Some l → m_cjson obj = Some r → ¬ rtc (edge (nodes (mem p))) r l
  | None => m_cjson obj = None
  end.

(** A counter does not overflow. *)
Definition room (p : program) : Prop := Z.of_nat (size (vars p)) < INT_MAX.

(** A variable is declared once and used after it was declared; a node is read through a handle
    whose tree still is there; a handle that is added is the only one; a text that is parsed has no
    string that ends in a backslash. *)
Definition valid `{Platform} (op : operation) (p : program) : Prop :=
  match op with
  | op_default x | op_CreateArray x | op_CreateObject x => vars p !! x = None
  | op_Parse x s => vars p !! x = None ∧ CJson.cJSON_Parse s ≠ Undef
  | op_copy x y => vars p !! x = None ∧ is_Some (vars p !! y) ∧ room p
  | op_assign x y => is_Some (vars p !! x) ∧ is_Some (vars p !! y) ∧ room p
  | op_destroy x => is_Some (vars p !! x)
  | op_member x y _ | op_element x y _ | op_Add x y _ _ | op_AddArray x y _ | op_AddObject x y _ =>
      vars p !! x = None ∧ ∃ j, vars p !! y = Some j ∧ live j (mem p)
  | op_AddObject_json y z _ | op_Add_json y z _ =>
      ∃ j obj, vars p !! y = Some j ∧ vars p !! z = Some obj ∧ may_be_added j obj p
  end.

(** The nodes of a tree are those its root leads to. *)
Lemma seg_edges f prv h r l n : seg prv f None h → head f None = Some r → l ∈ locs f →
  h !! l = Some (node_block n) → rtc (edge h) r l.
Proof.
  revert prv r. induction f as [|l' d c IHc s IHs]; [by intros prv r _ [=]|].
  intros prv r (Hl & _ & Ht & Hc & Hs) [= <-] Hin Hn. cbn [locs] in Hin.
  apply elem_of_cons in Hin as [->|[Hin|[Hin|Hin]%elem_of_app]%elem_of_app]; [done| | |].
  - apply list_elem_of_fmap in Hin as (at_ & -> & Ha). unfold holds_texts in Ht.
    rewrite list.Forall_forall in Ht. specialize (Ht _ Ha). congruence.
  - destruct (head c None) as [rc|] eqn:E; [|destruct c; [by apply elem_of_nil in Hin|done]].
    eapply rtc_l; [|by eapply IHc]. eexists. split; [exact Hl|by left].
  - destruct (head s None) as [rs|] eqn:E; [|destruct s; [by apply elem_of_nil in Hin|done]].
    eapply rtc_l; [|by eapply IHs]. eexists. split; [exact Hl|by right].
Qed.

(** ** A node of the program *)

(** The heap around a node: whatever the node and the other trees become, its tree is again one. *)
Definition node_within (l : nat) (p : nat) (Fs : list part) (h : heap) : Prop :=
  ∃ pv nx R d c, owns (mkPart pv (one l d c) nx :: Fs) R h ∧
    ∀ d' c' Fs' h', owns (mkPart pv (one l d' c') nx :: Fs') R h' →
      ∃ dp cp, owns (whole (one p dp cp) :: Fs') ∅ h'.

Lemma wf_focus own vs m l n : wf own vs m → nodes m !! l = Some (node_block n) →
  ∃ c p d ch, own !! c = Some (one p d ch) ∧ l ∈ locs (one p d ch) ∧
    node_within l p (parts (delete c own)) (store m).
Proof.
  intros [Hw Ho] Hl.
  assert (l ∈ plocs (parts own)) as (c & f & Hf & Hlf)%in_parts.
  { apply dec_stable. intros Hn. pose proof (owns_outside _ _ _ _ Ho Hn) as E.
    unfold nodes in Hl. by rewrite Hl, lookup_empty in E. }
  destruct (handles_own _ _ _ _ Hw c f Hf) as [_ [->|(p & d & ch & ->)]]; [by apply elem_of_nil in Hlf|].
  exists c, p, d, ch. split; [done|]. split; [done|]. rewrite (parts_delete _ _ _ Hf) in Ho.
  destruct (focus_address (S (length (locs ch))) _ _ l n None p d ch None ∅ (Nat.lt_succ_diag_r _) Ho Hlf Hl)
    as (dq & cq & K & [_ (pv & nx & R' & Ho' & Hclose)]).
  exists pv, nx, R', dq, cq. split; [exact Ho'|]. intros d' c' Fs' h' Hq.
  destruct (Hclose d' c' Fs' h' Hq) as (dp & cp & Hp & _). by exists dp, cp.
Qed.

(** What is done through a live handle, and is defined on trees, is defined on the program. *)
Lemma wf_simulates own vs m j f g : wf own vs m → live j m → simulates f g →
  ∃ j' m' own', f j m = Ret (j', m') ∧ m_refCount j' = None ∧ wf own' vs m'.
Proof.
  intros Hwf Hj Hf. pose proof Hwf as [Hw Ho]. destruct (m_cjson j) as [l|] eqn:Ej.
  - destruct (Hj l Ej) as [n Hl].
    destruct (wf_focus own vs m l n Hwf Hl) as (c & p & d & ch & Hc & _ & pv & nx & R & dq & cq & Hq & Hclose).
    assert (Hs : stands pv nx (parts (delete c own)) R j (Some (item dq (vals cq))) m).
    { unfold stands. rewrite Ej. by exists dq, cq. }
    destruct (Hf _ _ _ _ _ _ _ Hs) as (j' & m' & E & Hn & [Hcs Hnew] & Hs').
    unfold stands in Hs'. rewrite Ej in Hs'. destruct (g _) as [w|]; [|done].
    destruct Hs' as (d' & c' & Ho' & _). destruct (Hclose _ _ _ _ Ho') as (dp & cp & Hp).
    exists j', m', (<[c := one p dp cp]> own). split; [done|]. split; [done|].
    split; [|by rewrite parts_update]. rewrite Hcs, Hnew.
    apply (handles_write _ _ _ _ Hw c (one p d ch)); [done|right; by eexists _, _, _|done].
  - assert (Hs : stands None None (parts own) ∅ j None m) by (unfold stands; by rewrite Ej).
    destruct (Hf _ _ _ _ _ _ _ Hs) as (j' & m' & E & Hn & [Hcs Hnew] & Hs').
    unfold stands in Hs'. rewrite Ej in Hs'. destruct (g _); [done|].
    exists j', m', own. split; [done|]. split; [done|]. split; [by rewrite Hcs, Hnew|done].
Qed.

(** To look a member or an element up changes nothing. *)
Lemma simulates_read (f : Json → memory → exec unit Json) :
  (∀ pv nx Fs R j t m, stands pv nx Fs R j t m → ∃ j', f j m = Ret j' ∧ m_refCount j' = None) →
  simulates (λ j m, let* j := f j m in Ret (j, m)) id.
Proof.
  intros Hf pv nx Fs R j t m Hj. destruct (Hf _ _ _ _ _ _ _ Hj) as (j' & E & Hn).
  exists j', m. by rewrite E.
Qed.

Lemma simulates_member name : simulates (λ j m, let* j := member j name m in Ret (j, m)) id.
Proof.
  apply simulates_read. intros * Hj. destruct (member_refines _ _ _ _ _ _ _ Hj name) as (j' & ? & ? & _).
  by exists j'.
Qed.

Lemma simulates_element i : simulates (λ j m, let* j := element j i m in Ret (j, m)) id.
Proof.
  apply simulates_read. intros * Hj. destruct (element_refines _ _ _ _ _ _ _ Hj i) as (j' & ? & ? & _).
  by exists j'.
Qed.

Lemma simulates_Add `{Platform} name v : ∃ g, simulates (Add name v) g.
Proof.
  destruct v; eexists;
    [apply Add_string_refines|apply Add_double_refines|apply Add_bool_refines|apply Add_strings_refines].
Qed.

Lemma simulates_AddItem make v name : makes make v → simulates (AddItem make name) (Json.AddItem_then name v id).
Proof.
  intros Hmake pv nx Fs R j t m Hj.
  destruct (AddItem_refines make v name pv nx Fs R j t m Hmake Hj)
    as [(m1 & E & Hc & Hj1 & Hk)|(i & m1 & pv' & R' & tj & -> & E & Hc & Hi & Hback & Hk)]; rewrite E.
  - exists null, m1. rewrite Hk. done.
  - eexists _, m1. split; [reflexivity|]. do 2 (split; [done|]). by rewrite (Hk id v eq_refl); apply Hback.
Qed.

(** ** A tree that is given away *)

(** What [give] does to the tree of a handle: it ends up under the node [l], and so does what was a
    null handle; the counter is deleted. *)
Definition forgets_counter (obj : Json) (m m' : memory) : Prop :=
  counters m' = (if m_refCount obj is Some c then delete c (counters m) else counters m) ∧
  new_counter m' = new_counter m.

Record hands_over (give : Json → Json → memory → exec unit (Json * memory)) (ty : Z → Prop) : Prop := {
  hands_tree pv nx l d c i di ci Fs R rc obj m :
    owns (mkPart pv (one l d c) nx :: whole (one i di ci) :: Fs) R (store m) →
    m_cjson obj = Some i → counted obj m → ty (l_type d) → ∃ obj' m' c',
      give (mkJson (Some l) rc) obj m = Ret (obj', m') ∧ m_refCount obj' = None ∧
      forgets_counter obj m m' ∧ owns (mkPart pv (one l d c') nx :: Fs) R (store m');
  hands_null l n rc obj m : nodes m !! l = Some (node_block n) → m_cjson obj = None →
    counted obj m → ty (type n) → ∃ obj' m', give (mkJson (Some l) rc) obj m = Ret (obj', m') ∧
      m_refCount obj' = None ∧ forgets_counter obj m m' ∧ store m' = store m;
}.

Lemma hands_over_AddObject name : hands_over (AddObject_json name) (λ _, True).
Proof.
  split.
  - intros * Ho Hi Hc _. unfold AddObject_json, on_store. cbn [m_cjson]. rewrite Hi.
    destruct (owns_AddItemToObject _ _ _ _ _ _ _ _ name _ _ _ Ho) as (s & h' & -> & Ho').
    cbn [exec_bind].
    destruct (UnManage_store obj (m <| store := h' |>)) as (v' & m' & -> & ? & _ & Hs & ? & ?); [done|].
    eexists v', m', _. rewrite Hs. do 3 (split; [done|]). exact Ho'.
  - intros * Hl Hi Hc _. unfold AddObject_json, on_store. cbn [m_cjson]. rewrite Hi. cbn.
    destruct (UnManage_store obj (m <| store := store m |>)) as (v' & m' & -> & ? & _ & Hs & ? & ?); [done|].
    by exists v', m'.
Qed.

Lemma hands_over_Add name :
  hands_over (Add_json name) (λ ty, ty = cJsonDap_Array ∨ ty = cJsonDap_Object).
Proof.
  pose proof (hands_over_AddObject name) as [Htree Hnull]. split.
  - intros * Ho Hi Hc Hty. destruct (load_parent _ _ _ _ _ _ _ _ Ho) as (Hl & _).
    destruct Hty as [Hty|Hty].
    + destruct (UnManage_store obj m Hc) as (v' & m' & E & ? & Hj & Hs & ? & ?).
      destruct (owns_AddItemToArray _ _ _ _ _ _ _ _ _ _ _ Ho) as (h' & E' & Ho').
      exists v', (m' <| store := h' |>). eexists. split; [|done].
      unfold Add_json, nodes, on_store. cbn [m_cjson]. rewrite Hl. cbn [exec_bind type cell_of].
      rewrite Hty. cbn. rewrite E. cbn. by rewrite Hs, Hi, E'.
    + destruct (Htree _ _ _ _ _ _ _ _ _ _ rc obj m Ho Hi Hc I) as (obj' & m' & c' & E & ?).
      exists obj', m', c'. split; [|done]. unfold Add_json, nodes. cbn [m_cjson]. rewrite Hl.
      cbn [exec_bind type cell_of]. by rewrite Hty.
  - intros * Hl Hi Hc Hty. destruct Hty as [Hty|Hty].
    + destruct (UnManage_store obj m Hc) as (v' & m' & E & ? & Hj & Hs & ? & ?).
      exists v', (m' <| store := store m' |>). split; [|done].
      unfold Add_json, load, on_store. cbn [m_cjson]. rewrite Hl. cbn [exec_bind].
      rewrite Hty. cbn. rewrite E. cbn. rewrite Hs, Hi. unfold cJSON_AddItemToArray, AddItemToArray, on_contents, load.
      unfold nodes in Hl. rewrite Hl. cbn. by destruct (store m).
    + destruct (Hnull l n rc obj m Hl Hi Hc I) as (obj' & m' & E & ?).
      exists obj', m'. split; [|done]. unfold Add_json, load. cbn [m_cjson]. rewrite Hl.
      cbn [exec_bind]. by rewrite Hty.
Qed.

(** The tree of a counter is apart from a node that it does not lead to. *)
Lemma tree_apart own vs m z l n obj c : wf own vs m → vs !! z = Some obj →
  m_refCount obj = Some c → nodes m !! l = Some (node_block n) →
  (∀ r, m_cjson obj = Some r → ¬ rtc (edge (nodes m)) r l) →
  (m_cjson obj = None ∧ own !! c = Some leaf) ∨
  ∃ c1 p d ch i di ci, m_cjson obj = Some i ∧ c1 ≠ c ∧ own !! c1 = Some (one p d ch) ∧
    own !! c = Some (one i di ci) ∧
    node_within l p (whole (one i di ci) :: parts (delete c1 (delete c own))) (store m).
Proof.
  intros Hwf Hz Hc Hl Hout. pose proof Hwf as [Hw Ho].
  destruct (handles_vars _ _ _ _ Hw z obj c Hz Hc) as (u & Hu & Hr).
  destruct (handles_own _ _ _ _ Hw c u Hu) as [_ [->|(i & di & ci & ->)]]; [by left|]. right.
  destruct (wf_focus own vs m l n Hwf Hl) as (c1 & p & d & ch & Hc1 & Hlp & Hin).
  assert (c1 ≠ c) as Hne.
  { intros ->. apply (Hout i Hr). rewrite Hc1 in Hu. injection Hu as -> -> ->.
    rewrite (parts_delete _ _ _ Hc1) in Ho. destruct (owns_whole_1 _ _ _ _ Ho) as (Hs & _).
    by apply (seg_edges _ _ _ _ _ n Hs). }
  exists c1, p, d, ch, i, di, ci. do 4 (split; [done|]).
  destruct Hin as (pv & nx & R & dq & cq & Hq & Hclose). exists pv, nx, R, dq, cq. split; [|done].
  rewrite (parts_delete (delete c1 own) c (one i di ci)) in Hq by by rewrite lookup_delete_ne.
  by rewrite delete_delete.
Qed.

Lemma counted_var own vs m z obj : wf own vs m → vs !! z = Some obj → counted obj m.
Proof.
  intros [Hw _] Hz c Hc. destruct (handles_vars _ _ _ _ Hw z obj c Hz Hc) as (f & Hf & _).
  by apply (handles_own _ _ _ _ Hw c f).
Qed.

(** The only handle of a counter gives its tree away. *)
Lemma handles_given own vs cs new z obj obj' c u : handles own vs cs new → vs !! z = Some obj →
  m_refCount obj = Some c → refs c vs = 1%nat → own !! c = Some u → m_refCount obj' = None →
  handles (delete c own) (<[z := obj']> vs) (delete c cs) new.
Proof.
  intros Hw Hz Hc Hone Hu Hn.
  assert (∀ c', c' ≠ c → refs c' (<[z := obj']> vs) = refs c' vs) as Hrefs.
  { intros c' Hc'. rewrite <- insert_delete_eq, refs_insert, (refs_delete c' z obj vs Hz)
      by apply lookup_delete_eq. rewrite Hn. by rewrite !decide_False by congruence. }
  apply (handles_drop own vs _ _ Hw _ c u); [done..| |].
  - rewrite <- insert_delete_eq, refs_insert, decide_False by (apply lookup_delete_eq || by rewrite Hn).
    rewrite (refs_delete c z obj vs Hz), decide_True in Hone by done. lia.
  - intros y j c' [[<- <-]|[Hy Hj]]%lookup_insert_Some Hr; [congruence|by exists j].
Qed.

Lemma give_ok give ty own vs m z l n rc obj c : hands_over give ty → wf own vs m →
  vs !! z = Some obj → m_refCount obj = Some c → refs c vs = 1%nat →
  nodes m !! l = Some (node_block n) → ty (type n) →
  (∀ r, m_cjson obj = Some r → ¬ rtc (edge (nodes m)) r l) →
  ∃ obj' m' own', give (mkJson (Some l) rc) obj m = Ret (obj', m') ∧ wf own' (<[z := obj']> vs) m'.
Proof.
  intros [Htree Hnull] Hwf Hz Hc Hone Hl Hty Hout. pose proof Hwf as [Hw Ho].
  pose proof (counted_var _ _ _ _ _ Hwf Hz) as Hcount.
  destruct (tree_apart own vs m z l n obj c Hwf Hz Hc Hl Hout)
    as [[Hj Hu]|(c1 & p & d & ch & i & di & ci & Hj & Hne & Hc1 & Hu & pv & nx & R & dq & cq & Hq & Hclose)].
  - destruct (Hnull l n rc obj m Hl Hj Hcount Hty) as (obj' & m' & E & Hn & [Hcs Hnew] & Hs).
    exists obj', m', (delete c own). split; [done|]. rewrite Hc in Hcs. split; [|].
    + rewrite Hcs, Hnew. by apply (handles_given own vs _ _ z obj _ c leaf).
    + rewrite Hs. rewrite (parts_delete _ _ _ Hu) in Ho. by apply owns_leaf.
  - destruct (load_parent _ _ _ _ _ _ _ _ Hq) as (El & _).
    assert (l_type dq = type n) as Edq.
    { unfold load, nodes in *. rewrite Hl in El. by injection El as ->. }
    destruct (Htree _ _ _ _ _ _ _ _ _ _ rc obj m Hq Hj Hcount) as (obj' & m' & c' & E & Hn & [Hcs Hnew] & Ho');
      [by rewrite Edq|]. destruct (Hclose _ _ _ _ Ho') as (dp & cp & Hp).
    exists obj', m', (<[c1 := one p dp cp]> (delete c own)). split; [done|]. rewrite Hc in Hcs. split.
    + rewrite Hcs, Hnew. eapply handles_write; [|by rewrite lookup_delete_ne|right; by eexists _, _, _|done].
      by apply (handles_given own vs _ _ z obj _ c (one i di ci)).
    + by rewrite parts_update.
Qed.

(** [AddObject], and [Add], which does nothing to a node that is not a container. *)
Lemma AddObject_ok own p name y z j obj : wf own (vars p) (mem p) → vars p !! y = Some j →
  vars p !! z = Some obj → may_be_added j obj p → ∃ obj' m' own',
  AddObject_json name j obj (mem p) = Ret (obj', m') ∧ wf own' (<[z := obj']> (vars p)) m'.
Proof.
  intros Hw _ Hz [Hlive Hobj]. destruct p as [vs m], j as [[l|] rc]; cbn [vars mem m_cjson] in *.
  2: { exists obj, m, own. by rewrite insert_id. }
  destruct (Hlive l eq_refl) as [n Hl]. destruct (m_refCount obj) as [c|] eqn:Ec.
  - destruct Hobj as [Hone Hout].
    apply (give_ok _ _ own vs m z l n rc obj c (hands_over_AddObject name)); try done.
    intros r. by apply Hout.
  - exists obj, m, own. rewrite insert_id by done. split; [|done].
    unfold AddObject_json, on_store, IsManaged. cbn [m_cjson]. rewrite Hobj, Ec. by destruct m.
Qed.

Lemma Add_json_ok own p name y z j obj : wf own (vars p) (mem p) → vars p !! y = Some j →
  vars p !! z = Some obj → may_be_added j obj p → ∃ obj' m' own',
  Add_json name j obj (mem p) = Ret (obj', m') ∧ wf own' (<[z := obj']> (vars p)) m'.
Proof.
  intros Hw Hy Hz Hadd. destruct (AddObject_ok own p name y z j obj Hw Hy Hz Hadd) as (o' & m1 & own1 & E1 & W1).
  destruct Hadd as [Hlive Hobj]. destruct p as [vs m], j as [[l|] rc]; cbn [vars mem m_cjson] in *.
  2: { exists obj, m, own. by rewrite insert_id. }
  destruct (Hlive l eq_refl) as [n Hl].
  assert (Hsame : ∃ obj' m' own', (Ret (obj, m) : exec unit _) = Ret (obj', m') ∧
    wf own' (<[z := obj']> vs) m') by (exists obj, m, own; by rewrite insert_id).
  destruct (decide (type n = cJsonDap_Array ∨ type n = cJsonDap_Object)) as [Hty|Hty].
  - destruct (m_refCount obj) as [c|] eqn:Ec.
    + destruct Hobj as [Hone Hout].
      apply (give_ok _ _ own vs m z l n rc obj c (hands_over_Add name)); try done.
      intros r. by apply Hout.
    + unfold Add_json, load. cbn [m_cjson]. rewrite Hl. cbn [exec_bind].
      destruct Hty as [-> | ->]; cbn; [|by exists o', m1, own1].
      unfold IsManaged, on_store, cJSON_AddItemToArray, on_contents, AddItemToArray, load.
      rewrite Ec, Hobj. cbn. unfold nodes in Hl. rewrite Hl. cbn. by destruct m as [[] ? ?].
  - unfold Add_json, load. cbn [m_cjson]. rewrite Hl. cbn [exec_bind].
    destruct (Z.eqb_spec (type n) cJsonDap_Array); [tauto|].
    by destruct (Z.eqb_spec (type n) cJsonDap_Object); [tauto|].
Qed.

Lemma assign_from_Ret this this' other m m1 m2 : DecRef this m = Ret (this', m1) →
  IncRef other m1 = Ret m2 → assign_from this other m = Ret (other, m2).
Proof.
  intros Hd Hi. unfold assign_from. rewrite Hd. cbn [exec_bind].
  change (this' <| m_refCount := m_refCount other |> <| m_cjson := m_cjson other |>)
    with (mkJson (m_cjson other) (m_refCount other)).
  destruct other as [q r]. cbn [m_cjson m_refCount]. by rewrite Hi.
Qed.

(** ** Every operation *)

Section Programs.
Context `{Platform}.

(** An operation through a live handle declares a handle that is not managed. *)
Lemma declare_ok f g x y p : simulates f g → well_formed p → vars p !! x = None →
  (∃ j, vars p !! y = Some j ∧ live j (mem p)) →
  ∃ p', declare_from x y f p = Ret p' ∧ well_formed p'.
Proof.
  intros Hf [own Hw] Hx (j & Hj & Hl). unfold declare_from, with_var. rewrite Hj.
  destruct (wf_simulates own _ _ j f g Hw Hl Hf) as (j' & m' & own' & -> & Hn & Hw').
  eexists. split; [reflexivity|]. exists own'.
  split; [apply handles_unmanaged; [apply Hw'|done..]|apply (wf_store _ _ _ Hw')].
Qed.

Lemma copy_ok x y p : well_formed p → valid (op_copy x y) p →
  ∃ p', run (op_copy x y) p = Ret p' ∧ well_formed p'.
Proof.
  intros [own Hw] (Hx & [j Hj] & Hroom). cbn [run]. unfold declare_from, with_var. rewrite Hj.
  unfold copy_of. destruct (acquire own (vars p) (mem p) x j) as (m' & Hm' & Hw'); [done..| |].
  { intros c Hc. by apply (handles_vars _ _ _ _ (wf_handles _ _ _ Hw) y). }
  rewrite (assign_from_Ret null null j _ (mem p) m') by done.
  eexists. split; [done|]. by exists own.
Qed.

Lemma assign_ok x y p : well_formed p → valid (op_assign x y) p →
  ∃ p', run (op_assign x y) p = Ret p' ∧ well_formed p'.
Proof.
  intros [own Hw] ([jx Hx] & [j Hj] & Hroom). cbn [run]. unfold with_var. rewrite Hx, Hj.
  case_decide as Hxy; [eexists; split; [done|]; by exists own|].
  destruct (release own _ _ x jx Hw Hx) as (j' & m1 & own1 & Hd & Hw1).
  destruct (acquire own1 (delete x (vars p)) m1 x j) as (m' & Hm' & Hw');
    [done|apply lookup_delete_eq| | |].
  { unfold room in Hroom. rewrite map_size_delete, Hx. lia. }
  { intros c Hc. apply (handles_vars _ _ _ _ (wf_handles _ _ _ Hw1) y); [|done].
    by rewrite lookup_delete_ne. }
  rewrite insert_delete_eq in Hw'. rewrite (assign_from_Ret jx j' j _ m1 m') by done.
  eexists. split; [done|]. by exists own1.
Qed.

(** No operation that follows the rules is undefined, and the invariant holds after it. *)
Lemma run_ok op p : well_formed p → valid op p → ∃ p', run op p = Ret p' ∧ well_formed p'.
Proof.
  intros Hp Hv. pose proof Hp as [own Hw].
  destruct op as [x|x|x|x s|x y|x y|x|x y name|x y i|x y name v|x y name|x y name|y z name|y z name];
    [..|by apply copy_ok|by apply assign_ok| | | | | | | |]; cbn [run]; cbn [valid] in Hv.
  - eexists. split; [done|]. exists own.
    split; [by apply handles_unmanaged; [apply Hw|..]|apply (wf_store _ _ _ Hw)].
  - pose proof (wf_create own _ _ x _ _ Hw Hv makes_CreateArray) as Hc. unfold CreateArray.
    destruct (cJSON_CreateArray _) as [q h]. destruct (Manage _ _) as [j m]. by eexists.
  - pose proof (wf_create own _ _ x _ _ Hw Hv makes_CreateObject) as Hc. unfold CreateObject.
    destruct (cJSON_CreateObject _) as [q h]. destruct (Manage _ _) as [j m]. by eexists.
  - destruct Hv as [Hx Hs]. destruct (wf_Parse own _ _ x s Hw Hx Hs) as (j & m' & own' & -> & Hw').
    eexists. split; [reflexivity|]. by exists own'.
  - destruct Hv as [j Hj]. unfold with_var. rewrite Hj. unfold destroy.
    destruct (release own _ _ x j Hw Hj) as (j' & m1 & own1 & -> & Hw1).
    eexists. split; [done|]. by exists own1.
  - destruct Hv. eapply declare_ok; [apply simulates_member|done..].
  - destruct Hv. eapply declare_ok; [apply simulates_element|done..].
  - destruct Hv, (simulates_Add name v). by eapply declare_ok.
  - destruct Hv. eapply declare_ok; [apply simulates_AddItem, makes_CreateArray|done..].
  - destruct Hv. eapply declare_ok; [apply simulates_AddItem, makes_CreateObject|done..].
  - destruct Hv as (j & obj & Hj & Hz & Ha). unfold give_to, with_var. rewrite Hj, Hz.
    destruct (AddObject_ok own p name y z j obj Hw Hj Hz Ha) as (obj' & m' & own' & -> & Hw').
    eexists. split; [done|]. by exists own'.
  - destruct Hv as (j & obj & Hj & Hz & Ha). unfold give_to, with_var. rewrite Hj, Hz.
    destruct (Add_json_ok own p name y z j obj Hw Hj Hz Ha) as (obj' & m' & own' & -> & Hw').
    eexists. split; [done|]. by exists own'.
Qed.

(** ** The programs that follow the rules *)

Inductive reachable : program → Prop :=
| reachable_start : reachable program_start
| reachable_step op p p' : reachable p → valid op p → run op p = Ret p' → reachable p'.

Lemma well_formed_start : well_formed program_start.
Proof.
  exists ∅. split.
  - split; intros *; cbn; by rewrite lookup_empty.
  - split; [by apply Forall_nil|apply base.NoDup_nil_2|done|]. intros x. cbn. rewrite lookup_empty.
    by intros [].
Qed.

Lemma reachable_well_formed p : reachable p → well_formed p.
Proof.
  induction 1 as [|op p p' _ IH Hv Hr]; [apply well_formed_start|].
  destruct (run_ok op p IH Hv) as (p2 & Hr2 & Hw). congruence.
Qed.

Lemma well_formed_no_leak p : well_formed p → vars p = ∅ →
  nodes (mem p) = ∅ ∧ counters (mem p) = ∅.
Proof.
  intros [own [Hw Ho]] Hv.
  assert (∀ c, counters (mem p) !! c = None) as Hc.
  { intros c. destruct (_ !! c) as [n|] eqn:E; [|done].
    destruct (handles_count _ _ _ _ Hw c n E) as (_ & Hn & ?). rewrite Hv in Hn.
    unfold refs in Hn. rewrite map_filter_empty, map_size_empty in Hn. lia. }
  assert (own = ∅) as ->.
  { apply map_empty. intros c. destruct (own !! c) as [f|] eqn:E; [|done].
    destruct (handles_live _ _ _ _ Hw c f E) as [n Hn]. by rewrite Hc in Hn. }
  split; [|by apply map_empty]. unfold parts in Ho. rewrite map_to_list_empty in Ho.
  by destruct Ho as [_ _ Hr _].
Qed.


(** C38: a handle that is given away while another one shares its counter leaves that one with a
    counter that was freed: [UnManage] deletes the counter whatever its value, and the end of the
    other handle is undefined behaviour. *)
Theorem shared_handle_dangles p y z w name l n j obj other c : reachable p →
  vars p !! y = Some j → m_cjson j = Some l → nodes (mem p) !! l = Some (node_block n) →
  vars p !! z = Some obj → m_refCount obj = Some c →
  vars p !! w = Some other → m_refCount other = Some c → w ≠ z →
  (∀ r, m_cjson obj = Some r → ¬ rtc (edge (nodes (mem p))) r l) →
  ∃ p', run (op_AddObject_json y z name) p = Ret p' ∧ run (op_destroy w) p' = Undef.
Proof.
  intros [own Hw]%reachable_well_formed Hy Hj Hl Hz Hc Hother Hoc Hwz Hout.
  pose proof (counted_var _ _ _ _ _ Hw Hz) as Hcount. destruct j as [jp rc]. cbn in Hj. subst jp.
  assert (∃ obj' m', AddObject_json name (mkJson (Some l) rc) obj (mem p) = Ret (obj', m') ∧
    counters m' = delete c (counters (mem p))) as (obj' & m' & E & Hcs).
  { destruct (tree_apart own _ _ z l n obj c Hw Hz Hc Hl Hout)
      as [[Ho _]|(c1 & q & d & ch & i & di & ci & Ho & _ & _ & _ & pv & nx & R & dq & cq & Hq & _)].
    - destruct (hands_null _ _ (hands_over_AddObject name) l n rc obj _ Hl Ho Hcount I)
        as (obj' & m' & E & _ & [Hcs _] & _). rewrite Hc in Hcs. by exists obj', m'.
    - destruct (hands_tree _ _ (hands_over_AddObject name) _ _ _ _ _ _ _ _ _ _ rc obj _ Hq Ho Hcount I)
        as (obj' & m' & c' & E & _ & [Hcs _] & _). rewrite Hc in Hcs. by exists obj', m'. }
  cbn [run]. unfold give_to, with_var, declare. rewrite Hy, Hz, E. cbn [exec_bind].
  eexists. split; [reflexivity|]. cbn [vars mem]. rewrite lookup_insert_ne, Hother by done.
  unfold destroy, DecRef. rewrite Hoc, Hcs. by rewrite lookup_delete_eq.
Qed.
End Programs.

(** ** Samples *)

Section Samples.
#[local] Existing Instance sample_platform.

(** The program after an operation. *)
Definition after (op : operation) (p : program) : program :=
  match run op p with Ret p' => p' | _ => program_start end.

(** Two objects; a string is added to the second, which then is given to the first; every variable
    ends. *)
Definition sample_1 : program := after (op_CreateObject 1) program_start.
Definition sample_2 : program := after (op_CreateObject 2) sample_1.
Definition sample_3 : program := after (op_Add 3 2 "name" (new_string "value")) sample_2.
Definition sample_4 : program := after (op_AddObject_json 1 2 "body") sample_3.
Definition sample_5 : program := after (op_destroy 3) sample_4.
Definition sample_6 : program := after (op_destroy 2) sample_5.
Definition sample_7 : program := after (op_destroy 1) sample_6.

(** The second object has a second handle. *)
Definition sample_shared : program := after (op_copy 4 2) sample_3.

Ltac next_sample op p := refine (reachable_step op p _ _ _ _); [ | |vm_compute; reflexivity].

(** In [sample_3] the second object is the node 1, and the first the node 0. *)
Lemma sample_apart : ¬ rtc (edge (nodes (mem sample_3))) 1%nat 0%nat.
Proof.
  intros Hr. inversion Hr as [|? b ? (n & Hn & Hb) Hr']; subst. vm_compute in Hn.
  injection Hn as <-. destruct Hb as [[= <-]|[=]].
  inversion Hr' as [|? b ? (n & Hn & Hb)]; subst. vm_compute in Hn.
  injection Hn as <-. by destruct Hb as [[=]|[=]].
Qed.

Lemma sample_3_reachable : reachable sample_3.
Proof.
  next_sample (op_Add 3 2 "name" (new_string "value")) sample_2.
  - next_sample (op_CreateObject 2) sample_1; [|reflexivity].
    next_sample (op_CreateObject 1) program_start; [apply reachable_start|reflexivity].
  - split; [reflexivity|]. eexists. split; [reflexivity|]. intros l [= <-]. by eexists.
Qed.

Lemma sample_7_reachable : reachable sample_7.
Proof.
  next_sample (op_destroy 1) sample_6; [|by eexists].
  next_sample (op_destroy 2) sample_5; [|by eexists].
  next_sample (op_destroy 3) sample_4; [|by eexists].
  next_sample (op_AddObject_json 1 2 "body") sample_3; [apply sample_3_reachable|].
  do 2 eexists. split; [reflexivity|]. split; [reflexivity|]. split.
  - intros l [= <-]. by eexists.
  - split; [reflexivity|]. intros l r [= <-] [= <-]. exact sample_apart.
Qed.


(** Two objects, the string with its name and its value: five blocks; the name of the second object
    is one more.  All of them are freed. *)
Example sample_7_ended : vars sample_7 = ∅ ∧ size (nodes (mem sample_3)) = 5%nat ∧
  size (nodes (mem sample_4)) = 6%nat ∧ size (nodes (mem sample_7)) = 0%nat.
Proof. vm_compute. done. Qed.

Lemma shared_handle_dangles_witness :
  ∃ p', run (op_AddObject_json 1 2 "body") sample_shared = Ret p' ∧ run (op_destroy 4) p' = Undef.
Proof.
  eapply (shared_handle_dangles sample_shared 1 2 4 "body" 0); try reflexivity.
  - next_sample (op_copy 4 2) sample_3; [exact sample_3_reachable|].
    split; [reflexivity|]. split; [by eexists|reflexivity].
  - discriminate.
  - intros r [= <-]. exact sample_apart.
Defined.
End Samples.
