(* ===== verification/JsonSpec.v ===== *)
(** * JSON.cpp, cJSON.cpp: what the trees promise.

    Printing and parsing in both formats, the operations of cJSON on the members of an object,
    and what reading gives after [Json::Add]. *)
From S2P Require Import Prelude.
From S2P Require Import Double.
From S2P Require Import CJson.
From S2P Require Import CJsonPrint.
From S2P Require Import CJsonRoundTrip.
From S2P Require Import CJsonTree.
From S2P Require Import Json.
Local Open Scope Z_scope.

(** ** Text *)

Lemma plain_child t : plain t = true → Forall (λ c, plain c = true) (child t).
Proof.
  destruct t as [ty vs vi vd n l]. cbn [plain child type]. rewrite !andb_true_iff. intros [_ Hl].
  apply Forall_forall. intros c Hc.
  destruct (ty =? cJsonDap_Array); [|destruct (ty =? cJsonDap_Object)].
  - rewrite forallb_forall in Hl. by apply Hl, andb_true_iff in Hc as [_ ?].
  - rewrite forallb_forall in Hl. auto.
  - by destruct l.
Qed.

Lemma plain_type t : plain t = true → Z.land (type t) 255 = type t.
Proof.
  destruct t as [ty vs vi vd n l]. cbn [plain type]. rewrite !andb_true_iff, !Z.leb_le.
  intros [[? ?] _]. change 255 with (Z.ones 8). rewrite Z.land_ones by lia. apply Z.mod_small. lia.
Qed.

Section Text.
Context `{Platform}.

(** What is printed depends on what reading shows. *)
Lemma print_value_sim t t' depth fmt : sim t t' → plain t = true →
  print_value t depth fmt = print_value t' depth fmt.
Proof.
  revert t' depth; induction t as [ty vs vi vd n l IH] using cJsonDap_children_ind.
  intros t' depth Hs Hp. pose proof (plain_type _ Hp) as Hty. pose proof (plain_child _ Hp) as Hc.
  inversion Hs as [? ? Ht Hn Hv Hnum Hch]; subst. destruct t' as [ty' vs' vi' vd' n' l'].
  simpl in Ht, Hn, Hv, Hnum, Hch, Hty, Hc. subst ty' n'.
  assert (∀ d, map (λ c, print_value c d fmt) l = map (λ c, print_value c d fmt) l') as Ha.
  { intros d. clear -IH Hc Hch. induction Hch; [done|]. simpl.
    inversion IH; inversion Hc; subst. f_equal; auto. }
  assert (∀ d, map (λ c, (item_string c, print_value c d fmt)) l
               = map (λ c, (item_string c, print_value c d fmt)) l') as Ho.
  { intros d. clear -IH Hc Hch. induction Hch as [|c c' ? ? Hcc]; [done|]. simpl.
    inversion IH; inversion Hc; subst. rewrite (sim_name _ _ Hcc). f_equal; auto. f_equal; auto. }
  cbn [print_value type child]. rewrite Hty, Ha, Ho.
  repeat (case_match; [|]); try done.
  - destruct Hnum as [-> ->]; [lia|]. done.
  - unfold print_string. cbn [valuestring]. by rewrite Hv by lia.
Qed.

(** C10: printing and parsing are inverse, in both formats: every tree with a value (any nesting,
    any strings without a NUL byte, any [int]) is printed as a text that is parsed to a tree
    with the same value, and that tree is printed as the same text. *)
Theorem print_parse_print pretty j v : jdenotes j v →
  ∃ s j', ToString pretty j = Ret s ∧ Parse s = Ret j' ∧ jdenotes j' v ∧ ToString pretty j' = Ret s.
Proof.
  intros Hj. destruct (Parse_ToString pretty j v Hj) as (s & Hs & _ & j' & Hp & Hj').
  exists s, j'. repeat split; [done..|].
  destruct Hj as (t & -> & Hn & Ht), Hj' as (t' & -> & Hn' & Ht').
  assert (sim t' t) as Hsim by (eapply denotes_sim; [done..|congruence]).
  rewrite <- Hs. unfold ToString, cJSON_Print, cJSON_PrintUnformatted.
  destruct pretty; rewrite (print_value_sim t' t) by (done || by destruct Ht'); done.
Qed.
End Text.

(** ** Members of an object, any case *)

(** The name of the child is the given one up to case. *)
Definition matches (string : text) (c : cJsonDap) : Prop :=
  ∃ n, item_string c = Some n ∧ map tolower (c_str n) = map tolower (c_str string).

Lemma strcasecmp_matches c string :
  cJSON_strcasecmp (item_string c) (Some string) = 0 ↔ matches string c.
Proof.
  unfold matches. destruct (item_string c) as [n|]; simpl.
  - rewrite strcasecmp_zero by apply no_nul_c_str. naive_solver.
  - split; [lia|naive_solver].
Qed.

Lemma find_child_first l k string :
  match find_child l k string with
  | Some (i, c) => ∃ n, i = k + Z.of_nat n ∧ l !! n = Some c ∧ matches string c ∧
      (∀ m c', (m < n)%nat → l !! m = Some c' → ¬ matches string c')
  | None => ∀ c, c ∈ l → ¬ matches string c
  end.
Proof.
  revert k; induction l as [|c l IH]; intros k; simpl; [by intros c ?%elem_of_nil|].
  pose proof (strcasecmp_matches c string) as Hm.
  destruct (Z.eqb_spec (cJSON_strcasecmp (item_string c) (Some string)) 0) as [E|E].
  - exists 0%nat. split; [lia|]. split; [done|]. split; [tauto|]. intros m c' ?; lia.
  - specialize (IH (k + 1)). destruct (find_child l (k + 1) string) as [[i c']|].
    + destruct IH as (n & -> & Hl & Hc & Hn). exists (S n). split; [lia|]. split; [done|].
      split; [done|]. intros [|m] x Hlt Hx; simpl in Hx; [simplify_eq; tauto|eapply Hn; [|done]; lia].
    + intros x [->|Hx]%elem_of_cons; [tauto|by apply IH].
Qed.

(** The operations on the members of an object agree: [GetObjectItem] finds the first member
    with the name up to case, [DetachItemFromObject] takes that one out and leaves the others in
    their order, [ReplaceItemInObject] puts the new item at its place under the given name; when
    there is none, nothing is found and the object does not change. *)
Theorem object_operations object string newitem :
  (∃ i c, child object !! i = Some c ∧ matches string c ∧
    (∀ j c', (j < i)%nat → child object !! j = Some c' → ¬ matches string c') ∧
    cJSON_GetObjectItem object string = Some c ∧
    cJSON_DetachItemFromObject object string
    = (Some c, set_child (delete i (child object)) object) ∧
    cJSON_ReplaceItemInObject object string newitem
    = set_child (<[i := set_string (Some (c_str string)) newitem]> (child object)) object) ∨
  ((∀ c, c ∈ child object → ¬ matches string c) ∧
    cJSON_GetObjectItem object string = None ∧
    cJSON_DetachItemFromObject object string = (None, object) ∧
    cJSON_ReplaceItemInObject object string newitem = object).
Proof.
  unfold cJSON_GetObjectItem, cJSON_DetachItemFromObject, cJSON_ReplaceItemInObject.
  pose proof (find_child_first (child object) 0 string) as Hf.
  destruct (find_child (child object) 0 string) as [[i c]|]; [left|by right].
  destruct Hf as (n & -> & Hl & Hc & Hn). exists n, c. rewrite Z.add_0_l.
  unfold cJSON_DetachItemFromArray, cJSON_ReplaceItemInArray.
  rewrite detach_nth_spec, replace_nth_spec, Hl. done.
Qed.

(** ** Reading what was added *)

(** The value of the first member with the name. *)
Fixpoint assoc (ms : list (text * json)) (index : text) : option json :=
  match ms with
  | [] => None
  | (n, v) :: r => if n =t index then Some v else assoc r index
  end.

Definition reads_value (j : Json) (v : json) : Prop := ∃ t, j = Some t ∧ denotes t v.

Lemma member_assoc j ms index : jdenotes j (JObject ms) →
  match assoc ms index with
  | Some v => reads_value (member j index) v
  | None => member j index = None
  end.
Proof.
  intros (t & -> & _ & Ht). apply denotes_object_inv in Ht as [_ Hf].
  change (member (Some t) index) with (first_named (child t) index).
  induction Hf as [|c [n v] l ms (Hn & _ & Hv) _ IH]; simpl in *; [done|].
  rewrite Hn. destruct (n =t index); [by exists c|done].
Qed.

Lemma assoc_app ms ms' index :
  assoc (ms ++ ms') index = match assoc ms index with Some v => Some v | None => assoc ms' index end.
Proof. induction ms as [|[n v] ms IH]; simpl; [done|]. by destruct (n =t index). Qed.

Section Reading.
Context `{Platform}.

(** [Add] adds a member and leaves the others: after [json.Add(name, value)] the member [name]
    reads as [value], unless the object had a member of that name, which hides the new one; every
    other name reads as before. *)
Theorem Add_then_read j ms name value v index : jdenotes j (JObject ms) → jdenotes value v →
  no_nul name = true →
  match assoc ms index with
  | Some w => reads_value (member (Add_json name value j) index) w
  | None =>
      if name =t index then reads_value (member (Add_json name value j) index) v
      else member (Add_json name value j) index = None
  end.
Proof.
  intros Hj Hv Hn. pose proof (jdenotes_Add_json name value v j ms Hn Hv Hj) as Ha.
  apply (member_assoc _ _ index) in Ha. rewrite assoc_app in Ha. simpl in Ha.
  destruct (assoc ms index); [done|]. by destruct (name =t index).
Qed.

(** An explicit [false] is lost: [GetBool] of a member that was written as [false] gives the
    default value of the caller, since the code compares the pointer to the node, and not its
    type, with the type of [false]. *)
Theorem GetBool_default_for_false name b d : no_nul name = true →
  GetBool d (member (Add_bool name b CreateObject) name) = if b then true else d.
Proof.
  intros Hn. pose proof (jdenotes_Add_bool name b _ [] Hn jdenotes_CreateObject) as Ha.
  apply (member_assoc _ _ name) in Ha. simpl in Ha. rewrite teq_refl in Ha.
  destruct Ha as (t & -> & Ht%denotes_inv). unfold GetBool. destruct Ht as [-> _]. by destruct b.
Qed.
End Reading.

Section Samples.
#[local] Existing Instance sample_platform.

Definition sample_object : Json :=
  Add_json "c" CreateObject (Add_bool "b" false (Add_string "a" "x\y" CreateObject)).

Lemma sample_object_value :
  jdenotes sample_object (JObject [(lit "a", JString "x\y"); (lit "b", JBool false); (lit "c", JObject [])]).
Proof.
  apply (jdenotes_Add_json _ _ _ _ [(lit "a", JString "x\y"); (lit "b", JBool false)]);
    [done|apply jdenotes_CreateObject|].
  apply (jdenotes_Add_bool _ _ _ [(lit "a", JString "x\y")]); [done|].
  apply (jdenotes_Add_string _ _ _ []); [done|done|apply jdenotes_CreateObject].
Qed.

Lemma print_parse_print_witness : ∃ s j',
  ToString true sample_object = Ret s ∧ Parse s = Ret j' ∧
  jdenotes j' (JObject [(lit "a", JString "x\y"); (lit "b", JBool false); (lit "c", JObject [])]) ∧
  ToString true j' = Ret s.
Proof. apply print_parse_print, sample_object_value. Defined.

Lemma Add_then_read_witness :
  reads_value (member (Add_json "c" (Add_bool "d" true CreateObject) sample_object) "c") (JObject []).
Proof.
  apply (Add_then_read sample_object _ (lit "c") (Add_bool "d" true CreateObject) (JObject [(lit "d", JBool true)]) (lit "c")
    sample_object_value); [|reflexivity].
  apply (jdenotes_Add_bool _ _ _ []); [reflexivity|apply jdenotes_CreateObject].
Defined.

Lemma GetBool_default_for_false_witness :
  GetBool true (member (Add_bool "b" false CreateObject) "b") = true.
Proof. apply (GetBool_default_for_false (lit "b") false true). reflexivity. Defined.
End Samples.
