(* ===== verification/Any.v ===== *)
(** * dap.hpp: the interface [Any] of everything that is sent, and what it promises.

    [Any T] is the C++ interface: a default constructor [fresh], [To] and [From], which reads
    into an existing object.  [Codec T] is what the rest of the development relies on: for a
    [valid] object, [To] gives a tree that has a text, [From] reads the object back into a
    fresh one, and [From] only depends on what the reading operations of [Json] show. *)
From S2P Require Import Prelude.
From S2P Require Import Double.
From S2P Require Import CJson.
From S2P Require Import CJsonRoundTrip.
From S2P Require Import CJsonTree.
From S2P Require Import Json.
Local Open Scope Z_scope.

Notation "j .[ n ]" := (member j n)
  (at level 1, n at level 200, left associativity, format "j .[ n ]") : wxdap_scope.

Class Any (T : Type) := {
  fresh : T;
  To : T → Json;
  From : Json → T → T;
}.

(** The handle points to a tree that has a value, to an object in particular. *)
Definition is_value (j : Json) : Prop := ∃ v, jdenotes j v.
Definition is_object (j : Json) : Prop := ∃ ms, jdenotes j (JObject ms).

Class Codec (T : Type) `{Any T} := {
  valid : T → bool;
  To_value x : valid x = true → is_value (To x);
  From_sim j j' this : jsim j j' → From j this = From j' this;
  From_To x : valid x = true → From (To x) fresh = x;
}.

#[global] Arguments fresh : simpl never.
#[global] Arguments To : simpl never.
#[global] Arguments From : simpl never.
#[global] Arguments valid : simpl never.

(** [Get##Type()] with the default arguments of [JSON.hpp]. *)
Definition wxNOT_FOUND : Z := -1.
Definition get_string (j : Json) : text := GetString [] j.
Definition get_integer (j : Json) : Z := GetInteger (-1) j.
Definition get_bool (j : Json) : bool := GetBool false j.
(** A number read into an [int]. *)
Definition get_number_as_int `{Platform} (d : Z) (j : Json) : Z := to_int (GetNumber (of_int d) j).

#[global] Arguments get_string : simpl never.
#[global] Arguments get_integer : simpl never.
#[global] Arguments get_bool : simpl never.
#[global] Arguments get_number_as_int : simpl never.

(** The loops that read a vector of objects: [T x; x.From(arr\[i\]); push_back(x)]. *)
Definition read_array {T} `{Any T} (arr : Json) : list T :=
  map (λ i, From (element arr i) fresh) (seq 0 (GetCount arr)).

(** The loops that write one: [arr.Add(x.To())]. *)
Definition add_all {T} `{Any T} (l : list T) (arr : Json) : Json :=
  foldl (λ arr x, Add_json [] (To x) arr) arr l.

#[global] Arguments read_array : simpl never.
#[global] Arguments add_all : simpl never.

(** ** Writing *)

Section Values.
Context `{Platform}.

Lemma object_value j : is_object j → is_value j.
Proof. intros [ms ?]. by exists (JObject ms). Qed.

Lemma object_create : is_object CreateObject.
Proof. exists []. apply jdenotes_CreateObject. Qed.

Lemma object_Add_string name s j : no_nul name = true → no_nul s = true →
  is_object j → is_object (Add_string name s j).
Proof. intros ?? [ms ?]. eexists. by apply jdenotes_Add_string. Qed.

Lemma object_Add_int name n j : no_nul name = true → is_int n = true →
  is_object j → is_object (Add_int name n j).
Proof. intros ?? [ms ?]. eexists. by apply jdenotes_Add_int. Qed.

Lemma object_Add_bool name b j : no_nul name = true → is_object j → is_object (Add_bool name b j).
Proof. intros ? [ms ?]. eexists. by apply jdenotes_Add_bool. Qed.

Lemma object_Add_json name v j : no_nul name = true → is_value v →
  is_object j → is_object (Add_json name v j).
Proof. intros ? [??] [ms ?]. eexists. by apply jdenotes_Add_json. Qed.

Lemma object_AddObject_json name v j : no_nul name = true → is_value v →
  is_object j → is_object (AddObject_json name v j).
Proof. intros ? [??] [ms ?]. eexists. by apply jdenotes_AddObject_json. Qed.

Lemma object_AddObject_then name k j : no_nul name = true → is_value (k CreateObject) →
  is_object j → is_object (AddObject_then name k j).
Proof. intros ? [??] [ms ?]. eexists. by apply jdenotes_AddObject_then. Qed.

Lemma object_AddArray_then name k j : no_nul name = true → is_value (k CreateArray) →
  is_object j → is_object (AddArray_then name k j).
Proof. intros ? [??] [ms ?]. eexists. by apply jdenotes_AddArray_then. Qed.

Lemma object_Add_strings name l j : no_nul name = true → forallb no_nul l = true →
  is_object j → is_object (Add_strings name l j).
Proof. intros ?? [ms ?]. eexists. by apply jdenotes_Add_strings. Qed.

Lemma valid_list_inv {T} `{Codec T} x l :
  forallb valid (x :: l) = true → valid x = true ∧ forallb valid l = true.
Proof. simpl. apply andb_true_iff. Qed.

(** The nodes that [add_all] appends. *)
Definition node (j : Json) : cJsonDap := default cJSON_New_Item j.

Lemma To_node {T} `{Codec T} x : valid x = true → To x = Some (node (To x)).
Proof. intros (v & t & -> & _)%To_value. done. Qed.

Lemma add_all_nodes {T} `{Codec T} l a : forallb valid l = true →
  add_all l (array_node a) = array_node (a ++ map (λ x, node (To x)) l).
Proof.
  revert a; induction l as [|x l IH]; intros a Hl; [simpl; by rewrite app_nil_r|].
  apply valid_list_inv in Hl as [Hx Hl]. unfold add_all. cbn [foldl].
  rewrite (To_node x Hx).
  change (Add_json [] (Some (node (To x))) (array_node a)) with (array_node (a ++ [node (To x)])).
  unfold add_all in IH. rewrite IH by done. cbn [map]. by rewrite <- app_assoc.
Qed.

Lemma value_add_all {T} `{Codec T} l : forallb valid l = true →
  is_value (add_all l CreateArray).
Proof.
  intros Hl. change CreateArray with (array_node []). rewrite add_all_nodes by done.
  assert (∃ vs, Forall2 element_denotes (map (λ x, node (To x)) l) vs) as [vs Hvs].
  { induction l as [|x l IH]; [by exists []|]. apply valid_list_inv in Hl as [Hx Hl].
    destruct (IH Hl) as [vs Hvs]. destruct (To_value x Hx) as (v & t & Ht & Hv).
    exists (v :: vs). simpl. rewrite Ht. by constructor. }
  exists (JArray vs). by apply jdenotes_array.
Qed.

(** ** Reading back *)

Lemma read_array_sim {T} `{Codec T} j j' : jsim j j' → read_array (T := T) j = read_array j'.
Proof.
  intros Hj. unfold read_array. rewrite (GetCount_Proper _ _ Hj). apply map_ext.
  intros i. by apply From_sim, element_sim.
Qed.

Lemma From_set_string {T} `{Codec T} x n : valid x = true →
  From (Some (set_string n (node (To x)))) fresh = x.
Proof.
  intros Hx. rewrite (From_sim _ _ fresh (jsim_set_string n (node (To x)))).
  rewrite <- To_node by done. by apply From_To.
Qed.

Lemma map_seq_lookup {A B} (f : option A → B) (l : list A) :
  map (λ i, f (l !! i)) (seq 0 (length l)) = map (λ x, f (Some x)) l.
Proof.
  induction l as [|x l IH]; [done|]. cbn [length seq map]. f_equal.
  rewrite <- seq_shift, map_map. exact IH.
Qed.

Lemma read_array_children {T} `{Codec T} t :
  read_array (T := T) (Some t) = map (λ c, From (Some c) fresh) (child t).
Proof.
  unfold read_array. simpl GetCount. rewrite <- (map_seq_lookup (λ c, From c fresh)).
  apply map_ext. intros i. by rewrite element_lookup.
Qed.

Lemma read_add_all {T} `{Codec T} l n : forallb valid l = true →
  read_array (Some (set_string n (node (add_all l CreateArray)))) = l.
Proof.
  intros Hl. change CreateArray with (array_node []). rewrite add_all_nodes by done.
  rewrite read_array_children. simpl. induction l as [|x l IH]; [done|].
  apply valid_list_inv in Hl as [Hx Hl]. simpl. rewrite IH by done.
  rewrite <- To_node by done. by rewrite From_To.
Qed.

Lemma add_all_Some {T} `{Codec T} l : forallb valid l = true →
  add_all l CreateArray = Some (node (add_all l CreateArray)).
Proof.
  intros Hl. change CreateArray with (array_node []). by rewrite add_all_nodes.
Qed.

Lemma strings_Some l :
  foldl (λ a s, Add_string [] s a) CreateArray l = array_node (map cJSON_CreateString l).
Proof. change CreateArray with (array_node []). by rewrite Add_strings_fold. Qed.

Lemma GetStringArray_strings n l : forallb no_nul l = true →
  GetStringArray (Some (set_string n (node (array_node (map cJSON_CreateString l))))) = l.
Proof.
  intros Hl. unfold GetStringArray. simpl IsArray. cbv iota. simpl GetCount.
  transitivity (map (λ x, GetString [] (Some x)) (map cJSON_CreateString l)).
  - rewrite <- (map_seq_lookup (GetString [])). apply map_ext. intros i. by rewrite element_lookup.
  - induction l as [|s l IH]; [done|]. simpl in *. apply andb_true_iff in Hl as [Hs Hl].
    unfold GetString. simpl. unfold cJSON_strdup. rewrite c_str_id by done. f_equal. by apply IH.
Qed.
End Values.

(** ** The proofs of the instances of [Codec] *)

(** Takes apart a hypothesis [valid x = true], a conjunction of tests. *)
Ltac valid_inv :=
  repeat match goal with
  | H : _ && _ = true |- _ => apply andb_true_iff in H as [? ?]
  | H : (_ =? _) = true |- _ => apply Z.eqb_eq in H
  | H : eqb _ _ = true |- _ => apply eqb_prop in H
  | H : (_ =t _) = true |- _ => apply teq_true in H
  | H : negb _ = true |- _ => apply negb_true_iff in H
  end; subst; simpl in *.

(** [is_value (To x)]: one lemma for each call that adds a property. *)
Ltac value_step :=
  match goal with
  | |- is_object CreateObject => apply object_create
  | |- is_object (Add_string _ _ _) => apply object_Add_string
  | |- is_object (Add_int _ _ _) => apply object_Add_int
  | |- is_object (Add_bool _ _ _) => apply object_Add_bool
  | |- is_object (Add_strings _ _ _) => apply object_Add_strings
  | |- is_object (Add_json _ _ _) => apply object_Add_json
  | |- is_object (AddObject_json _ _ _) => apply object_AddObject_json
  | |- is_object (AddObject_then _ _ _) => apply object_AddObject_then
  | |- is_object (AddArray_then _ _ _) => apply object_AddArray_then
  | |- is_object (if ?b then _ else _) => destruct b
  | |- is_value (add_all _ _) => apply value_add_all; assumption
  | |- is_value (To _) => apply To_value; assumption
  | |- is_value (_ CreateObject) => cbv beta zeta; apply object_value
  | |- is_value _ => apply object_value
  | |- no_nul _ = true => first [assumption | reflexivity]
  | E : ?z = _ |- is_int ?z = true => rewrite E; reflexivity
  | |- is_int _ = true => first [assumption | reflexivity]
  | |- _ => assumption
  end.
Ltac solve_value := intros; valid_inv; repeat value_step.

(** [From j this = From j' this]: the fields read the same. *)
Section Sim.
Context `{Platform}.

Lemma get_string_sim j j' : jsim j j' → get_string j = get_string j'.
Proof. apply GetString_sim. Qed.

Lemma get_integer_sim j j' : jsim j j' → get_integer j = get_integer j'.
Proof. apply GetInteger_sim. Qed.

Lemma get_bool_sim j j' : jsim j j' → get_bool j = get_bool j'.
Proof. apply GetBool_sim. Qed.

Lemma get_number_as_int_sim d j j' : jsim j j' → get_number_as_int d j = get_number_as_int d j'.
Proof. intros. unfold get_number_as_int. f_equal. by apply GetNumber_sim. Qed.
End Sim.

#[export] Hint Resolve get_string_sim get_integer_sim get_bool_sim get_number_as_int_sim
  : jsim.
#[export] Hint Extern 1 (From _ _ = From _ _) => apply From_sim : jsim.
#[export] Hint Extern 1 (read_array _ = read_array _) => apply read_array_sim : jsim.

Ltac solve_sim := intros; f_equal; eauto 6 with jsim.

(** [From (To x) fresh = x]: every call that adds a property becomes the node it adds, the
    reads are evaluated on the literal names, and the nested objects are read back by their
    own instances. *)
Section RoundTrip.
Context `{Platform}.

Lemma Add_string_node n s : no_nul s = true →
  Add_string n s = add_to_container n (Some (Item cJsonDap_String (Some s) 0 dzero None [])).
Proof.
  intros Hs. unfold Add_string, cJSON_CreateString, cJSON_strdup. by rewrite c_str_id.
Qed.

Lemma Add_int_node n z : is_int z = true →
  Add_int n z = add_to_container n (Some (Item cJsonDap_Number None z (of_int z) None [])).
Proof.
  intros Hz. unfold Add_int, Add_double, cJSON_CreateNumber. by rewrite to_int_of_int.
Qed.

Definition bool_node (b : bool) : cJsonDap := cJSON_CreateBool b.

Lemma Add_bool_node n b : Add_bool n b = add_to_container n (Some (bool_node b)).
Proof. done. Qed.

Lemma AddArray_then_container n k t j : k CreateArray = Some t →
  AddArray_then n k j = add_to_container n (Some t) j.
Proof.
  intros Hk. unfold AddArray_then, AddItem_then. destruct j as [u|]; [|done]. simpl.
  change (Some cJSON_CreateArray) with CreateArray. rewrite Hk.
  destruct (Z.eqb_spec (type u) cJsonDap_Array) as [->|], (Z.eqb_spec (type u) cJsonDap_Object);
    done.
Qed.

Lemma AddObject_then_container n k j :
  AddObject_then n k j = add_to_container n (k CreateObject) j.
Proof.
  unfold AddObject_then, AddItem_then. destruct j as [u|]; [|done]. simpl.
  change (Some cJSON_CreateObject) with CreateObject.
  destruct (Z.eqb_spec (type u) cJsonDap_Array) as [->|], (Z.eqb_spec (type u) cJsonDap_Object);
    done.
Qed.

Lemma AddArray_then_add_all {T} `{Codec T} n (l : list T) j : forallb valid l = true →
  AddArray_then n (add_all l) j
  = add_to_container n (Some (node (add_all l CreateArray))) j.
Proof. intros Hl. apply AddArray_then_container. by apply add_all_Some. Qed.

Lemma Add_strings_node n l j :
  Add_strings n l j
  = add_to_container n (Some (node (array_node (map cJSON_CreateString l)))) j.
Proof. apply AddArray_then_container. apply strings_Some. Qed.

(** The form in which the evaluation leaves a nested node that was given a name. *)
Definition renamed (t : cJsonDap) (n : option text) : cJsonDap :=
  Item (let (ty, _, _, _, _, _) := t in ty) (let (_, vs, _, _, _, _) := t in vs)
    (let (_, _, vi, _, _, _) := t in vi) (let (_, _, _, vd, _, _) := t in vd) n
    (let (_, _, _, _, _, l) := t in l).

Lemma From_named {T} `{Codec T} x n : valid x = true →
  From (Some (renamed (node (To x)) n)) fresh = x.
Proof. intros Hx. exact (From_set_string x n Hx). Qed.

Lemma read_named {T} `{Codec T} l n : forallb valid l = true →
  read_array (Some (renamed (node (add_all l CreateArray)) n)) = l.
Proof. intros Hl. exact (read_add_all l n Hl). Qed.

Lemma strings_named n l : forallb no_nul l = true →
  GetStringArray (Some (renamed (node (array_node (map cJSON_CreateString l))) n)) = l.
Proof. exact (GetStringArray_strings n l). Qed.

Lemma bool_named n b : get_bool (Some (renamed (bool_node b) n)) = b.
Proof. by destruct b. Qed.

Lemma true_named n d : GetBool d (Some (renamed (bool_node true) n)) = true.
Proof. done. Qed.
End RoundTrip.

Ltac read_eval :=
  cbv [add_to_container AddObject_json Add_json AddObject_then AddItem_then CreateObject
       CreateArray cJSON_CreateObject cJSON_CreateArray cJSON_New_Item
       cJSON_AddItemToObject cJSON_AddItemToArray cJSON_strdup c_str set_type set_child set_string
       type valuestring valueint valuedouble item_string child IsArray IsObject IsOK
       member first_named teq ceq Ascii.eqb Bool.eqb lit list_ascii_of_string app
       get_string get_integer get_number_as_int GetString GetInteger GetNumber
       default from_option id negb andb orb Z.eqb Pos.eqb
       cJsonDap_False cJsonDap_True cJsonDap_Null cJsonDap_Number cJsonDap_String
       cJsonDap_Array cJsonDap_Object].

Ltac nodes :=
  repeat first
    [ rewrite Add_string_node by (assumption || reflexivity)
    | rewrite Add_int_node by (assumption || reflexivity)
    | rewrite Add_bool_node
    | progress (rewrite AddObject_then_container; cbv beta zeta)
    | rewrite AddArray_then_add_all by assumption
    | rewrite Add_strings_node
    | match goal with |- context [AddObject_json _ (To ?x) _] => rewrite (To_node x) by assumption end
    | match goal with |- context [Add_json _ (To ?x) _] => rewrite (To_node x) by assumption end ].

Ltac solve_round_trip :=
  intros; valid_inv; nodes; read_eval;
  repeat match goal with
  | |- context [Some (Item (let (ty, _, _, _, _, _) := ?t in ty) _ _ _ ?n _)] =>
      change (Some (Item _ _ _ _ n _)) with (Some (renamed t n))
  end;
  rewrite ?From_named, ?read_named, ?strings_named, ?bool_named, ?true_named,
    ?to_int_of_int by (assumption || reflexivity);
  try reflexivity.

(** An instance of [Codec] from the lemmas about the functions of the structure. *)
Ltac codec instance valid_S value sim round_trip :=
  unshelve refine {| valid := valid_S |};
  [ exact value | exact sim
  | intros x Hx; unfold From, To, fresh, instance; exact (round_trip x Hx) ].
