(* ===== verification/DapData.v ===== *)
(** * dap.hpp, dap.cpp: the data inside the messages.

    For each C++ structure [S]: the record [S] with one field per member, [S_fresh] (the
    default constructor), [S_To] and [S_From] (the member functions), [valid_S] (the objects
    that survive being written and read back) and the instances of [Any] and [Codec].  A
    member that [To] does not write, or that [From] does not read back, has its default value
    in a valid object. *)
From S2P Require Import Prelude.
From S2P Require Import Double.
From S2P Require Import CJson.
From S2P Require Import CJsonRoundTrip.
From S2P Require Import CJsonTree.
From S2P Require Import Json.
From S2P Require Import Any.
Local Open Scope Z_scope.

Section Data.
Context `{Platform}.

Record Source := mkSource {
  Source_name : text;
  Source_path : text;
  Source_sourceReference : Z;
}.
Definition Source_fresh : Source :=
  mkSource [] [] 0.

Definition Source_To (x : Source) : Json :=
  let json := CreateObject in
  let json := Add_string "name" (Source_name x) json in
  let json := if negb (Source_path x =t []) then Add_string "path" (Source_path x) json else json in
  if 0 <? Source_sourceReference x then Add_int "sourceReference" (Source_sourceReference x) json else json.

Definition Source_From (json : Json) (this : Source) : Source :=
  mkSource (get_string json.["name"])
    (get_string json.["path"])
    (get_number_as_int 0 json.["sourceReference"]).

Definition valid_Source (x : Source) : bool :=
  no_nul (Source_name x) &&
  no_nul (Source_path x) &&
  is_int (Source_sourceReference x) && (0 <=? (Source_sourceReference x)).

#[export] Instance Source_Any : Any Source :=
  {| fresh := Source_fresh; To := Source_To; From := Source_From |}.

Lemma Source_To_value x : valid_Source x = true →
  is_value (Source_To x).
Proof. unfold valid_Source, Source_To. solve_value. Qed.

Lemma Source_From_sim j j' this : jsim j j' →
  Source_From j this = Source_From j' this.
Proof. unfold Source_From. solve_sim. Qed.

Lemma Source_round_trip x : valid_Source x = true →
  Source_From (Source_To x) Source_fresh = x.
Proof.
  destruct x as [name path ref]. unfold valid_Source, Source_From, Source_To. simpl. intros.
  valid_inv. destruct (teq_spec path []) as [->|], (Z.ltb_spec 0 ref); simpl;
    solve_round_trip; f_equal; lia.
Qed.

#[export] Instance Source_Codec : Codec Source.
Proof.
  codec Source_Any valid_Source Source_To_value Source_From_sim
    Source_round_trip.
Defined.

Record StackFrame := mkStackFrame {
  StackFrame_id : Z;
  StackFrame_name : text;
  StackFrame_source : Source;
  StackFrame_line : Z;
}.
Definition StackFrame_fresh : StackFrame :=
  mkStackFrame (-1) [] fresh 0.

Definition StackFrame_To (x : StackFrame) : Json :=
  let json := CreateObject in
  let json := Add_string "name" (StackFrame_name x) json in
  let json := Add_int "id" (StackFrame_id x) json in
  let json := Add_int "line" (StackFrame_line x) json in
  AddObject_json "source" (To (StackFrame_source x)) json.

Definition StackFrame_From (json : Json) (this : StackFrame) : StackFrame :=
  mkStackFrame (get_integer json.["id"])
    (get_string json.["name"])
    (From json.["source"] (StackFrame_source this))
    (get_integer json.["line"]).

Definition valid_StackFrame (x : StackFrame) : bool :=
  is_int (StackFrame_id x) &&
  no_nul (StackFrame_name x) &&
  valid (StackFrame_source x) &&
  is_int (StackFrame_line x).

#[export] Instance StackFrame_Any : Any StackFrame :=
  {| fresh := StackFrame_fresh; To := StackFrame_To; From := StackFrame_From |}.

Lemma StackFrame_To_value x : valid_StackFrame x = true →
  is_value (StackFrame_To x).
Proof. unfold valid_StackFrame, StackFrame_To. solve_value. Qed.

Lemma StackFrame_From_sim j j' this : jsim j j' →
  StackFrame_From j this = StackFrame_From j' this.
Proof. unfold StackFrame_From. solve_sim. Qed.

Lemma StackFrame_round_trip x : valid_StackFrame x = true →
  StackFrame_From (StackFrame_To x) StackFrame_fresh = x.
Proof. destruct x. unfold valid_StackFrame, StackFrame_From, StackFrame_To. simpl. solve_round_trip. Qed.

#[export] Instance StackFrame_Codec : Codec StackFrame.
Proof.
  codec StackFrame_Any valid_StackFrame StackFrame_To_value StackFrame_From_sim
    StackFrame_round_trip.
Defined.

Record Breakpoint := mkBreakpoint {
  Breakpoint_id : Z;
  Breakpoint_verified : bool;
  Breakpoint_message : text;
  Breakpoint_source : Source;
  Breakpoint_line : Z;
  Breakpoint_column : Z;
  Breakpoint_endLine : Z;
  Breakpoint_endColumn : Z;
}.
Definition Breakpoint_fresh : Breakpoint :=
  mkBreakpoint (-1) false [] fresh (-1) (-1) (-1) (-1).

Definition Breakpoint_To (x : Breakpoint) : Json :=
  let json := CreateObject in
  let json := Add_int "id" (Breakpoint_id x) json in
  let json := Add_bool "verified" (Breakpoint_verified x) json in
  let json := Add_string "message" (Breakpoint_message x) json in
  let json := Add_int "line" (Breakpoint_line x) json in
  let json := Add_int "column" (Breakpoint_column x) json in
  let json := Add_int "endLine" (Breakpoint_endLine x) json in
  let json := Add_int "endColumn" (Breakpoint_endColumn x) json in
  AddObject_json "source" (To (Breakpoint_source x)) json.

Definition Breakpoint_From (json : Json) (this : Breakpoint) : Breakpoint :=
  mkBreakpoint (get_integer json.["id"])
    (get_bool json.["verified"])
    (get_string json.["message"])
    (From json.["source"] (Breakpoint_source this))
    (get_integer json.["line"])
    (get_integer json.["column"])
    (get_integer json.["endLine"])
    (get_integer json.["endColumn"]).

Definition valid_Breakpoint (x : Breakpoint) : bool :=
  is_int (Breakpoint_id x) &&
  no_nul (Breakpoint_message x) &&
  valid (Breakpoint_source x) &&
  is_int (Breakpoint_line x) &&
  is_int (Breakpoint_column x) &&
  is_int (Breakpoint_endLine x) &&
  is_int (Breakpoint_endColumn x).

#[export] Instance Breakpoint_Any : Any Breakpoint :=
  {| fresh := Breakpoint_fresh; To := Breakpoint_To; From := Breakpoint_From |}.

Lemma Breakpoint_To_value x : valid_Breakpoint x = true →
  is_value (Breakpoint_To x).
Proof. unfold valid_Breakpoint, Breakpoint_To. solve_value. Qed.

Lemma Breakpoint_From_sim j j' this : jsim j j' →
  Breakpoint_From j this = Breakpoint_From j' this.
Proof. unfold Breakpoint_From. solve_sim. Qed.

Lemma Breakpoint_round_trip x : valid_Breakpoint x = true →
  Breakpoint_From (Breakpoint_To x) Breakpoint_fresh = x.
Proof. destruct x. unfold valid_Breakpoint, Breakpoint_From, Breakpoint_To. simpl. solve_round_trip. Qed.

#[export] Instance Breakpoint_Codec : Codec Breakpoint.
Proof.
  codec Breakpoint_Any valid_Breakpoint Breakpoint_To_value Breakpoint_From_sim
    Breakpoint_round_trip.
Defined.

(** The identifier of a module is a number or a string; a number is appended to the identifier
    the object had ([id << nId]). *)
Definition read_module_id (json : Json) (id : text) : text :=
  let nId := get_number_as_int wxNOT_FOUND json in
  if nId =? wxNOT_FOUND then get_string json else id ++ dec nId.
#[global] Arguments read_module_id : simpl never.

Lemma read_module_id_sim j j' id : jsim j j' → read_module_id j id = read_module_id j' id.
Proof.
  intros Hj. unfold read_module_id.
  by rewrite (get_number_as_int_sim _ j j'), (get_string_sim j j') by done.
Qed.
Hint Resolve read_module_id_sim : jsim.

Record DapModule := mkDapModule {
  DapModule_id : text;
  DapModule_name : text;
  DapModule_path : text;
  DapModule_isOptimized : bool;
  DapModule_isUserCode : bool;
  DapModule_version : text;
  DapModule_symbolStatus : text;
  DapModule_symbolFilePath : text;
  DapModule_dateTimeStamp : text;
  DapModule_addressRange : text;
}.
Definition DapModule_fresh : DapModule :=
  mkDapModule [] [] [] false false [] [] [] [] [].

Definition DapModule_To (x : DapModule) : Json :=
  let json := CreateObject in
  let json := Add_string "id" (DapModule_id x) json in
  let json := Add_string "name" (DapModule_name x) json in
  let json := Add_string "path" (DapModule_path x) json in
  let json := Add_string "version" (DapModule_version x) json in
  let json := Add_string "symbolStatus" (DapModule_symbolStatus x) json in
  let json := Add_string "symbolFilePath" (DapModule_symbolFilePath x) json in
  let json := Add_string "dateTimeStamp" (DapModule_dateTimeStamp x) json in
  let json := Add_string "addressRange" (DapModule_addressRange x) json in
  let json := Add_bool "isOptimized" (DapModule_isOptimized x) json in
  Add_bool "isUserCode" (DapModule_isUserCode x) json.

Definition DapModule_From (json : Json) (this : DapModule) : DapModule :=
  mkDapModule (read_module_id json.["id"] (DapModule_id this))
    (get_string json.["name"])
    (get_string json.["path"])
    (get_bool json.["isOptimized"])
    (get_bool json.["isUserCode"])
    (get_string json.["version"])
    (get_string json.["symbolStatus"])
    (get_string json.["symbolFilePath"])
    (get_string json.["dateTimeStamp"])
    (get_string json.["addressRange"]).

Definition valid_DapModule (x : DapModule) : bool :=
  no_nul (DapModule_id x) &&
  no_nul (DapModule_name x) &&
  no_nul (DapModule_path x) &&
  no_nul (DapModule_version x) &&
  no_nul (DapModule_symbolStatus x) &&
  no_nul (DapModule_symbolFilePath x) &&
  no_nul (DapModule_dateTimeStamp x) &&
  no_nul (DapModule_addressRange x).

#[export] Instance DapModule_Any : Any DapModule :=
  {| fresh := DapModule_fresh; To := DapModule_To; From := DapModule_From |}.

Lemma DapModule_To_value x : valid_DapModule x = true →
  is_value (DapModule_To x).
Proof. unfold valid_DapModule, DapModule_To. solve_value. Qed.

Lemma DapModule_From_sim j j' this : jsim j j' →
  DapModule_From j this = DapModule_From j' this.
Proof. unfold DapModule_From. solve_sim. Qed.

Lemma DapModule_round_trip x : valid_DapModule x = true →
  DapModule_From (DapModule_To x) DapModule_fresh = x.
Proof.
  destruct x. unfold valid_DapModule, DapModule_From, DapModule_To. simpl.
  solve_round_trip.
Qed.

#[export] Instance DapModule_Codec : Codec DapModule.
Proof.
  codec DapModule_Any valid_DapModule DapModule_To_value DapModule_From_sim
    DapModule_round_trip.
Defined.

Record InitializeRequestArguments := mkInitializeRequestArguments {
  InitializeRequestArguments_clientID : text;
  InitializeRequestArguments_clientName : text;
  InitializeRequestArguments_adapterID : text;
  InitializeRequestArguments_locale : text;
  InitializeRequestArguments_linesStartAt1 : bool;
  InitializeRequestArguments_columnsStartAt1 : bool;
  InitializeRequestArguments_supportsInvalidatedEvent : bool;
  InitializeRequestArguments_pathFormat : text;
}.
Definition InitializeRequestArguments_fresh : InitializeRequestArguments :=
  mkInitializeRequestArguments [] [] [] "en-US" false false false "path".

Definition InitializeRequestArguments_To (x : InitializeRequestArguments) : Json :=
  let json := CreateObject in
  let json := Add_string "clientID" (InitializeRequestArguments_clientID x) json in
  let json := Add_string "clientName" (InitializeRequestArguments_clientName x) json in
  let json := Add_string "adapterID" (InitializeRequestArguments_adapterID x) json in
  let json := Add_string "locale" (InitializeRequestArguments_locale x) json in
  let json := Add_bool "linesStartAt1" (InitializeRequestArguments_linesStartAt1 x) json in
  let json := Add_bool "columnsStartAt1" (InitializeRequestArguments_columnsStartAt1 x) json in
  let json := Add_string "pathFormat" (InitializeRequestArguments_pathFormat x) json in
  Add_bool "supportsInvalidatedEvent" (InitializeRequestArguments_supportsInvalidatedEvent x) json.

Definition InitializeRequestArguments_From (json : Json) (this : InitializeRequestArguments) : InitializeRequestArguments :=
  mkInitializeRequestArguments (get_string json.["clientID"])
    (get_string json.["clientName"])
    (get_string json.["adapterID"])
    (get_string json.["locale"])
    (get_bool json.["linesStartAt1"])
    (get_bool json.["columnsStartAt1"])
    (get_bool json.["supportsInvalidatedEvent"])
    (get_string json.["pathFormat"]).

Definition valid_InitializeRequestArguments (x : InitializeRequestArguments) : bool :=
  no_nul (InitializeRequestArguments_clientID x) &&
  no_nul (InitializeRequestArguments_clientName x) &&
  no_nul (InitializeRequestArguments_adapterID x) &&
  no_nul (InitializeRequestArguments_locale x) &&
  no_nul (InitializeRequestArguments_pathFormat x).

#[export] Instance InitializeRequestArguments_Any : Any InitializeRequestArguments :=
  {| fresh := InitializeRequestArguments_fresh; To := InitializeRequestArguments_To; From := InitializeRequestArguments_From |}.

Lemma InitializeRequestArguments_To_value x : valid_InitializeRequestArguments x = true →
  is_value (InitializeRequestArguments_To x).
Proof. unfold valid_InitializeRequestArguments, InitializeRequestArguments_To. solve_value. Qed.

Lemma InitializeRequestArguments_From_sim j j' this : jsim j j' →
  InitializeRequestArguments_From j this = InitializeRequestArguments_From j' this.
Proof. unfold InitializeRequestArguments_From. solve_sim. Qed.

Lemma InitializeRequestArguments_round_trip x : valid_InitializeRequestArguments x = true →
  InitializeRequestArguments_From (InitializeRequestArguments_To x) InitializeRequestArguments_fresh = x.
Proof. destruct x. unfold valid_InitializeRequestArguments, InitializeRequestArguments_From, InitializeRequestArguments_To. simpl. solve_round_trip. Qed.

#[export] Instance InitializeRequestArguments_Codec : Codec InitializeRequestArguments.
Proof.
  codec InitializeRequestArguments_Any valid_InitializeRequestArguments InitializeRequestArguments_To_value InitializeRequestArguments_From_sim
    InitializeRequestArguments_round_trip.
Defined.

Record AttachRequestArguments := mkAttachRequestArguments {
  AttachRequestArguments_pid : Z;
  AttachRequestArguments_arguments : list text;
}.
Definition AttachRequestArguments_fresh : AttachRequestArguments :=
  mkAttachRequestArguments wxNOT_FOUND [].

Definition AttachRequestArguments_To (x : AttachRequestArguments) : Json :=
  let json := CreateObject in
  let json := Add_strings "arguments" (AttachRequestArguments_arguments x) json in
  let json := Add_int "pid" (AttachRequestArguments_pid x) json in
  let json := Add_bool "redirectOutput" true json in
  AddArray_then "debugOptions"
    (λ a, Add_string [] "ShowReturnValue" (Add_string [] "RedirectOutput" a)) json.

Definition AttachRequestArguments_From (json : Json) (this : AttachRequestArguments) : AttachRequestArguments :=
  mkAttachRequestArguments (get_integer json.["pid"])
    (GetStringArray json.["arguments"]).

Definition valid_AttachRequestArguments (x : AttachRequestArguments) : bool :=
  is_int (AttachRequestArguments_pid x) &&
  forallb no_nul (AttachRequestArguments_arguments x).

#[export] Instance AttachRequestArguments_Any : Any AttachRequestArguments :=
  {| fresh := AttachRequestArguments_fresh; To := AttachRequestArguments_To; From := AttachRequestArguments_From |}.

Lemma AttachRequestArguments_To_value x : valid_AttachRequestArguments x = true →
  is_value (AttachRequestArguments_To x).
Proof.
  unfold valid_AttachRequestArguments, AttachRequestArguments_To. intros. valid_inv.
  apply object_value, (object_Add_strings "debugOptions" [lit "RedirectOutput"; lit "ShowReturnValue"]);
    [done..|]. solve_value.
Qed.

Lemma AttachRequestArguments_From_sim j j' this : jsim j j' →
  AttachRequestArguments_From j this = AttachRequestArguments_From j' this.
Proof. unfold AttachRequestArguments_From. solve_sim. Qed.

Lemma AttachRequestArguments_round_trip x : valid_AttachRequestArguments x = true →
  AttachRequestArguments_From (AttachRequestArguments_To x) AttachRequestArguments_fresh = x.
Proof.
  unfold valid_AttachRequestArguments, AttachRequestArguments_From, AttachRequestArguments_To.
  change (AddArray_then "debugOptions" _)
    with (Add_strings "debugOptions" [lit "RedirectOutput"; lit "ShowReturnValue"]).
  destruct x. simpl. solve_round_trip.
Qed.

#[export] Instance AttachRequestArguments_Codec : Codec AttachRequestArguments.
Proof.
  codec AttachRequestArguments_Any valid_AttachRequestArguments AttachRequestArguments_To_value AttachRequestArguments_From_sim
    AttachRequestArguments_round_trip.
Defined.

(** [From] reads [line] from the property "restart", [column] twice and [endLine] never. *)
Record BreakpointLocationsArguments := mkBreakpointLocationsArguments {
  BreakpointLocationsArguments_source : Source;
  BreakpointLocationsArguments_line : Z;
  BreakpointLocationsArguments_column : Z;
  BreakpointLocationsArguments_endLine : Z;
  BreakpointLocationsArguments_endColumn : Z;
}.
Definition BreakpointLocationsArguments_fresh : BreakpointLocationsArguments :=
  mkBreakpointLocationsArguments fresh (-1) (-1) (-1) (-1).

Definition BreakpointLocationsArguments_To (x : BreakpointLocationsArguments) : Json :=
  let json := CreateObject in
  let json := Add_json "source" (To (BreakpointLocationsArguments_source x)) json in
  let json := Add_int "line" (BreakpointLocationsArguments_line x) json in
  let json := Add_int "column" (BreakpointLocationsArguments_column x) json in
  let json := Add_int "endLine" (BreakpointLocationsArguments_endLine x) json in
  Add_int "endColumn" (BreakpointLocationsArguments_endColumn x) json.

Definition BreakpointLocationsArguments_From (json : Json) (this : BreakpointLocationsArguments) : BreakpointLocationsArguments :=
  mkBreakpointLocationsArguments (From json.["source"] (BreakpointLocationsArguments_source this))
    (GetInteger (BreakpointLocationsArguments_line this) json.["restart"])
    (let column := GetInteger (BreakpointLocationsArguments_column this) json.["column"] in
     GetInteger column json.["column"])
    (BreakpointLocationsArguments_endLine this)
    (GetInteger (BreakpointLocationsArguments_endColumn this) json.["endColumn"]).

Definition valid_BreakpointLocationsArguments (x : BreakpointLocationsArguments) : bool :=
  valid (BreakpointLocationsArguments_source x) &&
  ((BreakpointLocationsArguments_line x) =? -1) &&
  is_int (BreakpointLocationsArguments_column x) &&
  ((BreakpointLocationsArguments_endLine x) =? -1) &&
  is_int (BreakpointLocationsArguments_endColumn x).

#[export] Instance BreakpointLocationsArguments_Any : Any BreakpointLocationsArguments :=
  {| fresh := BreakpointLocationsArguments_fresh; To := BreakpointLocationsArguments_To; From := BreakpointLocationsArguments_From |}.

Lemma BreakpointLocationsArguments_To_value x : valid_BreakpointLocationsArguments x = true →
  is_value (BreakpointLocationsArguments_To x).
Proof. unfold valid_BreakpointLocationsArguments, BreakpointLocationsArguments_To. solve_value. Qed.

Lemma BreakpointLocationsArguments_From_sim j j' this : jsim j j' →
  BreakpointLocationsArguments_From j this = BreakpointLocationsArguments_From j' this.
Proof.
  intros Hj. unfold BreakpointLocationsArguments_From. cbv zeta.
  assert (∀ d, GetInteger d j.["column"] = GetInteger d j'.["column"]) as Hc
    by eauto with jsim.
  rewrite !Hc. f_equal; eauto 6 with jsim.
Qed.

Lemma BreakpointLocationsArguments_round_trip x : valid_BreakpointLocationsArguments x = true →
  BreakpointLocationsArguments_From (BreakpointLocationsArguments_To x) BreakpointLocationsArguments_fresh = x.
Proof. destruct x. unfold valid_BreakpointLocationsArguments, BreakpointLocationsArguments_From, BreakpointLocationsArguments_To. simpl. solve_round_trip. Qed.

#[export] Instance BreakpointLocationsArguments_Codec : Codec BreakpointLocationsArguments.
Proof.
  codec BreakpointLocationsArguments_Any valid_BreakpointLocationsArguments BreakpointLocationsArguments_To_value BreakpointLocationsArguments_From_sim
    BreakpointLocationsArguments_round_trip.
Defined.

(** A false [singleThread] is read back as the default, true: see [GetBool]. *)
Record StepArguments := mkStepArguments {
  StepArguments_threadId : Z;
  StepArguments_singleThread : bool;
  StepArguments_granularity : text;
}.
Definition StepArguments_fresh : StepArguments :=
  mkStepArguments wxNOT_FOUND true "line".

Definition StepArguments_To (x : StepArguments) : Json :=
  let json := CreateObject in
  let json := Add_int "threadId" (StepArguments_threadId x) json in
  let json := Add_bool "singleThread" (StepArguments_singleThread x) json in
  Add_string "granularity" (StepArguments_granularity x) json.

Definition StepArguments_From (json : Json) (this : StepArguments) : StepArguments :=
  mkStepArguments (GetInteger wxNOT_FOUND json.["threadId"])
    (GetBool (StepArguments_singleThread this) json.["singleThread"])
    (GetString (StepArguments_granularity this) json.["granularity"]).

Definition valid_StepArguments (x : StepArguments) : bool :=
  is_int (StepArguments_threadId x) &&
  (StepArguments_singleThread x) &&
  no_nul (StepArguments_granularity x).

#[export] Instance StepArguments_Any : Any StepArguments :=
  {| fresh := StepArguments_fresh; To := StepArguments_To; From := StepArguments_From |}.

Lemma StepArguments_To_value x : valid_StepArguments x = true →
  is_value (StepArguments_To x).
Proof. unfold valid_StepArguments, StepArguments_To. solve_value. Qed.

Lemma StepArguments_From_sim j j' this : jsim j j' →
  StepArguments_From j this = StepArguments_From j' this.
Proof. unfold StepArguments_From. solve_sim. Qed.

Lemma StepArguments_round_trip x : valid_StepArguments x = true →
  StepArguments_From (StepArguments_To x) StepArguments_fresh = x.
Proof. destruct x. unfold valid_StepArguments, StepArguments_From, StepArguments_To. simpl. solve_round_trip. Qed.

#[export] Instance StepArguments_Codec : Codec StepArguments.
Proof.
  codec StepArguments_Any valid_StepArguments StepArguments_To_value StepArguments_From_sim
    StepArguments_round_trip.
Defined.

(** The same properties are read as for [BreakpointLocationsArguments]. *)
Record BreakpointLocation := mkBreakpointLocation {
  BreakpointLocation_line : Z;
  BreakpointLocation_column : Z;
  BreakpointLocation_endLine : Z;
  BreakpointLocation_endColumn : Z;
}.
Definition BreakpointLocation_fresh : BreakpointLocation :=
  mkBreakpointLocation (-1) (-1) (-1) (-1).

Definition BreakpointLocation_To (x : BreakpointLocation) : Json :=
  let json := CreateObject in
  let json := Add_int "line" (BreakpointLocation_line x) json in
  let json := Add_int "column" (BreakpointLocation_column x) json in
  let json := Add_int "endLine" (BreakpointLocation_endLine x) json in
  Add_int "endColumn" (BreakpointLocation_endColumn x) json.

Definition BreakpointLocation_From (json : Json) (this : BreakpointLocation) : BreakpointLocation :=
  mkBreakpointLocation (GetInteger (BreakpointLocation_line this) json.["restart"])
    (let column := GetInteger (BreakpointLocation_column this) json.["column"] in
     GetInteger column json.["column"])
    (BreakpointLocation_endLine this)
    (GetInteger (BreakpointLocation_endColumn this) json.["endColumn"]).

Definition valid_BreakpointLocation (x : BreakpointLocation) : bool :=
  ((BreakpointLocation_line x) =? -1) &&
  is_int (BreakpointLocation_column x) &&
  ((BreakpointLocation_endLine x) =? -1) &&
  is_int (BreakpointLocation_endColumn x).

#[export] Instance BreakpointLocation_Any : Any BreakpointLocation :=
  {| fresh := BreakpointLocation_fresh; To := BreakpointLocation_To; From := BreakpointLocation_From |}.

Lemma BreakpointLocation_To_value x : valid_BreakpointLocation x = true →
  is_value (BreakpointLocation_To x).
Proof. unfold valid_BreakpointLocation, BreakpointLocation_To. solve_value. Qed.

Lemma BreakpointLocation_From_sim j j' this : jsim j j' →
  BreakpointLocation_From j this = BreakpointLocation_From j' this.
Proof.
  intros Hj. unfold BreakpointLocation_From. cbv zeta.
  assert (∀ d, GetInteger d j.["column"] = GetInteger d j'.["column"]) as Hc
    by eauto with jsim.
  rewrite !Hc. f_equal; eauto 6 with jsim.
Qed.

Lemma BreakpointLocation_round_trip x : valid_BreakpointLocation x = true →
  BreakpointLocation_From (BreakpointLocation_To x) BreakpointLocation_fresh = x.
Proof. destruct x. unfold valid_BreakpointLocation, BreakpointLocation_From, BreakpointLocation_To. simpl. solve_round_trip. Qed.

#[export] Instance BreakpointLocation_Codec : Codec BreakpointLocation.
Proof.
  codec BreakpointLocation_Any valid_BreakpointLocation BreakpointLocation_To_value BreakpointLocation_From_sim
    BreakpointLocation_round_trip.
Defined.

Record Thread := mkThread {
  Thread_id : Z;
  Thread_name : text;
}.
Definition Thread_fresh : Thread :=
  mkThread (-1) [].

Definition Thread_To (x : Thread) : Json :=
  let json := CreateObject in
  let json := Add_int "id" (Thread_id x) json in
  Add_string "name" (Thread_name x) json.

Definition Thread_From (json : Json) (this : Thread) : Thread :=
  mkThread (GetInteger (Thread_id this) json.["id"])
    (get_string json.["name"]).

Definition valid_Thread (x : Thread) : bool :=
  is_int (Thread_id x) &&
  no_nul (Thread_name x).

#[export] Instance Thread_Any : Any Thread :=
  {| fresh := Thread_fresh; To := Thread_To; From := Thread_From |}.

Lemma Thread_To_value x : valid_Thread x = true →
  is_value (Thread_To x).
Proof. unfold valid_Thread, Thread_To. solve_value. Qed.

Lemma Thread_From_sim j j' this : jsim j j' →
  Thread_From j this = Thread_From j' this.
Proof. unfold Thread_From. solve_sim. Qed.

Lemma Thread_round_trip x : valid_Thread x = true →
  Thread_From (Thread_To x) Thread_fresh = x.
Proof. destruct x. unfold valid_Thread, Thread_From, Thread_To. simpl. solve_round_trip. Qed.

#[export] Instance Thread_Codec : Codec Thread.
Proof.
  codec Thread_Any valid_Thread Thread_To_value Thread_From_sim
    Thread_round_trip.
Defined.

Record SourceBreakpoint := mkSourceBreakpoint {
  SourceBreakpoint_line : Z;
  SourceBreakpoint_condition : text;
}.
Definition SourceBreakpoint_fresh : SourceBreakpoint :=
  mkSourceBreakpoint (-1) [].

Definition SourceBreakpoint_To (x : SourceBreakpoint) : Json :=
  let json := CreateObject in
  let json := Add_int "line" (SourceBreakpoint_line x) json in
  Add_string "condition" (SourceBreakpoint_condition x) json.

Definition SourceBreakpoint_From (json : Json) (this : SourceBreakpoint) : SourceBreakpoint :=
  mkSourceBreakpoint (GetInteger (SourceBreakpoint_line this) json.["line"])
    (GetString (SourceBreakpoint_condition this) json.["condition"]).

Definition valid_SourceBreakpoint (x : SourceBreakpoint) : bool :=
  is_int (SourceBreakpoint_line x) &&
  no_nul (SourceBreakpoint_condition x).

#[export] Instance SourceBreakpoint_Any : Any SourceBreakpoint :=
  {| fresh := SourceBreakpoint_fresh; To := SourceBreakpoint_To; From := SourceBreakpoint_From |}.

Lemma SourceBreakpoint_To_value x : valid_SourceBreakpoint x = true →
  is_value (SourceBreakpoint_To x).
Proof. unfold valid_SourceBreakpoint, SourceBreakpoint_To. solve_value. Qed.

Lemma SourceBreakpoint_From_sim j j' this : jsim j j' →
  SourceBreakpoint_From j this = SourceBreakpoint_From j' this.
Proof. unfold SourceBreakpoint_From. solve_sim. Qed.

Lemma SourceBreakpoint_round_trip x : valid_SourceBreakpoint x = true →
  SourceBreakpoint_From (SourceBreakpoint_To x) SourceBreakpoint_fresh = x.
Proof. destruct x. unfold valid_SourceBreakpoint, SourceBreakpoint_From, SourceBreakpoint_To. simpl. solve_round_trip. Qed.

#[export] Instance SourceBreakpoint_Codec : Codec SourceBreakpoint.
Proof.
  codec SourceBreakpoint_Any valid_SourceBreakpoint SourceBreakpoint_To_value SourceBreakpoint_From_sim
    SourceBreakpoint_round_trip.
Defined.

Record FunctionBreakpoint := mkFunctionBreakpoint {
  FunctionBreakpoint_name : text;
  FunctionBreakpoint_condition : text;
}.
Definition FunctionBreakpoint_fresh : FunctionBreakpoint :=
  mkFunctionBreakpoint [] [].

Definition FunctionBreakpoint_To (x : FunctionBreakpoint) : Json :=
  let json := CreateObject in
  let json := Add_string "name" (FunctionBreakpoint_name x) json in
  Add_string "condition" (FunctionBreakpoint_condition x) json.

Definition FunctionBreakpoint_From (json : Json) (this : FunctionBreakpoint) : FunctionBreakpoint :=
  mkFunctionBreakpoint (GetString (FunctionBreakpoint_name this) json.["name"])
    (GetString (FunctionBreakpoint_condition this) json.["condition"]).

Definition valid_FunctionBreakpoint (x : FunctionBreakpoint) : bool :=
  no_nul (FunctionBreakpoint_name x) &&
  no_nul (FunctionBreakpoint_condition x).

#[export] Instance FunctionBreakpoint_Any : Any FunctionBreakpoint :=
  {| fresh := FunctionBreakpoint_fresh; To := FunctionBreakpoint_To; From := FunctionBreakpoint_From |}.

Lemma FunctionBreakpoint_To_value x : valid_FunctionBreakpoint x = true →
  is_value (FunctionBreakpoint_To x).
Proof. unfold valid_FunctionBreakpoint, FunctionBreakpoint_To. solve_value. Qed.

Lemma FunctionBreakpoint_From_sim j j' this : jsim j j' →
  FunctionBreakpoint_From j this = FunctionBreakpoint_From j' this.
Proof. unfold FunctionBreakpoint_From. solve_sim. Qed.

Lemma FunctionBreakpoint_round_trip x : valid_FunctionBreakpoint x = true →
  FunctionBreakpoint_From (FunctionBreakpoint_To x) FunctionBreakpoint_fresh = x.
Proof. destruct x. unfold valid_FunctionBreakpoint, FunctionBreakpoint_From, FunctionBreakpoint_To. simpl. solve_round_trip. Qed.

#[export] Instance FunctionBreakpoint_Codec : Codec FunctionBreakpoint.
Proof.
  codec FunctionBreakpoint_Any valid_FunctionBreakpoint FunctionBreakpoint_To_value FunctionBreakpoint_From_sim
    FunctionBreakpoint_round_trip.
Defined.

Record SetBreakpointsArguments := mkSetBreakpointsArguments {
  SetBreakpointsArguments_source : Source;
  SetBreakpointsArguments_breakpoints : list SourceBreakpoint;
}.
Definition SetBreakpointsArguments_fresh : SetBreakpointsArguments :=
  mkSetBreakpointsArguments fresh [].

Definition SetBreakpointsArguments_To (x : SetBreakpointsArguments) : Json :=
  let json := CreateObject in
  let json := Add_json "source" (To (SetBreakpointsArguments_source x)) json in
  AddArray_then "breakpoints" (add_all (SetBreakpointsArguments_breakpoints x)) json.

Definition SetBreakpointsArguments_From (json : Json) (this : SetBreakpointsArguments) : SetBreakpointsArguments :=
  mkSetBreakpointsArguments (From json.["source"] (SetBreakpointsArguments_source this))
    (read_array json.["breakpoints"]).

Definition valid_SetBreakpointsArguments (x : SetBreakpointsArguments) : bool :=
  valid (SetBreakpointsArguments_source x) &&
  forallb valid (SetBreakpointsArguments_breakpoints x).

#[export] Instance SetBreakpointsArguments_Any : Any SetBreakpointsArguments :=
  {| fresh := SetBreakpointsArguments_fresh; To := SetBreakpointsArguments_To; From := SetBreakpointsArguments_From |}.

Lemma SetBreakpointsArguments_To_value x : valid_SetBreakpointsArguments x = true →
  is_value (SetBreakpointsArguments_To x).
Proof. unfold valid_SetBreakpointsArguments, SetBreakpointsArguments_To. solve_value. Qed.

Lemma SetBreakpointsArguments_From_sim j j' this : jsim j j' →
  SetBreakpointsArguments_From j this = SetBreakpointsArguments_From j' this.
Proof. unfold SetBreakpointsArguments_From. solve_sim. Qed.

Lemma SetBreakpointsArguments_round_trip x : valid_SetBreakpointsArguments x = true →
  SetBreakpointsArguments_From (SetBreakpointsArguments_To x) SetBreakpointsArguments_fresh = x.
Proof. destruct x. unfold valid_SetBreakpointsArguments, SetBreakpointsArguments_From, SetBreakpointsArguments_To. simpl. solve_round_trip. Qed.

#[export] Instance SetBreakpointsArguments_Codec : Codec SetBreakpointsArguments.
Proof.
  codec SetBreakpointsArguments_Any valid_SetBreakpointsArguments SetBreakpointsArguments_To_value SetBreakpointsArguments_From_sim
    SetBreakpointsArguments_round_trip.
Defined.

Record SetFunctionBreakpointsArguments := mkSetFunctionBreakpointsArguments {
  SetFunctionBreakpointsArguments_breakpoints : list FunctionBreakpoint;
}.
Definition SetFunctionBreakpointsArguments_fresh : SetFunctionBreakpointsArguments :=
  mkSetFunctionBreakpointsArguments [].

Definition SetFunctionBreakpointsArguments_To (x : SetFunctionBreakpointsArguments) : Json :=
  let json := CreateObject in
  AddArray_then "breakpoints" (add_all (SetFunctionBreakpointsArguments_breakpoints x)) json.

Definition SetFunctionBreakpointsArguments_From (json : Json) (this : SetFunctionBreakpointsArguments) : SetFunctionBreakpointsArguments :=
  mkSetFunctionBreakpointsArguments (read_array json.["breakpoints"]).

Definition valid_SetFunctionBreakpointsArguments (x : SetFunctionBreakpointsArguments) : bool :=
  forallb valid (SetFunctionBreakpointsArguments_breakpoints x).

#[export] Instance SetFunctionBreakpointsArguments_Any : Any SetFunctionBreakpointsArguments :=
  {| fresh := SetFunctionBreakpointsArguments_fresh; To := SetFunctionBreakpointsArguments_To; From := SetFunctionBreakpointsArguments_From |}.

Lemma SetFunctionBreakpointsArguments_To_value x : valid_SetFunctionBreakpointsArguments x = true →
  is_value (SetFunctionBreakpointsArguments_To x).
Proof. unfold valid_SetFunctionBreakpointsArguments, SetFunctionBreakpointsArguments_To. solve_value. Qed.

Lemma SetFunctionBreakpointsArguments_From_sim j j' this : jsim j j' →
  SetFunctionBreakpointsArguments_From j this = SetFunctionBreakpointsArguments_From j' this.
Proof. unfold SetFunctionBreakpointsArguments_From. solve_sim. Qed.

Lemma SetFunctionBreakpointsArguments_round_trip x : valid_SetFunctionBreakpointsArguments x = true →
  SetFunctionBreakpointsArguments_From (SetFunctionBreakpointsArguments_To x) SetFunctionBreakpointsArguments_fresh = x.
Proof. destruct x. unfold valid_SetFunctionBreakpointsArguments, SetFunctionBreakpointsArguments_From, SetFunctionBreakpointsArguments_To. simpl. solve_round_trip. Qed.

#[export] Instance SetFunctionBreakpointsArguments_Codec : Codec SetFunctionBreakpointsArguments.
Proof.
  codec SetFunctionBreakpointsArguments_Any valid_SetFunctionBreakpointsArguments SetFunctionBreakpointsArguments_To_value SetFunctionBreakpointsArguments_From_sim
    SetFunctionBreakpointsArguments_round_trip.
Defined.

Record ContinueArguments := mkContinueArguments {
  ContinueArguments_threadId : Z;
  ContinueArguments_singleThread : bool;
}.
Definition ContinueArguments_fresh : ContinueArguments :=
  mkContinueArguments (-1) false.

Definition ContinueArguments_To (x : ContinueArguments) : Json :=
  let json := CreateObject in
  let json := Add_int "threadId" (ContinueArguments_threadId x) json in
  Add_bool "singleThread" (ContinueArguments_singleThread x) json.

Definition ContinueArguments_From (json : Json) (this : ContinueArguments) : ContinueArguments :=
  mkContinueArguments (get_integer json.["threadId"])
    (get_bool json.["singleThread"]).

Definition valid_ContinueArguments (x : ContinueArguments) : bool :=
  is_int (ContinueArguments_threadId x).

#[export] Instance ContinueArguments_Any : Any ContinueArguments :=
  {| fresh := ContinueArguments_fresh; To := ContinueArguments_To; From := ContinueArguments_From |}.

Lemma ContinueArguments_To_value x : valid_ContinueArguments x = true →
  is_value (ContinueArguments_To x).
Proof. unfold valid_ContinueArguments, ContinueArguments_To. solve_value. Qed.

Lemma ContinueArguments_From_sim j j' this : jsim j j' →
  ContinueArguments_From j this = ContinueArguments_From j' this.
Proof. unfold ContinueArguments_From. solve_sim. Qed.

Lemma ContinueArguments_round_trip x : valid_ContinueArguments x = true →
  ContinueArguments_From (ContinueArguments_To x) ContinueArguments_fresh = x.
Proof. destruct x. unfold valid_ContinueArguments, ContinueArguments_From, ContinueArguments_To. simpl. solve_round_trip. Qed.

#[export] Instance ContinueArguments_Codec : Codec ContinueArguments.
Proof.
  codec ContinueArguments_Any valid_ContinueArguments ContinueArguments_To_value ContinueArguments_From_sim
    ContinueArguments_round_trip.
Defined.

Record NextArguments := mkNextArguments {
  NextArguments_threadId : Z;
  NextArguments_granularity : text;
  NextArguments_singleThread : bool;
}.
Definition NextArguments_fresh : NextArguments :=
  mkNextArguments (-1) "line" true.

Definition NextArguments_To (x : NextArguments) : Json :=
  let json := CreateObject in
  let json := Add_int "threadId" (NextArguments_threadId x) json in
  let json := Add_string "granularity" (NextArguments_granularity x) json in
  Add_bool "singleThread" (NextArguments_singleThread x) json.

Definition NextArguments_From (json : Json) (this : NextArguments) : NextArguments :=
  mkNextArguments (get_integer json.["threadId"])
    (get_string json.["granularity"])
    (get_bool json.["singleThread"]).

Definition valid_NextArguments (x : NextArguments) : bool :=
  is_int (NextArguments_threadId x) &&
  no_nul (NextArguments_granularity x).

#[export] Instance NextArguments_Any : Any NextArguments :=
  {| fresh := NextArguments_fresh; To := NextArguments_To; From := NextArguments_From |}.

Lemma NextArguments_To_value x : valid_NextArguments x = true →
  is_value (NextArguments_To x).
Proof. unfold valid_NextArguments, NextArguments_To. solve_value. Qed.

Lemma NextArguments_From_sim j j' this : jsim j j' →
  NextArguments_From j this = NextArguments_From j' this.
Proof. unfold NextArguments_From. solve_sim. Qed.

Lemma NextArguments_round_trip x : valid_NextArguments x = true →
  NextArguments_From (NextArguments_To x) NextArguments_fresh = x.
Proof. destruct x. unfold valid_NextArguments, NextArguments_From, NextArguments_To. simpl. solve_round_trip. Qed.

#[export] Instance NextArguments_Codec : Codec NextArguments.
Proof.
  codec NextArguments_Any valid_NextArguments NextArguments_To_value NextArguments_From_sim
    NextArguments_round_trip.
Defined.

Record VariablePresentationHint := mkVariablePresentationHint {
  VariablePresentationHint_kind : text;
  VariablePresentationHint_attributes : list text;
  VariablePresentationHint_visibility : text;
}.
Definition VariablePresentationHint_fresh : VariablePresentationHint :=
  mkVariablePresentationHint [] [] [].

Definition VariablePresentationHint_To (x : VariablePresentationHint) : Json :=
  let json := CreateObject in
  let json := Add_string "kind" (VariablePresentationHint_kind x) json in
  let json := Add_string "visibility" (VariablePresentationHint_visibility x) json in
  Add_strings "attributes" (VariablePresentationHint_attributes x) json.

Definition VariablePresentationHint_From (json : Json) (this : VariablePresentationHint) : VariablePresentationHint :=
  mkVariablePresentationHint (get_string json.["kind"])
    (GetStringArray json.["attributes"])
    (get_string json.["visibility"]).

Definition valid_VariablePresentationHint (x : VariablePresentationHint) : bool :=
  no_nul (VariablePresentationHint_kind x) &&
  forallb no_nul (VariablePresentationHint_attributes x) &&
  no_nul (VariablePresentationHint_visibility x).

#[export] Instance VariablePresentationHint_Any : Any VariablePresentationHint :=
  {| fresh := VariablePresentationHint_fresh; To := VariablePresentationHint_To; From := VariablePresentationHint_From |}.

Lemma VariablePresentationHint_To_value x : valid_VariablePresentationHint x = true →
  is_value (VariablePresentationHint_To x).
Proof. unfold valid_VariablePresentationHint, VariablePresentationHint_To. solve_value. Qed.

Lemma VariablePresentationHint_From_sim j j' this : jsim j j' →
  VariablePresentationHint_From j this = VariablePresentationHint_From j' this.
Proof. unfold VariablePresentationHint_From. solve_sim. Qed.

Lemma VariablePresentationHint_round_trip x : valid_VariablePresentationHint x = true →
  VariablePresentationHint_From (VariablePresentationHint_To x) VariablePresentationHint_fresh = x.
Proof. destruct x. unfold valid_VariablePresentationHint, VariablePresentationHint_From, VariablePresentationHint_To. simpl. solve_round_trip. Qed.

#[export] Instance VariablePresentationHint_Codec : Codec VariablePresentationHint.
Proof.
  codec VariablePresentationHint_Any valid_VariablePresentationHint VariablePresentationHint_To_value VariablePresentationHint_From_sim
    VariablePresentationHint_round_trip.
Defined.

Record DapVariable := mkDapVariable {
  DapVariable_name : text;
  DapVariable_value : text;
  DapVariable_type : text;
  DapVariable_variablesReference : Z;
  DapVariable_presentationHint : VariablePresentationHint;
}.
Definition DapVariable_fresh : DapVariable :=
  mkDapVariable [] [] [] 0 fresh.

Definition DapVariable_To (x : DapVariable) : Json :=
  let json := CreateObject in
  let json := Add_string "name" (DapVariable_name x) json in
  let json := Add_string "value" (DapVariable_value x) json in
  let json := Add_string "type" (DapVariable_type x) json in
  let json := Add_int "variablesReference" (DapVariable_variablesReference x) json in
  Add_json "presentationHint" (To (DapVariable_presentationHint x)) json.

Definition DapVariable_From (json : Json) (this : DapVariable) : DapVariable :=
  mkDapVariable (get_string json.["name"])
    (get_string json.["value"])
    (get_string json.["type"])
    (get_integer json.["variablesReference"])
    (From json.["presentationHint"] (DapVariable_presentationHint this)).

Definition valid_DapVariable (x : DapVariable) : bool :=
  no_nul (DapVariable_name x) &&
  no_nul (DapVariable_value x) &&
  no_nul (DapVariable_type x) &&
  is_int (DapVariable_variablesReference x) &&
  valid (DapVariable_presentationHint x).

#[export] Instance DapVariable_Any : Any DapVariable :=
  {| fresh := DapVariable_fresh; To := DapVariable_To; From := DapVariable_From |}.

Lemma DapVariable_To_value x : valid_DapVariable x = true →
  is_value (DapVariable_To x).
Proof. unfold valid_DapVariable, DapVariable_To. solve_value. Qed.

Lemma DapVariable_From_sim j j' this : jsim j j' →
  DapVariable_From j this = DapVariable_From j' this.
Proof. unfold DapVariable_From. solve_sim. Qed.

Lemma DapVariable_round_trip x : valid_DapVariable x = true →
  DapVariable_From (DapVariable_To x) DapVariable_fresh = x.
Proof. destruct x. unfold valid_DapVariable, DapVariable_From, DapVariable_To. simpl. solve_round_trip. Qed.

#[export] Instance DapVariable_Codec : Codec DapVariable.
Proof.
  codec DapVariable_Any valid_DapVariable DapVariable_To_value DapVariable_From_sim
    DapVariable_round_trip.
Defined.

Record ScopesArguments := mkScopesArguments {
  ScopesArguments_frameId : Z;
}.
Definition ScopesArguments_fresh : ScopesArguments :=
  mkScopesArguments 0.

Definition ScopesArguments_To (x : ScopesArguments) : Json :=
  let json := CreateObject in
  Add_int "frameId" (ScopesArguments_frameId x) json.

Definition ScopesArguments_From (json : Json) (this : ScopesArguments) : ScopesArguments :=
  mkScopesArguments (get_number_as_int (-1) json.["frameId"]).

Definition valid_ScopesArguments (x : ScopesArguments) : bool :=
  is_int (ScopesArguments_frameId x).

#[export] Instance ScopesArguments_Any : Any ScopesArguments :=
  {| fresh := ScopesArguments_fresh; To := ScopesArguments_To; From := ScopesArguments_From |}.

Lemma ScopesArguments_To_value x : valid_ScopesArguments x = true →
  is_value (ScopesArguments_To x).
Proof. unfold valid_ScopesArguments, ScopesArguments_To. solve_value. Qed.

Lemma ScopesArguments_From_sim j j' this : jsim j j' →
  ScopesArguments_From j this = ScopesArguments_From j' this.
Proof. unfold ScopesArguments_From. solve_sim. Qed.

Lemma ScopesArguments_round_trip x : valid_ScopesArguments x = true →
  ScopesArguments_From (ScopesArguments_To x) ScopesArguments_fresh = x.
Proof. destruct x. unfold valid_ScopesArguments, ScopesArguments_From, ScopesArguments_To. simpl. solve_round_trip. Qed.

#[export] Instance ScopesArguments_Codec : Codec ScopesArguments.
Proof.
  codec ScopesArguments_Any valid_ScopesArguments ScopesArguments_To_value ScopesArguments_From_sim
    ScopesArguments_round_trip.
Defined.

Record Scope := mkScope {
  Scope_name : text;
  Scope_variablesReference : Z;
  Scope_expensive : bool;
}.
Definition Scope_fresh : Scope :=
  mkScope [] 0 false.

Definition Scope_To (x : Scope) : Json :=
  let json := CreateObject in
  let json := Add_string "name" (Scope_name x) json in
  let json := Add_int "variablesReference" (Scope_variablesReference x) json in
  Add_bool "expensive" (Scope_expensive x) json.

Definition Scope_From (json : Json) (this : Scope) : Scope :=
  mkScope (get_string json.["name"])
    (get_integer json.["variablesReference"])
    (get_bool json.["expensive"]).

Definition valid_Scope (x : Scope) : bool :=
  no_nul (Scope_name x) &&
  is_int (Scope_variablesReference x).

#[export] Instance Scope_Any : Any Scope :=
  {| fresh := Scope_fresh; To := Scope_To; From := Scope_From |}.

Lemma Scope_To_value x : valid_Scope x = true →
  is_value (Scope_To x).
Proof. unfold valid_Scope, Scope_To. solve_value. Qed.

Lemma Scope_From_sim j j' this : jsim j j' →
  Scope_From j this = Scope_From j' this.
Proof. unfold Scope_From. solve_sim. Qed.

Lemma Scope_round_trip x : valid_Scope x = true →
  Scope_From (Scope_To x) Scope_fresh = x.
Proof. destruct x. unfold valid_Scope, Scope_From, Scope_To. simpl. solve_round_trip. Qed.

#[export] Instance Scope_Codec : Codec Scope.
Proof.
  codec Scope_Any valid_Scope Scope_To_value Scope_From_sim
    Scope_round_trip.
Defined.

(** [startFrame] and [levels] are neither written nor read: their lines are disabled. *)
Record StackTraceArguments := mkStackTraceArguments {
  StackTraceArguments_threadId : Z;
  StackTraceArguments_startFrame : Z;
  StackTraceArguments_levels : Z;
}.
Definition StackTraceArguments_fresh : StackTraceArguments :=
  mkStackTraceArguments 0 0 0.

Definition StackTraceArguments_To (x : StackTraceArguments) : Json :=
  let json := CreateObject in
  Add_int "threadId" (StackTraceArguments_threadId x) json.

Definition StackTraceArguments_From (json : Json) (this : StackTraceArguments) : StackTraceArguments :=
  mkStackTraceArguments (get_integer json.["threadId"])
    (StackTraceArguments_startFrame this)
    (StackTraceArguments_levels this).

Definition valid_StackTraceArguments (x : StackTraceArguments) : bool :=
  is_int (StackTraceArguments_threadId x) &&
  ((StackTraceArguments_startFrame x) =? 0) &&
  ((StackTraceArguments_levels x) =? 0).

#[export] Instance StackTraceArguments_Any : Any StackTraceArguments :=
  {| fresh := StackTraceArguments_fresh; To := StackTraceArguments_To; From := StackTraceArguments_From |}.

Lemma StackTraceArguments_To_value x : valid_StackTraceArguments x = true →
  is_value (StackTraceArguments_To x).
Proof. unfold valid_StackTraceArguments, StackTraceArguments_To. solve_value. Qed.

Lemma StackTraceArguments_From_sim j j' this : jsim j j' →
  StackTraceArguments_From j this = StackTraceArguments_From j' this.
Proof. unfold StackTraceArguments_From. solve_sim. Qed.

Lemma StackTraceArguments_round_trip x : valid_StackTraceArguments x = true →
  StackTraceArguments_From (StackTraceArguments_To x) StackTraceArguments_fresh = x.
Proof. destruct x. unfold valid_StackTraceArguments, StackTraceArguments_From, StackTraceArguments_To. simpl. solve_round_trip. Qed.

#[export] Instance StackTraceArguments_Codec : Codec StackTraceArguments.
Proof.
  codec StackTraceArguments_Any valid_StackTraceArguments StackTraceArguments_To_value StackTraceArguments_From_sim
    StackTraceArguments_round_trip.
Defined.

Record ValueFormat := mkValueFormat {
  ValueFormat_hex : bool;
}.
Definition ValueFormat_fresh : ValueFormat :=
  mkValueFormat false.

Definition ValueFormat_To (x : ValueFormat) : Json :=
  let json := CreateObject in
  Add_bool "hex" (ValueFormat_hex x) json.

Definition ValueFormat_From (json : Json) (this : ValueFormat) : ValueFormat :=
  mkValueFormat (get_bool json.["hex"]).

Definition valid_ValueFormat (x : ValueFormat) : bool :=
  true.

#[export] Instance ValueFormat_Any : Any ValueFormat :=
  {| fresh := ValueFormat_fresh; To := ValueFormat_To; From := ValueFormat_From |}.

Lemma ValueFormat_To_value x : valid_ValueFormat x = true →
  is_value (ValueFormat_To x).
Proof. unfold valid_ValueFormat, ValueFormat_To. solve_value. Qed.

Lemma ValueFormat_From_sim j j' this : jsim j j' →
  ValueFormat_From j this = ValueFormat_From j' this.
Proof. unfold ValueFormat_From. solve_sim. Qed.

Lemma ValueFormat_round_trip x : valid_ValueFormat x = true →
  ValueFormat_From (ValueFormat_To x) ValueFormat_fresh = x.
Proof. destruct x. unfold valid_ValueFormat, ValueFormat_From, ValueFormat_To. simpl. solve_round_trip. Qed.

#[export] Instance ValueFormat_Codec : Codec ValueFormat.
Proof.
  codec ValueFormat_Any valid_ValueFormat ValueFormat_To_value ValueFormat_From_sim
    ValueFormat_round_trip.
Defined.

Record VariablesArguments := mkVariablesArguments {
  VariablesArguments_variablesReference : Z;
  VariablesArguments_format : ValueFormat;
  VariablesArguments_count : Z;
}.
Definition VariablesArguments_fresh : VariablesArguments :=
  mkVariablesArguments 0 fresh 0.

Definition VariablesArguments_To (x : VariablesArguments) : Json :=
  let json := CreateObject in
  let json := Add_int "variablesReference" (VariablesArguments_variablesReference x) json in
  let json := Add_int "count" (VariablesArguments_count x) json in
  Add_json "format" (To (VariablesArguments_format x)) json.

Definition VariablesArguments_From (json : Json) (this : VariablesArguments) : VariablesArguments :=
  mkVariablesArguments (get_integer json.["variablesReference"])
    (From json.["format"] (VariablesArguments_format this))
    (GetInteger 0 json.["count"]).

Definition valid_VariablesArguments (x : VariablesArguments) : bool :=
  is_int (VariablesArguments_variablesReference x) &&
  valid (VariablesArguments_format x) &&
  is_int (VariablesArguments_count x).

#[export] Instance VariablesArguments_Any : Any VariablesArguments :=
  {| fresh := VariablesArguments_fresh; To := VariablesArguments_To; From := VariablesArguments_From |}.

Lemma VariablesArguments_To_value x : valid_VariablesArguments x = true →
  is_value (VariablesArguments_To x).
Proof. unfold valid_VariablesArguments, VariablesArguments_To. solve_value. Qed.

Lemma VariablesArguments_From_sim j j' this : jsim j j' →
  VariablesArguments_From j this = VariablesArguments_From j' this.
Proof. unfold VariablesArguments_From. solve_sim. Qed.

Lemma VariablesArguments_round_trip x : valid_VariablesArguments x = true →
  VariablesArguments_From (VariablesArguments_To x) VariablesArguments_fresh = x.
Proof. destruct x. unfold valid_VariablesArguments, VariablesArguments_From, VariablesArguments_To. simpl. solve_round_trip. Qed.

#[export] Instance VariablesArguments_Codec : Codec VariablesArguments.
Proof.
  codec VariablesArguments_Any valid_VariablesArguments VariablesArguments_To_value VariablesArguments_From_sim
    VariablesArguments_round_trip.
Defined.

Record PauseArguments := mkPauseArguments {
  PauseArguments_threadId : Z;
}.
Definition PauseArguments_fresh : PauseArguments :=
  mkPauseArguments 0.

Definition PauseArguments_To (x : PauseArguments) : Json :=
  let json := CreateObject in
  Add_int "threadId" (PauseArguments_threadId x) json.

Definition PauseArguments_From (json : Json) (this : PauseArguments) : PauseArguments :=
  mkPauseArguments (GetInteger (PauseArguments_threadId this) json.["threadId"]).

Definition valid_PauseArguments (x : PauseArguments) : bool :=
  is_int (PauseArguments_threadId x).

#[export] Instance PauseArguments_Any : Any PauseArguments :=
  {| fresh := PauseArguments_fresh; To := PauseArguments_To; From := PauseArguments_From |}.

Lemma PauseArguments_To_value x : valid_PauseArguments x = true →
  is_value (PauseArguments_To x).
Proof. unfold valid_PauseArguments, PauseArguments_To. solve_value. Qed.

Lemma PauseArguments_From_sim j j' this : jsim j j' →
  PauseArguments_From j this = PauseArguments_From j' this.
Proof. unfold PauseArguments_From. solve_sim. Qed.

Lemma PauseArguments_round_trip x : valid_PauseArguments x = true →
  PauseArguments_From (PauseArguments_To x) PauseArguments_fresh = x.
Proof. destruct x. unfold valid_PauseArguments, PauseArguments_From, PauseArguments_To. simpl. solve_round_trip. Qed.

#[export] Instance PauseArguments_Codec : Codec PauseArguments.
Proof.
  codec PauseArguments_Any valid_PauseArguments PauseArguments_To_value PauseArguments_From_sim
    PauseArguments_round_trip.
Defined.

Record RunInTerminalRequestArguments := mkRunInTerminalRequestArguments {
  RunInTerminalRequestArguments_kind : text;
  RunInTerminalRequestArguments_title : text;
  RunInTerminalRequestArguments_args : list text;
}.
Definition RunInTerminalRequestArguments_fresh : RunInTerminalRequestArguments :=
  mkRunInTerminalRequestArguments [] [] [].

Definition RunInTerminalRequestArguments_To (x : RunInTerminalRequestArguments) : Json :=
  let json := CreateObject in
  let json := Add_string "kind" (RunInTerminalRequestArguments_kind x) json in
  let json := Add_string "title" (RunInTerminalRequestArguments_title x) json in
  Add_strings "args" (RunInTerminalRequestArguments_args x) json.

Definition RunInTerminalRequestArguments_From (json : Json) (this : RunInTerminalRequestArguments) : RunInTerminalRequestArguments :=
  mkRunInTerminalRequestArguments (GetString (RunInTerminalRequestArguments_kind this) json.["kind"])
    (GetString (RunInTerminalRequestArguments_title this) json.["title"])
    (GetStringArray json.["args"]).

Definition valid_RunInTerminalRequestArguments (x : RunInTerminalRequestArguments) : bool :=
  no_nul (RunInTerminalRequestArguments_kind x) &&
  no_nul (RunInTerminalRequestArguments_title x) &&
  forallb no_nul (RunInTerminalRequestArguments_args x).

#[export] Instance RunInTerminalRequestArguments_Any : Any RunInTerminalRequestArguments :=
  {| fresh := RunInTerminalRequestArguments_fresh; To := RunInTerminalRequestArguments_To; From := RunInTerminalRequestArguments_From |}.

Lemma RunInTerminalRequestArguments_To_value x : valid_RunInTerminalRequestArguments x = true →
  is_value (RunInTerminalRequestArguments_To x).
Proof. unfold valid_RunInTerminalRequestArguments, RunInTerminalRequestArguments_To. solve_value. Qed.

Lemma RunInTerminalRequestArguments_From_sim j j' this : jsim j j' →
  RunInTerminalRequestArguments_From j this = RunInTerminalRequestArguments_From j' this.
Proof. unfold RunInTerminalRequestArguments_From. solve_sim. Qed.

Lemma RunInTerminalRequestArguments_round_trip x : valid_RunInTerminalRequestArguments x = true →
  RunInTerminalRequestArguments_From (RunInTerminalRequestArguments_To x) RunInTerminalRequestArguments_fresh = x.
Proof. destruct x. unfold valid_RunInTerminalRequestArguments, RunInTerminalRequestArguments_From, RunInTerminalRequestArguments_To. simpl. solve_round_trip. Qed.

#[export] Instance RunInTerminalRequestArguments_Codec : Codec RunInTerminalRequestArguments.
Proof.
  codec RunInTerminalRequestArguments_Any valid_RunInTerminalRequestArguments RunInTerminalRequestArguments_To_value RunInTerminalRequestArguments_From_sim
    RunInTerminalRequestArguments_round_trip.
Defined.

Record SourceArguments := mkSourceArguments {
  SourceArguments_source : Source;
  SourceArguments_sourceReference : Z;
}.
Definition SourceArguments_fresh : SourceArguments :=
  mkSourceArguments fresh 0.

Definition SourceArguments_To (x : SourceArguments) : Json :=
  let json := CreateObject in
  let json := Add_json "source" (To (SourceArguments_source x)) json in
  if 0 <? SourceArguments_sourceReference x
    then Add_int "sourceReference" (SourceArguments_sourceReference x) json else json.

Definition SourceArguments_From (json : Json) (this : SourceArguments) : SourceArguments :=
  mkSourceArguments (From json.["source"] (SourceArguments_source this))
    (GetInteger 0 json.["sourceReference"]).

Definition valid_SourceArguments (x : SourceArguments) : bool :=
  valid (SourceArguments_source x) &&
  is_int (SourceArguments_sourceReference x) && (0 <=? (SourceArguments_sourceReference x)).

#[export] Instance SourceArguments_Any : Any SourceArguments :=
  {| fresh := SourceArguments_fresh; To := SourceArguments_To; From := SourceArguments_From |}.

Lemma SourceArguments_To_value x : valid_SourceArguments x = true →
  is_value (SourceArguments_To x).
Proof. unfold valid_SourceArguments, SourceArguments_To. solve_value. Qed.

Lemma SourceArguments_From_sim j j' this : jsim j j' →
  SourceArguments_From j this = SourceArguments_From j' this.
Proof. unfold SourceArguments_From. solve_sim. Qed.

Lemma SourceArguments_round_trip x : valid_SourceArguments x = true →
  SourceArguments_From (SourceArguments_To x) SourceArguments_fresh = x.
Proof.
  destruct x as [src ref]. unfold valid_SourceArguments, SourceArguments_From, SourceArguments_To.
  simpl. intros. valid_inv. destruct (Z.ltb_spec 0 ref); simpl; solve_round_trip; f_equal; lia.
Qed.

#[export] Instance SourceArguments_Codec : Codec SourceArguments.
Proof.
  codec SourceArguments_Any valid_SourceArguments SourceArguments_To_value SourceArguments_From_sim
    SourceArguments_round_trip.
Defined.

(** A [frameId] of 0 or below is not written, and read back as [wxNOT_FOUND]. *)
Record EvaluateArguments := mkEvaluateArguments {
  EvaluateArguments_expression : text;
  EvaluateArguments_frameId : Z;
  EvaluateArguments_context : text;
  EvaluateArguments_format : ValueFormat;
}.
Definition EvaluateArguments_fresh : EvaluateArguments :=
  mkEvaluateArguments [] wxNOT_FOUND "hover" fresh.

Definition EvaluateArguments_To (x : EvaluateArguments) : Json :=
  let json := CreateObject in
  let json := Add_string "expression" (EvaluateArguments_expression x) json in
  let json := if 0 <? EvaluateArguments_frameId x
    then Add_int "frameId" (EvaluateArguments_frameId x) json else json in
  let json := Add_string "context" (EvaluateArguments_context x) json in
  Add_json "format" (To (EvaluateArguments_format x)) json.

Definition EvaluateArguments_From (json : Json) (this : EvaluateArguments) : EvaluateArguments :=
  mkEvaluateArguments (GetString (EvaluateArguments_expression this) json.["expression"])
    (GetInteger wxNOT_FOUND json.["frameId"])
    (GetString (EvaluateArguments_context this) json.["context"])
    (From json.["format"] (EvaluateArguments_format this)).

Definition valid_EvaluateArguments (x : EvaluateArguments) : bool :=
  no_nul (EvaluateArguments_expression x) &&
  is_int (EvaluateArguments_frameId x) && ((0 <? (EvaluateArguments_frameId x)) || ((EvaluateArguments_frameId x) =? wxNOT_FOUND)) &&
  no_nul (EvaluateArguments_context x) &&
  valid (EvaluateArguments_format x).

#[export] Instance EvaluateArguments_Any : Any EvaluateArguments :=
  {| fresh := EvaluateArguments_fresh; To := EvaluateArguments_To; From := EvaluateArguments_From |}.

Lemma EvaluateArguments_To_value x : valid_EvaluateArguments x = true →
  is_value (EvaluateArguments_To x).
Proof. unfold valid_EvaluateArguments, EvaluateArguments_To. solve_value. Qed.

Lemma EvaluateArguments_From_sim j j' this : jsim j j' →
  EvaluateArguments_From j this = EvaluateArguments_From j' this.
Proof. unfold EvaluateArguments_From. solve_sim. Qed.

Lemma EvaluateArguments_round_trip x : valid_EvaluateArguments x = true →
  EvaluateArguments_From (EvaluateArguments_To x) EvaluateArguments_fresh = x.
Proof.
  destruct x as [expr frame ctx fmt].
  unfold valid_EvaluateArguments, EvaluateArguments_From, EvaluateArguments_To. simpl. intros.
  valid_inv. unfold wxNOT_FOUND in *.
  destruct (Z.ltb_spec 0 frame); simpl in *; valid_inv; solve_round_trip; f_equal; lia.
Qed.

#[export] Instance EvaluateArguments_Codec : Codec EvaluateArguments.
Proof.
  codec EvaluateArguments_Any valid_EvaluateArguments EvaluateArguments_To_value EvaluateArguments_From_sim
    EvaluateArguments_round_trip.
Defined.

(** [Breakpoint::operator==], [SourceBreakpoint::operator==], [FunctionBreakpoint::operator==]
    and [Source::operator==]. *)
Definition Breakpoint_eq (a b : Breakpoint) : bool :=
  let s := Breakpoint_source a in let o := Breakpoint_source b in
  (negb (Source_path s =t []) && (Source_path s =t Source_path o) &&
     (Breakpoint_line a =? Breakpoint_line b)) ||
  (negb (Source_name s =t []) && (Source_name s =t Source_name o)) ||
  (Source_sourceReference s =? Source_sourceReference o).

Definition SourceBreakpoint_eq (a b : SourceBreakpoint) : bool :=
  SourceBreakpoint_line a =? SourceBreakpoint_line b.

Definition FunctionBreakpoint_eq (a b : FunctionBreakpoint) : bool :=
  FunctionBreakpoint_name a =t FunctionBreakpoint_name b.

Definition Source_eq (a b : Source) : bool :=
  (Source_name a =t Source_name b) && (Source_path a =t Source_path b) &&
  (Source_sourceReference a =? Source_sourceReference b).
End Data.
