(* ===== verification/DapEquality.v ===== *)
(** * dap.hpp: the equalities of the breakpoints and the hashes over them.

    [std::hash] asks of a hash that it gives equal values the same number, and a container of the
    breakpoints asks of the equality that it is an equivalence.  Both hold of the breakpoints that
    are sent to the server, and neither of [Breakpoint], which the server sends. *)
From S2P Require Import Prelude.
From S2P Require Import Any.
From S2P Require Import DapData.
From Stdlib Require Import Morphisms.
Local Open Scope Z_scope.

(** [std::hash<std::wstring>], [std::hash<size_t>] *)
Class StdHash := { hash_wstring : text → Z; hash_size_t : Z → Z }.

Section Equality.
Context `{StdHash}.

(** What is hashed of a [Breakpoint]. *)
Definition hashed_text (b : Breakpoint) : text :=
  Source_path (Breakpoint_source b) ++ Source_name (Breakpoint_source b) ++ dec (Breakpoint_line b).

Definition hash_Breakpoint (b : Breakpoint) : Z := hash_wstring (hashed_text b).

(** The [int] becomes a [size_t]. *)
Definition hash_SourceBreakpoint (b : SourceBreakpoint) : Z :=
  hash_size_t (to_size_t (SourceBreakpoint_line b)).

Definition hash_FunctionBreakpoint (b : FunctionBreakpoint) : Z :=
  hash_wstring (FunctionBreakpoint_name b).

Definition equal {A} (eq : A → A → bool) (a b : A) : Prop := eq a b = true.

Lemma SourceBreakpoint_equal a b :
  equal SourceBreakpoint_eq a b ↔ SourceBreakpoint_line a = SourceBreakpoint_line b.
Proof. apply Z.eqb_eq. Qed.

Lemma teq_iff a b : (a =t b) = true ↔ a = b.
Proof. destruct (teq_spec a b); by split. Qed.

Lemma FunctionBreakpoint_equal a b :
  equal FunctionBreakpoint_eq a b ↔ FunctionBreakpoint_name a = FunctionBreakpoint_name b.
Proof. apply teq_iff. Qed.

Lemma Source_equal a b : equal Source_eq a b ↔ a = b.
Proof.
  unfold equal, Source_eq. rewrite !andb_true_iff, !teq_iff, Z.eqb_eq. destruct a, b; cbn.
  split; [by intros [[-> ->] ->]|by intros [= -> -> ->]].
Qed.

#[export] Instance SourceBreakpoint_equivalence : Equivalence (equal SourceBreakpoint_eq).
Proof. split; repeat intro; rewrite SourceBreakpoint_equal in *; congruence. Qed.

#[export] Instance FunctionBreakpoint_equivalence : Equivalence (equal FunctionBreakpoint_eq).
Proof. split; repeat intro; rewrite FunctionBreakpoint_equal in *; congruence. Qed.

#[export] Instance hash_SourceBreakpoint_proper :
  Proper (equal SourceBreakpoint_eq ==> eq) hash_SourceBreakpoint.
Proof. intros a b E%SourceBreakpoint_equal. unfold hash_SourceBreakpoint. by rewrite E. Qed.

#[export] Instance hash_FunctionBreakpoint_proper :
  Proper (equal FunctionBreakpoint_eq ==> eq) hash_FunctionBreakpoint.
Proof. intros a b E%FunctionBreakpoint_equal. unfold hash_FunctionBreakpoint. by rewrite E. Qed.

(** Two breakpoints in two files are equal, because neither source has a reference: the equality
    is not transitive, and the texts that are hashed of equal breakpoints differ. *)
Lemma Breakpoint_equality_broken :
  (∀ a b, Source_sourceReference (Breakpoint_source a) = Source_sourceReference (Breakpoint_source b) →
     equal Breakpoint_eq a b) ∧
  (∃ a b c, equal Breakpoint_eq a b ∧ equal Breakpoint_eq b c ∧ ¬ equal Breakpoint_eq a c) ∧
  (∃ a b, equal Breakpoint_eq a b ∧ hashed_text a ≠ hashed_text b).
Proof.
  set (bp path ref line := mkBreakpoint 1 true [] (mkSource [] path ref) line 0 0 0).
  split; [|split].
  - intros a b E. unfold equal, Breakpoint_eq. by rewrite E, Z.eqb_refl, orb_true_r.
  - exists (bp "a" 1 10), (bp "a" 2 10), (bp "b" 2 10). by split_and!.
  - by exists (bp "a" 0 10), (bp "b" 0 10).
Qed.
End Equality.
