(* ===== verification/DapEnvironment.v ===== *)
(** * dap.hpp, dap.cpp: [Environment] and the arguments of the launch request.

    The map of the variables is the list of its entries in iteration order, which the library
    chooses: [HashOrder]. *)
From S2P Require Import Prelude.
From S2P Require Import Double.
From S2P Require Import CJson.
From S2P Require Import CJsonRoundTrip.
From S2P Require Import CJsonTree.
From S2P Require Import Json.
From S2P Require Import Any.
Local Open Scope Z_scope.

(** The order in which an [unordered_map] is iterated after an insertion. *)
Class HashOrder := {
  rehash : list (text * text) → list (text * text);
  rehash_perm l : rehash l ≡ₚ l;
}.

(** [wxString::Index(c) == npos] negated, [wxString::BeforeFirst], [wxString::AfterFirst]. *)
Definition contains (c : ascii) (t : text) : bool := existsb (ceq c) t.

Fixpoint wx_BeforeFirst (c : ascii) (t : text) : text :=
  match t with
  | [] => []
  | x :: r => if x =c c then [] else x :: wx_BeforeFirst c r
  end.

Fixpoint wx_AfterFirst (c : ascii) (t : text) : text :=
  match t with
  | [] => []
  | x :: r => if x =c c then r else wx_AfterFirst c r
  end.

Inductive EnvFormat := DICTIONARY | LIST | NONE.

Record Environment := mkEnvironment {
  Environment_format : EnvFormat;
  Environment_vars : list (text * text);
}.
Definition Environment_fresh : Environment := mkEnvironment DICTIONARY [].

Definition Environment_To `{Platform} (x : Environment) : Json :=
  match Environment_format x with
  | DICTIONARY =>
      foldl (λ env_dict vt, Add_string vt.1 vt.2 env_dict) CreateObject (Environment_vars x)
  | LIST =>
      foldl (λ env_arr vt, Add_string [] (vt.1 ++ "=" ++ vt.2) env_arr) CreateArray
        (Environment_vars x)
  | NONE => None
  end.

Section From.
Context `{HashOrder}.

(** [vars.insert({key, value})]: a key that is present keeps its value. *)
Definition vars_insert (key value : text) (vars : list (text * text)) : list (text * text) :=
  if existsb (λ e, e.1 =t key) vars then vars else rehash (vars ++ [(key, value)]).

Definition insert_entry (vars : list (text * text)) (str : text) : list (text * text) :=
  if negb (contains "=" str) then vars
  else vars_insert (wx_BeforeFirst "=" str) (wx_AfterFirst "=" str) vars.

Definition Environment_From (json : Json) (this : Environment) : Environment :=
  mkEnvironment (Environment_format this)
    (if negb (IsOK json) || negb (IsArray json) then []
     else foldl insert_entry [] (map (λ i, get_string (element json i)) (seq 0 (GetCount json)))).

Lemma Environment_From_sim j j' this : jsim j j' →
  Environment_From j this = Environment_From j' this.
Proof.
  intros Hj. unfold Environment_From.
  rewrite (IsOK_sim _ _ Hj), (IsArray_sim _ _ Hj), (GetCount_Proper _ _ Hj).
  do 2 f_equal. case_match; [done|]. f_equal. apply map_ext. intros i.
  by apply get_string_sim, element_sim.
Qed.

(** ** The arguments of the launch request *)

Context `{Platform}.

Record LaunchRequestArguments := mkLaunchRequestArguments {
  LaunchRequestArguments_noDebug : bool;
  LaunchRequestArguments_program : text;
  LaunchRequestArguments_args : list text;
  LaunchRequestArguments_cwd : text;
  LaunchRequestArguments_env : Environment;
  LaunchRequestArguments_stopAtBeginningOfMainSubprogram : bool;
}.
Definition LaunchRequestArguments_fresh : LaunchRequestArguments :=
  mkLaunchRequestArguments false [] [] [] Environment_fresh true.

Definition LaunchRequestArguments_To (x : LaunchRequestArguments) : Json :=
  let json := CreateObject in
  let json := Add_bool "noDebug" (LaunchRequestArguments_noDebug x) json in
  let json := Add_string "program" (LaunchRequestArguments_program x) json in
  let json := Add_strings "args" (LaunchRequestArguments_args x) json in
  let json := Add_string "cwd" (LaunchRequestArguments_cwd x) json in
  let json := Add_bool "stopAtBeginningOfMainSubprogram"
    (LaunchRequestArguments_stopAtBeginningOfMainSubprogram x) json in
  let env_obj := Environment_To (LaunchRequestArguments_env x) in
  if IsOK env_obj then Add_json "env" (Environment_To (LaunchRequestArguments_env x)) json
  else json.

Definition LaunchRequestArguments_From (json : Json) (this : LaunchRequestArguments) :
    LaunchRequestArguments :=
  mkLaunchRequestArguments (get_bool json.["noDebug"]) (get_string json.["program"])
    (GetStringArray json.["args"]) (get_string json.["cwd"])
    (Environment_From json.["env"] (LaunchRequestArguments_env this))
    (get_bool json.["stopAtBeginningOfMainSubprogram"]).

(** Only the environment that reading leaves in a fresh object survives with its format; the
    entries of one in the [LIST] format are read back in some order (DapProtocol.v). *)
Definition valid_LaunchRequestArguments (x : LaunchRequestArguments) : bool :=
  no_nul (LaunchRequestArguments_program x) && forallb no_nul (LaunchRequestArguments_args x) &&
  no_nul (LaunchRequestArguments_cwd x) &&
  match LaunchRequestArguments_env x with
  | {| Environment_format := DICTIONARY; Environment_vars := [] |} => true
  | _ => false
  end.

#[export] Instance LaunchRequestArguments_Any : Any LaunchRequestArguments :=
  {| fresh := LaunchRequestArguments_fresh; To := LaunchRequestArguments_To;
     From := LaunchRequestArguments_From |}.

Lemma LaunchRequestArguments_To_value x : valid_LaunchRequestArguments x = true →
  is_value (LaunchRequestArguments_To x).
Proof.
  destruct x as [? ? ? ? [[] []] ?]; unfold valid_LaunchRequestArguments,
    LaunchRequestArguments_To; simpl; intros; valid_inv; try done.
  solve_value. apply object_create.
Qed.

Lemma LaunchRequestArguments_From_sim j j' this : jsim j j' →
  LaunchRequestArguments_From j this = LaunchRequestArguments_From j' this.
Proof.
  intros Hj. unfold LaunchRequestArguments_From.
  rewrite (Environment_From_sim j.["env"] j'.["env"]) by eauto with jsim.
  f_equal; eauto 6 with jsim.
Qed.

Lemma LaunchRequestArguments_round_trip x : valid_LaunchRequestArguments x = true →
  LaunchRequestArguments_From (LaunchRequestArguments_To x) LaunchRequestArguments_fresh = x.
Proof.
  destruct x as [? ? ? ? [[] []] ?]; unfold valid_LaunchRequestArguments,
    LaunchRequestArguments_From, LaunchRequestArguments_To; simpl; intros; valid_inv; try done.
  change (Environment_To _) with CreateObject. solve_round_trip.
Qed.

#[export] Instance LaunchRequestArguments_Codec : Codec LaunchRequestArguments.
Proof.
  codec LaunchRequestArguments_Any valid_LaunchRequestArguments LaunchRequestArguments_To_value
    LaunchRequestArguments_From_sim LaunchRequestArguments_round_trip.
Defined.
End From.

(** An order: an insertion leaves the entries where they are. *)
Definition sample_hash : HashOrder.
Proof. exists (λ l, l). by intros l. Defined.
