(* ===== verification/DapMessages.v ===== *)
(** * dap.hpp, dap.cpp: the requests, events and responses.

    A message structure has its base as its first field.  [Request_new], [Event_new] and
    [Response_new] are the constructors of the base classes followed by the assignment of the
    command in the constructor of the derived class. *)
From S2P Require Import Prelude.
From S2P Require Import Double.
From S2P Require Import CJson.
From S2P Require Import CJsonRoundTrip.
From S2P Require Import CJsonTree.
From S2P Require Import Json.
From S2P Require Import Any.
From S2P Require Import DapData.
From S2P Require Import DapEnvironment.
Local Open Scope Z_scope.

Section Messages.
Context `{Platform} `{HashOrder}.

(** ** The base classes *)

Record ProtocolMessage := mkProtocolMessage {
  ProtocolMessage_seq : Z;
  ProtocolMessage_type : text;
}.

Definition ProtocolMessage_To (x : ProtocolMessage) : Json :=
  let json := CreateObject in
  let json := Add_int "seq" (ProtocolMessage_seq x) json in
  Add_string "type" (ProtocolMessage_type x) json.

Definition ProtocolMessage_From (json : Json) (this : ProtocolMessage) : ProtocolMessage :=
  mkProtocolMessage (get_number_as_int (-1) json.["seq"]) (get_string json.["type"]).

Definition valid_ProtocolMessage (x : ProtocolMessage) : bool :=
  is_int (ProtocolMessage_seq x) && no_nul (ProtocolMessage_type x).

Record Request := mkRequest {
  Request_ProtocolMessage : ProtocolMessage;
  Request_command : text;
}.

Definition Request_new (command : text) : Request :=
  mkRequest (mkProtocolMessage (-1) "request") command.

Definition Request_To (x : Request) : Json :=
  let json := ProtocolMessage_To (Request_ProtocolMessage x) in
  Add_string "command" (Request_command x) json.

Definition Request_From (json : Json) (this : Request) : Request :=
  mkRequest (ProtocolMessage_From json (Request_ProtocolMessage this))
    (get_string json.["command"]).

Definition valid_Request (x : Request) : bool :=
  valid_ProtocolMessage (Request_ProtocolMessage x) && no_nul (Request_command x).

Record Event := mkEvent {
  Event_ProtocolMessage : ProtocolMessage;
  Event_event : text;
}.

Definition Event_new (event : text) : Event := mkEvent (mkProtocolMessage (-1) "event") event.

Definition Event_To (x : Event) : Json :=
  let json := ProtocolMessage_To (Event_ProtocolMessage x) in
  Add_string "event" (Event_event x) json.

Definition Event_From (json : Json) (this : Event) : Event :=
  mkEvent (ProtocolMessage_From json (Event_ProtocolMessage this)) (get_string json.["event"]).

Definition valid_Event (x : Event) : bool :=
  valid_ProtocolMessage (Event_ProtocolMessage x) && no_nul (Event_event x).

Record Response := mkResponse {
  Response_ProtocolMessage : ProtocolMessage;
  Response_request_seq : Z;
  Response_success : bool;
  Response_command : text;
  Response_message : text;
}.

Definition Response_new (command : text) : Response :=
  mkResponse (mkProtocolMessage (-1) "response") (-1) true command [].

Definition Response_To (x : Response) : Json :=
  let json := ProtocolMessage_To (Response_ProtocolMessage x) in
  let json := Add_int "request_seq" (Response_request_seq x) json in
  let json := Add_bool "success" (Response_success x) json in
  let json := Add_string "message" (Response_message x) json in
  Add_string "command" (Response_command x) json.

Definition Response_From (json : Json) (this : Response) : Response :=
  mkResponse (ProtocolMessage_From json (Response_ProtocolMessage this))
    (get_integer json.["request_seq"]) (get_bool json.["success"])
    (get_string json.["command"]) (get_string json.["message"]).

Definition valid_Response (x : Response) : bool :=
  valid_ProtocolMessage (Response_ProtocolMessage x) && is_int (Response_request_seq x) &&
  no_nul (Response_command x) && no_nul (Response_message x).

Lemma ProtocolMessage_From_sim j j' this : jsim j j' →
  ProtocolMessage_From j this = ProtocolMessage_From j' this.
Proof. unfold ProtocolMessage_From. solve_sim. Qed.
Hint Resolve ProtocolMessage_From_sim : jsim.

Lemma Request_From_sim j j' this : jsim j j' → Request_From j this = Request_From j' this.
Proof. unfold Request_From. solve_sim. Qed.

Lemma Event_From_sim j j' this : jsim j j' → Event_From j this = Event_From j' this.
Proof. unfold Event_From. solve_sim. Qed.

Lemma Response_From_sim j j' this : jsim j j' → Response_From j this = Response_From j' this.
Proof. unfold Response_From. solve_sim. Qed.
Hint Resolve Request_From_sim Event_From_sim Response_From_sim : jsim.

(** Unfolds the functions of the base classes. *)
Ltac unfold_bases :=
  try unfold Request_To, Request_From; try unfold Request_To; try unfold valid_Request;
  try unfold Event_To, Event_From; try unfold Event_To; try unfold valid_Event;
  try unfold Response_To, Response_From; try unfold Response_To; try unfold valid_Response;
  try unfold ProtocolMessage_To, ProtocolMessage_From; try unfold ProtocolMessage_To;
  try unfold valid_ProtocolMessage.

(** The messages of a class with no members of its own. *)
Lemma Request_To_value x : valid_Request x = true → is_value (Request_To x).
Proof. unfold_bases. solve_value. Qed.

Lemma Event_To_value x : valid_Event x = true → is_value (Event_To x).
Proof. unfold_bases. solve_value. Qed.

Lemma Response_To_value x : valid_Response x = true → is_value (Response_To x).
Proof. unfold_bases. solve_value. Qed.

Lemma Request_round_trip x this : valid_Request x = true → Request_From (Request_To x) this = x.
Proof.
  destruct x as [[]]. unfold_bases. simpl. solve_round_trip.
Qed.

Lemma Event_round_trip x this : valid_Event x = true → Event_From (Event_To x) this = x.
Proof.
  destruct x as [[]]. unfold_bases. simpl. solve_round_trip.
Qed.

Lemma Response_round_trip x this : valid_Response x = true → Response_From (Response_To x) this = x.
Proof.
  destruct x as [[]]. unfold_bases. simpl. solve_round_trip.
Qed.

(** [From] reads the object [arguments] itself as an integer, not its member [requestId]. *)
Record CancelRequest := mkCancelRequest {
  CancelRequest_Request : Request;
  CancelRequest_requestId : Z;
}.
Definition CancelRequest_fresh : CancelRequest :=
  mkCancelRequest (Request_new "cancel") (-1).

Definition CancelRequest_To (x : CancelRequest) : Json :=
  let json := Request_To (CancelRequest_Request x) in
  AddObject_then "arguments" (λ body,
    Add_int "requestId" (CancelRequest_requestId x) body) json.

Definition CancelRequest_From (json : Json) (this : CancelRequest) : CancelRequest :=
  mkCancelRequest (Request_From json (CancelRequest_Request this))
    (if IsOK json.["arguments"] then get_integer json.["arguments"]
     else CancelRequest_requestId this).

Definition valid_CancelRequest (x : CancelRequest) : bool :=
  valid_Request (CancelRequest_Request x) &&
  ((CancelRequest_requestId x) =? -1).

#[export] Instance CancelRequest_Any : Any CancelRequest :=
  {| fresh := CancelRequest_fresh; To := CancelRequest_To; From := CancelRequest_From |}.

Lemma CancelRequest_To_value x : valid_CancelRequest x = true →
  is_value (CancelRequest_To x).
Proof. unfold valid_CancelRequest, CancelRequest_To. unfold_bases. solve_value. Qed.

Lemma CancelRequest_From_sim j j' this : jsim j j' →
  CancelRequest_From j this = CancelRequest_From j' this.
Proof.
  intros Hj. unfold CancelRequest_From. rewrite (IsOK_sim _ j'.["arguments"]),
    (get_integer_sim _ j'.["arguments"]) by eauto with jsim. f_equal. by apply Request_From_sim.
Qed.

Lemma CancelRequest_round_trip x : valid_CancelRequest x = true →
  CancelRequest_From (CancelRequest_To x) CancelRequest_fresh = x.
Proof.
  destruct x as [[[]]]. unfold valid_CancelRequest, CancelRequest_From, CancelRequest_To. unfold_bases. simpl.
  solve_round_trip.
Qed.

#[export] Instance CancelRequest_Codec : Codec CancelRequest.
Proof.
  codec CancelRequest_Any valid_CancelRequest CancelRequest_To_value CancelRequest_From_sim
    CancelRequest_round_trip.
Defined.

Record InitializeRequest := mkInitializeRequest {
  InitializeRequest_Request : Request;
  InitializeRequest_arguments : InitializeRequestArguments;
}.
Definition InitializeRequest_fresh : InitializeRequest :=
  mkInitializeRequest (Request_new "initialize") fresh.

Definition InitializeRequest_To (x : InitializeRequest) : Json :=
  let json := Request_To (InitializeRequest_Request x) in
  AddObject_json "arguments" (To (InitializeRequest_arguments x)) json.

Definition InitializeRequest_From (json : Json) (this : InitializeRequest) : InitializeRequest :=
  mkInitializeRequest (Request_From json (InitializeRequest_Request this))
    (From json.["arguments"] (InitializeRequest_arguments this)).

Definition valid_InitializeRequest (x : InitializeRequest) : bool :=
  valid_Request (InitializeRequest_Request x) &&
  valid (InitializeRequest_arguments x).

#[export] Instance InitializeRequest_Any : Any InitializeRequest :=
  {| fresh := InitializeRequest_fresh; To := InitializeRequest_To; From := InitializeRequest_From |}.

Lemma InitializeRequest_To_value x : valid_InitializeRequest x = true →
  is_value (InitializeRequest_To x).
Proof. unfold valid_InitializeRequest, InitializeRequest_To. unfold_bases. solve_value. Qed.

Lemma InitializeRequest_From_sim j j' this : jsim j j' →
  InitializeRequest_From j this = InitializeRequest_From j' this.
Proof. unfold InitializeRequest_From. solve_sim. Qed.

Lemma InitializeRequest_round_trip x : valid_InitializeRequest x = true →
  InitializeRequest_From (InitializeRequest_To x) InitializeRequest_fresh = x.
Proof.
  destruct x as [[[]]]. unfold valid_InitializeRequest, InitializeRequest_From, InitializeRequest_To. unfold_bases. simpl.
  solve_round_trip.
Qed.

#[export] Instance InitializeRequest_Codec : Codec InitializeRequest.
Proof.
  codec InitializeRequest_Any valid_InitializeRequest InitializeRequest_To_value InitializeRequest_From_sim
    InitializeRequest_round_trip.
Defined.

Record LaunchRequest := mkLaunchRequest {
  LaunchRequest_Request : Request;
  LaunchRequest_arguments : LaunchRequestArguments;
}.
Definition LaunchRequest_fresh : LaunchRequest :=
  mkLaunchRequest (Request_new "launch") fresh.

Definition LaunchRequest_To (x : LaunchRequest) : Json :=
  let json := Request_To (LaunchRequest_Request x) in
  AddObject_json "arguments" (To (LaunchRequest_arguments x)) json.

Definition LaunchRequest_From (json : Json) (this : LaunchRequest) : LaunchRequest :=
  mkLaunchRequest (Request_From json (LaunchRequest_Request this))
    (From json.["arguments"] (LaunchRequest_arguments this)).

Definition valid_LaunchRequest (x : LaunchRequest) : bool :=
  valid_Request (LaunchRequest_Request x) &&
  valid (LaunchRequest_arguments x).

#[export] Instance LaunchRequest_Any : Any LaunchRequest :=
  {| fresh := LaunchRequest_fresh; To := LaunchRequest_To; From := LaunchRequest_From |}.

Lemma LaunchRequest_To_value x : valid_LaunchRequest x = true →
  is_value (LaunchRequest_To x).
Proof. unfold valid_LaunchRequest, LaunchRequest_To. unfold_bases. solve_value. Qed.

Lemma LaunchRequest_From_sim j j' this : jsim j j' →
  LaunchRequest_From j this = LaunchRequest_From j' this.
Proof. unfold LaunchRequest_From. solve_sim. Qed.

Lemma LaunchRequest_round_trip x : valid_LaunchRequest x = true →
  LaunchRequest_From (LaunchRequest_To x) LaunchRequest_fresh = x.
Proof.
  destruct x as [[[]]]. unfold valid_LaunchRequest, LaunchRequest_From, LaunchRequest_To. unfold_bases. simpl.
  solve_round_trip.
Qed.

#[export] Instance LaunchRequest_Codec : Codec LaunchRequest.
Proof.
  codec LaunchRequest_Any valid_LaunchRequest LaunchRequest_To_value LaunchRequest_From_sim
    LaunchRequest_round_trip.
Defined.

Record AttachRequest := mkAttachRequest {
  AttachRequest_Request : Request;
  AttachRequest_arguments : AttachRequestArguments;
}.
Definition AttachRequest_fresh : AttachRequest :=
  mkAttachRequest (Request_new "attach") fresh.

Definition AttachRequest_To (x : AttachRequest) : Json :=
  let json := Request_To (AttachRequest_Request x) in
  AddObject_json "arguments" (To (AttachRequest_arguments x)) json.

Definition AttachRequest_From (json : Json) (this : AttachRequest) : AttachRequest :=
  mkAttachRequest (Request_From json (AttachRequest_Request this))
    (From json.["arguments"] (AttachRequest_arguments this)).

Definition valid_AttachRequest (x : AttachRequest) : bool :=
  valid_Request (AttachRequest_Request x) &&
  valid (AttachRequest_arguments x).

#[export] Instance AttachRequest_Any : Any AttachRequest :=
  {| fresh := AttachRequest_fresh; To := AttachRequest_To; From := AttachRequest_From |}.

Lemma AttachRequest_To_value x : valid_AttachRequest x = true →
  is_value (AttachRequest_To x).
Proof. unfold valid_AttachRequest, AttachRequest_To. unfold_bases. solve_value. Qed.

Lemma AttachRequest_From_sim j j' this : jsim j j' →
  AttachRequest_From j this = AttachRequest_From j' this.
Proof. unfold AttachRequest_From. solve_sim. Qed.

Lemma AttachRequest_round_trip x : valid_AttachRequest x = true →
  AttachRequest_From (AttachRequest_To x) AttachRequest_fresh = x.
Proof.
  destruct x as [[[]]]. unfold valid_AttachRequest, AttachRequest_From, AttachRequest_To. unfold_bases. simpl.
  solve_round_trip.
Qed.

#[export] Instance AttachRequest_Codec : Codec AttachRequest.
Proof.
  codec AttachRequest_Any valid_AttachRequest AttachRequest_To_value AttachRequest_From_sim
    AttachRequest_round_trip.
Defined.

Record DisconnectRequest := mkDisconnectRequest {
  DisconnectRequest_Request : Request;
  DisconnectRequest_restart : bool;
  DisconnectRequest_terminateDebuggee : bool;
}.
Definition DisconnectRequest_fresh : DisconnectRequest :=
  mkDisconnectRequest (Request_new "disconnect") false true.

Definition DisconnectRequest_To (x : DisconnectRequest) : Json :=
  let json := Request_To (DisconnectRequest_Request x) in
  AddObject_then "arguments" (λ body,
    let body := Add_bool "restart" (DisconnectRequest_restart x) body in
    Add_bool "terminateDebuggee" (DisconnectRequest_terminateDebuggee x) body) json.

Definition DisconnectRequest_From (json : Json) (this : DisconnectRequest) : DisconnectRequest :=
  mkDisconnectRequest (Request_From json (DisconnectRequest_Request this))
    (get_bool json.["arguments"].["restart"])
    (GetBool (DisconnectRequest_terminateDebuggee this) json.["arguments"].["terminateDebuggee"]).

Definition valid_DisconnectRequest (x : DisconnectRequest) : bool :=
  valid_Request (DisconnectRequest_Request x) &&
  (DisconnectRequest_terminateDebuggee x).

#[export] Instance DisconnectRequest_Any : Any DisconnectRequest :=
  {| fresh := DisconnectRequest_fresh; To := DisconnectRequest_To; From := DisconnectRequest_From |}.

Lemma DisconnectRequest_To_value x : valid_DisconnectRequest x = true →
  is_value (DisconnectRequest_To x).
Proof. unfold valid_DisconnectRequest, DisconnectRequest_To. unfold_bases. solve_value. Qed.

Lemma DisconnectRequest_From_sim j j' this : jsim j j' →
  DisconnectRequest_From j this = DisconnectRequest_From j' this.
Proof. unfold DisconnectRequest_From. solve_sim. Qed.

Lemma DisconnectRequest_round_trip x : valid_DisconnectRequest x = true →
  DisconnectRequest_From (DisconnectRequest_To x) DisconnectRequest_fresh = x.
Proof.
  destruct x as [[[]]]. unfold valid_DisconnectRequest, DisconnectRequest_From, DisconnectRequest_To. unfold_bases. simpl.
  solve_round_trip.
Qed.

#[export] Instance DisconnectRequest_Codec : Codec DisconnectRequest.
Proof.
  codec DisconnectRequest_Any valid_DisconnectRequest DisconnectRequest_To_value DisconnectRequest_From_sim
    DisconnectRequest_round_trip.
Defined.

Record BreakpointLocationsRequest := mkBreakpointLocationsRequest {
  BreakpointLocationsRequest_Request : Request;
  BreakpointLocationsRequest_arguments : BreakpointLocationsArguments;
}.
Definition BreakpointLocationsRequest_fresh : BreakpointLocationsRequest :=
  mkBreakpointLocationsRequest (Request_new "breakpointLocations") fresh.

Definition BreakpointLocationsRequest_To (x : BreakpointLocationsRequest) : Json :=
  let json := Request_To (BreakpointLocationsRequest_Request x) in
  AddObject_json "arguments" (To (BreakpointLocationsRequest_arguments x)) json.

Definition BreakpointLocationsRequest_From (json : Json) (this : BreakpointLocationsRequest) : BreakpointLocationsRequest :=
  mkBreakpointLocationsRequest (Request_From json (BreakpointLocationsRequest_Request this))
    (From json.["arguments"] (BreakpointLocationsRequest_arguments this)).

Definition valid_BreakpointLocationsRequest (x : BreakpointLocationsRequest) : bool :=
  valid_Request (BreakpointLocationsRequest_Request x) &&
  valid (BreakpointLocationsRequest_arguments x).

#[export] Instance BreakpointLocationsRequest_Any : Any BreakpointLocationsRequest :=
  {| fresh := BreakpointLocationsRequest_fresh; To := BreakpointLocationsRequest_To; From := BreakpointLocationsRequest_From |}.

Lemma BreakpointLocationsRequest_To_value x : valid_BreakpointLocationsRequest x = true →
  is_value (BreakpointLocationsRequest_To x).
Proof. unfold valid_BreakpointLocationsRequest, BreakpointLocationsRequest_To. unfold_bases. solve_value. Qed.

Lemma BreakpointLocationsRequest_From_sim j j' this : jsim j j' →
  BreakpointLocationsRequest_From j this = BreakpointLocationsRequest_From j' this.
Proof. unfold BreakpointLocationsRequest_From. solve_sim. Qed.

Lemma BreakpointLocationsRequest_round_trip x : valid_BreakpointLocationsRequest x = true →
  BreakpointLocationsRequest_From (BreakpointLocationsRequest_To x) BreakpointLocationsRequest_fresh = x.
Proof.
  destruct x as [[[]]]. unfold valid_BreakpointLocationsRequest, BreakpointLocationsRequest_From, BreakpointLocationsRequest_To. unfold_bases. simpl.
  solve_round_trip.
Qed.

#[export] Instance BreakpointLocationsRequest_Codec : Codec BreakpointLocationsRequest.
Proof.
  codec BreakpointLocationsRequest_Any valid_BreakpointLocationsRequest BreakpointLocationsRequest_To_value BreakpointLocationsRequest_From_sim
    BreakpointLocationsRequest_round_trip.
Defined.

Record SetBreakpointsRequest := mkSetBreakpointsRequest {
  SetBreakpointsRequest_Request : Request;
  SetBreakpointsRequest_arguments : SetBreakpointsArguments;
}.
Definition SetBreakpointsRequest_fresh : SetBreakpointsRequest :=
  mkSetBreakpointsRequest (Request_new "setBreakpoints") fresh.

Definition SetBreakpointsRequest_To (x : SetBreakpointsRequest) : Json :=
  let json := Request_To (SetBreakpointsRequest_Request x) in
  AddObject_json "arguments" (To (SetBreakpointsRequest_arguments x)) json.

Definition SetBreakpointsRequest_From (json : Json) (this : SetBreakpointsRequest) : SetBreakpointsRequest :=
  mkSetBreakpointsRequest (Request_From json (SetBreakpointsRequest_Request this))
    (From json.["arguments"] (SetBreakpointsRequest_arguments this)).

Definition valid_SetBreakpointsRequest (x : SetBreakpointsRequest) : bool :=
  valid_Request (SetBreakpointsRequest_Request x) &&
  valid (SetBreakpointsRequest_arguments x).

#[export] Instance SetBreakpointsRequest_Any : Any SetBreakpointsRequest :=
  {| fresh := SetBreakpointsRequest_fresh; To := SetBreakpointsRequest_To; From := SetBreakpointsRequest_From |}.

Lemma SetBreakpointsRequest_To_value x : valid_SetBreakpointsRequest x = true →
  is_value (SetBreakpointsRequest_To x).
Proof. unfold valid_SetBreakpointsRequest, SetBreakpointsRequest_To. unfold_bases. solve_value. Qed.

Lemma SetBreakpointsRequest_From_sim j j' this : jsim j j' →
  SetBreakpointsRequest_From j this = SetBreakpointsRequest_From j' this.
Proof. unfold SetBreakpointsRequest_From. solve_sim. Qed.

Lemma SetBreakpointsRequest_round_trip x : valid_SetBreakpointsRequest x = true →
  SetBreakpointsRequest_From (SetBreakpointsRequest_To x) SetBreakpointsRequest_fresh = x.
Proof.
  destruct x as [[[]]]. unfold valid_SetBreakpointsRequest, SetBreakpointsRequest_From, SetBreakpointsRequest_To. unfold_bases. simpl.
  solve_round_trip.
Qed.

#[export] Instance SetBreakpointsRequest_Codec : Codec SetBreakpointsRequest.
Proof.
  codec SetBreakpointsRequest_Any valid_SetBreakpointsRequest SetBreakpointsRequest_To_value SetBreakpointsRequest_From_sim
    SetBreakpointsRequest_round_trip.
Defined.

Record SetFunctionBreakpointsRequest := mkSetFunctionBreakpointsRequest {
  SetFunctionBreakpointsRequest_Request : Request;
  SetFunctionBreakpointsRequest_arguments : SetFunctionBreakpointsArguments;
}.
Definition SetFunctionBreakpointsRequest_fresh : SetFunctionBreakpointsRequest :=
  mkSetFunctionBreakpointsRequest (Request_new "setFunctionBreakpoints") fresh.

Definition SetFunctionBreakpointsRequest_To (x : SetFunctionBreakpointsRequest) : Json :=
  let json := Request_To (SetFunctionBreakpointsRequest_Request x) in
  AddObject_json "arguments" (To (SetFunctionBreakpointsRequest_arguments x)) json.

Definition SetFunctionBreakpointsRequest_From (json : Json) (this : SetFunctionBreakpointsRequest) : SetFunctionBreakpointsRequest :=
  mkSetFunctionBreakpointsRequest (Request_From json (SetFunctionBreakpointsRequest_Request this))
    (From json.["arguments"] (SetFunctionBreakpointsRequest_arguments this)).

Definition valid_SetFunctionBreakpointsRequest (x : SetFunctionBreakpointsRequest) : bool :=
  valid_Request (SetFunctionBreakpointsRequest_Request x) &&
  valid (SetFunctionBreakpointsRequest_arguments x).

#[export] Instance SetFunctionBreakpointsRequest_Any : Any SetFunctionBreakpointsRequest :=
  {| fresh := SetFunctionBreakpointsRequest_fresh; To := SetFunctionBreakpointsRequest_To; From := SetFunctionBreakpointsRequest_From |}.

Lemma SetFunctionBreakpointsRequest_To_value x : valid_SetFunctionBreakpointsRequest x = true →
  is_value (SetFunctionBreakpointsRequest_To x).
Proof. unfold valid_SetFunctionBreakpointsRequest, SetFunctionBreakpointsRequest_To. unfold_bases. solve_value. Qed.

Lemma SetFunctionBreakpointsRequest_From_sim j j' this : jsim j j' →
  SetFunctionBreakpointsRequest_From j this = SetFunctionBreakpointsRequest_From j' this.
Proof. unfold SetFunctionBreakpointsRequest_From. solve_sim. Qed.

Lemma SetFunctionBreakpointsRequest_round_trip x : valid_SetFunctionBreakpointsRequest x = true →
  SetFunctionBreakpointsRequest_From (SetFunctionBreakpointsRequest_To x) SetFunctionBreakpointsRequest_fresh = x.
Proof.
  destruct x as [[[]]]. unfold valid_SetFunctionBreakpointsRequest, SetFunctionBreakpointsRequest_From, SetFunctionBreakpointsRequest_To. unfold_bases. simpl.
  solve_round_trip.
Qed.

#[export] Instance SetFunctionBreakpointsRequest_Codec : Codec SetFunctionBreakpointsRequest.
Proof.
  codec SetFunctionBreakpointsRequest_Any valid_SetFunctionBreakpointsRequest SetFunctionBreakpointsRequest_To_value SetFunctionBreakpointsRequest_From_sim
    SetFunctionBreakpointsRequest_round_trip.
Defined.

Record ContinueRequest := mkContinueRequest {
  ContinueRequest_Request : Request;
  ContinueRequest_arguments : ContinueArguments;
}.
Definition ContinueRequest_fresh : ContinueRequest :=
  mkContinueRequest (Request_new "continue") fresh.

Definition ContinueRequest_To (x : ContinueRequest) : Json :=
  let json := Request_To (ContinueRequest_Request x) in
  AddObject_json "arguments" (To (ContinueRequest_arguments x)) json.

Definition ContinueRequest_From (json : Json) (this : ContinueRequest) : ContinueRequest :=
  mkContinueRequest (Request_From json (ContinueRequest_Request this))
    (From json.["arguments"] (ContinueRequest_arguments this)).

Definition valid_ContinueRequest (x : ContinueRequest) : bool :=
  valid_Request (ContinueRequest_Request x) &&
  valid (ContinueRequest_arguments x).

#[export] Instance ContinueRequest_Any : Any ContinueRequest :=
  {| fresh := ContinueRequest_fresh; To := ContinueRequest_To; From := ContinueRequest_From |}.

Lemma ContinueRequest_To_value x : valid_ContinueRequest x = true →
  is_value (ContinueRequest_To x).
Proof. unfold valid_ContinueRequest, ContinueRequest_To. unfold_bases. solve_value. Qed.

Lemma ContinueRequest_From_sim j j' this : jsim j j' →
  ContinueRequest_From j this = ContinueRequest_From j' this.
Proof. unfold ContinueRequest_From. solve_sim. Qed.

Lemma ContinueRequest_round_trip x : valid_ContinueRequest x = true →
  ContinueRequest_From (ContinueRequest_To x) ContinueRequest_fresh = x.
Proof.
  destruct x as [[[]]]. unfold valid_ContinueRequest, ContinueRequest_From, ContinueRequest_To. unfold_bases. simpl.
  solve_round_trip.
Qed.

#[export] Instance ContinueRequest_Codec : Codec ContinueRequest.
Proof.
  codec ContinueRequest_Any valid_ContinueRequest ContinueRequest_To_value ContinueRequest_From_sim
    ContinueRequest_round_trip.
Defined.

Record NextRequest := mkNextRequest {
  NextRequest_Request : Request;
  NextRequest_arguments : NextArguments;
}.
Definition NextRequest_fresh : NextRequest :=
  mkNextRequest (Request_new "next") fresh.

Definition NextRequest_To (x : NextRequest) : Json :=
  let json := Request_To (NextRequest_Request x) in
  AddObject_json "arguments" (To (NextRequest_arguments x)) json.

Definition NextRequest_From (json : Json) (this : NextRequest) : NextRequest :=
  mkNextRequest (Request_From json (NextRequest_Request this))
    (From json.["arguments"] (NextRequest_arguments this)).

Definition valid_NextRequest (x : NextRequest) : bool :=
  valid_Request (NextRequest_Request x) &&
  valid (NextRequest_arguments x).

#[export] Instance NextRequest_Any : Any NextRequest :=
  {| fresh := NextRequest_fresh; To := NextRequest_To; From := NextRequest_From |}.

Lemma NextRequest_To_value x : valid_NextRequest x = true →
  is_value (NextRequest_To x).
Proof. unfold valid_NextRequest, NextRequest_To. unfold_bases. solve_value. Qed.

Lemma NextRequest_From_sim j j' this : jsim j j' →
  NextRequest_From j this = NextRequest_From j' this.
Proof. unfold NextRequest_From. solve_sim. Qed.

Lemma NextRequest_round_trip x : valid_NextRequest x = true →
  NextRequest_From (NextRequest_To x) NextRequest_fresh = x.
Proof.
  destruct x as [[[]]]. unfold valid_NextRequest, NextRequest_From, NextRequest_To. unfold_bases. simpl.
  solve_round_trip.
Qed.

#[export] Instance NextRequest_Codec : Codec NextRequest.
Proof.
  codec NextRequest_Any valid_NextRequest NextRequest_To_value NextRequest_From_sim
    NextRequest_round_trip.
Defined.

Record StepRequest := mkStepRequest {
  StepRequest_Request : Request;
  StepRequest_arguments : StepArguments;
}.
Definition StepRequest_fresh : StepRequest :=
  mkStepRequest (Request_new "step") fresh.

Definition StepRequest_To (x : StepRequest) : Json :=
  let json := Request_To (StepRequest_Request x) in
  AddObject_json "arguments" (To (StepRequest_arguments x)) json.

Definition StepRequest_From (json : Json) (this : StepRequest) : StepRequest :=
  mkStepRequest (Request_From json (StepRequest_Request this))
    (From json.["arguments"] (StepRequest_arguments this)).

Definition valid_StepRequest (x : StepRequest) : bool :=
  valid_Request (StepRequest_Request x) &&
  valid (StepRequest_arguments x).

#[export] Instance StepRequest_Any : Any StepRequest :=
  {| fresh := StepRequest_fresh; To := StepRequest_To; From := StepRequest_From |}.

Lemma StepRequest_To_value x : valid_StepRequest x = true →
  is_value (StepRequest_To x).
Proof. unfold valid_StepRequest, StepRequest_To. unfold_bases. solve_value. Qed.

Lemma StepRequest_From_sim j j' this : jsim j j' →
  StepRequest_From j this = StepRequest_From j' this.
Proof. unfold StepRequest_From. solve_sim. Qed.

Lemma StepRequest_round_trip x : valid_StepRequest x = true →
  StepRequest_From (StepRequest_To x) StepRequest_fresh = x.
Proof.
  destruct x as [[[]]]. unfold valid_StepRequest, StepRequest_From, StepRequest_To. unfold_bases. simpl.
  solve_round_trip.
Qed.

#[export] Instance StepRequest_Codec : Codec StepRequest.
Proof.
  codec StepRequest_Any valid_StepRequest StepRequest_To_value StepRequest_From_sim
    StepRequest_round_trip.
Defined.

Record ScopesRequest := mkScopesRequest {
  ScopesRequest_Request : Request;
  ScopesRequest_arguments : ScopesArguments;
}.
Definition ScopesRequest_fresh : ScopesRequest :=
  mkScopesRequest (Request_new "scopes") fresh.

Definition ScopesRequest_To (x : ScopesRequest) : Json :=
  let json := Request_To (ScopesRequest_Request x) in
  Add_json "arguments" (To (ScopesRequest_arguments x)) json.

Definition ScopesRequest_From (json : Json) (this : ScopesRequest) : ScopesRequest :=
  mkScopesRequest (Request_From json (ScopesRequest_Request this))
    (From json.["arguments"] (ScopesRequest_arguments this)).

Definition valid_ScopesRequest (x : ScopesRequest) : bool :=
  valid_Request (ScopesRequest_Request x) &&
  valid (ScopesRequest_arguments x).

#[export] Instance ScopesRequest_Any : Any ScopesRequest :=
  {| fresh := ScopesRequest_fresh; To := ScopesRequest_To; From := ScopesRequest_From |}.

Lemma ScopesRequest_To_value x : valid_ScopesRequest x = true →
  is_value (ScopesRequest_To x).
Proof. unfold valid_ScopesRequest, ScopesRequest_To. unfold_bases. solve_value. Qed.

Lemma ScopesRequest_From_sim j j' this : jsim j j' →
  ScopesRequest_From j this = ScopesRequest_From j' this.
Proof. unfold ScopesRequest_From. solve_sim. Qed.

Lemma ScopesRequest_round_trip x : valid_ScopesRequest x = true →
  ScopesRequest_From (ScopesRequest_To x) ScopesRequest_fresh = x.
Proof.
  destruct x as [[[]]]. unfold valid_ScopesRequest, ScopesRequest_From, ScopesRequest_To. unfold_bases. simpl.
  solve_round_trip.
Qed.

#[export] Instance ScopesRequest_Codec : Codec ScopesRequest.
Proof.
  codec ScopesRequest_Any valid_ScopesRequest ScopesRequest_To_value ScopesRequest_From_sim
    ScopesRequest_round_trip.
Defined.

Record StackTraceRequest := mkStackTraceRequest {
  StackTraceRequest_Request : Request;
  StackTraceRequest_arguments : StackTraceArguments;
}.
Definition StackTraceRequest_fresh : StackTraceRequest :=
  mkStackTraceRequest (Request_new "stackTrace") fresh.

Definition StackTraceRequest_To (x : StackTraceRequest) : Json :=
  let json := Request_To (StackTraceRequest_Request x) in
  Add_json "arguments" (To (StackTraceRequest_arguments x)) json.

Definition StackTraceRequest_From (json : Json) (this : StackTraceRequest) : StackTraceRequest :=
  mkStackTraceRequest (Request_From json (StackTraceRequest_Request this))
    (From json.["arguments"] (StackTraceRequest_arguments this)).

Definition valid_StackTraceRequest (x : StackTraceRequest) : bool :=
  valid_Request (StackTraceRequest_Request x) &&
  valid (StackTraceRequest_arguments x).

#[export] Instance StackTraceRequest_Any : Any StackTraceRequest :=
  {| fresh := StackTraceRequest_fresh; To := StackTraceRequest_To; From := StackTraceRequest_From |}.

Lemma StackTraceRequest_To_value x : valid_StackTraceRequest x = true →
  is_value (StackTraceRequest_To x).
Proof. unfold valid_StackTraceRequest, StackTraceRequest_To. unfold_bases. solve_value. Qed.

Lemma StackTraceRequest_From_sim j j' this : jsim j j' →
  StackTraceRequest_From j this = StackTraceRequest_From j' this.
Proof. unfold StackTraceRequest_From. solve_sim. Qed.

Lemma StackTraceRequest_round_trip x : valid_StackTraceRequest x = true →
  StackTraceRequest_From (StackTraceRequest_To x) StackTraceRequest_fresh = x.
Proof.
  destruct x as [[[]]]. unfold valid_StackTraceRequest, StackTraceRequest_From, StackTraceRequest_To. unfold_bases. simpl.
  solve_round_trip.
Qed.

#[export] Instance StackTraceRequest_Codec : Codec StackTraceRequest.
Proof.
  codec StackTraceRequest_Any valid_StackTraceRequest StackTraceRequest_To_value StackTraceRequest_From_sim
    StackTraceRequest_round_trip.
Defined.

Record VariablesRequest := mkVariablesRequest {
  VariablesRequest_Request : Request;
  VariablesRequest_arguments : VariablesArguments;
}.
Definition VariablesRequest_fresh : VariablesRequest :=
  mkVariablesRequest (Request_new "variables") fresh.

Definition VariablesRequest_To (x : VariablesRequest) : Json :=
  let json := Request_To (VariablesRequest_Request x) in
  Add_json "arguments" (To (VariablesRequest_arguments x)) json.

Definition VariablesRequest_From (json : Json) (this : VariablesRequest) : VariablesRequest :=
  mkVariablesRequest (Request_From json (VariablesRequest_Request this))
    (From json.["arguments"] (VariablesRequest_arguments this)).

Definition valid_VariablesRequest (x : VariablesRequest) : bool :=
  valid_Request (VariablesRequest_Request x) &&
  valid (VariablesRequest_arguments x).

#[export] Instance VariablesRequest_Any : Any VariablesRequest :=
  {| fresh := VariablesRequest_fresh; To := VariablesRequest_To; From := VariablesRequest_From |}.

Lemma VariablesRequest_To_value x : valid_VariablesRequest x = true →
  is_value (VariablesRequest_To x).
Proof. unfold valid_VariablesRequest, VariablesRequest_To. unfold_bases. solve_value. Qed.

Lemma VariablesRequest_From_sim j j' this : jsim j j' →
  VariablesRequest_From j this = VariablesRequest_From j' this.
Proof. unfold VariablesRequest_From. solve_sim. Qed.

Lemma VariablesRequest_round_trip x : valid_VariablesRequest x = true →
  VariablesRequest_From (VariablesRequest_To x) VariablesRequest_fresh = x.
Proof.
  destruct x as [[[]]]. unfold valid_VariablesRequest, VariablesRequest_From, VariablesRequest_To. unfold_bases. simpl.
  solve_round_trip.
Qed.

#[export] Instance VariablesRequest_Codec : Codec VariablesRequest.
Proof.
  codec VariablesRequest_Any valid_VariablesRequest VariablesRequest_To_value VariablesRequest_From_sim
    VariablesRequest_round_trip.
Defined.

Record PauseRequest := mkPauseRequest {
  PauseRequest_Request : Request;
  PauseRequest_arguments : PauseArguments;
}.
Definition PauseRequest_fresh : PauseRequest :=
  mkPauseRequest (Request_new "pause") fresh.

Definition PauseRequest_To (x : PauseRequest) : Json :=
  let json := Request_To (PauseRequest_Request x) in
  Add_json "arguments" (To (PauseRequest_arguments x)) json.

Definition PauseRequest_From (json : Json) (this : PauseRequest) : PauseRequest :=
  mkPauseRequest (Request_From json (PauseRequest_Request this))
    (From json.["arguments"] (PauseRequest_arguments this)).

Definition valid_PauseRequest (x : PauseRequest) : bool :=
  valid_Request (PauseRequest_Request x) &&
  valid (PauseRequest_arguments x).

#[export] Instance PauseRequest_Any : Any PauseRequest :=
  {| fresh := PauseRequest_fresh; To := PauseRequest_To; From := PauseRequest_From |}.

Lemma PauseRequest_To_value x : valid_PauseRequest x = true →
  is_value (PauseRequest_To x).
Proof. unfold valid_PauseRequest, PauseRequest_To. unfold_bases. solve_value. Qed.

Lemma PauseRequest_From_sim j j' this : jsim j j' →
  PauseRequest_From j this = PauseRequest_From j' this.
Proof. unfold PauseRequest_From. solve_sim. Qed.

Lemma PauseRequest_round_trip x : valid_PauseRequest x = true →
  PauseRequest_From (PauseRequest_To x) PauseRequest_fresh = x.
Proof.
  destruct x as [[[]]]. unfold valid_PauseRequest, PauseRequest_From, PauseRequest_To. unfold_bases. simpl.
  solve_round_trip.
Qed.

#[export] Instance PauseRequest_Codec : Codec PauseRequest.
Proof.
  codec PauseRequest_Any valid_PauseRequest PauseRequest_To_value PauseRequest_From_sim
    PauseRequest_round_trip.
Defined.

Record RunInTerminalRequest := mkRunInTerminalRequest {
  RunInTerminalRequest_Request : Request;
  RunInTerminalRequest_arguments : RunInTerminalRequestArguments;
}.
Definition RunInTerminalRequest_fresh : RunInTerminalRequest :=
  mkRunInTerminalRequest (Request_new "runInTerminal") fresh.

Definition RunInTerminalRequest_To (x : RunInTerminalRequest) : Json :=
  let json := Request_To (RunInTerminalRequest_Request x) in
  Add_json "arguments" (To (RunInTerminalRequest_arguments x)) json.

Definition RunInTerminalRequest_From (json : Json) (this : RunInTerminalRequest) : RunInTerminalRequest :=
  mkRunInTerminalRequest (Request_From json (RunInTerminalRequest_Request this))
    (From json.["arguments"] (RunInTerminalRequest_arguments this)).

Definition valid_RunInTerminalRequest (x : RunInTerminalRequest) : bool :=
  valid_Request (RunInTerminalRequest_Request x) &&
  valid (RunInTerminalRequest_arguments x).

#[export] Instance RunInTerminalRequest_Any : Any RunInTerminalRequest :=
  {| fresh := RunInTerminalRequest_fresh; To := RunInTerminalRequest_To; From := RunInTerminalRequest_From |}.

Lemma RunInTerminalRequest_To_value x : valid_RunInTerminalRequest x = true →
  is_value (RunInTerminalRequest_To x).
Proof. unfold valid_RunInTerminalRequest, RunInTerminalRequest_To. unfold_bases. solve_value. Qed.

Lemma RunInTerminalRequest_From_sim j j' this : jsim j j' →
  RunInTerminalRequest_From j this = RunInTerminalRequest_From j' this.
Proof. unfold RunInTerminalRequest_From. solve_sim. Qed.

Lemma RunInTerminalRequest_round_trip x : valid_RunInTerminalRequest x = true →
  RunInTerminalRequest_From (RunInTerminalRequest_To x) RunInTerminalRequest_fresh = x.
Proof.
  destruct x as [[[]]]. unfold valid_RunInTerminalRequest, RunInTerminalRequest_From, RunInTerminalRequest_To. unfold_bases. simpl.
  solve_round_trip.
Qed.

#[export] Instance RunInTerminalRequest_Codec : Codec RunInTerminalRequest.
Proof.
  codec RunInTerminalRequest_Any valid_RunInTerminalRequest RunInTerminalRequest_To_value RunInTerminalRequest_From_sim
    RunInTerminalRequest_round_trip.
Defined.

Record SourceRequest := mkSourceRequest {
  SourceRequest_Request : Request;
  SourceRequest_arguments : SourceArguments;
}.
Definition SourceRequest_fresh : SourceRequest :=
  mkSourceRequest (Request_new "source") fresh.

Definition SourceRequest_To (x : SourceRequest) : Json :=
  let json := Request_To (SourceRequest_Request x) in
  AddObject_json "arguments" (To (SourceRequest_arguments x)) json.

Definition SourceRequest_From (json : Json) (this : SourceRequest) : SourceRequest :=
  mkSourceRequest (Request_From json (SourceRequest_Request this))
    (From json.["arguments"] (SourceRequest_arguments this)).

Definition valid_SourceRequest (x : SourceRequest) : bool :=
  valid_Request (SourceRequest_Request x) &&
  valid (SourceRequest_arguments x).

#[export] Instance SourceRequest_Any : Any SourceRequest :=
  {| fresh := SourceRequest_fresh; To := SourceRequest_To; From := SourceRequest_From |}.

Lemma SourceRequest_To_value x : valid_SourceRequest x = true →
  is_value (SourceRequest_To x).
Proof. unfold valid_SourceRequest, SourceRequest_To. unfold_bases. solve_value. Qed.

Lemma SourceRequest_From_sim j j' this : jsim j j' →
  SourceRequest_From j this = SourceRequest_From j' this.
Proof. unfold SourceRequest_From. solve_sim. Qed.

Lemma SourceRequest_round_trip x : valid_SourceRequest x = true →
  SourceRequest_From (SourceRequest_To x) SourceRequest_fresh = x.
Proof.
  destruct x as [[[]]]. unfold valid_SourceRequest, SourceRequest_From, SourceRequest_To. unfold_bases. simpl.
  solve_round_trip.
Qed.

#[export] Instance SourceRequest_Codec : Codec SourceRequest.
Proof.
  codec SourceRequest_Any valid_SourceRequest SourceRequest_To_value SourceRequest_From_sim
    SourceRequest_round_trip.
Defined.

Record EvaluateRequest := mkEvaluateRequest {
  EvaluateRequest_Request : Request;
  EvaluateRequest_arguments : EvaluateArguments;
}.
Definition EvaluateRequest_fresh : EvaluateRequest :=
  mkEvaluateRequest (Request_new "evaluate") fresh.

Definition EvaluateRequest_To (x : EvaluateRequest) : Json :=
  let json := Request_To (EvaluateRequest_Request x) in
  AddObject_json "arguments" (To (EvaluateRequest_arguments x)) json.

Definition EvaluateRequest_From (json : Json) (this : EvaluateRequest) : EvaluateRequest :=
  mkEvaluateRequest (Request_From json (EvaluateRequest_Request this))
    (From json.["arguments"] (EvaluateRequest_arguments this)).

Definition valid_EvaluateRequest (x : EvaluateRequest) : bool :=
  valid_Request (EvaluateRequest_Request x) &&
  valid (EvaluateRequest_arguments x).

#[export] Instance EvaluateRequest_Any : Any EvaluateRequest :=
  {| fresh := EvaluateRequest_fresh; To := EvaluateRequest_To; From := EvaluateRequest_From |}.

Lemma EvaluateRequest_To_value x : valid_EvaluateRequest x = true →
  is_value (EvaluateRequest_To x).
Proof. unfold valid_EvaluateRequest, EvaluateRequest_To. unfold_bases. solve_value. Qed.

Lemma EvaluateRequest_From_sim j j' this : jsim j j' →
  EvaluateRequest_From j this = EvaluateRequest_From j' this.
Proof. unfold EvaluateRequest_From. solve_sim. Qed.

Lemma EvaluateRequest_round_trip x : valid_EvaluateRequest x = true →
  EvaluateRequest_From (EvaluateRequest_To x) EvaluateRequest_fresh = x.
Proof.
  destruct x as [[[]]]. unfold valid_EvaluateRequest, EvaluateRequest_From, EvaluateRequest_To. unfold_bases. simpl.
  solve_round_trip.
Qed.

#[export] Instance EvaluateRequest_Codec : Codec EvaluateRequest.
Proof.
  codec EvaluateRequest_Any valid_EvaluateRequest EvaluateRequest_To_value EvaluateRequest_From_sim
    EvaluateRequest_round_trip.
Defined.

Record StoppedEvent := mkStoppedEvent {
  StoppedEvent_Event : Event;
  StoppedEvent_reason : text;
  StoppedEvent_text : text;
  StoppedEvent_description : text;
  StoppedEvent_allThreadsStopped : bool;
  StoppedEvent_threadId : Z;
}.
Definition StoppedEvent_fresh : StoppedEvent :=
  mkStoppedEvent (Event_new "stopped") [] [] [] false wxNOT_FOUND.

Definition StoppedEvent_To (x : StoppedEvent) : Json :=
  let json := Event_To (StoppedEvent_Event x) in
  AddObject_then "body" (λ body,
    let body := Add_string "reason" (StoppedEvent_reason x) body in
    let body := Add_string "text" (StoppedEvent_text x) body in
    let body := Add_string "description" (StoppedEvent_description x) body in
    let body := Add_bool "allThreadsStopped" (StoppedEvent_allThreadsStopped x) body in
    Add_int "threadId" (StoppedEvent_threadId x) body) json.

Definition StoppedEvent_From (json : Json) (this : StoppedEvent) : StoppedEvent :=
  mkStoppedEvent (Event_From json (StoppedEvent_Event this))
    (get_string json.["body"].["reason"])
    (get_string json.["body"].["text"])
    (get_string json.["body"].["description"])
    (get_bool json.["body"].["allThreadsStopped"])
    (GetInteger wxNOT_FOUND json.["body"].["threadId"]).

Definition valid_StoppedEvent (x : StoppedEvent) : bool :=
  valid_Event (StoppedEvent_Event x) &&
  no_nul (StoppedEvent_reason x) &&
  no_nul (StoppedEvent_text x) &&
  no_nul (StoppedEvent_description x) &&
  is_int (StoppedEvent_threadId x).

#[export] Instance StoppedEvent_Any : Any StoppedEvent :=
  {| fresh := StoppedEvent_fresh; To := StoppedEvent_To; From := StoppedEvent_From |}.

Lemma StoppedEvent_To_value x : valid_StoppedEvent x = true →
  is_value (StoppedEvent_To x).
Proof. unfold valid_StoppedEvent, StoppedEvent_To. unfold_bases. solve_value. Qed.

Lemma StoppedEvent_From_sim j j' this : jsim j j' →
  StoppedEvent_From j this = StoppedEvent_From j' this.
Proof. unfold StoppedEvent_From. solve_sim. Qed.

Lemma StoppedEvent_round_trip x : valid_StoppedEvent x = true →
  StoppedEvent_From (StoppedEvent_To x) StoppedEvent_fresh = x.
Proof.
  destruct x as [[[]]]. unfold valid_StoppedEvent, StoppedEvent_From, StoppedEvent_To. unfold_bases. simpl.
  solve_round_trip.
Qed.

#[export] Instance StoppedEvent_Codec : Codec StoppedEvent.
Proof.
  codec StoppedEvent_Any valid_StoppedEvent StoppedEvent_To_value StoppedEvent_From_sim
    StoppedEvent_round_trip.
Defined.

Record ContinuedEvent := mkContinuedEvent {
  ContinuedEvent_Event : Event;
  ContinuedEvent_threadId : Z;
  ContinuedEvent_allThreadsContinued : bool;
}.
Definition ContinuedEvent_fresh : ContinuedEvent :=
  mkContinuedEvent (Event_new "continued") (-1) true.

Definition ContinuedEvent_To (x : ContinuedEvent) : Json :=
  let json := Event_To (ContinuedEvent_Event x) in
  AddObject_then "body" (λ body,
    let body := Add_int "threadId" (ContinuedEvent_threadId x) body in
    Add_bool "allThreadsContinued" (ContinuedEvent_allThreadsContinued x) body) json.

Definition ContinuedEvent_From (json : Json) (this : ContinuedEvent) : ContinuedEvent :=
  mkContinuedEvent (Event_From json (ContinuedEvent_Event this))
    (get_integer json.["body"].["threadId"])
    (get_bool json.["body"].["allThreadsContinued"]).

Definition valid_ContinuedEvent (x : ContinuedEvent) : bool :=
  valid_Event (ContinuedEvent_Event x) &&
  is_int (ContinuedEvent_threadId x).

#[export] Instance ContinuedEvent_Any : Any ContinuedEvent :=
  {| fresh := ContinuedEvent_fresh; To := ContinuedEvent_To; From := ContinuedEvent_From |}.

Lemma ContinuedEvent_To_value x : valid_ContinuedEvent x = true →
  is_value (ContinuedEvent_To x).
Proof. unfold valid_ContinuedEvent, ContinuedEvent_To. unfold_bases. solve_value. Qed.

Lemma ContinuedEvent_From_sim j j' this : jsim j j' →
  ContinuedEvent_From j this = ContinuedEvent_From j' this.
Proof. unfold ContinuedEvent_From. solve_sim. Qed.

Lemma ContinuedEvent_round_trip x : valid_ContinuedEvent x = true →
  ContinuedEvent_From (ContinuedEvent_To x) ContinuedEvent_fresh = x.
Proof.
  destruct x as [[[]]]. unfold valid_ContinuedEvent, ContinuedEvent_From, ContinuedEvent_To. unfold_bases. simpl.
  solve_round_trip.
Qed.

#[export] Instance ContinuedEvent_Codec : Codec ContinuedEvent.
Proof.
  codec ContinuedEvent_Any valid_ContinuedEvent ContinuedEvent_To_value ContinuedEvent_From_sim
    ContinuedEvent_round_trip.
Defined.

Record ExitedEvent := mkExitedEvent {
  ExitedEvent_Event : Event;
  ExitedEvent_exitCode : Z;
}.
Definition ExitedEvent_fresh : ExitedEvent :=
  mkExitedEvent (Event_new "exited") 0.

Definition ExitedEvent_To (x : ExitedEvent) : Json :=
  let json := Event_To (ExitedEvent_Event x) in
  AddObject_then "body" (λ body,
    Add_int "exitCode" (ExitedEvent_exitCode x) body) json.

Definition ExitedEvent_From (json : Json) (this : ExitedEvent) : ExitedEvent :=
  mkExitedEvent (Event_From json (ExitedEvent_Event this))
    (get_integer json.["body"].["exitCode"]).

Definition valid_ExitedEvent (x : ExitedEvent) : bool :=
  valid_Event (ExitedEvent_Event x) &&
  is_int (ExitedEvent_exitCode x).

#[export] Instance ExitedEvent_Any : Any ExitedEvent :=
  {| fresh := ExitedEvent_fresh; To := ExitedEvent_To; From := ExitedEvent_From |}.

Lemma ExitedEvent_To_value x : valid_ExitedEvent x = true →
  is_value (ExitedEvent_To x).
Proof. unfold valid_ExitedEvent, ExitedEvent_To. unfold_bases. solve_value. Qed.

Lemma ExitedEvent_From_sim j j' this : jsim j j' →
  ExitedEvent_From j this = ExitedEvent_From j' this.
Proof. unfold ExitedEvent_From. solve_sim. Qed.

Lemma ExitedEvent_round_trip x : valid_ExitedEvent x = true →
  ExitedEvent_From (ExitedEvent_To x) ExitedEvent_fresh = x.
Proof.
  destruct x as [[[]]]. unfold valid_ExitedEvent, ExitedEvent_From, ExitedEvent_To. unfold_bases. simpl.
  solve_round_trip.
Qed.

#[export] Instance ExitedEvent_Codec : Codec ExitedEvent.
Proof.
  codec ExitedEvent_Any valid_ExitedEvent ExitedEvent_To_value ExitedEvent_From_sim
    ExitedEvent_round_trip.
Defined.

Record ThreadEvent := mkThreadEvent {
  ThreadEvent_Event : Event;
  ThreadEvent_reason : text;
  ThreadEvent_threadId : Z;
}.
Definition ThreadEvent_fresh : ThreadEvent :=
  mkThreadEvent (Event_new "thread") [] 0.

Definition ThreadEvent_To (x : ThreadEvent) : Json :=
  let json := Event_To (ThreadEvent_Event x) in
  AddObject_then "body" (λ body,
    let body := Add_string "reason" (ThreadEvent_reason x) body in
    Add_int "threadId" (ThreadEvent_threadId x) body) json.

Definition ThreadEvent_From (json : Json) (this : ThreadEvent) : ThreadEvent :=
  mkThreadEvent (Event_From json (ThreadEvent_Event this))
    (get_string json.["body"].["reason"])
    (get_integer json.["body"].["threadId"]).

Definition valid_ThreadEvent (x : ThreadEvent) : bool :=
  valid_Event (ThreadEvent_Event x) &&
  no_nul (ThreadEvent_reason x) &&
  is_int (ThreadEvent_threadId x).

#[export] Instance ThreadEvent_Any : Any ThreadEvent :=
  {| fresh := ThreadEvent_fresh; To := ThreadEvent_To; From := ThreadEvent_From |}.

Lemma ThreadEvent_To_value x : valid_ThreadEvent x = true →
  is_value (ThreadEvent_To x).
Proof. unfold valid_ThreadEvent, ThreadEvent_To. unfold_bases. solve_value. Qed.

Lemma ThreadEvent_From_sim j j' this : jsim j j' →
  ThreadEvent_From j this = ThreadEvent_From j' this.
Proof. unfold ThreadEvent_From. solve_sim. Qed.

Lemma ThreadEvent_round_trip x : valid_ThreadEvent x = true →
  ThreadEvent_From (ThreadEvent_To x) ThreadEvent_fresh = x.
Proof.
  destruct x as [[[]]]. unfold valid_ThreadEvent, ThreadEvent_From, ThreadEvent_To. unfold_bases. simpl.
  solve_round_trip.
Qed.

#[export] Instance ThreadEvent_Codec : Codec ThreadEvent.
Proof.
  codec ThreadEvent_Any valid_ThreadEvent ThreadEvent_To_value ThreadEvent_From_sim
    ThreadEvent_round_trip.
Defined.

Record OutputEvent := mkOutputEvent {
  OutputEvent_Event : Event;
  OutputEvent_category : text;
  OutputEvent_output : text;
}.
Definition OutputEvent_fresh : OutputEvent :=
  mkOutputEvent (Event_new "output") [] [].

Definition OutputEvent_To (x : OutputEvent) : Json :=
  let json := Event_To (OutputEvent_Event x) in
  AddObject_then "body" (λ body,
    let body := Add_string "category" (OutputEvent_category x) body in
    Add_string "output" (OutputEvent_output x) body) json.

Definition OutputEvent_From (json : Json) (this : OutputEvent) : OutputEvent :=
  mkOutputEvent (Event_From json (OutputEvent_Event this))
    (get_string json.["body"].["category"])
    (get_string json.["body"].["output"]).

Definition valid_OutputEvent (x : OutputEvent) : bool :=
  valid_Event (OutputEvent_Event x) &&
  no_nul (OutputEvent_category x) &&
  no_nul (OutputEvent_output x).

#[export] Instance OutputEvent_Any : Any OutputEvent :=
  {| fresh := OutputEvent_fresh; To := OutputEvent_To; From := OutputEvent_From |}.

Lemma OutputEvent_To_value x : valid_OutputEvent x = true →
  is_value (OutputEvent_To x).
Proof. unfold valid_OutputEvent, OutputEvent_To. unfold_bases. solve_value. Qed.

Lemma OutputEvent_From_sim j j' this : jsim j j' →
  OutputEvent_From j this = OutputEvent_From j' this.
Proof. unfold OutputEvent_From. solve_sim. Qed.

Lemma OutputEvent_round_trip x : valid_OutputEvent x = true →
  OutputEvent_From (OutputEvent_To x) OutputEvent_fresh = x.
Proof.
  destruct x as [[[]]]. unfold valid_OutputEvent, OutputEvent_From, OutputEvent_To. unfold_bases. simpl.
  solve_round_trip.
Qed.

#[export] Instance OutputEvent_Codec : Codec OutputEvent.
Proof.
  codec OutputEvent_Any valid_OutputEvent OutputEvent_To_value OutputEvent_From_sim
    OutputEvent_round_trip.
Defined.

Record BreakpointEvent := mkBreakpointEvent {
  BreakpointEvent_Event : Event;
  BreakpointEvent_reason : text;
  BreakpointEvent_breakpoint : Breakpoint;
}.
Definition BreakpointEvent_fresh : BreakpointEvent :=
  mkBreakpointEvent (Event_new "breakpoint") [] fresh.

Definition BreakpointEvent_To (x : BreakpointEvent) : Json :=
  let json := Event_To (BreakpointEvent_Event x) in
  AddObject_then "body" (λ body,
    let body := Add_string "reason" (BreakpointEvent_reason x) body in
    AddObject_json "breakpoint" (To (BreakpointEvent_breakpoint x)) body) json.

Definition BreakpointEvent_From (json : Json) (this : BreakpointEvent) : BreakpointEvent :=
  mkBreakpointEvent (Event_From json (BreakpointEvent_Event this))
    (get_string json.["body"].["reason"])
    (From json.["body"].["breakpoint"] (BreakpointEvent_breakpoint this)).

Definition valid_BreakpointEvent (x : BreakpointEvent) : bool :=
  valid_Event (BreakpointEvent_Event x) &&
  no_nul (BreakpointEvent_reason x) &&
  valid (BreakpointEvent_breakpoint x).

#[export] Instance BreakpointEvent_Any : Any BreakpointEvent :=
  {| fresh := BreakpointEvent_fresh; To := BreakpointEvent_To; From := BreakpointEvent_From |}.

Lemma BreakpointEvent_To_value x : valid_BreakpointEvent x = true →
  is_value (BreakpointEvent_To x).
Proof. unfold valid_BreakpointEvent, BreakpointEvent_To. unfold_bases. solve_value. Qed.

Lemma BreakpointEvent_From_sim j j' this : jsim j j' →
  BreakpointEvent_From j this = BreakpointEvent_From j' this.
Proof. unfold BreakpointEvent_From. solve_sim. Qed.

Lemma BreakpointEvent_round_trip x : valid_BreakpointEvent x = true →
  BreakpointEvent_From (BreakpointEvent_To x) BreakpointEvent_fresh = x.
Proof.
  destruct x as [[[]]]. unfold valid_BreakpointEvent, BreakpointEvent_From, BreakpointEvent_To. unfold_bases. simpl.
  solve_round_trip.
Qed.

#[export] Instance BreakpointEvent_Codec : Codec BreakpointEvent.
Proof.
  codec BreakpointEvent_Any valid_BreakpointEvent BreakpointEvent_To_value BreakpointEvent_From_sim
    BreakpointEvent_round_trip.
Defined.

(** A false [isLocalProcess] is read back as the default, true: see [GetBool].  Pointers have eight bytes. *)
Record ProcessEvent := mkProcessEvent {
  ProcessEvent_Event : Event;
  ProcessEvent_name : text;
  ProcessEvent_systemProcessId : Z;
  ProcessEvent_isLocalProcess : bool;
  ProcessEvent_startMethod : text;
  ProcessEvent_pointerSize : Z;
}.
Definition ProcessEvent_fresh : ProcessEvent :=
  mkProcessEvent (Event_new "process") [] (-1) true [] 8.

Definition ProcessEvent_To (x : ProcessEvent) : Json :=
  let json := Event_To (ProcessEvent_Event x) in
  AddObject_then "body" (λ body,
    let body := Add_string "name" (ProcessEvent_name x) body in
    let body := Add_int "systemProcessId" (ProcessEvent_systemProcessId x) body in
    let body := Add_bool "isLocalProcess" (ProcessEvent_isLocalProcess x) body in
    let body := Add_string "startMethod" (ProcessEvent_startMethod x) body in
    Add_int "pointerSize" (ProcessEvent_pointerSize x) body) json.

Definition ProcessEvent_From (json : Json) (this : ProcessEvent) : ProcessEvent :=
  mkProcessEvent (Event_From json (ProcessEvent_Event this))
    (get_string json.["body"].["name"])
    (get_integer json.["body"].["systemProcessId"])
    (GetBool true json.["body"].["isLocalProcess"])
    (get_string json.["body"].["startMethod"])
    (get_integer json.["body"].["pointerSize"]).

Definition valid_ProcessEvent (x : ProcessEvent) : bool :=
  valid_Event (ProcessEvent_Event x) &&
  no_nul (ProcessEvent_name x) &&
  is_int (ProcessEvent_systemProcessId x) &&
  (ProcessEvent_isLocalProcess x) &&
  no_nul (ProcessEvent_startMethod x) &&
  is_int (ProcessEvent_pointerSize x).

#[export] Instance ProcessEvent_Any : Any ProcessEvent :=
  {| fresh := ProcessEvent_fresh; To := ProcessEvent_To; From := ProcessEvent_From |}.

Lemma ProcessEvent_To_value x : valid_ProcessEvent x = true →
  is_value (ProcessEvent_To x).
Proof. unfold valid_ProcessEvent, ProcessEvent_To. unfold_bases. solve_value. Qed.

Lemma ProcessEvent_From_sim j j' this : jsim j j' →
  ProcessEvent_From j this = ProcessEvent_From j' this.
Proof. unfold ProcessEvent_From. solve_sim. Qed.

Lemma ProcessEvent_round_trip x : valid_ProcessEvent x = true →
  ProcessEvent_From (ProcessEvent_To x) ProcessEvent_fresh = x.
Proof.
  destruct x as [[[]]]. unfold valid_ProcessEvent, ProcessEvent_From, ProcessEvent_To. unfold_bases. simpl.
  solve_round_trip.
Qed.

#[export] Instance ProcessEvent_Codec : Codec ProcessEvent.
Proof.
  codec ProcessEvent_Any valid_ProcessEvent ProcessEvent_To_value ProcessEvent_From_sim
    ProcessEvent_round_trip.
Defined.

Record ModuleEvent := mkModuleEvent {
  ModuleEvent_Event : Event;
  ModuleEvent_reason : text;
  ModuleEvent_module : DapModule;
}.
Definition ModuleEvent_fresh : ModuleEvent :=
  mkModuleEvent (Event_new "module") [] fresh.

Definition ModuleEvent_To (x : ModuleEvent) : Json :=
  let json := Event_To (ModuleEvent_Event x) in
  AddObject_then "body" (λ body,
    let body := Add_string "reason" (ModuleEvent_reason x) body in
    AddObject_json "module" (To (ModuleEvent_module x)) body) json.

Definition ModuleEvent_From (json : Json) (this : ModuleEvent) : ModuleEvent :=
  mkModuleEvent (Event_From json (ModuleEvent_Event this))
    (get_string json.["body"].["reason"])
    (From json.["body"].["module"] (ModuleEvent_module this)).

Definition valid_ModuleEvent (x : ModuleEvent) : bool :=
  valid_Event (ModuleEvent_Event x) &&
  no_nul (ModuleEvent_reason x) &&
  valid (ModuleEvent_module x).

#[export] Instance ModuleEvent_Any : Any ModuleEvent :=
  {| fresh := ModuleEvent_fresh; To := ModuleEvent_To; From := ModuleEvent_From |}.

Lemma ModuleEvent_To_value x : valid_ModuleEvent x = true →
  is_value (ModuleEvent_To x).
Proof. unfold valid_ModuleEvent, ModuleEvent_To. unfold_bases. solve_value. Qed.

Lemma ModuleEvent_From_sim j j' this : jsim j j' →
  ModuleEvent_From j this = ModuleEvent_From j' this.
Proof. unfold ModuleEvent_From. solve_sim. Qed.

Lemma ModuleEvent_round_trip x : valid_ModuleEvent x = true →
  ModuleEvent_From (ModuleEvent_To x) ModuleEvent_fresh = x.
Proof.
  destruct x as [[[]]]. unfold valid_ModuleEvent, ModuleEvent_From, ModuleEvent_To. unfold_bases. simpl.
  solve_round_trip.
Qed.

#[export] Instance ModuleEvent_Codec : Codec ModuleEvent.
Proof.
  codec ModuleEvent_Any valid_ModuleEvent ModuleEvent_To_value ModuleEvent_From_sim
    ModuleEvent_round_trip.
Defined.

(** The constructor leaves [port] uninitialised. *)
Record DebugpyWaitingForServerEvent := mkDebugpyWaitingForServerEvent {
  DebugpyWaitingForServerEvent_Event : Event;
  DebugpyWaitingForServerEvent_host : text;
  DebugpyWaitingForServerEvent_port : Z;
}.
Definition DebugpyWaitingForServerEvent_fresh : DebugpyWaitingForServerEvent :=
  mkDebugpyWaitingForServerEvent (Event_new "") [] indeterminate_int.

Definition DebugpyWaitingForServerEvent_To (x : DebugpyWaitingForServerEvent) : Json :=
  let json := Event_To (DebugpyWaitingForServerEvent_Event x) in
  AddObject_then "body" (λ body,
    let body := Add_string "host" (DebugpyWaitingForServerEvent_host x) body in
    Add_int "port" (DebugpyWaitingForServerEvent_port x) body) json.

Definition DebugpyWaitingForServerEvent_From (json : Json) (this : DebugpyWaitingForServerEvent) : DebugpyWaitingForServerEvent :=
  mkDebugpyWaitingForServerEvent (Event_From json (DebugpyWaitingForServerEvent_Event this))
    (get_string json.["body"].["host"])
    (get_integer json.["body"].["port"]).

Definition valid_DebugpyWaitingForServerEvent (x : DebugpyWaitingForServerEvent) : bool :=
  valid_Event (DebugpyWaitingForServerEvent_Event x) &&
  no_nul (DebugpyWaitingForServerEvent_host x) &&
  is_int (DebugpyWaitingForServerEvent_port x).

#[export] Instance DebugpyWaitingForServerEvent_Any : Any DebugpyWaitingForServerEvent :=
  {| fresh := DebugpyWaitingForServerEvent_fresh; To := DebugpyWaitingForServerEvent_To; From := DebugpyWaitingForServerEvent_From |}.

Lemma DebugpyWaitingForServerEvent_To_value x : valid_DebugpyWaitingForServerEvent x = true →
  is_value (DebugpyWaitingForServerEvent_To x).
Proof. unfold valid_DebugpyWaitingForServerEvent, DebugpyWaitingForServerEvent_To. unfold_bases. solve_value. Qed.

Lemma DebugpyWaitingForServerEvent_From_sim j j' this : jsim j j' →
  DebugpyWaitingForServerEvent_From j this = DebugpyWaitingForServerEvent_From j' this.
Proof. unfold DebugpyWaitingForServerEvent_From. solve_sim. Qed.

Lemma DebugpyWaitingForServerEvent_round_trip x : valid_DebugpyWaitingForServerEvent x = true →
  DebugpyWaitingForServerEvent_From (DebugpyWaitingForServerEvent_To x) DebugpyWaitingForServerEvent_fresh = x.
Proof.
  destruct x as [[[]]]. unfold valid_DebugpyWaitingForServerEvent, DebugpyWaitingForServerEvent_From, DebugpyWaitingForServerEvent_To. unfold_bases. simpl.
  solve_round_trip.
Qed.

#[export] Instance DebugpyWaitingForServerEvent_Codec : Codec DebugpyWaitingForServerEvent.
Proof.
  codec DebugpyWaitingForServerEvent_Any valid_DebugpyWaitingForServerEvent DebugpyWaitingForServerEvent_To_value DebugpyWaitingForServerEvent_From_sim
    DebugpyWaitingForServerEvent_round_trip.
Defined.

Record InitializeResponse := mkInitializeResponse {
  InitializeResponse_Response : Response;
}.
Definition InitializeResponse_fresh : InitializeResponse :=
  mkInitializeResponse (Response_new "initialize").

Definition InitializeResponse_To (x : InitializeResponse) : Json :=
  let json := Response_To (InitializeResponse_Response x) in
  AddObject_then "body" (λ body, body) json.

Definition InitializeResponse_From (json : Json) (this : InitializeResponse) : InitializeResponse :=
  mkInitializeResponse (Response_From json (InitializeResponse_Response this)).

Definition valid_InitializeResponse (x : InitializeResponse) : bool :=
  valid_Response (InitializeResponse_Response x).

#[export] Instance InitializeResponse_Any : Any InitializeResponse :=
  {| fresh := InitializeResponse_fresh; To := InitializeResponse_To; From := InitializeResponse_From |}.

Lemma InitializeResponse_To_value x : valid_InitializeResponse x = true →
  is_value (InitializeResponse_To x).
Proof. unfold valid_InitializeResponse, InitializeResponse_To. unfold_bases. solve_value. Qed.

Lemma InitializeResponse_From_sim j j' this : jsim j j' →
  InitializeResponse_From j this = InitializeResponse_From j' this.
Proof. unfold InitializeResponse_From. solve_sim. Qed.

Lemma InitializeResponse_round_trip x : valid_InitializeResponse x = true →
  InitializeResponse_From (InitializeResponse_To x) InitializeResponse_fresh = x.
Proof.
  destruct x as [[[]]]. unfold valid_InitializeResponse, InitializeResponse_From, InitializeResponse_To. unfold_bases. simpl.
  solve_round_trip.
Qed.

#[export] Instance InitializeResponse_Codec : Codec InitializeResponse.
Proof.
  codec InitializeResponse_Any valid_InitializeResponse InitializeResponse_To_value InitializeResponse_From_sim
    InitializeResponse_round_trip.
Defined.

Inductive EvaluateContext := VARIABLES | WATCH | REPL | HOVER | CLIPBOARD.

(** [filepath] is not a part of the protocol: the client sets it. *)
Record BreakpointLocationsResponse := mkBreakpointLocationsResponse {
  BreakpointLocationsResponse_Response : Response;
  BreakpointLocationsResponse_breakpoints : list BreakpointLocation;
  BreakpointLocationsResponse_filepath : text;
}.
Definition BreakpointLocationsResponse_fresh : BreakpointLocationsResponse :=
  mkBreakpointLocationsResponse (Response_new "breakpointLocations") [] [].

Definition BreakpointLocationsResponse_To (x : BreakpointLocationsResponse) : Json :=
  let json := Response_To (BreakpointLocationsResponse_Response x) in
  AddObject_then "body" (λ body,
    AddArray_then "breakpoints" (add_all (BreakpointLocationsResponse_breakpoints x)) body) json.

Definition BreakpointLocationsResponse_From (json : Json) (this : BreakpointLocationsResponse) : BreakpointLocationsResponse :=
  mkBreakpointLocationsResponse (Response_From json (BreakpointLocationsResponse_Response this))
    (read_array json.["body"].["breakpoints"])
    (BreakpointLocationsResponse_filepath this).

Definition valid_BreakpointLocationsResponse (x : BreakpointLocationsResponse) : bool :=
  valid_Response (BreakpointLocationsResponse_Response x) &&
  forallb valid (BreakpointLocationsResponse_breakpoints x) &&
  ((BreakpointLocationsResponse_filepath x) =t []).

#[export] Instance BreakpointLocationsResponse_Any : Any BreakpointLocationsResponse :=
  {| fresh := BreakpointLocationsResponse_fresh; To := BreakpointLocationsResponse_To; From := BreakpointLocationsResponse_From |}.

Lemma BreakpointLocationsResponse_To_value x : valid_BreakpointLocationsResponse x = true →
  is_value (BreakpointLocationsResponse_To x).
Proof. unfold valid_BreakpointLocationsResponse, BreakpointLocationsResponse_To. unfold_bases. solve_value. Qed.

Lemma BreakpointLocationsResponse_From_sim j j' this : jsim j j' →
  BreakpointLocationsResponse_From j this = BreakpointLocationsResponse_From j' this.
Proof. unfold BreakpointLocationsResponse_From. solve_sim. Qed.

Lemma BreakpointLocationsResponse_round_trip x : valid_BreakpointLocationsResponse x = true →
  BreakpointLocationsResponse_From (BreakpointLocationsResponse_To x) BreakpointLocationsResponse_fresh = x.
Proof.
  destruct x as [[[]]]. unfold valid_BreakpointLocationsResponse, BreakpointLocationsResponse_From, BreakpointLocationsResponse_To. unfold_bases. simpl.
  solve_round_trip.
Qed.

#[export] Instance BreakpointLocationsResponse_Codec : Codec BreakpointLocationsResponse.
Proof.
  codec BreakpointLocationsResponse_Any valid_BreakpointLocationsResponse BreakpointLocationsResponse_To_value BreakpointLocationsResponse_From_sim
    BreakpointLocationsResponse_round_trip.
Defined.

(** [originSource] is not a part of the protocol: the client sets it. *)
Record SetBreakpointsResponse := mkSetBreakpointsResponse {
  SetBreakpointsResponse_Response : Response;
  SetBreakpointsResponse_breakpoints : list Breakpoint;
  SetBreakpointsResponse_originSource : text;
}.
Definition SetBreakpointsResponse_fresh : SetBreakpointsResponse :=
  mkSetBreakpointsResponse (Response_new "setBreakpoints") [] [].

Definition SetBreakpointsResponse_To (x : SetBreakpointsResponse) : Json :=
  let json := Response_To (SetBreakpointsResponse_Response x) in
  AddObject_then "body" (λ body,
    AddArray_then "breakpoints" (add_all (SetBreakpointsResponse_breakpoints x)) body) json.

Definition SetBreakpointsResponse_From (json : Json) (this : SetBreakpointsResponse) : SetBreakpointsResponse :=
  mkSetBreakpointsResponse (Response_From json (SetBreakpointsResponse_Response this))
    (read_array json.["body"].["breakpoints"])
    (SetBreakpointsResponse_originSource this).

Definition valid_SetBreakpointsResponse (x : SetBreakpointsResponse) : bool :=
  valid_Response (SetBreakpointsResponse_Response x) &&
  forallb valid (SetBreakpointsResponse_breakpoints x) &&
  ((SetBreakpointsResponse_originSource x) =t []).

#[export] Instance SetBreakpointsResponse_Any : Any SetBreakpointsResponse :=
  {| fresh := SetBreakpointsResponse_fresh; To := SetBreakpointsResponse_To; From := SetBreakpointsResponse_From |}.

Lemma SetBreakpointsResponse_To_value x : valid_SetBreakpointsResponse x = true →
  is_value (SetBreakpointsResponse_To x).
Proof. unfold valid_SetBreakpointsResponse, SetBreakpointsResponse_To. unfold_bases. solve_value. Qed.

Lemma SetBreakpointsResponse_From_sim j j' this : jsim j j' →
  SetBreakpointsResponse_From j this = SetBreakpointsResponse_From j' this.
Proof. unfold SetBreakpointsResponse_From. solve_sim. Qed.

Lemma SetBreakpointsResponse_round_trip x : valid_SetBreakpointsResponse x = true →
  SetBreakpointsResponse_From (SetBreakpointsResponse_To x) SetBreakpointsResponse_fresh = x.
Proof.
  destruct x as [[[]]]. unfold valid_SetBreakpointsResponse, SetBreakpointsResponse_From, SetBreakpointsResponse_To. unfold_bases. simpl.
  solve_round_trip.
Qed.

#[export] Instance SetBreakpointsResponse_Codec : Codec SetBreakpointsResponse.
Proof.
  codec SetBreakpointsResponse_Any valid_SetBreakpointsResponse SetBreakpointsResponse_To_value SetBreakpointsResponse_From_sim
    SetBreakpointsResponse_round_trip.
Defined.

(** The conversion of a [double] to [bool]. *)
Definition double_to_bool (d : double) : bool := if d is S754_zero _ then false else true.

(** The boolean is read with [GetNumber], whose default, -1, is true. *)
Record ContinueResponse := mkContinueResponse {
  ContinueResponse_Response : Response;
  ContinueResponse_allThreadsContinued : bool;
}.
Definition ContinueResponse_fresh : ContinueResponse :=
  mkContinueResponse (Response_new "continue") true.

Definition ContinueResponse_To (x : ContinueResponse) : Json :=
  let json := Response_To (ContinueResponse_Response x) in
  AddObject_then "body" (λ body,
    Add_bool "allThreadsContinued" (ContinueResponse_allThreadsContinued x) body) json.

Definition ContinueResponse_From (json : Json) (this : ContinueResponse) : ContinueResponse :=
  mkContinueResponse (Response_From json (ContinueResponse_Response this))
    (double_to_bool (GetNumber (of_int (-1)) json.["body"].["allThreadsContinued"])).

Definition valid_ContinueResponse (x : ContinueResponse) : bool :=
  valid_Response (ContinueResponse_Response x) &&
  (ContinueResponse_allThreadsContinued x).

#[export] Instance ContinueResponse_Any : Any ContinueResponse :=
  {| fresh := ContinueResponse_fresh; To := ContinueResponse_To; From := ContinueResponse_From |}.

Lemma ContinueResponse_To_value x : valid_ContinueResponse x = true →
  is_value (ContinueResponse_To x).
Proof. unfold valid_ContinueResponse, ContinueResponse_To. unfold_bases. solve_value. Qed.

Lemma ContinueResponse_From_sim j j' this : jsim j j' →
  ContinueResponse_From j this = ContinueResponse_From j' this.
Proof.
  intros Hj. unfold ContinueResponse_From. f_equal; [by apply Response_From_sim|].
  f_equal. apply GetNumber_sim. eauto with jsim.
Qed.

Lemma ContinueResponse_round_trip x : valid_ContinueResponse x = true →
  ContinueResponse_From (ContinueResponse_To x) ContinueResponse_fresh = x.
Proof.
  destruct x as [[[]]]. unfold valid_ContinueResponse, ContinueResponse_From, ContinueResponse_To. unfold_bases. simpl.
  solve_round_trip.
Qed.

#[export] Instance ContinueResponse_Codec : Codec ContinueResponse.
Proof.
  codec ContinueResponse_Any valid_ContinueResponse ContinueResponse_To_value ContinueResponse_From_sim
    ContinueResponse_round_trip.
Defined.

Record ThreadsResponse := mkThreadsResponse {
  ThreadsResponse_Response : Response;
  ThreadsResponse_threads : list Thread;
}.
Definition ThreadsResponse_fresh : ThreadsResponse :=
  mkThreadsResponse (Response_new "threads") [].

Definition ThreadsResponse_To (x : ThreadsResponse) : Json :=
  let json := Response_To (ThreadsResponse_Response x) in
  AddObject_then "body" (λ body,
    AddArray_then "threads" (add_all (ThreadsResponse_threads x)) body) json.

Definition ThreadsResponse_From (json : Json) (this : ThreadsResponse) : ThreadsResponse :=
  mkThreadsResponse (Response_From json (ThreadsResponse_Response this))
    (read_array json.["body"].["threads"]).

Definition valid_ThreadsResponse (x : ThreadsResponse) : bool :=
  valid_Response (ThreadsResponse_Response x) &&
  forallb valid (ThreadsResponse_threads x).

#[export] Instance ThreadsResponse_Any : Any ThreadsResponse :=
  {| fresh := ThreadsResponse_fresh; To := ThreadsResponse_To; From := ThreadsResponse_From |}.

Lemma ThreadsResponse_To_value x : valid_ThreadsResponse x = true →
  is_value (ThreadsResponse_To x).
Proof. unfold valid_ThreadsResponse, ThreadsResponse_To. unfold_bases. solve_value. Qed.

Lemma ThreadsResponse_From_sim j j' this : jsim j j' →
  ThreadsResponse_From j this = ThreadsResponse_From j' this.
Proof. unfold ThreadsResponse_From. solve_sim. Qed.

Lemma ThreadsResponse_round_trip x : valid_ThreadsResponse x = true →
  ThreadsResponse_From (ThreadsResponse_To x) ThreadsResponse_fresh = x.
Proof.
  destruct x as [[[]]]. unfold valid_ThreadsResponse, ThreadsResponse_From, ThreadsResponse_To. unfold_bases. simpl.
  solve_round_trip.
Qed.

#[export] Instance ThreadsResponse_Codec : Codec ThreadsResponse.
Proof.
  codec ThreadsResponse_Any valid_ThreadsResponse ThreadsResponse_To_value ThreadsResponse_From_sim
    ThreadsResponse_round_trip.
Defined.

(** [From] appends to the vector the object has. *)
Record ScopesResponse := mkScopesResponse {
  ScopesResponse_Response : Response;
  ScopesResponse_scopes : list Scope;
  ScopesResponse_refId : Z;
}.
Definition ScopesResponse_fresh : ScopesResponse :=
  mkScopesResponse (Response_new "scopes") [] wxNOT_FOUND.

Definition ScopesResponse_To (x : ScopesResponse) : Json :=
  let json := Response_To (ScopesResponse_Response x) in
  AddObject_then "body" (λ body,
    AddArray_then "scopes" (add_all (ScopesResponse_scopes x)) body) json.

Definition ScopesResponse_From (json : Json) (this : ScopesResponse) : ScopesResponse :=
  mkScopesResponse (Response_From json (ScopesResponse_Response this))
    (ScopesResponse_scopes this ++ read_array json.["body"].["scopes"])
    (ScopesResponse_refId this).

Definition valid_ScopesResponse (x : ScopesResponse) : bool :=
  valid_Response (ScopesResponse_Response x) &&
  forallb valid (ScopesResponse_scopes x) &&
  ((ScopesResponse_refId x) =? wxNOT_FOUND).

#[export] Instance ScopesResponse_Any : Any ScopesResponse :=
  {| fresh := ScopesResponse_fresh; To := ScopesResponse_To; From := ScopesResponse_From |}.

Lemma ScopesResponse_To_value x : valid_ScopesResponse x = true →
  is_value (ScopesResponse_To x).
Proof. unfold valid_ScopesResponse, ScopesResponse_To. unfold_bases. solve_value. Qed.

Lemma ScopesResponse_From_sim j j' this : jsim j j' →
  ScopesResponse_From j this = ScopesResponse_From j' this.
Proof.
  intros Hj. unfold ScopesResponse_From. rewrite (Response_From_sim j j') by done.
  by rewrite (read_array_sim j.["body"].["scopes"] j'.["body"].["scopes"]) by eauto with jsim.
Qed.

Lemma ScopesResponse_round_trip x : valid_ScopesResponse x = true →
  ScopesResponse_From (ScopesResponse_To x) ScopesResponse_fresh = x.
Proof.
  destruct x as [[[]]]. unfold valid_ScopesResponse, ScopesResponse_From, ScopesResponse_To. unfold_bases. simpl.
  solve_round_trip.
Qed.

#[export] Instance ScopesResponse_Codec : Codec ScopesResponse.
Proof.
  codec ScopesResponse_Any valid_ScopesResponse ScopesResponse_To_value ScopesResponse_From_sim
    ScopesResponse_round_trip.
Defined.

Record StackTraceResponse := mkStackTraceResponse {
  StackTraceResponse_Response : Response;
  StackTraceResponse_stackFrames : list StackFrame;
  StackTraceResponse_refId : Z;
}.
Definition StackTraceResponse_fresh : StackTraceResponse :=
  mkStackTraceResponse (Response_new "stackTrace") [] wxNOT_FOUND.

Definition StackTraceResponse_To (x : StackTraceResponse) : Json :=
  let json := Response_To (StackTraceResponse_Response x) in
  AddObject_then "body" (λ body,
    AddArray_then "stackFrames" (add_all (StackTraceResponse_stackFrames x)) body) json.

Definition StackTraceResponse_From (json : Json) (this : StackTraceResponse) : StackTraceResponse :=
  mkStackTraceResponse (Response_From json (StackTraceResponse_Response this))
    (read_array json.["body"].["stackFrames"])
    (StackTraceResponse_refId this).

Definition valid_StackTraceResponse (x : StackTraceResponse) : bool :=
  valid_Response (StackTraceResponse_Response x) &&
  forallb valid (StackTraceResponse_stackFrames x) &&
  ((StackTraceResponse_refId x) =? wxNOT_FOUND).

#[export] Instance StackTraceResponse_Any : Any StackTraceResponse :=
  {| fresh := StackTraceResponse_fresh; To := StackTraceResponse_To; From := StackTraceResponse_From |}.

Lemma StackTraceResponse_To_value x : valid_StackTraceResponse x = true →
  is_value (StackTraceResponse_To x).
Proof. unfold valid_StackTraceResponse, StackTraceResponse_To. unfold_bases. solve_value. Qed.

Lemma StackTraceResponse_From_sim j j' this : jsim j j' →
  StackTraceResponse_From j this = StackTraceResponse_From j' this.
Proof. unfold StackTraceResponse_From. solve_sim. Qed.

Lemma StackTraceResponse_round_trip x : valid_StackTraceResponse x = true →
  StackTraceResponse_From (StackTraceResponse_To x) StackTraceResponse_fresh = x.
Proof.
  destruct x as [[[]]]. unfold valid_StackTraceResponse, StackTraceResponse_From, StackTraceResponse_To. unfold_bases. simpl.
  solve_round_trip.
Qed.

#[export] Instance StackTraceResponse_Codec : Codec StackTraceResponse.
Proof.
  codec StackTraceResponse_Any valid_StackTraceResponse StackTraceResponse_To_value StackTraceResponse_From_sim
    StackTraceResponse_round_trip.
Defined.

(** [From] appends to the vector the object has. *)
Record VariablesResponse := mkVariablesResponse {
  VariablesResponse_Response : Response;
  VariablesResponse_variables : list DapVariable;
  VariablesResponse_refId : Z;
  VariablesResponse_context : EvaluateContext;
}.
Definition VariablesResponse_fresh : VariablesResponse :=
  mkVariablesResponse (Response_new "variables") [] wxNOT_FOUND VARIABLES.

Definition VariablesResponse_To (x : VariablesResponse) : Json :=
  let json := Response_To (VariablesResponse_Response x) in
  AddObject_then "body" (λ body,
    AddArray_then "variables" (add_all (VariablesResponse_variables x)) body) json.

Definition VariablesResponse_From (json : Json) (this : VariablesResponse) : VariablesResponse :=
  mkVariablesResponse (Response_From json (VariablesResponse_Response this))
    (VariablesResponse_variables this ++ read_array json.["body"].["variables"])
    (VariablesResponse_refId this)
    (VariablesResponse_context this).

Definition valid_VariablesResponse (x : VariablesResponse) : bool :=
  valid_Response (VariablesResponse_Response x) &&
  forallb valid (VariablesResponse_variables x) &&
  ((VariablesResponse_refId x) =? wxNOT_FOUND) &&
  (if (VariablesResponse_context x) is VARIABLES then true else false).

#[export] Instance VariablesResponse_Any : Any VariablesResponse :=
  {| fresh := VariablesResponse_fresh; To := VariablesResponse_To; From := VariablesResponse_From |}.

Lemma VariablesResponse_To_value x : valid_VariablesResponse x = true →
  is_value (VariablesResponse_To x).
Proof. unfold valid_VariablesResponse, VariablesResponse_To. unfold_bases. solve_value. Qed.

Lemma VariablesResponse_From_sim j j' this : jsim j j' →
  VariablesResponse_From j this = VariablesResponse_From j' this.
Proof.
  intros Hj. unfold VariablesResponse_From. rewrite (Response_From_sim j j') by done.
  by rewrite (read_array_sim j.["body"].["variables"] j'.["body"].["variables"]) by eauto with jsim.
Qed.

Lemma VariablesResponse_round_trip x : valid_VariablesResponse x = true →
  VariablesResponse_From (VariablesResponse_To x) VariablesResponse_fresh = x.
Proof.
  destruct x as [[[]] ? ? []]; unfold valid_VariablesResponse, VariablesResponse_From,
    VariablesResponse_To; unfold_bases; simpl; intros; valid_inv; try done.
  solve_round_trip.
Qed.

#[export] Instance VariablesResponse_Codec : Codec VariablesResponse.
Proof.
  codec VariablesResponse_Any valid_VariablesResponse VariablesResponse_To_value VariablesResponse_From_sim
    VariablesResponse_round_trip.
Defined.

Record RunInTerminalResponse := mkRunInTerminalResponse {
  RunInTerminalResponse_Response : Response;
  RunInTerminalResponse_processId : Z;
}.
Definition RunInTerminalResponse_fresh : RunInTerminalResponse :=
  mkRunInTerminalResponse (Response_new "runInTerminal") wxNOT_FOUND.

Definition RunInTerminalResponse_To (x : RunInTerminalResponse) : Json :=
  let json := Response_To (RunInTerminalResponse_Response x) in
  AddObject_then "body" (λ body,
    Add_int "processId" (RunInTerminalResponse_processId x) body) json.

Definition RunInTerminalResponse_From (json : Json) (this : RunInTerminalResponse) : RunInTerminalResponse :=
  mkRunInTerminalResponse (Response_From json (RunInTerminalResponse_Response this))
    (get_number_as_int (-1) json.["body"].["processId"]).

Definition valid_RunInTerminalResponse (x : RunInTerminalResponse) : bool :=
  valid_Response (RunInTerminalResponse_Response x) &&
  is_int (RunInTerminalResponse_processId x).

#[export] Instance RunInTerminalResponse_Any : Any RunInTerminalResponse :=
  {| fresh := RunInTerminalResponse_fresh; To := RunInTerminalResponse_To; From := RunInTerminalResponse_From |}.

Lemma RunInTerminalResponse_To_value x : valid_RunInTerminalResponse x = true →
  is_value (RunInTerminalResponse_To x).
Proof. unfold valid_RunInTerminalResponse, RunInTerminalResponse_To. unfold_bases. solve_value. Qed.

Lemma RunInTerminalResponse_From_sim j j' this : jsim j j' →
  RunInTerminalResponse_From j this = RunInTerminalResponse_From j' this.
Proof. unfold RunInTerminalResponse_From. solve_sim. Qed.

Lemma RunInTerminalResponse_round_trip x : valid_RunInTerminalResponse x = true →
  RunInTerminalResponse_From (RunInTerminalResponse_To x) RunInTerminalResponse_fresh = x.
Proof.
  destruct x as [[[]]]. unfold valid_RunInTerminalResponse, RunInTerminalResponse_From, RunInTerminalResponse_To. unfold_bases. simpl.
  solve_round_trip.
Qed.

#[export] Instance RunInTerminalResponse_Codec : Codec RunInTerminalResponse.
Proof.
  codec RunInTerminalResponse_Any valid_RunInTerminalResponse RunInTerminalResponse_To_value RunInTerminalResponse_From_sim
    RunInTerminalResponse_round_trip.
Defined.

Record SourceResponse := mkSourceResponse {
  SourceResponse_Response : Response;
  SourceResponse_content : text;
  SourceResponse_mimeType : text;
}.
Definition SourceResponse_fresh : SourceResponse :=
  mkSourceResponse (Response_new "source") [] [].

Definition SourceResponse_To (x : SourceResponse) : Json :=
  let json := Response_To (SourceResponse_Response x) in
  AddObject_then "body" (λ body,
    let body := Add_string "content" (SourceResponse_content x) body in
    Add_string "mimeType" (SourceResponse_mimeType x) body) json.

Definition SourceResponse_From (json : Json) (this : SourceResponse) : SourceResponse :=
  mkSourceResponse (Response_From json (SourceResponse_Response this))
    (get_string json.["body"].["content"])
    (get_string json.["body"].["mimeType"]).

Definition valid_SourceResponse (x : SourceResponse) : bool :=
  valid_Response (SourceResponse_Response x) &&
  no_nul (SourceResponse_content x) &&
  no_nul (SourceResponse_mimeType x).

#[export] Instance SourceResponse_Any : Any SourceResponse :=
  {| fresh := SourceResponse_fresh; To := SourceResponse_To; From := SourceResponse_From |}.

Lemma SourceResponse_To_value x : valid_SourceResponse x = true →
  is_value (SourceResponse_To x).
Proof. unfold valid_SourceResponse, SourceResponse_To. unfold_bases. solve_value. Qed.

Lemma SourceResponse_From_sim j j' this : jsim j j' →
  SourceResponse_From j this = SourceResponse_From j' this.
Proof. unfold SourceResponse_From. solve_sim. Qed.

Lemma SourceResponse_round_trip x : valid_SourceResponse x = true →
  SourceResponse_From (SourceResponse_To x) SourceResponse_fresh = x.
Proof.
  destruct x as [[[]]]. unfold valid_SourceResponse, SourceResponse_From, SourceResponse_To. unfold_bases. simpl.
  solve_round_trip.
Qed.

#[export] Instance SourceResponse_Codec : Codec SourceResponse.
Proof.
  codec SourceResponse_Any valid_SourceResponse SourceResponse_To_value SourceResponse_From_sim
    SourceResponse_round_trip.
Defined.

Record EvaluateResponse := mkEvaluateResponse {
  EvaluateResponse_Response : Response;
  EvaluateResponse_result : text;
  EvaluateResponse_type : text;
  EvaluateResponse_variablesReference : Z;
}.
Definition EvaluateResponse_fresh : EvaluateResponse :=
  mkEvaluateResponse (Response_new "evaluate") [] [] 0.

Definition EvaluateResponse_To (x : EvaluateResponse) : Json :=
  let json := Response_To (EvaluateResponse_Response x) in
  AddObject_then "body" (λ body,
    let body := Add_string "result" (EvaluateResponse_result x) body in
    let body := Add_string "type" (EvaluateResponse_type x) body in
    Add_int "variablesReference" (EvaluateResponse_variablesReference x) body) json.

Definition EvaluateResponse_From (json : Json) (this : EvaluateResponse) : EvaluateResponse :=
  mkEvaluateResponse (Response_From json (EvaluateResponse_Response this))
    (get_string json.["body"].["result"])
    (get_string json.["body"].["type"])
    (get_number_as_int (-1) json.["body"].["variablesReference"]).

Definition valid_EvaluateResponse (x : EvaluateResponse) : bool :=
  valid_Response (EvaluateResponse_Response x) &&
  no_nul (EvaluateResponse_result x) &&
  no_nul (EvaluateResponse_type x) &&
  is_int (EvaluateResponse_variablesReference x).

#[export] Instance EvaluateResponse_Any : Any EvaluateResponse :=
  {| fresh := EvaluateResponse_fresh; To := EvaluateResponse_To; From := EvaluateResponse_From |}.

Lemma EvaluateResponse_To_value x : valid_EvaluateResponse x = true →
  is_value (EvaluateResponse_To x).
Proof. unfold valid_EvaluateResponse, EvaluateResponse_To. unfold_bases. solve_value. Qed.

Lemma EvaluateResponse_From_sim j j' this : jsim j j' →
  EvaluateResponse_From j this = EvaluateResponse_From j' this.
Proof. unfold EvaluateResponse_From. solve_sim. Qed.

Lemma EvaluateResponse_round_trip x : valid_EvaluateResponse x = true →
  EvaluateResponse_From (EvaluateResponse_To x) EvaluateResponse_fresh = x.
Proof.
  destruct x as [[[]]]. unfold valid_EvaluateResponse, EvaluateResponse_From, EvaluateResponse_To. unfold_bases. simpl.
  solve_round_trip.
Qed.

#[export] Instance EvaluateResponse_Codec : Codec EvaluateResponse.
Proof.
  codec EvaluateResponse_Any valid_EvaluateResponse EvaluateResponse_To_value EvaluateResponse_From_sim
    EvaluateResponse_round_trip.
Defined.
End Messages.
