(* ===== verification/DapRegistry.v ===== *)
(** * dap.cpp: [ObjGenerator], [Initialize], and reading a message of any class.

    [MessageClass] stands for the pointers [&Type::New] that the pools hold, [Message] for a
    [ProtocolMessage::Ptr_t].  A constructor registers its class, and the constructors of its
    base classes register theirs before it; a pool keeps the first registration of a name. *)
From S2P Require Import Prelude.
From S2P Require Import Double.
From S2P Require Import CJson.
From S2P Require Import CJsonRoundTrip.
From S2P Require Import CJsonTree.
From S2P Require Import Json.
From S2P Require Import Any.
From S2P Require Import DapData.
From S2P Require Import DapEnvironment.
From S2P Require Import DapMessages.
Local Open Scope Z_scope.

Inductive MessageClass : Type :=
| class_CancelRequest
| class_InitializeRequest
| class_ConfigurationDoneRequest
| class_LaunchRequest
| class_AttachRequest
| class_DisconnectRequest
| class_BreakpointLocationsRequest
| class_SetBreakpointsRequest
| class_SetFunctionBreakpointsRequest
| class_ContinueRequest
| class_NextRequest
| class_StepRequest
| class_StepInRequest
| class_StepOutRequest
| class_ThreadsRequest
| class_ScopesRequest
| class_StackTraceRequest
| class_VariablesRequest
| class_PauseRequest
| class_RunInTerminalRequest
| class_SourceRequest
| class_EvaluateRequest
| class_InitializedEvent
| class_StoppedEvent
| class_ContinuedEvent
| class_ExitedEvent
| class_TerminatedEvent
| class_ThreadEvent
| class_OutputEvent
| class_BreakpointEvent
| class_ProcessEvent
| class_ModuleEvent
| class_DebugpyWaitingForServerEvent
| class_EmptyAckResponse
| class_CancelResponse
| class_InitializeResponse
| class_ConfigurationDoneResponse
| class_LaunchResponse
| class_AttachResponse
| class_DisconnectResponse
| class_NextResponse
| class_PauseResponse
| class_StepInResponse
| class_StepOutResponse
| class_BreakpointLocationsResponse
| class_SetBreakpointsResponse
| class_SetFunctionBreakpointsResponse
| class_ContinueResponse
| class_ThreadsResponse
| class_ScopesResponse
| class_StackTraceResponse
| class_VariablesResponse
| class_RunInTerminalResponse
| class_SourceResponse
| class_EvaluateResponse.

Inductive Message `{Platform} `{HashOrder} : Type :=
| msg_CancelRequest (x : CancelRequest)
| msg_InitializeRequest (x : InitializeRequest)
| msg_ConfigurationDoneRequest (x : Request)
| msg_LaunchRequest (x : LaunchRequest)
| msg_AttachRequest (x : AttachRequest)
| msg_DisconnectRequest (x : DisconnectRequest)
| msg_BreakpointLocationsRequest (x : BreakpointLocationsRequest)
| msg_SetBreakpointsRequest (x : SetBreakpointsRequest)
| msg_SetFunctionBreakpointsRequest (x : SetFunctionBreakpointsRequest)
| msg_ContinueRequest (x : ContinueRequest)
| msg_NextRequest (x : NextRequest)
| msg_StepRequest (x : StepRequest)
| msg_StepInRequest (x : StepRequest)
| msg_StepOutRequest (x : StepRequest)
| msg_ThreadsRequest (x : Request)
| msg_ScopesRequest (x : ScopesRequest)
| msg_StackTraceRequest (x : StackTraceRequest)
| msg_VariablesRequest (x : VariablesRequest)
| msg_PauseRequest (x : PauseRequest)
| msg_RunInTerminalRequest (x : RunInTerminalRequest)
| msg_SourceRequest (x : SourceRequest)
| msg_EvaluateRequest (x : EvaluateRequest)
| msg_InitializedEvent (x : Event)
| msg_StoppedEvent (x : StoppedEvent)
| msg_ContinuedEvent (x : ContinuedEvent)
| msg_ExitedEvent (x : ExitedEvent)
| msg_TerminatedEvent (x : Event)
| msg_ThreadEvent (x : ThreadEvent)
| msg_OutputEvent (x : OutputEvent)
| msg_BreakpointEvent (x : BreakpointEvent)
| msg_ProcessEvent (x : ProcessEvent)
| msg_ModuleEvent (x : ModuleEvent)
| msg_DebugpyWaitingForServerEvent (x : DebugpyWaitingForServerEvent)
| msg_EmptyAckResponse (x : Response)
| msg_CancelResponse (x : Response)
| msg_InitializeResponse (x : InitializeResponse)
| msg_ConfigurationDoneResponse (x : Response)
| msg_LaunchResponse (x : Response)
| msg_AttachResponse (x : Response)
| msg_DisconnectResponse (x : Response)
| msg_NextResponse (x : Response)
| msg_PauseResponse (x : Response)
| msg_StepInResponse (x : Response)
| msg_StepOutResponse (x : Response)
| msg_BreakpointLocationsResponse (x : BreakpointLocationsResponse)
| msg_SetBreakpointsResponse (x : SetBreakpointsResponse)
| msg_SetFunctionBreakpointsResponse (x : SetBreakpointsResponse)
| msg_ContinueResponse (x : ContinueResponse)
| msg_ThreadsResponse (x : ThreadsResponse)
| msg_ScopesResponse (x : ScopesResponse)
| msg_StackTraceResponse (x : StackTraceResponse)
| msg_VariablesResponse (x : VariablesResponse)
| msg_RunInTerminalResponse (x : RunInTerminalResponse)
| msg_SourceResponse (x : SourceResponse)
| msg_EvaluateResponse (x : EvaluateResponse).

Section Registry.
Context `{Platform} `{HashOrder}.

Definition class_of (m : Message) : MessageClass :=
  match m with
  | msg_CancelRequest _ => class_CancelRequest
  | msg_InitializeRequest _ => class_InitializeRequest
  | msg_ConfigurationDoneRequest _ => class_ConfigurationDoneRequest
  | msg_LaunchRequest _ => class_LaunchRequest
  | msg_AttachRequest _ => class_AttachRequest
  | msg_DisconnectRequest _ => class_DisconnectRequest
  | msg_BreakpointLocationsRequest _ => class_BreakpointLocationsRequest
  | msg_SetBreakpointsRequest _ => class_SetBreakpointsRequest
  | msg_SetFunctionBreakpointsRequest _ => class_SetFunctionBreakpointsRequest
  | msg_ContinueRequest _ => class_ContinueRequest
  | msg_NextRequest _ => class_NextRequest
  | msg_StepRequest _ => class_StepRequest
  | msg_StepInRequest _ => class_StepInRequest
  | msg_StepOutRequest _ => class_StepOutRequest
  | msg_ThreadsRequest _ => class_ThreadsRequest
  | msg_ScopesRequest _ => class_ScopesRequest
  | msg_StackTraceRequest _ => class_StackTraceRequest
  | msg_VariablesRequest _ => class_VariablesRequest
  | msg_PauseRequest _ => class_PauseRequest
  | msg_RunInTerminalRequest _ => class_RunInTerminalRequest
  | msg_SourceRequest _ => class_SourceRequest
  | msg_EvaluateRequest _ => class_EvaluateRequest
  | msg_InitializedEvent _ => class_InitializedEvent
  | msg_StoppedEvent _ => class_StoppedEvent
  | msg_ContinuedEvent _ => class_ContinuedEvent
  | msg_ExitedEvent _ => class_ExitedEvent
  | msg_TerminatedEvent _ => class_TerminatedEvent
  | msg_ThreadEvent _ => class_ThreadEvent
  | msg_OutputEvent _ => class_OutputEvent
  | msg_BreakpointEvent _ => class_BreakpointEvent
  | msg_ProcessEvent _ => class_ProcessEvent
  | msg_ModuleEvent _ => class_ModuleEvent
  | msg_DebugpyWaitingForServerEvent _ => class_DebugpyWaitingForServerEvent
  | msg_EmptyAckResponse _ => class_EmptyAckResponse
  | msg_CancelResponse _ => class_CancelResponse
  | msg_InitializeResponse _ => class_InitializeResponse
  | msg_ConfigurationDoneResponse _ => class_ConfigurationDoneResponse
  | msg_LaunchResponse _ => class_LaunchResponse
  | msg_AttachResponse _ => class_AttachResponse
  | msg_DisconnectResponse _ => class_DisconnectResponse
  | msg_NextResponse _ => class_NextResponse
  | msg_PauseResponse _ => class_PauseResponse
  | msg_StepInResponse _ => class_StepInResponse
  | msg_StepOutResponse _ => class_StepOutResponse
  | msg_BreakpointLocationsResponse _ => class_BreakpointLocationsResponse
  | msg_SetBreakpointsResponse _ => class_SetBreakpointsResponse
  | msg_SetFunctionBreakpointsResponse _ => class_SetFunctionBreakpointsResponse
  | msg_ContinueResponse _ => class_ContinueResponse
  | msg_ThreadsResponse _ => class_ThreadsResponse
  | msg_ScopesResponse _ => class_ScopesResponse
  | msg_StackTraceResponse _ => class_StackTraceResponse
  | msg_VariablesResponse _ => class_VariablesResponse
  | msg_RunInTerminalResponse _ => class_RunInTerminalResponse
  | msg_SourceResponse _ => class_SourceResponse
  | msg_EvaluateResponse _ => class_EvaluateResponse
  end.

(** [new Type()]. *)
Definition new_message (c : MessageClass) : Message :=
  match c with
  | class_CancelRequest => msg_CancelRequest (CancelRequest_fresh)
  | class_InitializeRequest => msg_InitializeRequest (InitializeRequest_fresh)
  | class_ConfigurationDoneRequest => msg_ConfigurationDoneRequest (Request_new "configurationDone")
  | class_LaunchRequest => msg_LaunchRequest (LaunchRequest_fresh)
  | class_AttachRequest => msg_AttachRequest (AttachRequest_fresh)
  | class_DisconnectRequest => msg_DisconnectRequest (DisconnectRequest_fresh)
  | class_BreakpointLocationsRequest => msg_BreakpointLocationsRequest (BreakpointLocationsRequest_fresh)
  | class_SetBreakpointsRequest => msg_SetBreakpointsRequest (SetBreakpointsRequest_fresh)
  | class_SetFunctionBreakpointsRequest => msg_SetFunctionBreakpointsRequest (SetFunctionBreakpointsRequest_fresh)
  | class_ContinueRequest => msg_ContinueRequest (ContinueRequest_fresh)
  | class_NextRequest => msg_NextRequest (NextRequest_fresh)
  | class_StepRequest => msg_StepRequest (StepRequest_fresh)
  | class_StepInRequest => msg_StepInRequest (mkStepRequest (Request_new "stepIn") fresh)
  | class_StepOutRequest => msg_StepOutRequest (mkStepRequest (Request_new "stepOut") fresh)
  | class_ThreadsRequest => msg_ThreadsRequest (Request_new "threads")
  | class_ScopesRequest => msg_ScopesRequest (ScopesRequest_fresh)
  | class_StackTraceRequest => msg_StackTraceRequest (StackTraceRequest_fresh)
  | class_VariablesRequest => msg_VariablesRequest (VariablesRequest_fresh)
  | class_PauseRequest => msg_PauseRequest (PauseRequest_fresh)
  | class_RunInTerminalRequest => msg_RunInTerminalRequest (RunInTerminalRequest_fresh)
  | class_SourceRequest => msg_SourceRequest (SourceRequest_fresh)
  | class_EvaluateRequest => msg_EvaluateRequest (EvaluateRequest_fresh)
  | class_InitializedEvent => msg_InitializedEvent (Event_new "initialized")
  | class_StoppedEvent => msg_StoppedEvent (StoppedEvent_fresh)
  | class_ContinuedEvent => msg_ContinuedEvent (ContinuedEvent_fresh)
  | class_ExitedEvent => msg_ExitedEvent (ExitedEvent_fresh)
  | class_TerminatedEvent => msg_TerminatedEvent (Event_new "terminated")
  | class_ThreadEvent => msg_ThreadEvent (ThreadEvent_fresh)
  | class_OutputEvent => msg_OutputEvent (OutputEvent_fresh)
  | class_BreakpointEvent => msg_BreakpointEvent (BreakpointEvent_fresh)
  | class_ProcessEvent => msg_ProcessEvent (ProcessEvent_fresh)
  | class_ModuleEvent => msg_ModuleEvent (ModuleEvent_fresh)
  | class_DebugpyWaitingForServerEvent => msg_DebugpyWaitingForServerEvent (DebugpyWaitingForServerEvent_fresh)
  | class_EmptyAckResponse => msg_EmptyAckResponse (Response_new "")
  | class_CancelResponse => msg_CancelResponse (Response_new "cancel")
  | class_InitializeResponse => msg_InitializeResponse (InitializeResponse_fresh)
  | class_ConfigurationDoneResponse => msg_ConfigurationDoneResponse (Response_new "configurationDone")
  | class_LaunchResponse => msg_LaunchResponse (Response_new "launch")
  | class_AttachResponse => msg_AttachResponse (Response_new "attach")
  | class_DisconnectResponse => msg_DisconnectResponse (Response_new "disconnect")
  | class_NextResponse => msg_NextResponse (Response_new "next")
  | class_PauseResponse => msg_PauseResponse (Response_new "pause")
  | class_StepInResponse => msg_StepInResponse (Response_new "stepIn")
  | class_StepOutResponse => msg_StepOutResponse (Response_new "stepOut")
  | class_BreakpointLocationsResponse => msg_BreakpointLocationsResponse (BreakpointLocationsResponse_fresh)
  | class_SetBreakpointsResponse => msg_SetBreakpointsResponse (SetBreakpointsResponse_fresh)
  | class_SetFunctionBreakpointsResponse => msg_SetFunctionBreakpointsResponse (mkSetBreakpointsResponse (Response_new "setFunctionBreakpoints") [] [])
  | class_ContinueResponse => msg_ContinueResponse (ContinueResponse_fresh)
  | class_ThreadsResponse => msg_ThreadsResponse (ThreadsResponse_fresh)
  | class_ScopesResponse => msg_ScopesResponse (ScopesResponse_fresh)
  | class_StackTraceResponse => msg_StackTraceResponse (StackTraceResponse_fresh)
  | class_VariablesResponse => msg_VariablesResponse (VariablesResponse_fresh)
  | class_RunInTerminalResponse => msg_RunInTerminalResponse (RunInTerminalResponse_fresh)
  | class_SourceResponse => msg_SourceResponse (SourceResponse_fresh)
  | class_EvaluateResponse => msg_EvaluateResponse (EvaluateResponse_fresh)
  end.

(** The virtual functions [To] and [From]. *)
Definition Message_To (m : Message) : Json :=
  match m with
  | msg_CancelRequest x => CancelRequest_To x
  | msg_InitializeRequest x => InitializeRequest_To x
  | msg_ConfigurationDoneRequest x => Request_To x
  | msg_LaunchRequest x => LaunchRequest_To x
  | msg_AttachRequest x => AttachRequest_To x
  | msg_DisconnectRequest x => DisconnectRequest_To x
  | msg_BreakpointLocationsRequest x => BreakpointLocationsRequest_To x
  | msg_SetBreakpointsRequest x => SetBreakpointsRequest_To x
  | msg_SetFunctionBreakpointsRequest x => SetFunctionBreakpointsRequest_To x
  | msg_ContinueRequest x => ContinueRequest_To x
  | msg_NextRequest x => NextRequest_To x
  | msg_StepRequest x => StepRequest_To x
  | msg_StepInRequest x => StepRequest_To x
  | msg_StepOutRequest x => StepRequest_To x
  | msg_ThreadsRequest x => Request_To x
  | msg_ScopesRequest x => ScopesRequest_To x
  | msg_StackTraceRequest x => StackTraceRequest_To x
  | msg_VariablesRequest x => VariablesRequest_To x
  | msg_PauseRequest x => PauseRequest_To x
  | msg_RunInTerminalRequest x => RunInTerminalRequest_To x
  | msg_SourceRequest x => SourceRequest_To x
  | msg_EvaluateRequest x => EvaluateRequest_To x
  | msg_InitializedEvent x => Event_To x
  | msg_StoppedEvent x => StoppedEvent_To x
  | msg_ContinuedEvent x => ContinuedEvent_To x
  | msg_ExitedEvent x => ExitedEvent_To x
  | msg_TerminatedEvent x => Event_To x
  | msg_ThreadEvent x => ThreadEvent_To x
  | msg_OutputEvent x => OutputEvent_To x
  | msg_BreakpointEvent x => BreakpointEvent_To x
  | msg_ProcessEvent x => ProcessEvent_To x
  | msg_ModuleEvent x => ModuleEvent_To x
  | msg_DebugpyWaitingForServerEvent x => DebugpyWaitingForServerEvent_To x
  | msg_EmptyAckResponse x => Response_To x
  | msg_CancelResponse x => Response_To x
  | msg_InitializeResponse x => InitializeResponse_To x
  | msg_ConfigurationDoneResponse x => Response_To x
  | msg_LaunchResponse x => Response_To x
  | msg_AttachResponse x => Response_To x
  | msg_DisconnectResponse x => Response_To x
  | msg_NextResponse x => Response_To x
  | msg_PauseResponse x => Response_To x
  | msg_StepInResponse x => Response_To x
  | msg_StepOutResponse x => Response_To x
  | msg_BreakpointLocationsResponse x => BreakpointLocationsResponse_To x
  | msg_SetBreakpointsResponse x => SetBreakpointsResponse_To x
  | msg_SetFunctionBreakpointsResponse x => SetBreakpointsResponse_To x
  | msg_ContinueResponse x => ContinueResponse_To x
  | msg_ThreadsResponse x => ThreadsResponse_To x
  | msg_ScopesResponse x => ScopesResponse_To x
  | msg_StackTraceResponse x => StackTraceResponse_To x
  | msg_VariablesResponse x => VariablesResponse_To x
  | msg_RunInTerminalResponse x => RunInTerminalResponse_To x
  | msg_SourceResponse x => SourceResponse_To x
  | msg_EvaluateResponse x => EvaluateResponse_To x
  end.

Definition Message_From (json : Json) (this : Message) : Message :=
  match this with
  | msg_CancelRequest x => msg_CancelRequest (CancelRequest_From json x)
  | msg_InitializeRequest x => msg_InitializeRequest (InitializeRequest_From json x)
  | msg_ConfigurationDoneRequest x => msg_ConfigurationDoneRequest (Request_From json x)
  | msg_LaunchRequest x => msg_LaunchRequest (LaunchRequest_From json x)
  | msg_AttachRequest x => msg_AttachRequest (AttachRequest_From json x)
  | msg_DisconnectRequest x => msg_DisconnectRequest (DisconnectRequest_From json x)
  | msg_BreakpointLocationsRequest x => msg_BreakpointLocationsRequest (BreakpointLocationsRequest_From json x)
  | msg_SetBreakpointsRequest x => msg_SetBreakpointsRequest (SetBreakpointsRequest_From json x)
  | msg_SetFunctionBreakpointsRequest x => msg_SetFunctionBreakpointsRequest (SetFunctionBreakpointsRequest_From json x)
  | msg_ContinueRequest x => msg_ContinueRequest (ContinueRequest_From json x)
  | msg_NextRequest x => msg_NextRequest (NextRequest_From json x)
  | msg_StepRequest x => msg_StepRequest (StepRequest_From json x)
  | msg_StepInRequest x => msg_StepInRequest (StepRequest_From json x)
  | msg_StepOutRequest x => msg_StepOutRequest (StepRequest_From json x)
  | msg_ThreadsRequest x => msg_ThreadsRequest (Request_From json x)
  | msg_ScopesRequest x => msg_ScopesRequest (ScopesRequest_From json x)
  | msg_StackTraceRequest x => msg_StackTraceRequest (StackTraceRequest_From json x)
  | msg_VariablesRequest x => msg_VariablesRequest (VariablesRequest_From json x)
  | msg_PauseRequest x => msg_PauseRequest (PauseRequest_From json x)
  | msg_RunInTerminalRequest x => msg_RunInTerminalRequest (RunInTerminalRequest_From json x)
  | msg_SourceRequest x => msg_SourceRequest (SourceRequest_From json x)
  | msg_EvaluateRequest x => msg_EvaluateRequest (EvaluateRequest_From json x)
  | msg_InitializedEvent x => msg_InitializedEvent (Event_From json x)
  | msg_StoppedEvent x => msg_StoppedEvent (StoppedEvent_From json x)
  | msg_ContinuedEvent x => msg_ContinuedEvent (ContinuedEvent_From json x)
  | msg_ExitedEvent x => msg_ExitedEvent (ExitedEvent_From json x)
  | msg_TerminatedEvent x => msg_TerminatedEvent (Event_From json x)
  | msg_ThreadEvent x => msg_ThreadEvent (ThreadEvent_From json x)
  | msg_OutputEvent x => msg_OutputEvent (OutputEvent_From json x)
  | msg_BreakpointEvent x => msg_BreakpointEvent (BreakpointEvent_From json x)
  | msg_ProcessEvent x => msg_ProcessEvent (ProcessEvent_From json x)
  | msg_ModuleEvent x => msg_ModuleEvent (ModuleEvent_From json x)
  | msg_DebugpyWaitingForServerEvent x => msg_DebugpyWaitingForServerEvent (DebugpyWaitingForServerEvent_From json x)
  | msg_EmptyAckResponse x => msg_EmptyAckResponse (Response_From json x)
  | msg_CancelResponse x => msg_CancelResponse (Response_From json x)
  | msg_InitializeResponse x => msg_InitializeResponse (InitializeResponse_From json x)
  | msg_ConfigurationDoneResponse x => msg_ConfigurationDoneResponse (Response_From json x)
  | msg_LaunchResponse x => msg_LaunchResponse (Response_From json x)
  | msg_AttachResponse x => msg_AttachResponse (Response_From json x)
  | msg_DisconnectResponse x => msg_DisconnectResponse (Response_From json x)
  | msg_NextResponse x => msg_NextResponse (Response_From json x)
  | msg_PauseResponse x => msg_PauseResponse (Response_From json x)
  | msg_StepInResponse x => msg_StepInResponse (Response_From json x)
  | msg_StepOutResponse x => msg_StepOutResponse (Response_From json x)
  | msg_BreakpointLocationsResponse x => msg_BreakpointLocationsResponse (BreakpointLocationsResponse_From json x)
  | msg_SetBreakpointsResponse x => msg_SetBreakpointsResponse (SetBreakpointsResponse_From json x)
  | msg_SetFunctionBreakpointsResponse x => msg_SetFunctionBreakpointsResponse (SetBreakpointsResponse_From json x)
  | msg_ContinueResponse x => msg_ContinueResponse (ContinueResponse_From json x)
  | msg_ThreadsResponse x => msg_ThreadsResponse (ThreadsResponse_From json x)
  | msg_ScopesResponse x => msg_ScopesResponse (ScopesResponse_From json x)
  | msg_StackTraceResponse x => msg_StackTraceResponse (StackTraceResponse_From json x)
  | msg_VariablesResponse x => msg_VariablesResponse (VariablesResponse_From json x)
  | msg_RunInTerminalResponse x => msg_RunInTerminalResponse (RunInTerminalResponse_From json x)
  | msg_SourceResponse x => msg_SourceResponse (SourceResponse_From json x)
  | msg_EvaluateResponse x => msg_EvaluateResponse (EvaluateResponse_From json x)
  end.

(** The members of the base classes. *)
Definition Message_protocol (m : Message) : ProtocolMessage :=
  match m with
  | msg_CancelRequest x => Request_ProtocolMessage (CancelRequest_Request x)
  | msg_InitializeRequest x => Request_ProtocolMessage (InitializeRequest_Request x)
  | msg_ConfigurationDoneRequest x => Request_ProtocolMessage x
  | msg_LaunchRequest x => Request_ProtocolMessage (LaunchRequest_Request x)
  | msg_AttachRequest x => Request_ProtocolMessage (AttachRequest_Request x)
  | msg_DisconnectRequest x => Request_ProtocolMessage (DisconnectRequest_Request x)
  | msg_BreakpointLocationsRequest x => Request_ProtocolMessage (BreakpointLocationsRequest_Request x)
  | msg_SetBreakpointsRequest x => Request_ProtocolMessage (SetBreakpointsRequest_Request x)
  | msg_SetFunctionBreakpointsRequest x => Request_ProtocolMessage (SetFunctionBreakpointsRequest_Request x)
  | msg_ContinueRequest x => Request_ProtocolMessage (ContinueRequest_Request x)
  | msg_NextRequest x => Request_ProtocolMessage (NextRequest_Request x)
  | msg_StepRequest x => Request_ProtocolMessage (StepRequest_Request x)
  | msg_StepInRequest x => Request_ProtocolMessage (StepRequest_Request x)
  | msg_StepOutRequest x => Request_ProtocolMessage (StepRequest_Request x)
  | msg_ThreadsRequest x => Request_ProtocolMessage x
  | msg_ScopesRequest x => Request_ProtocolMessage (ScopesRequest_Request x)
  | msg_StackTraceRequest x => Request_ProtocolMessage (StackTraceRequest_Request x)
  | msg_VariablesRequest x => Request_ProtocolMessage (VariablesRequest_Request x)
  | msg_PauseRequest x => Request_ProtocolMessage (PauseRequest_Request x)
  | msg_RunInTerminalRequest x => Request_ProtocolMessage (RunInTerminalRequest_Request x)
  | msg_SourceRequest x => Request_ProtocolMessage (SourceRequest_Request x)
  | msg_EvaluateRequest x => Request_ProtocolMessage (EvaluateRequest_Request x)
  | msg_InitializedEvent x => Event_ProtocolMessage x
  | msg_StoppedEvent x => Event_ProtocolMessage (StoppedEvent_Event x)
  | msg_ContinuedEvent x => Event_ProtocolMessage (ContinuedEvent_Event x)
  | msg_ExitedEvent x => Event_ProtocolMessage (ExitedEvent_Event x)
  | msg_TerminatedEvent x => Event_ProtocolMessage x
  | msg_ThreadEvent x => Event_ProtocolMessage (ThreadEvent_Event x)
  | msg_OutputEvent x => Event_ProtocolMessage (OutputEvent_Event x)
  | msg_BreakpointEvent x => Event_ProtocolMessage (BreakpointEvent_Event x)
  | msg_ProcessEvent x => Event_ProtocolMessage (ProcessEvent_Event x)
  | msg_ModuleEvent x => Event_ProtocolMessage (ModuleEvent_Event x)
  | msg_DebugpyWaitingForServerEvent x => Event_ProtocolMessage (DebugpyWaitingForServerEvent_Event x)
  | msg_EmptyAckResponse x => Response_ProtocolMessage x
  | msg_CancelResponse x => Response_ProtocolMessage x
  | msg_InitializeResponse x => Response_ProtocolMessage (InitializeResponse_Response x)
  | msg_ConfigurationDoneResponse x => Response_ProtocolMessage x
  | msg_LaunchResponse x => Response_ProtocolMessage x
  | msg_AttachResponse x => Response_ProtocolMessage x
  | msg_DisconnectResponse x => Response_ProtocolMessage x
  | msg_NextResponse x => Response_ProtocolMessage x
  | msg_PauseResponse x => Response_ProtocolMessage x
  | msg_StepInResponse x => Response_ProtocolMessage x
  | msg_StepOutResponse x => Response_ProtocolMessage x
  | msg_BreakpointLocationsResponse x => Response_ProtocolMessage (BreakpointLocationsResponse_Response x)
  | msg_SetBreakpointsResponse x => Response_ProtocolMessage (SetBreakpointsResponse_Response x)
  | msg_SetFunctionBreakpointsResponse x => Response_ProtocolMessage (SetBreakpointsResponse_Response x)
  | msg_ContinueResponse x => Response_ProtocolMessage (ContinueResponse_Response x)
  | msg_ThreadsResponse x => Response_ProtocolMessage (ThreadsResponse_Response x)
  | msg_ScopesResponse x => Response_ProtocolMessage (ScopesResponse_Response x)
  | msg_StackTraceResponse x => Response_ProtocolMessage (StackTraceResponse_Response x)
  | msg_VariablesResponse x => Response_ProtocolMessage (VariablesResponse_Response x)
  | msg_RunInTerminalResponse x => Response_ProtocolMessage (RunInTerminalResponse_Response x)
  | msg_SourceResponse x => Response_ProtocolMessage (SourceResponse_Response x)
  | msg_EvaluateResponse x => Response_ProtocolMessage (EvaluateResponse_Response x)
  end.

Definition Message_name (m : Message) : text :=
  match m with
  | msg_CancelRequest x => Request_command (CancelRequest_Request x)
  | msg_InitializeRequest x => Request_command (InitializeRequest_Request x)
  | msg_ConfigurationDoneRequest x => Request_command x
  | msg_LaunchRequest x => Request_command (LaunchRequest_Request x)
  | msg_AttachRequest x => Request_command (AttachRequest_Request x)
  | msg_DisconnectRequest x => Request_command (DisconnectRequest_Request x)
  | msg_BreakpointLocationsRequest x => Request_command (BreakpointLocationsRequest_Request x)
  | msg_SetBreakpointsRequest x => Request_command (SetBreakpointsRequest_Request x)
  | msg_SetFunctionBreakpointsRequest x => Request_command (SetFunctionBreakpointsRequest_Request x)
  | msg_ContinueRequest x => Request_command (ContinueRequest_Request x)
  | msg_NextRequest x => Request_command (NextRequest_Request x)
  | msg_StepRequest x => Request_command (StepRequest_Request x)
  | msg_StepInRequest x => Request_command (StepRequest_Request x)
  | msg_StepOutRequest x => Request_command (StepRequest_Request x)
  | msg_ThreadsRequest x => Request_command x
  | msg_ScopesRequest x => Request_command (ScopesRequest_Request x)
  | msg_StackTraceRequest x => Request_command (StackTraceRequest_Request x)
  | msg_VariablesRequest x => Request_command (VariablesRequest_Request x)
  | msg_PauseRequest x => Request_command (PauseRequest_Request x)
  | msg_RunInTerminalRequest x => Request_command (RunInTerminalRequest_Request x)
  | msg_SourceRequest x => Request_command (SourceRequest_Request x)
  | msg_EvaluateRequest x => Request_command (EvaluateRequest_Request x)
  | msg_InitializedEvent x => Event_event x
  | msg_StoppedEvent x => Event_event (StoppedEvent_Event x)
  | msg_ContinuedEvent x => Event_event (ContinuedEvent_Event x)
  | msg_ExitedEvent x => Event_event (ExitedEvent_Event x)
  | msg_TerminatedEvent x => Event_event x
  | msg_ThreadEvent x => Event_event (ThreadEvent_Event x)
  | msg_OutputEvent x => Event_event (OutputEvent_Event x)
  | msg_BreakpointEvent x => Event_event (BreakpointEvent_Event x)
  | msg_ProcessEvent x => Event_event (ProcessEvent_Event x)
  | msg_ModuleEvent x => Event_event (ModuleEvent_Event x)
  | msg_DebugpyWaitingForServerEvent x => Event_event (DebugpyWaitingForServerEvent_Event x)
  | msg_EmptyAckResponse x => Response_command x
  | msg_CancelResponse x => Response_command x
  | msg_InitializeResponse x => Response_command (InitializeResponse_Response x)
  | msg_ConfigurationDoneResponse x => Response_command x
  | msg_LaunchResponse x => Response_command x
  | msg_AttachResponse x => Response_command x
  | msg_DisconnectResponse x => Response_command x
  | msg_NextResponse x => Response_command x
  | msg_PauseResponse x => Response_command x
  | msg_StepInResponse x => Response_command x
  | msg_StepOutResponse x => Response_command x
  | msg_BreakpointLocationsResponse x => Response_command (BreakpointLocationsResponse_Response x)
  | msg_SetBreakpointsResponse x => Response_command (SetBreakpointsResponse_Response x)
  | msg_SetFunctionBreakpointsResponse x => Response_command (SetBreakpointsResponse_Response x)
  | msg_ContinueResponse x => Response_command (ContinueResponse_Response x)
  | msg_ThreadsResponse x => Response_command (ThreadsResponse_Response x)
  | msg_ScopesResponse x => Response_command (ScopesResponse_Response x)
  | msg_StackTraceResponse x => Response_command (StackTraceResponse_Response x)
  | msg_VariablesResponse x => Response_command (VariablesResponse_Response x)
  | msg_RunInTerminalResponse x => Response_command (RunInTerminalResponse_Response x)
  | msg_SourceResponse x => Response_command (SourceResponse_Response x)
  | msg_EvaluateResponse x => Response_command (EvaluateResponse_Response x)
  end.

Definition Message_Request (m : Message) : option Request :=
  match m with
  | msg_CancelRequest x => Some (CancelRequest_Request x)
  | msg_InitializeRequest x => Some (InitializeRequest_Request x)
  | msg_ConfigurationDoneRequest x => Some x
  | msg_LaunchRequest x => Some (LaunchRequest_Request x)
  | msg_AttachRequest x => Some (AttachRequest_Request x)
  | msg_DisconnectRequest x => Some (DisconnectRequest_Request x)
  | msg_BreakpointLocationsRequest x => Some (BreakpointLocationsRequest_Request x)
  | msg_SetBreakpointsRequest x => Some (SetBreakpointsRequest_Request x)
  | msg_SetFunctionBreakpointsRequest x => Some (SetFunctionBreakpointsRequest_Request x)
  | msg_ContinueRequest x => Some (ContinueRequest_Request x)
  | msg_NextRequest x => Some (NextRequest_Request x)
  | msg_StepRequest x => Some (StepRequest_Request x)
  | msg_StepInRequest x => Some (StepRequest_Request x)
  | msg_StepOutRequest x => Some (StepRequest_Request x)
  | msg_ThreadsRequest x => Some x
  | msg_ScopesRequest x => Some (ScopesRequest_Request x)
  | msg_StackTraceRequest x => Some (StackTraceRequest_Request x)
  | msg_VariablesRequest x => Some (VariablesRequest_Request x)
  | msg_PauseRequest x => Some (PauseRequest_Request x)
  | msg_RunInTerminalRequest x => Some (RunInTerminalRequest_Request x)
  | msg_SourceRequest x => Some (SourceRequest_Request x)
  | msg_EvaluateRequest x => Some (EvaluateRequest_Request x)
  | _ => None
  end.

Definition Message_Event (m : Message) : option Event :=
  match m with
  | msg_InitializedEvent x => Some x
  | msg_StoppedEvent x => Some (StoppedEvent_Event x)
  | msg_ContinuedEvent x => Some (ContinuedEvent_Event x)
  | msg_ExitedEvent x => Some (ExitedEvent_Event x)
  | msg_TerminatedEvent x => Some x
  | msg_ThreadEvent x => Some (ThreadEvent_Event x)
  | msg_OutputEvent x => Some (OutputEvent_Event x)
  | msg_BreakpointEvent x => Some (BreakpointEvent_Event x)
  | msg_ProcessEvent x => Some (ProcessEvent_Event x)
  | msg_ModuleEvent x => Some (ModuleEvent_Event x)
  | msg_DebugpyWaitingForServerEvent x => Some (DebugpyWaitingForServerEvent_Event x)
  | _ => None
  end.

Definition Message_Response (m : Message) : option Response :=
  match m with
  | msg_EmptyAckResponse x => Some x
  | msg_CancelResponse x => Some x
  | msg_InitializeResponse x => Some (InitializeResponse_Response x)
  | msg_ConfigurationDoneResponse x => Some x
  | msg_LaunchResponse x => Some x
  | msg_AttachResponse x => Some x
  | msg_DisconnectResponse x => Some x
  | msg_NextResponse x => Some x
  | msg_PauseResponse x => Some x
  | msg_StepInResponse x => Some x
  | msg_StepOutResponse x => Some x
  | msg_BreakpointLocationsResponse x => Some (BreakpointLocationsResponse_Response x)
  | msg_SetBreakpointsResponse x => Some (SetBreakpointsResponse_Response x)
  | msg_SetFunctionBreakpointsResponse x => Some (SetBreakpointsResponse_Response x)
  | msg_ContinueResponse x => Some (ContinueResponse_Response x)
  | msg_ThreadsResponse x => Some (ThreadsResponse_Response x)
  | msg_ScopesResponse x => Some (ScopesResponse_Response x)
  | msg_StackTraceResponse x => Some (StackTraceResponse_Response x)
  | msg_VariablesResponse x => Some (VariablesResponse_Response x)
  | msg_RunInTerminalResponse x => Some (RunInTerminalResponse_Response x)
  | msg_SourceResponse x => Some (SourceResponse_Response x)
  | msg_EvaluateResponse x => Some (EvaluateResponse_Response x)
  | _ => None
  end.

(** [AsEvent], [AsRequest], [AsResponse]: the [type] member first, then the dynamic type. *)
Definition AsEvent (m : Message) : option Event :=
  if negb (ProtocolMessage_type (Message_protocol m) =t "event") then None else Message_Event m.
Definition AsRequest (m : Message) : option Request :=
  if negb (ProtocolMessage_type (Message_protocol m) =t "request") then None
  else Message_Request m.
Definition AsResponse (m : Message) : option Response :=
  if negb (ProtocolMessage_type (Message_protocol m) =t "response") then None
  else Message_Response m.

Definition Message_ToString (m : Message) : exec unit text := ToString false (Message_To m).

(** ** The pools *)

Abbreviation pool := (gmap text MessageClass).

Record ObjGenerator := mkObjGenerator {
  m_responses : pool;
  m_events : pool;
  m_requests : pool;
}.
Definition ObjGenerator_empty : ObjGenerator := mkObjGenerator ∅ ∅ ∅.

(** [unordered_map::insert]: a name that is present keeps its function. *)
Definition pool_insert (name : text) (func : MessageClass) (p : pool) : pool :=
  match p !! name with Some _ => p | None => <[name := func]> p end.

Definition RegisterResponse (name : text) (func : MessageClass) (g : ObjGenerator) : ObjGenerator :=
  mkObjGenerator (pool_insert name func (m_responses g)) (m_events g) (m_requests g).
Definition RegisterEvent (name : text) (func : MessageClass) (g : ObjGenerator) : ObjGenerator :=
  mkObjGenerator (m_responses g) (pool_insert name func (m_events g)) (m_requests g).
Definition RegisterRequest (name : text) (func : MessageClass) (g : ObjGenerator) : ObjGenerator :=
  mkObjGenerator (m_responses g) (m_events g) (pool_insert name func (m_requests g)).

(** What the constructor of a class registers, after its base classes. *)
Definition construct (c : MessageClass) (g : ObjGenerator) : ObjGenerator :=
  match c with
  | class_CancelRequest => RegisterRequest "cancel" class_CancelRequest g
  | class_InitializeRequest => RegisterRequest "initialize" class_InitializeRequest g
  | class_ConfigurationDoneRequest => RegisterRequest "configurationDone" class_ConfigurationDoneRequest g
  | class_LaunchRequest => RegisterRequest "launch" class_LaunchRequest g
  | class_AttachRequest => RegisterRequest "attach" class_AttachRequest g
  | class_DisconnectRequest => RegisterRequest "disconnect" class_DisconnectRequest g
  | class_BreakpointLocationsRequest => RegisterRequest "breakpointLocations" class_BreakpointLocationsRequest g
  | class_SetBreakpointsRequest => RegisterRequest "setBreakpoints" class_SetBreakpointsRequest g
  | class_SetFunctionBreakpointsRequest => RegisterRequest "setFunctionBreakpoints" class_SetFunctionBreakpointsRequest g
  | class_ContinueRequest => RegisterRequest "continue" class_ContinueRequest g
  | class_NextRequest => RegisterRequest "next" class_NextRequest g
  | class_StepRequest => RegisterRequest "step" class_StepRequest g
  | class_StepInRequest => RegisterRequest "stepIn" class_StepInRequest (RegisterRequest "step" class_StepRequest g)
  | class_StepOutRequest => RegisterRequest "stepOut" class_StepOutRequest (RegisterRequest "step" class_StepRequest g)
  | class_ThreadsRequest => RegisterRequest "threads" class_ThreadsRequest g
  | class_ScopesRequest => RegisterRequest "scopes" class_ScopesRequest g
  | class_StackTraceRequest => RegisterRequest "stackTrace" class_StackTraceRequest g
  | class_VariablesRequest => RegisterRequest "variables" class_VariablesRequest g
  | class_PauseRequest => RegisterRequest "pause" class_PauseRequest g
  | class_RunInTerminalRequest => RegisterRequest "runInTerminal" class_RunInTerminalRequest g
  | class_SourceRequest => RegisterRequest "source" class_SourceRequest g
  | class_EvaluateRequest => RegisterRequest "evaluate" class_EvaluateRequest g
  | class_InitializedEvent => RegisterEvent "initialized" class_InitializedEvent g
  | class_StoppedEvent => RegisterEvent "stopped" class_StoppedEvent g
  | class_ContinuedEvent => RegisterEvent "continued" class_ContinuedEvent g
  | class_ExitedEvent => RegisterEvent "exited" class_ExitedEvent g
  | class_TerminatedEvent => RegisterEvent "terminated" class_TerminatedEvent g
  | class_ThreadEvent => RegisterEvent "thread" class_ThreadEvent g
  | class_OutputEvent => RegisterEvent "output" class_OutputEvent g
  | class_BreakpointEvent => RegisterEvent "breakpoint" class_BreakpointEvent g
  | class_ProcessEvent => RegisterEvent "process" class_ProcessEvent g
  | class_ModuleEvent => RegisterEvent "module" class_ModuleEvent g
  | class_DebugpyWaitingForServerEvent => RegisterEvent "" class_DebugpyWaitingForServerEvent g
  | class_EmptyAckResponse => RegisterResponse "" class_EmptyAckResponse g
  | class_CancelResponse => RegisterResponse "cancel" class_CancelResponse g
  | class_InitializeResponse => RegisterResponse "initialize" class_InitializeResponse g
  | class_ConfigurationDoneResponse => RegisterResponse "configurationDone" class_ConfigurationDoneResponse (RegisterResponse "" class_EmptyAckResponse g)
  | class_LaunchResponse => RegisterResponse "launch" class_LaunchResponse (RegisterResponse "" class_EmptyAckResponse g)
  | class_AttachResponse => RegisterResponse "attach" class_AttachResponse (RegisterResponse "" class_EmptyAckResponse g)
  | class_DisconnectResponse => RegisterResponse "disconnect" class_DisconnectResponse (RegisterResponse "" class_EmptyAckResponse g)
  | class_NextResponse => RegisterResponse "next" class_NextResponse (RegisterResponse "" class_EmptyAckResponse g)
  | class_PauseResponse => RegisterResponse "pause" class_PauseResponse (RegisterResponse "" class_EmptyAckResponse g)
  | class_StepInResponse => RegisterResponse "stepIn" class_StepInResponse g
  | class_StepOutResponse => RegisterResponse "stepOut" class_StepOutResponse g
  | class_BreakpointLocationsResponse => RegisterResponse "breakpointLocations" class_BreakpointLocationsResponse g
  | class_SetBreakpointsResponse => RegisterResponse "setBreakpoints" class_SetBreakpointsResponse g
  | class_SetFunctionBreakpointsResponse => RegisterResponse "setFunctionBreakpoints" class_SetFunctionBreakpointsResponse (RegisterResponse "setBreakpoints" class_SetBreakpointsResponse g)
  | class_ContinueResponse => RegisterResponse "continue" class_ContinueResponse g
  | class_ThreadsResponse => RegisterResponse "threads" class_ThreadsResponse g
  | class_ScopesResponse => RegisterResponse "scopes" class_ScopesResponse g
  | class_StackTraceResponse => RegisterResponse "stackTrace" class_StackTraceResponse g
  | class_VariablesResponse => RegisterResponse "variables" class_VariablesResponse g
  | class_RunInTerminalResponse => RegisterResponse "runInTerminal" class_RunInTerminalResponse g
  | class_SourceResponse => RegisterResponse "source" class_SourceResponse g
  | class_EvaluateResponse => RegisterResponse "evaluate" class_EvaluateResponse g
  end.

(** The classes of [Initialize], in its order. *)
Definition registered_classes : list MessageClass :=
  [class_CancelRequest; class_InitializeRequest; class_BreakpointLocationsRequest;
   class_ConfigurationDoneRequest; class_LaunchRequest; class_DisconnectRequest;
   class_SetBreakpointsRequest; class_SetFunctionBreakpointsRequest; class_ContinueRequest;
   class_NextRequest; class_StepInRequest; class_StepOutRequest; class_ThreadsRequest;
   class_ScopesRequest; class_StackTraceRequest; class_PauseRequest;
   class_RunInTerminalRequest; class_SourceRequest; class_EvaluateRequest; class_AttachRequest;
   class_InitializedEvent; class_StoppedEvent; class_ContinuedEvent; class_ExitedEvent;
   class_TerminatedEvent; class_ThreadEvent; class_OutputEvent; class_BreakpointEvent;
   class_ProcessEvent; class_ModuleEvent; class_DebugpyWaitingForServerEvent;
   class_InitializeResponse; class_CancelResponse; class_ConfigurationDoneResponse;
   class_LaunchResponse; class_DisconnectResponse; class_BreakpointLocationsResponse;
   class_SetBreakpointsResponse; class_SetFunctionBreakpointsResponse; class_ContinueResponse;
   class_NextResponse; class_StepInResponse; class_StepOutResponse; class_ThreadsResponse;
   class_ScopesResponse; class_StackTraceResponse; class_VariablesResponse;
   class_PauseResponse; class_RunInTerminalResponse; class_SourceResponse;
   class_EvaluateResponse; class_AttachResponse].

Definition Initialize (g : ObjGenerator) : ObjGenerator :=
  foldl (λ g c, construct c g) g registered_classes.

(** [New(name, pool)]: creating the object runs its constructor. *)
Definition New_from (name : text) (p : pool) (g : ObjGenerator) : option Message * ObjGenerator :=
  match p !! name with
  | None => (None, g)
  | Some c => (Some (new_message c), construct c g)
  end.

Definition New (type name : text) (g : ObjGenerator) : option Message * ObjGenerator :=
  if type =t "response" then New_from name (m_responses g) g
  else if type =t "request" then New_from name (m_requests g) g
  else if type =t "event" then New_from name (m_events g) g
  else (None, g).

Definition FromJSON (json : Json) (g : ObjGenerator) : option Message * ObjGenerator :=
  if negb (IsOK json) then (None, g)
  else
    let type := get_string json.["type"] in
    let command :=
      if type =t "event" then get_string json.["event"] else get_string json.["command"] in
    let '(msg, g) := New type command g in
    match msg with
    | None => (None, g)
    | Some m => (Some (Message_From json m), g)
    end.

(** ** Reading back what was written *)

Definition valid_Message (m : Message) : bool :=
  match m with
  | msg_CancelRequest x => valid_CancelRequest x
  | msg_InitializeRequest x => valid_InitializeRequest x
  | msg_ConfigurationDoneRequest x => valid_Request x
  | msg_LaunchRequest x => valid_LaunchRequest x
  | msg_AttachRequest x => valid_AttachRequest x
  | msg_DisconnectRequest x => valid_DisconnectRequest x
  | msg_BreakpointLocationsRequest x => valid_BreakpointLocationsRequest x
  | msg_SetBreakpointsRequest x => valid_SetBreakpointsRequest x
  | msg_SetFunctionBreakpointsRequest x => valid_SetFunctionBreakpointsRequest x
  | msg_ContinueRequest x => valid_ContinueRequest x
  | msg_NextRequest x => valid_NextRequest x
  | msg_StepRequest x => valid_StepRequest x
  | msg_StepInRequest x => valid_StepRequest x
  | msg_StepOutRequest x => valid_StepRequest x
  | msg_ThreadsRequest x => valid_Request x
  | msg_ScopesRequest x => valid_ScopesRequest x
  | msg_StackTraceRequest x => valid_StackTraceRequest x
  | msg_VariablesRequest x => valid_VariablesRequest x
  | msg_PauseRequest x => valid_PauseRequest x
  | msg_RunInTerminalRequest x => valid_RunInTerminalRequest x
  | msg_SourceRequest x => valid_SourceRequest x
  | msg_EvaluateRequest x => valid_EvaluateRequest x
  | msg_InitializedEvent x => valid_Event x
  | msg_StoppedEvent x => valid_StoppedEvent x
  | msg_ContinuedEvent x => valid_ContinuedEvent x
  | msg_ExitedEvent x => valid_ExitedEvent x
  | msg_TerminatedEvent x => valid_Event x
  | msg_ThreadEvent x => valid_ThreadEvent x
  | msg_OutputEvent x => valid_OutputEvent x
  | msg_BreakpointEvent x => valid_BreakpointEvent x
  | msg_ProcessEvent x => valid_ProcessEvent x
  | msg_ModuleEvent x => valid_ModuleEvent x
  | msg_DebugpyWaitingForServerEvent x => valid_DebugpyWaitingForServerEvent x
  | msg_EmptyAckResponse x => valid_Response x
  | msg_CancelResponse x => valid_Response x
  | msg_InitializeResponse x => valid_InitializeResponse x
  | msg_ConfigurationDoneResponse x => valid_Response x
  | msg_LaunchResponse x => valid_Response x
  | msg_AttachResponse x => valid_Response x
  | msg_DisconnectResponse x => valid_Response x
  | msg_NextResponse x => valid_Response x
  | msg_PauseResponse x => valid_Response x
  | msg_StepInResponse x => valid_Response x
  | msg_StepOutResponse x => valid_Response x
  | msg_BreakpointLocationsResponse x => valid_BreakpointLocationsResponse x
  | msg_SetBreakpointsResponse x => valid_SetBreakpointsResponse x
  | msg_SetFunctionBreakpointsResponse x => valid_SetBreakpointsResponse x
  | msg_ContinueResponse x => valid_ContinueResponse x
  | msg_ThreadsResponse x => valid_ThreadsResponse x
  | msg_ScopesResponse x => valid_ScopesResponse x
  | msg_StackTraceResponse x => valid_StackTraceResponse x
  | msg_VariablesResponse x => valid_VariablesResponse x
  | msg_RunInTerminalResponse x => valid_RunInTerminalResponse x
  | msg_SourceResponse x => valid_SourceResponse x
  | msg_EvaluateResponse x => valid_EvaluateResponse x
  end.

(** The type and the name that the constructor of the class sets. *)
Definition class_key (c : MessageClass) : text * text :=
  match c with
  | class_CancelRequest => (lit "request", lit "cancel")
  | class_InitializeRequest => (lit "request", lit "initialize")
  | class_ConfigurationDoneRequest => (lit "request", lit "configurationDone")
  | class_LaunchRequest => (lit "request", lit "launch")
  | class_AttachRequest => (lit "request", lit "attach")
  | class_DisconnectRequest => (lit "request", lit "disconnect")
  | class_BreakpointLocationsRequest => (lit "request", lit "breakpointLocations")
  | class_SetBreakpointsRequest => (lit "request", lit "setBreakpoints")
  | class_SetFunctionBreakpointsRequest => (lit "request", lit "setFunctionBreakpoints")
  | class_ContinueRequest => (lit "request", lit "continue")
  | class_NextRequest => (lit "request", lit "next")
  | class_StepRequest => (lit "request", lit "step")
  | class_StepInRequest => (lit "request", lit "stepIn")
  | class_StepOutRequest => (lit "request", lit "stepOut")
  | class_ThreadsRequest => (lit "request", lit "threads")
  | class_ScopesRequest => (lit "request", lit "scopes")
  | class_StackTraceRequest => (lit "request", lit "stackTrace")
  | class_VariablesRequest => (lit "request", lit "variables")
  | class_PauseRequest => (lit "request", lit "pause")
  | class_RunInTerminalRequest => (lit "request", lit "runInTerminal")
  | class_SourceRequest => (lit "request", lit "source")
  | class_EvaluateRequest => (lit "request", lit "evaluate")
  | class_InitializedEvent => (lit "event", lit "initialized")
  | class_StoppedEvent => (lit "event", lit "stopped")
  | class_ContinuedEvent => (lit "event", lit "continued")
  | class_ExitedEvent => (lit "event", lit "exited")
  | class_TerminatedEvent => (lit "event", lit "terminated")
  | class_ThreadEvent => (lit "event", lit "thread")
  | class_OutputEvent => (lit "event", lit "output")
  | class_BreakpointEvent => (lit "event", lit "breakpoint")
  | class_ProcessEvent => (lit "event", lit "process")
  | class_ModuleEvent => (lit "event", lit "module")
  | class_DebugpyWaitingForServerEvent => (lit "event", lit "")
  | class_EmptyAckResponse => (lit "response", lit "")
  | class_CancelResponse => (lit "response", lit "cancel")
  | class_InitializeResponse => (lit "response", lit "initialize")
  | class_ConfigurationDoneResponse => (lit "response", lit "configurationDone")
  | class_LaunchResponse => (lit "response", lit "launch")
  | class_AttachResponse => (lit "response", lit "attach")
  | class_DisconnectResponse => (lit "response", lit "disconnect")
  | class_NextResponse => (lit "response", lit "next")
  | class_PauseResponse => (lit "response", lit "pause")
  | class_StepInResponse => (lit "response", lit "stepIn")
  | class_StepOutResponse => (lit "response", lit "stepOut")
  | class_BreakpointLocationsResponse => (lit "response", lit "breakpointLocations")
  | class_SetBreakpointsResponse => (lit "response", lit "setBreakpoints")
  | class_SetFunctionBreakpointsResponse => (lit "response", lit "setFunctionBreakpoints")
  | class_ContinueResponse => (lit "response", lit "continue")
  | class_ThreadsResponse => (lit "response", lit "threads")
  | class_ScopesResponse => (lit "response", lit "scopes")
  | class_StackTraceResponse => (lit "response", lit "stackTrace")
  | class_VariablesResponse => (lit "response", lit "variables")
  | class_RunInTerminalResponse => (lit "response", lit "runInTerminal")
  | class_SourceResponse => (lit "response", lit "source")
  | class_EvaluateResponse => (lit "response", lit "evaluate")
  end.

Definition tagged (m : Message) : bool :=
  let '(ty, name) := class_key (class_of m) in
  (ProtocolMessage_type (Message_protocol m) =t ty) && (Message_name m =t name).

(** The codecs of the classes: what they write has a value, what they read depends on the value
    only, what was written is read back. *)
Create HintDb dap_messages.
#[local] Hint Resolve CancelRequest_To_value InitializeRequest_To_value Request_To_value
  LaunchRequest_To_value AttachRequest_To_value DisconnectRequest_To_value
  BreakpointLocationsRequest_To_value SetBreakpointsRequest_To_value
  SetFunctionBreakpointsRequest_To_value ContinueRequest_To_value NextRequest_To_value
  StepRequest_To_value ScopesRequest_To_value StackTraceRequest_To_value VariablesRequest_To_value
  PauseRequest_To_value RunInTerminalRequest_To_value SourceRequest_To_value
  EvaluateRequest_To_value Event_To_value StoppedEvent_To_value ContinuedEvent_To_value
  ExitedEvent_To_value ThreadEvent_To_value OutputEvent_To_value BreakpointEvent_To_value
  ProcessEvent_To_value ModuleEvent_To_value DebugpyWaitingForServerEvent_To_value
  Response_To_value InitializeResponse_To_value BreakpointLocationsResponse_To_value
  SetBreakpointsResponse_To_value ContinueResponse_To_value ThreadsResponse_To_value
  ScopesResponse_To_value StackTraceResponse_To_value VariablesResponse_To_value
  RunInTerminalResponse_To_value SourceResponse_To_value EvaluateResponse_To_value : dap_messages.

Lemma Message_To_value m : valid_Message m = true → is_value (Message_To m).
Proof. destruct m; simpl; auto with dap_messages. Qed.

#[local] Hint Resolve CancelRequest_From_sim InitializeRequest_From_sim Request_From_sim
  LaunchRequest_From_sim AttachRequest_From_sim DisconnectRequest_From_sim
  BreakpointLocationsRequest_From_sim SetBreakpointsRequest_From_sim
  SetFunctionBreakpointsRequest_From_sim ContinueRequest_From_sim NextRequest_From_sim
  StepRequest_From_sim ScopesRequest_From_sim StackTraceRequest_From_sim VariablesRequest_From_sim
  PauseRequest_From_sim RunInTerminalRequest_From_sim SourceRequest_From_sim
  EvaluateRequest_From_sim Event_From_sim StoppedEvent_From_sim ContinuedEvent_From_sim
  ExitedEvent_From_sim ThreadEvent_From_sim OutputEvent_From_sim BreakpointEvent_From_sim
  ProcessEvent_From_sim ModuleEvent_From_sim DebugpyWaitingForServerEvent_From_sim
  Response_From_sim InitializeResponse_From_sim BreakpointLocationsResponse_From_sim
  SetBreakpointsResponse_From_sim ContinueResponse_From_sim ThreadsResponse_From_sim
  ScopesResponse_From_sim StackTraceResponse_From_sim VariablesResponse_From_sim
  RunInTerminalResponse_From_sim SourceResponse_From_sim EvaluateResponse_From_sim : dap_messages.

Lemma Message_From_sim j j' this : jsim j j' → Message_From j this = Message_From j' this.
Proof. intros Hj. destruct this; simpl; f_equal; auto with dap_messages. Qed.

#[local] Hint Resolve CancelRequest_round_trip InitializeRequest_round_trip Request_round_trip
  LaunchRequest_round_trip AttachRequest_round_trip DisconnectRequest_round_trip
  BreakpointLocationsRequest_round_trip SetBreakpointsRequest_round_trip
  SetFunctionBreakpointsRequest_round_trip ContinueRequest_round_trip NextRequest_round_trip
  StepRequest_round_trip ScopesRequest_round_trip StackTraceRequest_round_trip
  VariablesRequest_round_trip PauseRequest_round_trip RunInTerminalRequest_round_trip
  SourceRequest_round_trip EvaluateRequest_round_trip Event_round_trip StoppedEvent_round_trip
  ContinuedEvent_round_trip ExitedEvent_round_trip ThreadEvent_round_trip OutputEvent_round_trip
  BreakpointEvent_round_trip ProcessEvent_round_trip ModuleEvent_round_trip
  DebugpyWaitingForServerEvent_round_trip Response_round_trip InitializeResponse_round_trip
  BreakpointLocationsResponse_round_trip SetBreakpointsResponse_round_trip
  ContinueResponse_round_trip ThreadsResponse_round_trip ScopesResponse_round_trip
  StackTraceResponse_round_trip VariablesResponse_round_trip RunInTerminalResponse_round_trip
  SourceResponse_round_trip EvaluateResponse_round_trip : dap_messages.

Lemma Message_round_trip m : valid_Message m = true →
  Message_From (Message_To m) (new_message (class_of m)) = m.
Proof.
  destruct m; cbn [valid_Message Message_To Message_From new_message class_of]; intros Hv;
    f_equal; auto with dap_messages.
  (* the constructors of the subclasses start from those of the base class *)
  all: match goal with
       | |- StepRequest_From (StepRequest_To ?x) _ = _ => by apply (StepRequest_round_trip x)
       | |- SetBreakpointsResponse_From (SetBreakpointsResponse_To ?x) _ = _ =>
           by apply (SetBreakpointsResponse_round_trip x)
       end.
Qed.

(** Every reader takes the type and the name from the members of the base classes. *)
Lemma Message_From_type j this :
  ProtocolMessage_type (Message_protocol (Message_From j this)) = get_string j.["type"].
Proof. by destruct this. Qed.

Lemma Message_From_name j this :
  Message_name (Message_From j this)
  = get_string (if (class_key (class_of this)).1 =t "event" then j.["event"] else j.["command"]).
Proof. by destruct this. Qed.

Lemma class_of_new c : class_of (new_message c) = c.
Proof. by destruct c. Qed.

(** The classes a fresh program can read: all of them but [VariablesRequest], which
    [Initialize] leaves out. *)
Definition readable (c : MessageClass) : bool :=
  match c with class_VariablesRequest => false | _ => true end.

(** The pool of a type of message. *)
Definition pool_of (type : text) (g : ObjGenerator) : pool :=
  if type =t "response" then m_responses g
  else if type =t "request" then m_requests g
  else if type =t "event" then m_events g else ∅.

Definition loaded (g : ObjGenerator) : Prop :=
  ∀ c, readable c = true → pool_of (class_key c).1 g !! (class_key c).2 = Some c.

Lemma loaded_Initialize : loaded (Initialize ObjGenerator_empty).
Proof. intros [] Hc; try discriminate Hc; vm_compute; reflexivity. Qed.

Lemma pool_insert_mono n func p k c : p !! k = Some c → pool_insert n func p !! k = Some c.
Proof.
  intros Hk. unfold pool_insert. destruct (p !! n) eqn:Hn; [done|].
  rewrite lookup_insert_ne; [done|]. intros ->. congruence.
Qed.

(** What every registration keeps. *)
Definition extends (g g' : ObjGenerator) : Prop :=
  ∀ ty k c, pool_of ty g !! k = Some c → pool_of ty g' !! k = Some c.

#[export] Instance extends_preorder : PreOrder extends.
Proof. split; [intros g ty k c; done|intros a b c Hab Hbc ty k x Hx; by apply Hbc, Hab]. Qed.

Lemma extends_RegisterResponse n func g g' : extends g g' → extends g (RegisterResponse n func g').
Proof.
  intros Hg ty k c Hk%Hg. revert Hk. unfold pool_of. simpl.
  repeat case_match; try done. apply pool_insert_mono.
Qed.

Lemma extends_RegisterEvent n func g g' : extends g g' → extends g (RegisterEvent n func g').
Proof.
  intros Hg ty k c Hk%Hg. revert Hk. unfold pool_of. simpl.
  repeat case_match; try done. apply pool_insert_mono.
Qed.

Lemma extends_RegisterRequest n func g g' : extends g g' → extends g (RegisterRequest n func g').
Proof.
  intros Hg ty k c Hk%Hg. revert Hk. unfold pool_of. simpl.
  repeat case_match; try done. apply pool_insert_mono.
Qed.

Lemma extends_construct c g : extends g (construct c g).
Proof.
  destruct c; simpl; repeat first
    [ apply extends_RegisterResponse | apply extends_RegisterEvent
    | apply extends_RegisterRequest ]; reflexivity.
Qed.

Lemma loaded_extends g g' : loaded g → extends g g' → loaded g'.
Proof. intros Hl He c Hc. by apply He, Hl. Qed.

Lemma loaded_construct c g : loaded g → loaded (construct c g).
Proof. intros Hl. eapply loaded_extends; [done|]. by apply extends_construct. Qed.

Lemma New_loaded c g : loaded g → readable c = true →
  New (class_key c).1 (class_key c).2 g = (Some (new_message c), construct c g).
Proof.
  intros Hl Hc. specialize (Hl c Hc). unfold New, pool_of, New_from in *.
  repeat case_match; simplify_eq; done.
Qed.

Lemma FromJSON_sim m g j : valid_Message m = true → tagged m = true →
  readable (class_of m) = true → loaded g → jsim j (Message_To m) → IsOK j = true →
  FromJSON j g = (Some m, construct (class_of m) g).
Proof.
  intros Hv Ht Hc Hl Hj Hok. unfold FromJSON. rewrite Hok. cbn [negb].
  pose proof (Message_round_trip m Hv) as Hm. rewrite <- (Message_From_sim _ _ _ Hj) in Hm.
  unfold tagged in Ht. destruct (class_key (class_of m)) as [ty name] eqn:Hk.
  apply andb_true_iff in Ht as [Hty Hn]. apply teq_true in Hty, Hn.
  pose proof (Message_From_type j (new_message (class_of m))) as Et. rewrite Hm, Hty in Et.
  pose proof (Message_From_name j (new_message (class_of m))) as En.
  rewrite Hm, Hn, class_of_new, Hk in En. cbn [fst] in En. cbv zeta. rewrite <- Et.
  replace (if ty =t "event" then get_string j.["event"] else get_string j.["command"]) with name.
  - pose proof (New_loaded (class_of m) g Hl Hc) as HN. rewrite Hk in HN. simpl in HN.
    rewrite HN. by rewrite Hm.
  - rewrite En. by destruct (ty =t "event").
Qed.

End Registry.
