(* ===== verification/DapProtocol.v ===== *)
(** * dap.cpp: what a message goes through between two programs.

    Every message written by one program is read back as the same message of the same class by
    another; the exceptions, fields that do not survive, are stated too. *)
From S2P Require Import Prelude.
From S2P Require Import Double.
From S2P Require Import CJson.
From S2P Require Import CJsonRoundTrip.
From S2P Require Import CJsonTree.
From S2P Require Import Json.
From S2P Require Import Any.
From S2P Require Import DapData.
From S2P Require Import DapEnvironment.
From S2P Require Import DapMessages.
From S2P Require Import DapRegistry.
Local Open Scope Z_scope.

Section Protocol.
Context `{Platform} `{HashOrder}.

(** The text of a message. *)
Definition text_of (m : Message) : text := match Message_ToString m with Ret t => t | _ => [] end.

(** What the text of a message is read back as, by every generator that knows the classes. *)
Lemma message_json m : valid_Message m = true → tagged m = true → readable (class_of m) = true →
  ∃ s j, Message_ToString m = Ret s ∧ Parse s = Ret j ∧ is_value j ∧
    Message_From j (new_message (class_of m)) = m ∧ ∀ g, loaded g → FromJSON j g = (Some m, construct (class_of m) g).
Proof.
  intros Hv Ht Hc. destruct (Message_To_value m Hv) as [v Hd].
  destruct (Parse_ToString false _ _ Hd) as (s & Hs & _ & j & Hp & Hj).
  assert (jsim j (Message_To m)) as Hsim by (by eapply jdenotes_jsim).
  exists s, j. split; [done|]. split; [done|]. split; [by exists v|]. split.
  - rewrite (Message_From_sim _ _ _ Hsim). by apply Message_round_trip.
  - intros g Hl. apply FromJSON_sim; try done. by destruct Hj as (t & -> & _).
Qed.

Lemma message_text m : valid_Message m = true → tagged m = true → readable (class_of m) = true →
  ∃ s j, Message_ToString m = Ret s ∧ Parse s = Ret j ∧ IsOK j = true ∧
    ∀ g, loaded g → FromJSON j g = (Some m, construct (class_of m) g).
Proof.
  intros Hv Ht Hc. destruct (message_json m Hv Ht Hc) as (s & j & ? & ? & [v (t & -> & _)] & _ & ?).
  by exists s, (Some t).
Qed.

(** C5: a message survives the wire: for every message of every class that [Initialize] registers,
    with the [type] and the name its constructor gave it and with valid members, the text that
    [ToString] writes is parsed and [FromJSON] makes of it the same message, of the same class. *)
Theorem message_over_the_wire m g : valid_Message m = true → tagged m = true →
  readable (class_of m) = true → loaded g →
  ∃ s j, Message_ToString m = Ret s ∧ Parse s = Ret j ∧
    FromJSON j g = (Some m, construct (class_of m) g).
Proof. intros Hv Ht Hc Hl. destruct (message_text m Hv Ht Hc) as (s & j & Hs & Hp & _ & Hf). exists s, j. auto. Qed.

(** After [Initialize] the generator makes an object of every class from its type and its name,
    except of [VariablesRequest], which [Initialize] leaves out: a program that has not made a
    [variables] request itself cannot read one. *)
Theorem Initialize_registers c :
  fst (New (class_key c).1 (class_key c).2 (Initialize ObjGenerator_empty))
  = match c with class_VariablesRequest => None | _ => Some (new_message c) end.
Proof.
  destruct (readable c) eqn:Hc.
  - rewrite (New_loaded c _ loaded_Initialize Hc). by destruct c.
  - destruct c; try discriminate Hc. vm_compute. reflexivity.
Qed.

(** C39: four members are written and not read back: the [requestId] of a cancel request is -1 for
    the reader and a [false] [allThreadsContinued] is true; the [line] and the [endLine] of a
    breakpoint locations request keep the values of the reader's object. *)
Theorem members_lost :
  (∀ x, valid_Request (CancelRequest_Request x) = true → is_int (CancelRequest_requestId x) = true →
     CancelRequest_requestId (CancelRequest_From (CancelRequest_To x) CancelRequest_fresh) = -1) ∧
  (∀ x, valid_Response (ContinueResponse_Response x) = true →
     ContinueResponse_allThreadsContinued
       (ContinueResponse_From (ContinueResponse_To x) ContinueResponse_fresh) = true) ∧
  (∀ x this, valid (BreakpointLocationsArguments_source x) = true →
     is_int (BreakpointLocationsArguments_line x) = true →
     is_int (BreakpointLocationsArguments_column x) = true →
     is_int (BreakpointLocationsArguments_endLine x) = true →
     is_int (BreakpointLocationsArguments_endColumn x) = true →
     let read := BreakpointLocationsArguments_From (BreakpointLocationsArguments_To x) this in
     BreakpointLocationsArguments_line read = BreakpointLocationsArguments_line this ∧
     BreakpointLocationsArguments_endLine read = BreakpointLocationsArguments_endLine this).
Proof.
  split; [|split].
  - intros [[[]]]. unfold CancelRequest_From, CancelRequest_To, valid_Request, Request_To,
      Request_From, ProtocolMessage_To, valid_ProtocolMessage. simpl. solve_round_trip.
  - intros [[[]] []]; unfold ContinueResponse_From, ContinueResponse_To, valid_Response,
      Response_To, Response_From, ProtocolMessage_To, valid_ProtocolMessage; simpl; solve_round_trip.
  - intros [] this. unfold BreakpointLocationsArguments_From, BreakpointLocationsArguments_To. simpl.
    intros. nodes. read_eval. done.
Qed.

(** ** The environment *)

Lemma contains_app c a b : contains c (a ++ c :: b) = true.
Proof. unfold contains. rewrite existsb_app. simpl. by rewrite ceq_refl, orb_true_r. Qed.

Lemma wx_BeforeFirst_app c a b : contains c a = false → wx_BeforeFirst c (a ++ c :: b) = a.
Proof.
  induction a as [|x a IH]; simpl; [by rewrite ceq_refl|].
  intros [Hx Ha]%orb_false_iff. rewrite ceq_neq; [by rewrite IH|].
  intros ->. by rewrite ceq_refl in Hx.
Qed.

Lemma wx_AfterFirst_app c a b : contains c a = false → wx_AfterFirst c (a ++ c :: b) = b.
Proof.
  induction a as [|x a IH]; simpl; [by rewrite ceq_refl|].
  intros [Hx Ha]%orb_false_iff. rewrite ceq_neq; [by rewrite IH|].
  intros ->. by rewrite ceq_refl in Hx.
Qed.

(** An entry as it is written in the list. *)
Definition entry (e : text * text) : text := e.1 ++ "=" ++ e.2.

Lemma insert_entry_spec acc e : contains "=" e.1 = false → e.1 ∉ acc.*1 →
  insert_entry acc (entry e) ≡ₚ acc ++ [e].
Proof.
  destruct e as [k v]. simpl. intros Hk Hn. unfold insert_entry, entry. simpl.
  rewrite contains_app, wx_BeforeFirst_app, wx_AfterFirst_app by done. simpl. unfold vars_insert.
  assert (existsb (λ e, e.1 =t k) acc = false) as ->; [|apply rehash_perm].
  apply not_true_is_false. intros (e & He & Hek)%existsb_exists. apply Hn.
  rewrite list_elem_of_fmap. exists e. split; [by apply teq_true in Hek|by apply list_elem_of_In].
Qed.

Lemma insert_entries vars acc : Forall (λ e, contains "=" e.1 = false) vars →
  NoDup (acc ++ vars).*1 → foldl insert_entry acc (map entry vars) ≡ₚ acc ++ vars.
Proof.
  revert acc; induction vars as [|e vars IH]; intros acc He Hn; simpl; [by rewrite app_nil_r|].
  inversion He as [|? ? He1 Hv]; subst.
  assert (insert_entry acc (entry e) ≡ₚ acc ++ [e]) as Hp.
  { apply insert_entry_spec; [done|]. rewrite fmap_app, fmap_cons in Hn.
    apply list.NoDup_app in Hn as (_ & Hd & _). intros Hin. apply (Hd _ Hin). by left. }
  rewrite IH; [|done|].
  - rewrite Hp. by rewrite <- app_assoc.
  - rewrite Hp. by rewrite <- app_assoc.
Qed.

Lemma Environment_To_list vars :
  Environment_To (mkEnvironment LIST vars) = array_node (map cJSON_CreateString (map entry vars)).
Proof.
  unfold Environment_To. simpl. rewrite <- strings_Some. generalize CreateArray.
  induction vars as [|e vars IH]; intros j; simpl; [done|]. apply IH.
Qed.

(** An environment in the [LIST] format survives: the entries with distinct names, none of
    which has an equals sign, are read back, in some order; in the other formats nothing is. *)
Theorem Environment_list_round_trip vars this : NoDup vars.*1 →
  Forall (λ e, contains "=" e.1 = false ∧ no_nul e.1 = true ∧ no_nul e.2 = true) vars →
  Environment_vars (Environment_From (Environment_To (mkEnvironment LIST vars)) this) ≡ₚ vars ∧
  Environment_vars (Environment_From (Environment_To (mkEnvironment DICTIONARY vars)) this) = [] ∧
  Environment_vars (Environment_From (Environment_To (mkEnvironment NONE vars)) this) = [].
Proof.
  intros Hn Hv. split; [|split; [|done]].
  - rewrite Environment_To_list. unfold Environment_From. cbn [Environment_vars].
    set (j := array_node (map cJSON_CreateString (map entry vars))).
    change (negb (IsOK j) || negb (IsArray j)) with false. cbv iota.
    change (map (λ i, get_string (element j i)) (seq 0 (GetCount j))) with (GetStringArray j).
    change j with (Some (set_string None (node j))). unfold j. rewrite GetStringArray_strings.
    + rewrite (insert_entries vars []); [done| |done].
      eapply list.Forall_impl; [exact Hv|]. by intros e (? & _).
    + apply forallb_forall. intros s (e & <- & He)%in_map_iff. rewrite list.Forall_forall in Hv.
      destruct (Hv e) as (_ & H1 & H2); [by apply list_elem_of_In|].
      unfold entry. by rewrite !no_nul_app, H1, H2.
  - unfold Environment_To. simpl. generalize (eq_refl (IsArray CreateObject)).
    change (IsArray CreateObject) with false at 2. generalize CreateObject.
    clear. induction vars as [|e vars IH]; intros j Hj; simpl.
    + unfold Environment_From. simpl. rewrite Hj. by rewrite orb_true_r.
    + apply IH. unfold Add_string, add_to_container. destruct j as [t|]; [|done].
      rewrite Hj. simpl. destruct (type t =? cJsonDap_Object); [by destruct t|done].
Qed.
End Protocol.

Section Samples.
#[local] Existing Instance sample_platform.
#[local] Existing Instance sample_hash.

Definition sample_frame : StackFrame :=
  mkStackFrame 1000 "main" (mkSource "main.cpp" "/src/main.cpp" 0) 12.

Definition sample_message : Message :=
  msg_StackTraceResponse (mkStackTraceResponse
    (mkResponse (mkProtocolMessage 7 "response") 3 true "stackTrace" "")
    [sample_frame; sample_frame] (StackTraceResponse_refId StackTraceResponse_fresh)).

Lemma message_over_the_wire_witness : ∃ s j,
  Message_ToString sample_message = Ret s ∧ Parse s = Ret j ∧
  FromJSON j (Initialize ObjGenerator_empty)
  = (Some sample_message, construct class_StackTraceResponse (Initialize ObjGenerator_empty)).
Proof.
  apply (message_over_the_wire sample_message (Initialize ObjGenerator_empty));
    [vm_compute; reflexivity|vm_compute; reflexivity|reflexivity|apply loaded_Initialize].
Defined.

Lemma Environment_list_round_trip_witness :
  Environment_vars (Environment_From (Environment_To
    (mkEnvironment LIST [(lit "A", lit "1=2"); (lit "B", lit "")])) Environment_fresh)
  ≡ₚ [(lit "A", lit "1=2"); (lit "B", lit "")].
Proof.
  apply Environment_list_round_trip.
  - refine (bool_decide_unpack _ _). vm_compute. exact I.
  - repeat constructor.
Defined.

Lemma members_lost_witness :
  ContinueResponse_allThreadsContinued (ContinueResponse_From (ContinueResponse_To
    (mkContinueResponse (Response_new "continue") false)) ContinueResponse_fresh) = true.
Proof. apply members_lost. reflexivity. Defined.
End Samples.
