(* ===== verification/StringUtils.v ===== *)
(** * StringUtils.cpp: trimming, splitting, command lines and paths.

    The functions on [std::string] and [wxString] of the same name have one definition where
    their code is the same. *)
From S2P Require Import Prelude.
Local Open Scope Z_scope.

(** A [wxString] as its characters, made of a [std::string] and given out as a C string. *)
Class WxString := {
  from_std : text → list Z;
  mb_str : list Z → text;
}.

(** [" \n\r\t"]. *)
Definition is_blank (c : ascii) : bool := (c =c " ") || (c =c LF) || (c =c CR) || (c =c TAB).

Fixpoint drop_blanks (t : text) : text :=
  match t with
  | [] => []
  | c :: r => if is_blank c then drop_blanks r else t
  end.

Definition Rtrim (str : text) : text := reverse (drop_blanks (reverse str)).
Definition Trim (str : text) : text := Rtrim (drop_blanks str).

(** The overloads on [wxString]: [wxString::Trim] removes what [isspace] accepts. *)
Definition wx_Rtrim (str : text) : text := reverse (drop_spaces (reverse str)).
Definition wx_Ltrim (str : text) : text := drop_spaces str.
Definition wx_Trim (str : text) : text := wx_Ltrim (wx_Rtrim str).

(** [wxString::RemoveLast(n)] *)
Definition RemoveLast (n : nat) (t : text) : text :=
  if (n <=? length t)%nat then take (length t - n) t else t.

(** [str.find(ch)]. *)
Fixpoint find_char (ch : ascii) (str : text) : option nat :=
  match str with
  | [] => None
  | c :: r => if c =c ch then Some 0%nat else S <$> find_char ch r
  end.

Definition BeforeFirst (str : text) (ch : ascii) : text :=
  match find_char ch str with
  | None => str
  | Some where_ => take where_ str
  end.

Definition AfterFirst (str : text) (ch : ascii) : text :=
  match find_char ch str with
  | None => []
  | Some where_ => drop (where_ + 1) str
  end.

(** The tokens [strtok_r] returns: the maximal runs of bytes that are not in [delims]. *)
Fixpoint strtok_loop (delims str cur : text) : list text :=
  let push := if cur is [] then [] else [reverse cur] in
  match str with
  | [] => push
  | c :: r => if existsb (ceq c) delims then push ++ strtok_loop delims r []
              else strtok_loop delims r (c :: cur)
  end.

Definition Split (str delims : text) : list text :=
  filter (λ t, t ≠ []) (map Trim (strtok_loop delims (c_str str) [])).

(** The overloads on [wxString]. *)
Definition BeforeFirst_wx (str : text) (ch : ascii) : text :=
  match find_char ch str with None => str | Some where_ => take where_ str end.
Definition AfterFirst_wx (str : text) (ch : ascii) : text :=
  match find_char ch str with None => [] | Some where_ => drop (where_ + 1) str end.

(** [wxStringTokenize] with [wxTOKEN_STRTOK] cuts like [strtok]; the tokens are not trimmed. *)
Definition Split_wx (str : text) (ch : ascii) : list text := strtok_loop [ch] str [].

(** ** [BuildArgv]: a command line as a vector of arguments *)

Inductive argv_state :=
| ARGV_STATE_NORMAL | ARGV_STATE_DQUOTE | ARGV_STATE_SQUOTE | ARGV_STATE_ESCAPE
| ARGV_STATE_BACKTICK.

Record argv := mkArgv {
  A : list text;
  state : argv_state;
  prev_state : argv_state;
  curstr : text;
}.

Definition PUSH_CURTOKEN (s : argv) : argv :=
  if curstr s is [] then s else mkArgv (A s ++ [curstr s]) (state s) (prev_state s) [].
Definition CHANGE_STATE (new_state : argv_state) (s : argv) : argv :=
  mkArgv (A s) new_state (state s) (curstr s).
Definition RESTORE_STATE (s : argv) : argv :=
  mkArgv (A s) (prev_state s) ARGV_STATE_NORMAL (curstr s).
Definition append_curstr (t : text) (s : argv) : argv :=
  mkArgv (A s) (state s) (prev_state s) (curstr s ++ t).

(** The character that the state escapes to itself, and ends it. *)
Definition escaped_in (prev : argv_state) : ascii :=
  match prev with
  | ARGV_STATE_DQUOTE => DQUOTE
  | ARGV_STATE_BACKTICK => BACKTICK
  | _ => SQUOTE
  end.

Definition quoted_step (quote ch : ascii) (s : argv) : argv :=
  if ch =c BSLASH then CHANGE_STATE ARGV_STATE_ESCAPE s
  else if ch =c quote then RESTORE_STATE (append_curstr [ch] s)
  else append_curstr [ch] s.

Definition argv_step (s : argv) (ch : ascii) : argv :=
  match state s with
  | ARGV_STATE_NORMAL =>
      if (ch =c " ") || (ch =c TAB) then PUSH_CURTOKEN s
      else if ch =c SQUOTE then append_curstr [ch] (CHANGE_STATE ARGV_STATE_SQUOTE s)
      else if ch =c DQUOTE then append_curstr [ch] (CHANGE_STATE ARGV_STATE_DQUOTE s)
      else if ch =c BACKTICK then append_curstr [ch] (CHANGE_STATE ARGV_STATE_BACKTICK s)
      else append_curstr [ch] s
  | ARGV_STATE_ESCAPE =>
      if ch =c escaped_in (prev_state s) then RESTORE_STATE (append_curstr [ch] s)
      else RESTORE_STATE (append_curstr [BSLASH; ch] s)
  | ARGV_STATE_DQUOTE => quoted_step DQUOTE ch s
  | ARGV_STATE_SQUOTE => quoted_step SQUOTE ch s
  | ARGV_STATE_BACKTICK => quoted_step BACKTICK ch s
  end.

(** The first [BuildArgv]: the arguments are copied with [strdup]. *)
Definition BuildArgv_tokens (str : text) : list text :=
  let s := foldl argv_step (mkArgv [] ARGV_STATE_NORMAL ARGV_STATE_NORMAL []) str in
  map c_str (A (PUSH_CURTOKEN s)).

(** [s.RemoveLast(); s.erase(0, 1)] when the quotes are there. *)
Definition strip_quotes (s : text) : text :=
  if (1 <? length s)%nat && (deref s =c DQUOTE) && (deref (reverse s) =c DQUOTE)
  then next (removelast s) else s.

Definition BuildArgv (str : text) : list text := map strip_quotes (BuildArgv_tokens str).

Definition WrapWithQuotes (str : text) : text :=
  if str is [] then str
  else match find_char " " str with
       | None => str
       | Some _ => [DQUOTE] ++ str ++ [DQUOTE]
       end.

(** ** Paths *)

Definition convert_step (source target : ascii) (st : text * ascii) (ch : ascii) : text * ascii :=
  let '(tmp, last_char) := st in
  let ch := if ch =c source then target else ch in
  if (ch =c target) && (last_char =c target) then (tmp, ch) else (tmp ++ [ch], ch).

Definition ConvertSlashes (path : text) (source target : ascii) : text :=
  fst (foldl (convert_step source target) ([], NUL) path).

Definition ToUnixPath (path : text) : text := ConvertSlashes path BSLASH "/".
(** On the systems that are not Windows. *)
Definition ToNativePath (path : text) : text := ConvertSlashes path BSLASH "/".

Fixpoint prefix_loop (str prefix : text) : bool :=
  match prefix, str with
  | [], _ => true
  | p :: prefix', c :: str' => (c =c p) && prefix_loop str' prefix'
  | _ :: _, [] => false
  end.

Definition StartsWith (str prefix : text) : bool :=
  if (length str <? length prefix)%nat then false else prefix_loop str prefix.

(** ** Lemmas *)

Lemma find_char_None ch t : ch ∉ t → find_char ch t = None.
Proof.
  induction t as [|c t IH]; intros Hc; [done|]. simpl.
  apply not_elem_of_cons in Hc as [Hne Hc]. rewrite ceq_neq, IH by done. done.
Qed.

Lemma find_char_app ch a b : ch ∉ a → find_char ch (a ++ ch :: b) = Some (length a).
Proof.
  induction a as [|c a IH]; intros Hc; simpl; [by rewrite ceq_refl|].
  apply not_elem_of_cons in Hc as [Hne Hc]. rewrite ceq_neq, IH by done. done.
Qed.

Lemma find_char_Some ch t : ch ∈ t → ∃ n, find_char ch t = Some n.
Proof.
  induction t as [|c t IH]; intros Hc; [by apply elem_of_nil in Hc|]. simpl.
  destruct (ceq_spec c ch) as [|Hne]; [by exists 0%nat|].
  apply elem_of_cons in Hc as [->|Hc]; [done|]. destruct (IH Hc) as [n ->]. by exists (S n).
Qed.

Lemma BeforeFirst_app a ch b : ch ∉ a → BeforeFirst (a ++ ch :: b) ch = a.
Proof. intros Ha. unfold BeforeFirst. rewrite find_char_app by done. apply take_app_length. Qed.

Lemma AfterFirst_app a ch b : ch ∉ a → AfterFirst (a ++ ch :: b) ch = b.
Proof.
  intros Ha. unfold AfterFirst. rewrite find_char_app by done.
  replace (length a + 1)%nat with (length (a ++ [ch])) by (rewrite length_app; simpl; lia).
  change (a ++ ch :: b) with (a ++ [ch] ++ b). rewrite app_assoc. apply drop_app_length.
Qed.

Lemma drop_blanks_id t : is_blank (deref t) = false → drop_blanks t = t.
Proof. destruct t as [|c t]; simpl; [done|]. by intros ->. Qed.

Lemma drop_blanks_length t : (length (drop_blanks t) ≤ length t)%nat.
Proof. induction t as [|c t IH]; simpl; [done|]. destruct (is_blank c); simpl; lia. Qed.

Lemma Rtrim_length t : (length (Rtrim t) ≤ length t)%nat.
Proof.
  unfold Rtrim. rewrite length_reverse. etrans; [apply drop_blanks_length|]. by rewrite length_reverse.
Qed.

(** A text with no blank at its ends is its own trimming. *)
Lemma Trim_id t : is_blank (deref t) = false → is_blank (deref (reverse t)) = false → Trim t = t.
Proof.
  intros H1 H2. unfold Trim, Rtrim. rewrite (drop_blanks_id t) by done.
  rewrite drop_blanks_id by done. apply reverse_involutive.
Qed.

Lemma StartsWith_spec str prefix : StartsWith str prefix = starts_with prefix str.
Proof.
  assert (∀ s p, prefix_loop s p = starts_with p s) as Hl.
  { intros s p. revert s. induction p as [|x p IH]; intros [|y s]; try done. simpl.
    rewrite IH. f_equal. destruct (ceq_spec x y), (ceq_spec y x); congruence. }
  unfold StartsWith. destruct (Nat.ltb_spec (length str) (length prefix)) as [Hlt|]; [|apply Hl].
  destruct (starts_with prefix str) eqn:E; [|done].
  apply starts_with_spec in E as [r ->]. rewrite length_app in Hlt. lia.
Qed.

(** ** Command lines

    A clean argument has none of the characters that [BuildArgv] gives a meaning to, the
    space apart. *)
Definition clean_char (c : ascii) : bool :=
  negb ((c =c TAB) || (c =c SQUOTE) || (c =c DQUOTE) || (c =c BACKTICK) || (c =c BSLASH)
        || (c =c NUL)).
Definition clean (a : text) : bool := negb (a =t []) && forallb clean_char a.

(** The command line that [StdoutTransport::Execute] builds. *)
Definition command_string (command : list text) : text :=
  concat (map (λ cmd, WrapWithQuotes cmd ++ " ") command).

Definition normal (A : list text) (cur : text) : argv :=
  mkArgv A ARGV_STATE_NORMAL ARGV_STATE_NORMAL cur.

Lemma clean_char_neq c : clean_char c = true →
  c ≠ TAB ∧ c ≠ SQUOTE ∧ c ≠ DQUOTE ∧ c ≠ BACKTICK ∧ c ≠ BSLASH ∧ c ≠ NUL.
Proof.
  intros Hc. repeat split; intros ->; vm_compute in Hc; discriminate Hc.
Qed.

(** Characters outside quotes, without a space, and inside double quotes. *)
Lemma normal_chars a l cur : forallb clean_char a = true → " "%char ∉ a →
  foldl argv_step (normal l cur) a = normal l (cur ++ a).
Proof.
  revert cur; induction a as [|c a IH]; intros cur Ha Hs; simpl; [by rewrite app_nil_r|].
  simpl in Ha. apply andb_true_iff in Ha as [Hc Ha]. apply not_elem_of_cons in Hs as [Hs1 Hs].
  apply clean_char_neq in Hc as (? & ? & ? & ? & ? & ?).
  unfold argv_step at 2. cbn [state normal]. rewrite !ceq_neq by done. cbn [orb].
  change (append_curstr [c] (normal l cur)) with (normal l (cur ++ [c])).
  rewrite IH by done. by rewrite <- app_assoc.
Qed.

Lemma dquote_chars a l cur : forallb clean_char a = true →
  foldl argv_step (mkArgv l ARGV_STATE_DQUOTE ARGV_STATE_NORMAL cur) a
  = mkArgv l ARGV_STATE_DQUOTE ARGV_STATE_NORMAL (cur ++ a).
Proof.
  revert cur; induction a as [|c a IH]; intros cur Ha; simpl; [by rewrite app_nil_r|].
  simpl in Ha. apply andb_true_iff in Ha as [Hc Ha].
  apply clean_char_neq in Hc as (? & ? & ? & ? & ? & ?).
  unfold argv_step at 2. cbn [state]. unfold quoted_step. rewrite !ceq_neq by done.
  unfold append_curstr. cbn [A state prev_state curstr]. rewrite IH by done.
  by rewrite <- app_assoc.
Qed.

Lemma elem_of_char_dec (c : ascii) (t : text) : {c ∈ t} + {c ∉ t}.
Proof. apply (decide (c ∈ t)). Qed.

Lemma wrapped_arg a l : clean a = true →
  foldl argv_step (normal l []) (WrapWithQuotes a ++ " ") = normal (l ++ [WrapWithQuotes a]) [].
Proof.
  intros Ha. unfold clean in Ha. apply andb_true_iff in Ha as [Hne Ha].
  destruct (teq_spec a []) as [->|Hn]; [done|]. clear Hne.
  rewrite foldl_app. unfold WrapWithQuotes. destruct a as [|x a]; [done|].
  destruct (elem_of_char_dec " " (x :: a)) as [Hs|Hs].
  - destruct (find_char_Some _ _ Hs) as [n ->]. rewrite !foldl_app.
    change (foldl argv_step (normal l []) [DQUOTE])
      with (mkArgv l ARGV_STATE_DQUOTE ARGV_STATE_NORMAL [DQUOTE]).
    rewrite dquote_chars by done. simpl. unfold argv_step. simpl.
    unfold PUSH_CURTOKEN, normal. simpl. done.
  - rewrite find_char_None by done. rewrite normal_chars by done. simpl.
    unfold argv_step. simpl. done.
Qed.

Lemma command_string_tokens args l : forallb clean args = true →
  foldl argv_step (normal l []) (command_string args) = normal (l ++ map WrapWithQuotes args) [].
Proof.
  revert l; induction args as [|a args IH]; intros l Ha; [simpl; by rewrite app_nil_r|].
  simpl in Ha. apply andb_true_iff in Ha as [Hc Ha].
  unfold command_string. cbn [map concat]. rewrite foldl_app, wrapped_arg by done.
  unfold command_string in IH. rewrite IH by done. by rewrite <- app_assoc.
Qed.

Lemma no_nul_clean a : forallb clean_char a = true → no_nul a = true.
Proof.
  intros Ha. unfold no_nul. rewrite forallb_forall in *. intros c Hc.
  specialize (Ha c Hc). apply clean_char_neq in Ha as (_ & _ & _ & _ & _ & Hn).
  by rewrite ceq_neq.
Qed.

Lemma strip_wrapped a : clean a = true → strip_quotes (c_str (WrapWithQuotes a)) = a.
Proof.
  intros Ha. unfold clean in Ha. apply andb_true_iff in Ha as [Hne Ha].
  pose proof (no_nul_clean a Ha) as Hnul.
  unfold WrapWithQuotes. destruct a as [|x a]; [done|].
  destruct (find_char " " (x :: a)).
  - rewrite c_str_id by (rewrite !no_nul_app, Hnul; done). unfold strip_quotes.
    rewrite !reverse_app. simpl reverse at 1. rewrite app_assoc, removelast_last.
    destruct (Nat.ltb_spec 1 (length (([DQUOTE] ++ x :: a) ++ [DQUOTE]))) as [|Hl]; [done|].
    rewrite !length_app in Hl. simpl in Hl. lia.
  - rewrite c_str_id by done. unfold strip_quotes. simpl in Ha.
    apply andb_true_iff in Ha as [Hx _]. apply clean_char_neq in Hx as (_ & _ & Hx & _).
    simpl deref at 1. rewrite (ceq_neq x) by done. by rewrite andb_false_r.
Qed.
