(* ===== verification/StringSpec.v ===== *)
(** * StringUtils.cpp: command lines and paths.

    [StdoutTransport::Execute] quotes the arguments into one command line, and [ExecuteProcess]
    cuts it into arguments again. *)
From S2P Require Import Prelude.
From S2P Require Import StringUtils.



(** Only a space makes [WrapWithQuotes] quote: an argument with a tabulation is cut in two, an
    empty one disappears. *)
Example command_line_lost :
  BuildArgv (command_string ["a"%char :: TAB :: lit "b"; []; lit "c"]) = [lit "a"; lit "b"; lit "c"].
Proof. vm_compute. reflexivity. Qed.

(** ** Paths *)

(** The loop of [ConvertSlashes] as a function of the last character and the rest of the path. *)
Fixpoint convert (source target last_char : ascii) (path : text) : text :=
  match path with
  | [] => []
  | ch :: r =>
      let ch := if ch =c source then target else ch in
      if (ch =c target) && (last_char =c target) then convert source target ch r
      else ch :: convert source target ch r
  end.

Lemma foldl_convert source target path tmp last_char :
  fst (foldl (convert_step source target) (tmp, last_char) path)
  = tmp ++ convert source target last_char path.
Proof.
  revert tmp last_char; induction path as [|c path IH]; intros tmp last_char;
    [simpl; by rewrite app_nil_r|].
  cbn [foldl convert]. unfold convert_step at 2.
  set (ch := if c =c source then target else c). destruct ((ch =c target) && (last_char =c target)).
  - apply IH.
  - rewrite IH. by rewrite <- app_assoc.
Qed.

Lemma ToUnixPath_convert path : ToUnixPath path = convert BSLASH "/" NUL path.
Proof. exact (foldl_convert BSLASH "/" path [] NUL). Qed.

Abbreviation SLASH := ("/"%char).

(** No backslash, and no two slashes side by side. *)
Fixpoint unix_path (last_char : ascii) (path : text) : bool :=
  match path with
  | [] => true
  | ch :: r => negb (ch =c BSLASH) && negb ((last_char =c SLASH) && (ch =c SLASH)) && unix_path ch r
  end.

Lemma convert_unix last_char path : unix_path last_char (convert BSLASH SLASH last_char path) = true.
Proof.
  revert last_char; induction path as [|c path IH]; intros last_char; [done|]. cbn [convert].
  destruct (ceq_spec c BSLASH) as [_|Hb].
  - change (SLASH =c SLASH) with true. cbn [andb]. destruct (ceq_spec last_char SLASH) as [->|Hl].
    + apply IH.
    + cbn [unix_path]. rewrite IH, (ceq_neq last_char) by done. done.
  - destruct (ceq_spec c SLASH) as [->|Hs], (ceq_spec last_char SLASH) as [->|Hl]; cbn [andb];
      [apply IH|..]; cbn [unix_path]; rewrite IH; rewrite ?(ceq_neq c), ?(ceq_neq last_char) by done;
      by rewrite ?andb_false_r.
Qed.

Lemma convert_id last_char path : unix_path last_char path = true →
  convert BSLASH SLASH last_char path = path.
Proof.
  revert last_char; induction path as [|c path IH]; intros last_char; [done|].
  cbn [unix_path convert]. rewrite !andb_true_iff, !negb_true_iff. intros [[Hb Hs] Hp].
  rewrite Hb, andb_comm, Hs. by rewrite IH.
Qed.

Definition is_slash (c : ascii) : bool := (c =c SLASH) || (c =c BSLASH).

Lemma convert_filter last_char path :
  List.filter (λ c, negb (is_slash c)) (convert BSLASH SLASH last_char path)
  = List.filter (λ c, negb (is_slash c)) path.
Proof.
  revert last_char; induction path as [|c path IH]; intros last_char; [done|]. cbn [convert].
  destruct (ceq_spec c BSLASH) as [->|Hb].
  - change (SLASH =c SLASH) with true. cbn [andb]. destruct (last_char =c SLASH); simpl; apply IH.
  - destruct (ceq_spec c SLASH) as [->|Hs]; cbn [andb];
      [destruct (last_char =c SLASH); simpl; apply IH|].
    simpl. unfold is_slash. rewrite !ceq_neq by done. simpl. f_equal. apply IH.
Qed.

(** [ToUnixPath] gives a path with no backslash and no two slashes side by side, keeps every
    other character in its order, and changes nothing when it is applied again. *)
Theorem ToUnixPath_normal path :
  unix_path NUL (ToUnixPath path) = true ∧
  List.filter (λ c, negb (is_slash c)) (ToUnixPath path)
  = List.filter (λ c, negb (is_slash c)) path ∧
  ToUnixPath (ToUnixPath path) = ToUnixPath path.
Proof.
  rewrite !ToUnixPath_convert. split; [apply convert_unix|]. split; [apply convert_filter|].
  apply convert_id, convert_unix.
Qed.
