(* ===== verification/Log.v ===== *)
(** * Log.cpp, Log.hpp: the log of the library.

    [LogState] is the static members of [Log] with the two places a line can go to, the standard
    output and the files; a [Log] is the object of one statement.  What a statement finds outside
    the program, the time and whether [fopen] succeeds, is a [Moment].  On Windows the constructor of a
    [Log] changes the mode of the console and its destructor changes it back: [Console]; elsewhere
    the two do nothing. *)
From S2P Require Import Prelude.
From S2P Require Import CJson.
From S2P Require Import StringUtils.
Local Open Scope Z_scope.

Module Log.

(** [eLogVerbosity] *)
Definition System : Z := -1.
Definition Error : Z := 0.
Definition Warning : Z := 1.
Definition Info : Z := 2.
Definition Dbg : Z := 3.
Definition Developer : Z := 4.

Record LogState := mkLogState {
  m_verbosity : Z;
  m_logfile : text;
  m_useStdout : bool;
  stdout : text;
  files : gmap text text;
}.

#[export] Instance LogState_settable : Settable LogState :=
  rebuild mkLogState <@> m_verbosity <@> m_logfile <@> m_useStdout <@> stdout <@> files.

(** The initial values. *)
Definition log_start : LogState := mkLogState Error [] false [] ∅.

Record Log := mkLog { m_requestedLogLevel : Z; m_buffer : text }.

#[export] Instance Log_settable : Settable Log :=
  rebuild mkLog <@> m_requestedLogLevel <@> m_buffer.

(** The text of [ctime(&now)], and whether [fopen(m_logfile, "a+")] returns a file. *)
Record Moment := mkMoment { ctime : text; fopen_succeeds : bool }.

(** ** The prefix *)

Definition ESC : ascii := "027"%char.
Definition GREEN : text := ESC :: "[32m".
Definition RED : text := ESC :: "[31m".
Definition YELLOW : text := ESC :: "[93m".
Definition CYAN : text := ESC :: "[96m".
Definition WHITE : text := ESC :: "[37m".
Definition COLOUR_END : text := ESC :: "[0m".

Definition GetColour (verbo : Z) (g : LogState) : text :=
  if negb (m_useStdout g) then []
  else if verbo =? Info then GREEN
  else if verbo =? System then CYAN
  else if verbo =? Error then RED
  else if verbo =? Warning then YELLOW
  else if verbo =? Dbg then CYAN
  else WHITE.

Definition GetColourEnd (g : LogState) : text :=
  if negb (m_useStdout g) then [] else COLOUR_END.

Definition level_name (verbosity : Z) : option text :=
  if verbosity =? Info then Some (lit " [ INFO ]")
  else if verbosity =? System then Some (lit " [ SYSTEM ]")
  else if verbosity =? Error then Some (lit " [ ERROR ]")
  else if verbosity =? Warning then Some (lit " [ WARNING ]")
  else if verbosity =? Dbg then Some (lit " [ DEBUG ]")
  else if verbosity =? Developer then Some (lit " [ TRACE ]")
  else None.

Definition Prefix (now : Moment) (verbosity : Z) (g : LogState) : text :=
  if verbosity <=? m_verbosity g then
    let timeString := wx_Trim (ctime now) in
    let prefix :=
      match level_name verbosity with
      | Some name =>
          "[" ++ timeString ++ "] " ++ GetColour verbosity g ++ name ++ GetColourEnd g
      | None => []
      end in
    prefix ++ " "
  else [].

(** ** The operations of a [Log] *)

(** [Append(elem, level)], and [operator<<] with the level of the object. *)
Definition Append (elem : text) (level : Z) (l : Log) (g : LogState) : Log :=
  if m_verbosity g <? level then l
  else
    let l := if negb (m_buffer l =t []) then l <| m_buffer := m_buffer l ++ " " |> else l in
    l <| m_buffer := m_buffer l ++ elem |>.

Definition put (elem : text) (l : Log) (g : LogState) : Log :=
  Append elem (m_requestedLogLevel l) l g.

(** [Append] of a vector: the argument [level] is not used. *)
Definition Append_vector (arr : list text) (level : Z) (l : Log) (g : LogState) : Log :=
  match arr with
  | [] => l
  | _ =>
      let str := "[" ++ concat (map (λ s, s ++ ", ") arr) in
      let str := RemoveLast 1 str in
      let str := RemoveLast 1 str in
      let str := str ++ "]" in
      Append str (m_requestedLogLevel l) l g
  end.

Definition AddLogLine (now : Moment) (msg : text) (verbosity : Z) (l : Log) (g : LogState) : Log :=
  if msg =t [] then l
  else if verbosity <=? m_verbosity g then
    let formattedMsg := Prefix now verbosity g in
    let l := l <| m_buffer := m_buffer l ++ formattedMsg ++ " " ++ msg |> in
    l <| m_buffer := m_buffer l ++ [LF] |>
  else l.

(** [wxFprintf(m_fp, "%s\n", m_buffer)]; [m_fp] is null before and after. *)
Definition Flush (now : Moment) (l : Log) (g : LogState) : Log * LogState :=
  if m_buffer l =t [] then (l, g)
  else
    let line := c_str (m_buffer l) ++ [LF] in
    let g :=
      if m_useStdout g then g <| stdout := stdout g ++ line |>
      else if fopen_succeeds now then
        g <| files := <[m_logfile g := default [] (files g !! m_logfile g) ++ line]> (files g) |>
      else g in
    (l <| m_buffer := [] |>, g).

(** [LOG_...() << elems]: the object is made, the prefix and the values are written to it, and its
    destructor flushes it. *)
Definition put_all (elems : list text) (l : Log) (g : LogState) : Log :=
  foldl (λ l elem, put elem l g) l elems.

Definition LOG (now : Moment) (level : Z) (elems : list text) (g : LogState) : LogState :=
  let l := mkLog level [] in
  let l := put (Prefix now level g) l g in
  let l := put_all elems l g in
  (Flush now l g).2.

(** ** The verbosity *)

Definition GetVerbosityAsNumber (verbosity : text) : Z :=
  if verbosity =t "Debug" then Dbg
  else if verbosity =t "Error" then Error
  else if verbosity =t "Warning" then Warning
  else if verbosity =t "System" then System
  else if verbosity =t "Developer" then Developer
  else if verbosity =t "Info" then Info
  else Error.

Definition GetVerbosityAsString (verbosity : Z) : text :=
  if verbosity =? Dbg then "Debug"
  else if verbosity =? Error then "Error"
  else if verbosity =? Warning then "Warning"
  else if verbosity =? Developer then "Developer"
  else if verbosity =? Info then "Info"
  else "Error".

Definition SetVerbosity (now : Moment) (level : Z) (g : LogState) : LogState :=
  let g := if Warning <? level then LOG now System [GetVerbosityAsString level; []] g else g in
  g <| m_verbosity := level |>.

Definition SetVerbosity_name (now : Moment) (verbosity : text) (g : LogState) : LogState :=
  SetVerbosity now (GetVerbosityAsNumber verbosity) g.

Definition OpenLog (fullpath : text) (verbosity : Z) (g : LogState) : LogState :=
  g <| m_logfile := fullpath |> <| m_verbosity := verbosity |> <| m_useStdout := false |>.

Definition OpenStdout (verbosity : Z) (g : LogState) : LogState :=
  g <| m_logfile := [] |> <| m_useStdout := true |> <| m_verbosity := verbosity |>.

(** ** What is written *)

(** The place the lines go to. *)
Definition written (g : LogState) : text :=
  if m_useStdout g then stdout g else default [] (files g !! m_logfile g).

(** The state with [line] written to that place. *)
Definition write (line : text) (g : LogState) : LogState :=
  if m_useStdout g then g <| stdout := stdout g ++ line |>
  else g <| files := <[m_logfile g := default [] (files g !! m_logfile g) ++ line]> (files g) |>.

Definition line_of (now : Moment) (level : Z) (elems : list text) (g : LogState) : text :=
  c_str (Prefix now level g ++ concat (map (λ e, " " ++ e) elems)) ++ [LF].

(** The statement writes. *)
Definition enabled (now : Moment) (level : Z) (g : LogState) : bool :=
  (level <=? m_verbosity g) && (m_useStdout g || fopen_succeeds now).

Lemma put_all_enabled elems level b g : level ≤ m_verbosity g → b ≠ [] →
  put_all elems (mkLog level b) g = mkLog level (b ++ concat (map (λ e, " " ++ e) elems)).
Proof.
  intros Hl. revert b. induction elems as [|e elems IH]; intros b Hb; simpl.
  { by rewrite app_nil_r. }
  change (put_all elems (put e (mkLog level b) g) g
          = mkLog level (b ++ (" " ++ e) ++ concat (map (λ e, " " ++ e) elems))).
  unfold put, Append. cbn [m_requestedLogLevel m_buffer].
  destruct (Z.ltb_spec (m_verbosity g) level); [lia|].
  destruct (teq_spec b []); [done|]. change (put_all elems (mkLog level ((b ++ " ") ++ e)) g
    = mkLog level (b ++ (" " ++ e) ++ concat (map (λ e, " " ++ e) elems))).
  rewrite IH by by destruct b. by rewrite <- !app_assoc.
Qed.

Lemma put_all_disabled elems level g : m_verbosity g < level →
  put_all elems (mkLog level []) g = mkLog level [].
Proof.
  intros Hl. induction elems as [|e elems IH]; [done|].
  change (put_all elems (put e (mkLog level []) g) g = mkLog level []).
  unfold put, Append. cbn [m_requestedLogLevel].
  by destruct (Z.ltb_spec (m_verbosity g) level); [|lia].
Qed.

Lemma Prefix_nonempty now level g : level ≤ m_verbosity g → Prefix now level g ≠ [].
Proof.
  intros Hl. unfold Prefix. destruct (Z.leb_spec level (m_verbosity g)); [|lia].
  intros [_ [=]]%app_eq_nil.
Qed.

(** A statement writes one line, or does nothing. *)
Lemma LOG_spec now level elems g :
  LOG now level elems g
  = (if enabled now level g then write (line_of now level elems g) g else g).
Proof.
  unfold LOG, enabled. unfold put at 1. unfold Append. cbv zeta. cbn [m_requestedLogLevel m_buffer].
  destruct (Z.leb_spec level (m_verbosity g)) as [Hl|Hl];
    (destruct (Z.ltb_spec (m_verbosity g) level); try lia).
  - change (_ <| m_buffer := _ |>) with (mkLog level (Prefix now level g)).
    pose proof (Prefix_nonempty now level g Hl) as Hp.
    rewrite put_all_enabled by done. unfold Flush, write, line_of. cbn [m_buffer].
    destruct (teq_spec (Prefix now level g ++ concat (map (λ e, " " ++ e) elems)) []) as [E|_].
    { by apply app_eq_nil in E as [? _]. }
    by destruct (m_useStdout g), (fopen_succeeds now).
  - by rewrite put_all_disabled.
Qed.

(** What the statements do not change. *)
Definition same_settings (g g' : LogState) : Prop :=
  m_verbosity g' = m_verbosity g ∧ m_logfile g' = m_logfile g ∧ m_useStdout g' = m_useStdout g ∧
  (m_useStdout g = false → stdout g' = stdout g) ∧
  ∀ f, m_useStdout g = true ∨ f ≠ m_logfile g → files g' !! f = files g !! f.

Lemma write_same line g : same_settings g (write line g) ∧ written (write line g) = written g ++ line.
Proof.
  unfold same_settings, written, write. destruct (m_useStdout g) eqn:E; cbn; rewrite E;
    repeat split; try done.
  - intros f [[=]|Hf]. by rewrite lookup_insert_ne.
  - by rewrite lookup_insert_eq.
Qed.

Lemma same_settings_trans g1 g2 g3 :
  same_settings g1 g2 → same_settings g2 g3 → same_settings g1 g3.
Proof.
  intros (Hv & Hf & Hu & Hs & Hl) (Hv' & Hf' & Hu' & Hs' & Hl').
  repeat split; try congruence.
  - intros Hg. rewrite Hs', Hs; congruence.
  - intros f Hg. rewrite Hl', Hl; [done|done|]. rewrite Hu, Hf. done.
Qed.

Lemma line_of_same now level elems g g' : same_settings g g' →
  line_of now level elems g' = line_of now level elems g.
Proof.
  intros (Hv & _ & Hu & _). unfold line_of, Prefix, GetColour, GetColourEnd. by rewrite Hv, Hu.
Qed.

Lemma enabled_same now level g g' : same_settings g g' → enabled now level g' = enabled now level g.
Proof. intros (Hv & _ & Hu & _). unfold enabled. by rewrite Hv, Hu. Qed.

(** A statement of the program: when, at which level, what. *)
Abbreviation statement := (Moment * Z * list text)%type.

Definition run_log (l : list statement) (g : LogState) : LogState :=
  foldl (λ g '(now, level, elems), LOG now level elems g) g l.

(** The lines of the statements that are not filtered out. *)
Definition lines (l : list statement) (g : LogState) : text :=
  concat (map (λ '(now, level, elems),
    if enabled now level g then line_of now level elems g else []) l).

(** The log holds one line for every statement whose level the verbosity admits, in the order
    of the statements, and nothing else: a statement above the verbosity, or one that finds the
    file closed to it, leaves no trace, and no other file is touched. *)
Theorem log_in_order l g :
  written (run_log l g) = written g ++ lines l g ∧ same_settings g (run_log l g).
Proof.
  revert g. induction l as [|[[now level] elems] l IH]; intros g.
  { cbn. rewrite app_nil_r. done. }
  change (run_log ((now, level, elems) :: l) g) with (run_log l (LOG now level elems g)).
  unfold lines. cbn [map concat]. rewrite LOG_spec.
  destruct (enabled now level g) eqn:E; [|apply IH].
  destruct (write_same (line_of now level elems g) g) as [Hs Hw].
  destruct (IH (write (line_of now level elems g) g)) as [Hw' Hs'].
  split; [|by eapply same_settings_trans].
  rewrite Hw', Hw, <- app_assoc. do 2 f_equal. unfold lines. f_equal. apply map_ext.
  intros [[now' level'] elems']. by rewrite (enabled_same _ _ _ _ Hs), (line_of_same _ _ _ _ _ Hs).
Qed.

(** ** The console of Windows *)

Definition ENABLE_VIRTUAL_TERMINAL_PROCESSING : Z := 4.

(** The calls on the standard output: whether its handle is valid, the mode of the console, or
    none for an output that is not a console. *)
Class Console := {
  console : Type;
  stdout_valid : console → bool;
  GetConsoleMode : console → option Z;
  SetConsoleMode : Z → console → bool * console;
}.

Section ConsoleModes.
Context `{Console}.

(** Both keep the static [initMode] next to the console. *)
Definition SetupConsole (initMode : Z) (c : console) : Z * console :=
  if negb (stdout_valid c) then (initMode, c)
  else
    match GetConsoleMode c with
    | None => (initMode, c)
    | Some outMode =>
        let '(_, c) := SetConsoleMode (Z.lor outMode ENABLE_VIRTUAL_TERMINAL_PROCESSING) c in
        (outMode, c)
    end.

Definition ResetConsole (initMode : Z) (c : console) : Z * console :=
  if stdout_valid c then let '(_, c) := SetConsoleMode initMode c in (initMode, c) else (initMode, c).

(** A console takes the modes it is given. *)
Hypothesis mode_set : ∀ m c outMode, stdout_valid c = true → GetConsoleMode c = Some outMode →
  let c' := (SetConsoleMode m c).2 in stdout_valid c' = true ∧ GetConsoleMode c' = Some m.

Lemma SetupConsole_mode initMode c m : stdout_valid c = true → GetConsoleMode c = Some m →
  let '(i, c') := SetupConsole initMode c in
  i = m ∧ stdout_valid c' = true ∧ GetConsoleMode c' = Some (Z.lor m ENABLE_VIRTUAL_TERMINAL_PROCESSING).
Proof.
  intros Hc Hm. unfold SetupConsole. rewrite Hc, Hm. cbn [negb].
  destruct (mode_set (Z.lor m ENABLE_VIRTUAL_TERMINAL_PROCESSING) c m Hc Hm) as [Hc' Hm'].
  by destruct (SetConsoleMode _ c).
Qed.

Lemma ResetConsole_mode initMode c m : stdout_valid c = true → GetConsoleMode c = Some m →
  let '(i, c') := ResetConsole initMode c in
  i = initMode ∧ stdout_valid c' = true ∧ GetConsoleMode c' = Some initMode.
Proof.
  intros Hc Hm. unfold ResetConsole. rewrite Hc.
  destruct (mode_set initMode c m Hc Hm) as [Hc' Hm']. by destruct (SetConsoleMode _ c).
Qed.

(** A statement gives the console its mode back.  One that is run while another is built, by a
    function that logs and whose value is logged, makes the outer one take the mode with escape
    codes for the first mode, and leave it. *)
Lemma console_restored initMode c m : stdout_valid c = true → GetConsoleMode c = Some m →
  (let '(i, c) := SetupConsole initMode c in let '(_, c) := ResetConsole i c in
   GetConsoleMode c = Some m) ∧
  (let '(i, c) := SetupConsole initMode c in
   let '(i, c) := SetupConsole i c in let '(i, c) := ResetConsole i c in
   let '(i, c) := ResetConsole i c in
   GetConsoleMode c = Some (Z.lor m ENABLE_VIRTUAL_TERMINAL_PROCESSING)).
Proof.
  intros Hc Hm. pose proof (SetupConsole_mode initMode c m Hc Hm) as H1'.
  destruct (SetupConsole initMode c) as [i1 c1]. destruct H1' as (-> & Hc1 & Hm1). split.
  - pose proof (ResetConsole_mode m c1 _ Hc1 Hm1) as H2'. destruct (ResetConsole m c1). by destruct H2' as (_ & _ & ?).
  - pose proof (SetupConsole_mode m c1 _ Hc1 Hm1) as H2'.
    destruct (SetupConsole m c1) as [i2 c2]. destruct H2' as (-> & Hc2 & Hm2).
    pose proof (ResetConsole_mode (Z.lor m ENABLE_VIRTUAL_TERMINAL_PROCESSING) c2 _ Hc2 Hm2) as H3'.
    destruct (ResetConsole _ c2) as [i3 c3]. destruct H3' as (-> & Hc3 & Hm3).
    pose proof (ResetConsole_mode (Z.lor m ENABLE_VIRTUAL_TERMINAL_PROCESSING) c3 _ Hc3 Hm3) as H4'.
    destruct (ResetConsole _ c3). by destruct H4' as (_ & _ & ?).
Qed.
End ConsoleModes.

(** ** The names of the levels *)

Definition log_level (v : Z) : Prop := System ≤ v ≤ Developer.

(** The name of a level denotes it, except for [System], whose name is that of [Error]: a log set
    by name to [System] and written back as a name reports errors. *)
Lemma verbosity_name v : log_level v →
  GetVerbosityAsNumber (GetVerbosityAsString v) = (if v =? System then Error else v).
Proof.
  unfold log_level, System, Developer. intros Hv.
  assert (v ∈ [-1; 0; 1; 2; 3; 4]) as Hin by set_solver by lia.
  repeat (apply elem_of_cons in Hin as [->|Hin]; [reflexivity|]). by apply elem_of_nil in Hin.
Qed.

(** [SetVerbosity] announces a level above [Warning], under the verbosity that was set before. *)
Lemma SetVerbosity_spec now level g :
  SetVerbosity now level g
  = (if (Warning <? level) && enabled now System g
     then write (line_of now System [GetVerbosityAsString level; []] g) g else g)
    <| m_verbosity := level |>.
Proof. unfold SetVerbosity. rewrite LOG_spec. by destruct (Warning <? level), (enabled _ _ _). Qed.
End Log.
