(* ===== verification/JsonRPC.v ===== *)
(** * JsonRPC.cpp, JsonRPC.hpp: framing messages and cutting them out of the byte stream.

    The buffer is the [m_buffer] of the object.  A header section of 2 GiB or more, which does
    not fit the [int] that [ReadHeaders] returns, is outside the model ([Undef]), as is what
    the C library leaves undefined: [atol] of a number that is not a [long], and the signed
    overflow of [headerSize + msglen]. *)
From S2P Require Import Prelude.
From S2P Require Import Double.
From S2P Require Import CJson.
From S2P Require Import CJsonParse.
From S2P Require Import CJsonRoundTrip.
From S2P Require Import Json.
From S2P Require Import StringUtils.
Local Open Scope Z_scope.

(** What is thrown: [dap::Exception] with its text. *)
Inductive exception : Type := Exception (what : text).

(** [str.find(pat)]. *)
Fixpoint find_text (pat str : text) : option nat :=
  if starts_with pat str then Some 0%nat
  else match str with
       | [] => None
       | _ :: r => S <$> find_text pat r
       end.

Definition SEPARATOR : text := [CR; LF; CR; LF].

(** ** [atol] *)

Fixpoint leading_digits (t : text) : text :=
  match t with
  | [] => []
  | c :: r => if is_digit c then c :: leading_digits r else []
  end.

Definition atol {Er} (t : text) : exec Er Z :=
  let t := drop_spaces (c_str t) in
  let '(neg, t) := if deref t =c "-" then (true, next t)
                   else if deref t =c "+" then (false, next t) else (false, t) in
  let v := digits_value 0 (leading_digits t) in
  let v := if neg : bool then - v else v in
  if is_long v then Ret v else Undef.

(** ** The buffer *)

(** The headers, the first of a name kept. *)
Definition add_header (headers : gmap text text) (header : text) : gmap text text :=
  let header := Trim header in
  let name := Trim (BeforeFirst header ":") in
  let value := Trim (AfterFirst header ":") in
  match headers !! name with Some _ => headers | None => <[name := value]> headers end.

(** The size of the header section with its separator, and the headers; [-1] when the
    section is not complete. *)
Definition ReadHeaders {Er} (m_buffer : text) : exec Er (Z * gmap text text) :=
  match find_text SEPARATOR m_buffer with
  | None => Ret (-1, ∅)
  | Some where_ =>
      let headerSection := take where_ m_buffer in
      let headers := foldl add_header ∅ (Split headerSection [LF]) in
      let size := Z.of_nat where_ + 4 in
      if is_int size then Ret (size, headers) else Undef
  end.

(** An object whose state holds a [JsonRPC] as a member. *)
Class Buffered (St : Type) := {
  get_buffer : St → text;
  set_buffer : text → St → St;
  get_set_buffer b s : get_buffer (set_buffer b s) = b;
  set_set_buffer b b' s : set_buffer b (set_buffer b' s) = set_buffer b s;
  set_get_buffer s : set_buffer (get_buffer s) s = s;
}.

Definition AppendBuffer (buffer m_buffer : text) : text := m_buffer ++ buffer.

Section Buffer.
Context `{Platform}.

Definition parse_payload {Er} (payload : text) : exec Er Json :=
  match Parse payload with
  | Ret j => Ret j
  | Err _ => Ret None
  | Undef => Undef
  | NoFuel => NoFuel
  end.

(** The message and the buffer that is left. *)
Definition DoProcessBuffer {Er} (m_buffer : text) : exec Er (Json * text) :=
  if m_buffer is [] then Ret (None, m_buffer)
  else
    let* (headerSize, headers) := ReadHeaders m_buffer in
    if headerSize =? -1 then Ret (None, m_buffer)
    else
      match headers !! lit "Content-Length" with
      | None => Ret (None, take (Z.to_nat headerSize) m_buffer)
      | Some contentLength =>
          let* msglen := atol contentLength in
          if msglen <=? 0 then Ret (None, m_buffer)
          else
            let buflen := Z.of_nat (length m_buffer) in
            if negb (is_long (headerSize + msglen)) then Undef
            else if buflen <? headerSize + msglen then Ret (None, m_buffer)
            else
              let payload := take (Z.to_nat msglen) (drop (Z.to_nat headerSize) m_buffer) in
              let m_buffer := drop (Z.to_nat (headerSize + msglen)) m_buffer in
              let* json := parse_payload payload in
              Ret (json, m_buffer)
      end.

(** [ProcessBuffer] of an object that holds the buffer: [St] is the state of the program, which
    the callback changes.  Every iteration that calls back removes a message. *)
Section Process.
Context {Er St : Type} `{Buffered St} (callback : Json → St → exec Er St).

Fixpoint ProcessBuffer (fuel : nat) (s : St) : exec Er St :=
  match fuel with
  | O => NoFuel
  | S f =>
      let* (json, m_buffer) := DoProcessBuffer (get_buffer s) in
      let s := set_buffer m_buffer s in
      if IsOK json then
        let* s := callback json s in
        ProcessBuffer f s
      else Ret s
  end.

(** What the callback and the buffer leave true stays true. *)
Lemma ProcessBuffer_preserves (P : St → Prop) fuel s s' :
  (∀ b s, P s → P (set_buffer b s)) → (∀ j s s', P s → callback j s = Ret s' → P s') →
  P s → ProcessBuffer fuel s = Ret s' → P s'.
Proof.
  intros Hb Hc. revert s. induction fuel as [|f IH]; intros s Hs; [done|]. cbn [ProcessBuffer].
  destruct (DoProcessBuffer (get_buffer s)) as [[j b]| | |]; simpl; try done.
  destruct (IsOK j); [|by intros [= <-]; apply Hb].
  intros (s1 & H1 & Hr)%exec_bind_Ret. eapply IH; [|done]. eapply Hc; [|done]. by apply Hb.
Qed.

(** A chunk of the stream arrives: it is appended and the buffer is processed.  Every iteration
    that calls back removes at least a byte, so the length of the buffer is fuel enough. *)
Definition receive (chunk : text) (s : St) : exec Er St :=
  let s := set_buffer (AppendBuffer chunk (get_buffer s)) s in
  ProcessBuffer (S (length (get_buffer s))) s.

Fixpoint receive_all (chunks : list text) (s : St) : exec Er St :=
  match chunks with
  | [] => Ret s
  | chunk :: chunks => let* s := receive chunk s in receive_all chunks s
  end.

(** What the stream means: the callback on each message, in the order they were sent. *)
Fixpoint deliver (messages : list Json) (s : St) : exec Er St :=
  match messages with
  | [] => Ret s
  | json :: messages => let* s := callback json s in deliver messages s
  end.
End Process.

(** The text [Send] gives to the transport. *)
Definition frame (payload : text) : text :=
  "Content-Length: " ++ dec (Z.of_nat (length payload)) ++ SEPARATOR ++ payload.
End Buffer.

(** ** Lemmas *)

Lemma find_text_header hd p : CR ∉ hd → find_text SEPARATOR (hd ++ SEPARATOR ++ p) = Some (length hd).
Proof.
  induction hd as [|c hd IH]; intros Hc; [done|].
  apply not_elem_of_cons in Hc as [Hne Hc]. cbn [find_text app].
  change (starts_with SEPARATOR (c :: hd ++ SEPARATOR ++ p))
    with ((CR =c c) && starts_with [LF; CR; LF] (hd ++ SEPARATOR ++ p)).
  rewrite ceq_neq by done. cbn [andb length]. by rewrite IH.
Qed.

(** A part of a header section has no separator. *)
Lemma find_text_partial hd x y : CR ∉ hd → x ++ y = hd ++ SEPARATOR → y ≠ [] →
  find_text SEPARATOR x = None.
Proof.
  revert x; induction hd as [|c hd IH]; intros x Hc Hxy Hy.
  - assert (length x < 4)%nat as Hl.
    { apply (f_equal length) in Hxy. rewrite length_app in Hxy. destruct y; simpl in *; [done|lia]. }
    destruct x as [|x1 [|x2 [|x3 [|x4 x]]]]; simpl in Hl; [..|lia];
      simpl in Hxy; unfold SEPARATOR in Hxy; repeat (injection Hxy as ? Hxy); subst; reflexivity.
  - apply not_elem_of_cons in Hc as [Hne Hc]. destruct x as [|c' x]; [done|].
    simpl in Hxy. injection Hxy as -> Hxy. cbn [find_text].
    change (starts_with SEPARATOR (c :: x)) with ((CR =c c) && starts_with [LF; CR; LF] x).
    rewrite ceq_neq by done. cbn [andb]. by rewrite (IH x).
Qed.

Lemma leading_digits_id l : forallb is_digit l = true → leading_digits l = l.
Proof.
  induction l as [|c l IH]; [done|]. simpl. intros [-> Hl]%andb_true_iff. by rewrite IH.
Qed.

Lemma digit_not c d : is_digit c = true → is_digit d = false → c ≠ d.
Proof. intros Hc Hd ->. congruence. Qed.

Lemma atol_dec {Er} n : 0 ≤ n → is_long n = true → atol (Er := Er) (dec n) = Ret n.
Proof.
  intros Hn Hl. assert (dec n = dec_nat n) as ->.
  { unfold dec. by destruct (Z.ltb_spec n 0); [lia|]. }
  pose proof (dec_nat_is_digit n Hn) as Hd. pose proof (dec_nat_value n Hn) as Hv.
  destruct (dec_nat n) as [|c l] eqn:Ed; [by rewrite <- Hv in *|].
  assert (no_nul (c :: l) = true) as Hnul by (by apply no_nul_digits).
  unfold atol. rewrite c_str_id by done. simpl in Hd. apply andb_true_iff in Hd as [Hc Hd].
  assert (is_space_c c = false) as Hsp.
  { unfold is_space_c, is_digit in *. destruct (ceq_spec c " ") as [->|]; [done|]. lia. }
  cbn [drop_spaces]. rewrite Hsp. cbn [deref].
  rewrite !ceq_neq by (by apply digit_not). cbn [leading_digits]. rewrite Hc.
  rewrite leading_digits_id by done. rewrite Hv, Hl. done.
Qed.

(** The header section that [frame] writes. *)
Definition header (n : nat) : text := "Content-Length: " ++ dec (Z.of_nat n).

Lemma frame_header payload : frame payload = header (length payload) ++ SEPARATOR ++ payload.
Proof. unfold frame, header. by rewrite <- !app_assoc. Qed.

Lemma dec_of_nat n : dec (Z.of_nat n) = dec_nat (Z.of_nat n).
Proof. unfold dec. by destruct (Z.ltb_spec (Z.of_nat n) 0); [lia|]. Qed.

Lemma elem_of_digits c l : forallb is_digit l = true → c ∈ l → is_digit c = true.
Proof.
  intros Hl. rewrite forallb_forall in Hl. rewrite list_elem_of_In. apply Hl.
Qed.

Lemma CR_header n : CR ∉ header n.
Proof.
  unfold header. rewrite dec_of_nat. intros [Hc|Hc]%elem_of_app.
  - vm_compute in Hc. set_solver.
  - apply elem_of_digits in Hc; [done|]. apply dec_nat_is_digit. lia.
Qed.

Lemma LF_header n : LF ∉ header n.
Proof.
  unfold header. rewrite dec_of_nat. intros [Hc|Hc]%elem_of_app.
  - vm_compute in Hc. set_solver.
  - apply elem_of_digits in Hc; [done|]. apply dec_nat_is_digit. lia.
Qed.

(** One token: no byte of the text is a delimiter. *)
Lemma strtok_single delims t cur : Forall (λ c, existsb (ceq c) delims = false) t →
  reverse cur ++ t ≠ [] → strtok_loop delims t cur = [reverse cur ++ t].
Proof.
  revert cur; induction t as [|c t IH]; intros cur Ht Hne; simpl.
  - rewrite app_nil_r in *. destruct cur; [done|]. done.
  - inversion Ht as [|? ? Hc Hts]; subst. rewrite Hc, IH; [|done|].
    + by rewrite reverse_cons, <- app_assoc.
    + rewrite reverse_cons, <- app_assoc. by destruct (reverse cur).
Qed.

Lemma Split_single t d : t ≠ [] → d ∉ t → no_nul t = true → Trim t = t → Split t [d] = [t].
Proof.
  intros Hne Hd Hnul Ht. unfold Split. rewrite c_str_id by done.
  assert (Forall (λ c, existsb (ceq c) [d] = false) t) as Hf.
  { rewrite Forall_forall. intros c Hc. simpl.
    rewrite ceq_neq; [done|]. intros ->. by apply Hd, list_elem_of_In. }
  rewrite (strtok_single [d] t []) by done. change (reverse [] ++ t) with t. simpl.
  rewrite Ht, filter_cons_True by done. done.
Qed.

Lemma last_digit_not_blank a l : l ≠ [] → forallb is_digit l = true →
  is_blank (deref (reverse (a ++ l))) = false.
Proof.
  intros Hne Hl. rewrite reverse_app. rewrite deref_app.
  2: { intros E. apply (f_equal length) in E. rewrite length_reverse in E. by destruct l. }
  destruct (reverse l) as [|c r] eqn:E; [done|]. simpl.
  assert (is_digit c = true) as Hc.
  { apply (elem_of_digits c l Hl). apply elem_of_reverse. rewrite E. apply elem_of_cons. auto. }
  unfold is_blank. rewrite !ceq_neq by (by apply digit_not). done.
Qed.

Lemma dec_of_nat_digits n : forallb is_digit (dec (Z.of_nat n)) = true.
Proof. rewrite dec_of_nat. apply dec_nat_is_digit. lia. Qed.

Lemma dec_of_nat_nonempty n : dec (Z.of_nat n) ≠ [].
Proof.
  intros E. pose proof (dec_nat_value (Z.of_nat n)) as Hv. rewrite <- dec_of_nat, E in Hv.
  unfold digits_value in Hv. simpl in Hv. destruct n; [|lia]. by vm_compute in E.
Qed.

Lemma Trim_header n : Trim (header n) = header n.
Proof.
  apply Trim_id; [done|]. apply last_digit_not_blank;
    [apply dec_of_nat_nonempty|apply dec_of_nat_digits].
Qed.

Lemma Trim_number n : Trim (" " ++ dec (Z.of_nat n)) = dec (Z.of_nat n).
Proof.
  unfold Trim.
  change (drop_blanks (" " ++ dec (Z.of_nat n))) with (drop_blanks (dec (Z.of_nat n))).
  assert (is_blank (deref (dec (Z.of_nat n))) = false) as Hb.
  { pose proof (dec_of_nat_digits n) as Hd. pose proof (dec_of_nat_nonempty n) as Hne.
    destruct (dec (Z.of_nat n)) as [|c l]; [done|]. simpl in *.
    apply andb_true_iff in Hd as [Hc _].
    unfold is_blank. rewrite !ceq_neq by (by apply digit_not). done. }
  apply Trim_id; [done|]. apply (last_digit_not_blank []);
    [apply dec_of_nat_nonempty|apply dec_of_nat_digits].
Qed.

Lemma ReadHeaders_frame {Er} n p : is_int (Z.of_nat n) = true →
  ReadHeaders (Er := Er) (header n ++ SEPARATOR ++ p)
  = Ret (Z.of_nat (length (header n)) + 4, {[ lit "Content-Length" := dec (Z.of_nat n) ]}).
Proof.
  intros Hn. unfold ReadHeaders. rewrite find_text_header by apply CR_header.
  rewrite take_app_length, Split_single.
  - simpl foldl. unfold add_header. rewrite Trim_header.
    unfold header. change ("Content-Length: " ++ ?x) with ("Content-Length" ++ ":"%char :: " " ++ x).
    rewrite BeforeFirst_app, AfterFirst_app by (vm_compute; set_solver).
    rewrite Trim_number. change (Trim "Content-Length") with (lit "Content-Length").
    rewrite lookup_empty.
    assert (is_int (Z.of_nat (length ("Content-Length" ++ ":"%char :: " " ++ dec (Z.of_nat n))) + 4)
            = true) as ->; [|done].
    pose proof (length_dec_int _ Hn) as Hl. apply is_int_spec.
    rewrite length_app. cbn [length app lit list_ascii_of_string]. unfold INT_MIN, INT_MAX. lia.
  - done.
  - apply LF_header.
  - unfold header. rewrite no_nul_app, no_nul_dec. done.
  - apply Trim_header.
Qed.

(** ** The stream *)

(** A callback that, when it returns, has neither read nor written the buffer. *)
Definition transparent {Er St} `{Buffered St} (callback : Json → St → exec Er St) : Prop :=
  ∀ json b s s', callback json s = Ret s' → callback json (set_buffer b s) = Ret (set_buffer b s').

Definition frame_ok (p : text) : Prop := p ≠ [] ∧ is_int (Z.of_nat (length p)) = true.

Section Stream.
Context `{Platform} {Er : Type}.

Lemma length_frame p : length (frame p) = (length (header (length p)) + 4 + length p)%nat.
Proof. rewrite frame_header, !length_app. simpl. lia. Qed.

Lemma frame_long p : frame_ok p →
  is_long (Z.of_nat (length (header (length p))) + 4 + Z.of_nat (length p)) = true.
Proof.
  intros [_ Hi]. pose proof (length_dec_int _ Hi) as Hl. apply is_int_spec in Hi.
  apply is_long_spec. unfold LONG_MIN, LONG_MAX, INT_MIN, INT_MAX in *.
  assert (length (header (length p)) = 16 + length (dec (Z.of_nat (length p))))%nat as ->; [|lia].
  unfold header. by rewrite length_app.
Qed.

Lemma frame_positive p : frame_ok p → (Z.of_nat (length p) <=? 0) = false.
Proof. intros [Hne _]. destruct p; [done|]. apply Z.leb_gt. simpl length. lia. Qed.

(** A complete message is cut out of the buffer. *)
Lemma DoProcessBuffer_frame p rest : frame_ok p →
  DoProcessBuffer (Er := Er) (frame p ++ rest) = (let* j := parse_payload p in Ret (j, rest)).
Proof.
  intros Hok. pose proof Hok as [Hne Hi]. rewrite frame_header, <- !app_assoc.
  unfold DoProcessBuffer. rewrite ReadHeaders_frame by done.
  assert (header (length p) ++ SEPARATOR ++ p ++ rest ≠ []) as Hn by done.
  destruct (header (length p) ++ SEPARATOR ++ p ++ rest) as [|c0 b0] eqn:Eb; [done|].
  rewrite <- Eb. clear Hn Eb c0 b0. cbn [exec_bind].
  destruct (Z.eqb_spec (Z.of_nat (length (header (length p))) + 4) (-1)); [lia|].
  rewrite lookup_singleton_eq. rewrite atol_dec; [|lia|].
  2: { apply is_int_spec in Hi. unfold is_long, LONG_MIN, LONG_MAX, INT_MIN, INT_MAX in *. lia. }
  cbn [exec_bind].
  rewrite frame_positive by done.
  rewrite frame_long by done. cbn [negb]. rewrite !length_app.
  match goal with |- context [if (?a <? ?b) then _ else _] => destruct (Z.ltb_spec a b) as [Hlt|_] end;
    [simpl in Hlt; lia|].
  set (h := header (length p)) in *. rewrite app_assoc.
  replace (Z.to_nat (Z.of_nat (length h) + 4)) with (length (h ++ SEPARATOR))
    by (rewrite length_app; simpl; lia).
  replace (Z.to_nat (Z.of_nat (length h) + 4 + Z.of_nat (length p)))
    with (length (h ++ SEPARATOR) + length p)%nat by (rewrite length_app; simpl; lia).
  rewrite Nat2Z.id, drop_app_length, take_app_length.
  rewrite <- drop_drop, drop_app_length, drop_app_length. done.
Qed.

(** A part of a message is left in the buffer. *)
Lemma DoProcessBuffer_partial p x y : frame_ok p → x ++ y = frame p → y ≠ [] →
  DoProcessBuffer (Er := Er) x = Ret (None, x).
Proof.
  intros Hok Hxy Hy. pose proof Hok as [Hne Hi]. rewrite frame_header in Hxy.
  unfold DoProcessBuffer. destruct x as [|c x]; [done|]. set (b := c :: x) in *.
  set (h := header (length p)) in *.
  destruct (decide (length b < length (h ++ SEPARATOR))%nat) as [Hlt|Hge].
  - assert (ReadHeaders (Er := Er) b = Ret (-1, ∅)) as ->; [|done].
    unfold ReadHeaders. rewrite (find_text_partial h b (drop (length b) (h ++ SEPARATOR))); [done| | |].
    + apply CR_header.
    + assert (b = take (length b) (h ++ SEPARATOR)) as Hb; [|rewrite Hb at 1; apply take_drop].
      rewrite (app_assoc h SEPARATOR p) in Hxy. apply (f_equal (take (length b))) in Hxy.
      rewrite take_app_length in Hxy. rewrite take_app_le in Hxy by lia. done.
    + intros E. apply (f_equal length) in E. rewrite length_drop in E. cbn [length] in E. clear - E Hlt. lia.
  - assert (∃ q, b = h ++ SEPARATOR ++ q ∧ p = q ++ y) as (q & Hb & Hp).
    { exists (drop (length (h ++ SEPARATOR)) b).
      rewrite (app_assoc h SEPARATOR p) in Hxy.
      assert (b = (h ++ SEPARATOR) ++ drop (length (h ++ SEPARATOR)) b) as Eb.
      { rewrite <- (take_drop (length (h ++ SEPARATOR)) b) at 1. f_equal.
        apply (f_equal (take (length (h ++ SEPARATOR)))) in Hxy.
        rewrite take_app_length, take_app_le in Hxy by lia. done. }
      split; [by rewrite app_assoc|].
      rewrite Eb, <- app_assoc in Hxy. by apply app_inv_head in Hxy. }
    clearbody b. subst b. unfold h. rewrite ReadHeaders_frame by done. cbn [exec_bind].
    destruct (Z.eqb_spec (Z.of_nat (length (header (length p))) + 4) (-1)); [lia|].
    rewrite lookup_singleton_eq. rewrite atol_dec; [|lia|].
    2: { apply is_int_spec in Hi. unfold is_long, LONG_MIN, LONG_MAX, INT_MIN, INT_MAX in *. lia. }
    cbn [exec_bind].
    rewrite frame_positive by done.
    rewrite frame_long by done. cbn [negb]. rewrite !length_app.
    match goal with |- context [if (?a <? ?b) then _ else _] => destruct (Z.ltb_spec a b) as [|Hl] end;
      [done|].
    exfalso. assert (length p = length q + length y)%nat as Hpl by (by rewrite Hp, length_app).
    assert (0 < length y)%nat by (destruct y; [done|simpl; lia]).
    change (length SEPARATOR) with 4%nat in Hl. lia.
Qed.

(** *** The callback on a stream *)
Context {St : Type} `{Buffered St} (callback : Json → St → exec Er St).

(** A payload the peer may send, with what it means. *)
Definition sendable (m : text * Json) : Prop :=
  frame_ok m.1 ∧ Parse m.1 = Ret m.2 ∧ IsOK m.2 = true.

(** The bytes on the wire. *)
Definition stream (ms : list (text * Json)) : text := concat (map (frame ∘ fst) ms).

(** The buffer between two chunks: a proper part of the next message. *)
Definition pending (b : text) (ms : list (text * Json)) : Prop :=
  match ms with
  | [] => b = []
  | m :: _ => ∃ y, y ≠ [] ∧ b ++ y = frame m.1
  end.

Lemma pending_nil ms : Forall sendable ms → pending [] ms.
Proof. intros Hms. destruct ms as [|m ms]; [done|]. exists (frame m.1). by split. Qed.

Lemma DoProcessBuffer_pending b ms : Forall sendable ms → pending b ms →
  DoProcessBuffer (Er := Er) b = Ret (None, b).
Proof.
  intros Hms Hb. destruct ms as [|m ms]; [by simpl in Hb; subst b|].
  destruct Hb as (y & Hy & Hb). inversion Hms as [|? ? [Hm _] _]; subst.
  by eapply DoProcessBuffer_partial.
Qed.

(** The end of [ProcessBuffer]. *)
Lemma ProcessBuffer_pending f b ms s : Forall sendable ms → pending b ms →
  ProcessBuffer callback (S f) (set_buffer b s) = Ret (set_buffer b s).
Proof.
  intros Hms Hb. simpl. rewrite get_set_buffer, (DoProcessBuffer_pending b ms) by done. simpl.
  by rewrite set_set_buffer.
Qed.

(** The buffer ends in the middle of the first message or goes beyond it. *)
Lemma split_frame b t m rest : b ++ t = frame m ++ rest →
  (∃ b', b = frame m ++ b' ∧ b' ++ t = rest) ∨ (∃ y, y ≠ [] ∧ b ++ y = frame m).
Proof.
  intros E. destruct (decide (length (frame m) ≤ length b)%nat) as [Hle|Hgt].
  - left. exists (drop (length (frame m)) b).
    assert (b = frame m ++ drop (length (frame m)) b) as Eb.
    { rewrite <- (take_drop (length (frame m)) b) at 1. f_equal.
      apply (f_equal (take (length (frame m)))) in E.
      by rewrite take_app_length, take_app_le in E by done. }
    split; [done|]. rewrite Eb, <- app_assoc in E. by apply app_inv_head in E.
  - right. exists (drop (length b) (frame m)).
    split.
    + intros E'. apply (f_equal length) in E'. rewrite length_drop in E'.
      change (length (@nil ascii)) with 0%nat in E'. lia.
    + rewrite <- (take_drop (length b) (frame m)) at 2. f_equal.
      apply (f_equal (take (length b))) in E.
      by rewrite take_app_length, take_app_le in E by lia.
Qed.

Hypothesis callback_transparent : transparent callback.

(** Processing the buffer delivers the messages it completes and leaves a part of the next. *)
Lemma ProcessBuffer_stream ms : ∀ fuel b t, Forall sendable ms → b ++ t = stream ms →
  (length b < fuel)%nat →
  ∃ done todo b', ms = done ++ todo ∧ pending b' todo ∧ b' ++ t = stream todo ∧
    ∀ s s', deliver callback (map snd done) s = Ret s' →
      ProcessBuffer callback fuel (set_buffer b s) = Ret (set_buffer b' s').
Proof.
  induction ms as [|m ms IH]; intros fuel b t Hms E Hf; (destruct fuel as [|f]; [lia|]).
  - apply app_eq_nil in E as [-> ->]. exists [], [], []. split_and!; [done..|].
    intros s s' [= <-]. by apply (ProcessBuffer_pending f [] []).
  - change (stream (m :: ms)) with (frame m.1 ++ stream ms) in E.
    destruct (split_frame _ _ _ _ E) as [(b' & -> & E')|Hy].
    + inversion Hms as [|? ? (Hok & Hp & Hj) Hms']; subst.
      destruct (IH f b' (t)) as (d & todo & b'' & -> & Hb & Et & Hd); [done|done| |].
      { rewrite length_app, length_frame in Hf. lia. }
      exists (m :: d), todo, b''. split_and!; [done..|]. intros s s' Hs.
      simpl in Hs. apply exec_bind_Ret in Hs as (s1 & Hs1 & Hs').
      cbn [ProcessBuffer]. rewrite get_set_buffer, DoProcessBuffer_frame by done.
      unfold parse_payload. rewrite Hp. cbn [exec_bind]. rewrite Hj, set_set_buffer.
      rewrite (callback_transparent _ _ _ s1) by done. cbn [exec_bind]. by apply Hd.
    + exists [], (m :: ms), b. split_and!; [done..|]. intros s s' [= <-].
      by rewrite (ProcessBuffer_pending f b (m :: ms)).
Qed.

Lemma deliver_app js js' s s2 : deliver callback (js ++ js') s = Ret s2 →
  ∃ s1, deliver callback js s = Ret s1 ∧ deliver callback js' s1 = Ret s2.
Proof.
  revert s; induction js as [|j js IH]; intros s Hs; [by exists s|]. simpl in *.
  destruct (callback j s); try discriminate Hs. by apply IH.
Qed.

Lemma receive_all_stream chunks : ∀ ms b s s', Forall sendable ms → pending b ms →
  b ++ concat chunks = stream ms → deliver callback (map snd ms) s = Ret s' →
  receive_all callback chunks (set_buffer b s) = Ret (set_buffer [] s').
Proof.
  induction chunks as [|c chunks IH]; intros ms b s s' Hms Hb E Hs.
  - simpl in E. rewrite app_nil_r in E. destruct ms as [|m ms].
    + simpl in Hb. subst b. by injection Hs as <-.
    + destruct Hb as (y & Hy & Hb). exfalso. apply Hy.
      change (stream (m :: ms)) with (frame m.1 ++ stream ms) in E.
      apply (f_equal length) in E, Hb. rewrite length_app in E, Hb.
      destruct y; [done|]. cbn [length] in Hb. lia.
  - cbn [concat] in E. rewrite app_assoc in E.
    destruct (ProcessBuffer_stream ms (S (length (b ++ c))) (b ++ c) (concat chunks))
      as (d & todo & b' & -> & Hb' & E' & Hd); [done|done|lia|].
    rewrite map_app in Hs. apply deliver_app in Hs as (s1 & Hs1 & Hs2).
    cbn [receive_all]. unfold receive, AppendBuffer.
    rewrite !get_set_buffer, set_set_buffer, (Hd _ _ Hs1). cbn [exec_bind].
    apply Forall_app in Hms as [_ Hms]. by eapply IH.
Qed.
(** Whatever processing the buffer did, it delivered messages of the stream. *)
Lemma ProcessBuffer_stream_inv ms : ∀ fuel b t s s', Forall sendable ms → b ++ t = stream ms →
  ProcessBuffer callback fuel (set_buffer b s) = Ret s' →
  ∃ done todo, ms = done ++ todo ∧ pending (get_buffer s') todo ∧
    get_buffer s' ++ t = stream todo ∧
    deliver callback (map snd done) (set_buffer [] s) = Ret (set_buffer [] s').
Proof.
  induction ms as [|m ms IH]; intros [|f] b t s s' Hms E Hr; try discriminate Hr.
  { apply app_eq_nil in E as [-> ->]. rewrite (ProcessBuffer_pending f [] []) in Hr by done.
    injection Hr as <-. exists [], []. rewrite get_set_buffer, set_set_buffer. by split_and!. }
  change (stream (m :: ms)) with (frame m.1 ++ stream ms) in E.
  destruct (split_frame _ _ _ _ E) as [(b' & -> & E')|Hy].
  - inversion Hms as [|? ? (Hok & Hp & Hj) Hms']; subst. cbn [ProcessBuffer] in Hr.
    rewrite get_set_buffer, DoProcessBuffer_frame in Hr by done.
    unfold parse_payload in Hr. rewrite Hp in Hr. cbn [exec_bind] in Hr.
    rewrite Hj, set_set_buffer in Hr. apply exec_bind_Ret in Hr as (s1 & Hs1 & Hr).
    pose proof (callback_transparent _ b' _ _ Hs1) as Hb. rewrite set_set_buffer, Hs1 in Hb.
    injection Hb as Hb. rewrite Hb in Hr.
    destruct (IH f b' t s1 s' Hms' E' Hr) as (d & todo & -> & Hpd & Et & Hd).
    exists (m :: d), todo. split_and!; [done..|]. cbn [map deliver].
    pose proof (callback_transparent _ [] _ _ Hs1) as Hn. rewrite set_set_buffer in Hn.
    by rewrite Hn.
  - rewrite (ProcessBuffer_pending f b (m :: ms)) in Hr by done. injection Hr as <-.
    exists [], (m :: ms). rewrite get_set_buffer, set_set_buffer. by split_and!.
Qed.

(** The messages in one chunk. *)
Lemma receive_stream ms s s' : Forall sendable ms → get_buffer s = [] →
  deliver callback (map snd ms) s = Ret s' → receive callback (stream ms) s = Ret (set_buffer [] s').
Proof.
  intros Hms Hb Hd. pose proof (receive_all_stream [stream ms] ms [] s s' Hms (pending_nil ms Hms)) as Hr.
  cbn [receive_all concat] in Hr. rewrite app_nil_r in Hr. specialize (Hr eq_refl Hd).
  rewrite <- Hb, set_get_buffer, Hb in Hr. by destruct (receive callback (stream ms) s).
Qed.

Lemma deliver_app_Ret js js' s s1 : deliver callback js s = Ret s1 →
  deliver callback (js ++ js') s = deliver callback js' s1.
Proof.
  revert s. induction js as [|j js IH]; intros s; simpl; [by intros [= ->]|].
  intros (s2 & -> & Hd)%exec_bind_Ret. by apply IH.
Qed.
End Stream.

(** ** Termination and the blocked stream *)

Section Safety.
Context `{Platform} {Er St : Type} `{Buffered St} (callback : Json → St → exec Er St).

Lemma parse_payload_total p : parse_payload (Er := Er) p ≠ NoFuel.
Proof.
  unfold parse_payload, Parse, cJSON_Parse. cbv zeta.
  pose proof (parse_value_reads (parse_fuel (skip (c_str p))) cJSON_New_Item (skip (c_str p))) as Hr.
  specialize (Hr ltac:(unfold parse_fuel; lia)).
  by destruct (parse_value _ _ _) as [[? ?]| | |].
Qed.

Lemma atol_total t : atol (Er := Er) t ≠ NoFuel.
Proof. unfold atol. cbv zeta. repeat case_match; done. Qed.

Lemma DoProcessBuffer_total b : DoProcessBuffer (Er := Er) b ≠ NoFuel.
Proof.
  unfold DoProcessBuffer. destruct b as [|c b]; [done|].
  destruct (ReadHeaders (c :: b)) as [[n h]| | |] eqn:E; simpl; try done.
  2: { exfalso. revert E. unfold ReadHeaders. repeat case_match; done. }
  repeat case_match; try done. intros E'. apply exec_bind_NoFuel in E' as [E'|(n' & _ & E')].
  - by apply atol_total in E'.
  - repeat case_match; try done. apply exec_bind_NoFuel in E' as [E'|(? & _ & ?)]; [|done].
    by apply parse_payload_total in E'.
Qed.

Lemma ReadHeaders_positive b n h : ReadHeaders (Er := Er) b = Ret (n, h) → n = -1 ∨ 4 ≤ n.
Proof. unfold ReadHeaders. repeat case_match; naive_solver lia. Qed.

(** A message takes its bytes out of the buffer. *)
Lemma DoProcessBuffer_shrinks b j b' : DoProcessBuffer (Er := Er) b = Ret (j, b') → IsOK j = true →
  (length b' < length b)%nat.
Proof.
  unfold DoProcessBuffer. destruct b as [|c b]; [by intros [= <- <-]|].
  set (buf := c :: b). intros E Hj. exec_inv.
  match goal with Hr : ReadHeaders _ = Ret _ |- _ => apply ReadHeaders_positive in Hr end.
  destruct (_ =? -1) eqn:E1; [by exec_inv|]. apply Z.eqb_neq in E1.
  destruct (_ !! _); [|by exec_inv]. exec_inv.
  destruct (_ <=? 0) eqn:E2; [by exec_inv|]. apply Z.leb_gt in E2.
  destruct (negb _); [by exec_inv|].
  destruct (_ <? _) eqn:E3; [by exec_inv|]. exec_inv.
  rewrite length_drop. change (length buf) with (S (length b)). lia.
Qed.

(** Without a [Content-Length] the loop stops and the header section is what is left. *)
Lemma DoProcessBuffer_no_length hd x : CR ∉ hd → is_int (Z.of_nat (length hd) + 4) = true →
  foldl add_header ∅ (Split hd [LF]) !! lit "Content-Length" = None →
  DoProcessBuffer (Er := Er) (hd ++ SEPARATOR ++ x) = Ret (None, hd ++ SEPARATOR).
Proof.
  intros Hcr Hi Hl. unfold DoProcessBuffer, ReadHeaders.
  rewrite find_text_header by done. rewrite take_app_length, Hi. cbn [exec_bind].
  destruct (hd ++ SEPARATOR ++ x) as [|c0 b0] eqn:Eb; [by destruct hd|]. rewrite <- Eb.
  destruct (Z.eqb_spec (Z.of_nat (length hd) + 4) (-1)); [lia|]. rewrite Hl.
  replace (Z.to_nat (Z.of_nat (length hd) + 4)) with (length (hd ++ SEPARATOR))
    by (rewrite length_app; simpl; lia).
  by rewrite app_assoc, take_app_length.
Qed.

(** With a length that is not positive the loop stops and nothing is removed. *)
Lemma DoProcessBuffer_bad_length hd x v n : CR ∉ hd → is_int (Z.of_nat (length hd) + 4) = true →
  foldl add_header ∅ (Split hd [LF]) !! lit "Content-Length" = Some v →
  atol (Er := Er) v = Ret n → n ≤ 0 →
  DoProcessBuffer (Er := Er) (hd ++ SEPARATOR ++ x) = Ret (None, hd ++ SEPARATOR ++ x).
Proof.
  intros Hcr Hi Hl Hv Hn. unfold DoProcessBuffer, ReadHeaders.
  rewrite find_text_header by done. rewrite take_app_length, Hi. cbn [exec_bind].
  destruct (hd ++ SEPARATOR ++ x) as [|c0 b0] eqn:Eb; [by destruct hd|]. rewrite <- Eb.
  destruct (Z.eqb_spec (Z.of_nat (length hd) + 4) (-1)); [lia|]. rewrite Hl, Hv.
  cbn [exec_bind]. by destruct (Z.leb_spec n 0); [|lia].
Qed.

(** *** Properties *)

(** C22: [ProcessBuffer] terminates for every buffer: as many iterations as the buffer has bytes
    are enough, whatever the bytes are, when the callback returns and leaves no longer a buffer
    than it found ([Client::Reset], called by a handler, clears it). *)
Theorem ProcessBuffer_terminates fuel s :
  (∀ json s, callback json s ≠ NoFuel) →
  (∀ json s s', callback json s = Ret s' → (length (get_buffer s') ≤ length (get_buffer s))%nat) →
  (length (get_buffer s) < fuel)%nat →
  ProcessBuffer callback fuel s ≠ NoFuel.
Proof.
  intros Hc Hl. revert s; induction fuel as [|f IH]; intros s Hf; [lia|]. cbn [ProcessBuffer].
  destruct (DoProcessBuffer (get_buffer s)) as [[j b]| | |] eqn:E; simpl; try done.
  2: { by apply DoProcessBuffer_total in E. }
  destruct (IsOK j) eqn:Hj; [|done]. apply DoProcessBuffer_shrinks in E; [|done].
  intros [E'|(s' & Hs & E')]%exec_bind_NoFuel; [by apply Hc in E'|].
  apply Hl in Hs. rewrite get_set_buffer in Hs. apply (IH s'); [lia|done].
Qed.

(** C3: however the transport cuts the bytes of the messages into chunks (in the middle of a
    header, of a payload, several messages in one chunk, empty chunks), the callback runs once on
    each message, in the order they were sent, and the buffer is empty in the end. *)
Theorem receive_all_delivers (ms : list (text * Json)) (chunks : list text) (s s' : St) :
  transparent callback →
  Forall sendable ms →
  concat chunks = stream ms →
  get_buffer s = [] →
  deliver callback (map snd ms) s = Ret s' →
  receive_all callback chunks s = Ret (set_buffer [] s').
Proof.
  intros Hc Hms E Hb Hs. rewrite <- (set_get_buffer s), Hb.
  eapply receive_all_stream; [done|done|by apply pending_nil|done|done].
Qed.

(** C40: a header section without [Content-Length] blocks the client for ever: the code erases
    what follows the section instead of the section, so that the section is met again with every
    chunk; no chunk is delivered any more and each is thrown away. *)
Theorem missing_length_blocks hd x chunk chunks s :
  CR ∉ hd → is_int (Z.of_nat (length hd) + 4) = true →
  foldl add_header ∅ (Split hd [LF]) !! lit "Content-Length" = None →
  receive_all callback (chunk :: chunks) (set_buffer (hd ++ SEPARATOR ++ x) s)
  = Ret (set_buffer (hd ++ SEPARATOR) s).
Proof.
  intros Hcr Hi Hl.
  assert (∀ c y, receive callback c (set_buffer (hd ++ SEPARATOR ++ y) s)
                 = Ret (set_buffer (hd ++ SEPARATOR) s)) as Hstep.
  { intros c y. unfold receive, AppendBuffer.
    rewrite !get_set_buffer, set_set_buffer. cbn [ProcessBuffer].
    rewrite get_set_buffer, <- !app_assoc, DoProcessBuffer_no_length by done. cbn [exec_bind IsOK].
    by rewrite set_set_buffer. }
  cbn [receive_all]. rewrite Hstep. induction chunks as [|c chunks IH]; [done|].
  cbn [receive_all exec_bind] in *. pose proof (Hstep c []) as Hc. rewrite app_nil_r in Hc.
  by rewrite Hc.
Qed.

(** A [Content-Length] that is not positive blocks the client for ever: every chunk that
    arrives is kept and none is delivered. *)
Theorem bad_length_blocks hd x v n chunks s :
  CR ∉ hd → is_int (Z.of_nat (length hd) + 4) = true →
  foldl add_header ∅ (Split hd [LF]) !! lit "Content-Length" = Some v →
  atol (Er := Er) v = Ret n → n ≤ 0 →
  receive_all callback chunks (set_buffer (hd ++ SEPARATOR ++ x) s)
  = Ret (set_buffer (hd ++ SEPARATOR ++ x ++ concat chunks) s).
Proof.
  intros Hcr Hi Hl Hv Hn. revert x. induction chunks as [|c chunks IH]; intros x.
  - simpl. by rewrite app_nil_r.
  - cbn [receive_all concat]. unfold receive, AppendBuffer.
    rewrite !get_set_buffer, set_set_buffer. cbn [ProcessBuffer].
    rewrite get_set_buffer, <- !app_assoc, (DoProcessBuffer_bad_length hd _ v n) by done.
    cbn [exec_bind IsOK]. rewrite set_set_buffer, IH. by rewrite <- app_assoc.
Qed.
End Safety.

(** ** An object with a buffer, to try the properties on *)
Section Samples.
#[local] Existing Instance sample_platform.

#[local] Instance sample_buffered : Buffered (text * list Json).
Proof.
  refine {| get_buffer := fst; set_buffer b s := (b, s.2) |}; by intros; destruct s.
Defined.

(** The callback that collects what it is given. *)
Definition collect (json : Json) (s : text * list Json) : exec exception (text * list Json) :=
  Ret (s.1, s.2 ++ [json]).

Definition sample_messages : list (text * Json) :=
  [ (lit "{}", Some (set_type cJsonDap_Object cJSON_New_Item));
    (lit "[]", Some (set_type cJsonDap_Array cJSON_New_Item)) ].

(** The bytes of the two messages, cut inside the first header and inside the second payload. *)
Definition sample_chunks : list text :=
  [ take 7 (stream sample_messages);
    take 33 (drop 7 (stream sample_messages)); [];
    drop 40 (stream sample_messages) ].

Lemma sample_sendable : Forall sendable sample_messages.
Proof. repeat constructor; try done; vm_compute; reflexivity. Qed.

Lemma receive_all_delivers_witness :
  receive_all collect sample_chunks ([], []) = Ret ([], map snd sample_messages).
Proof.
  refine (receive_all_delivers collect sample_messages sample_chunks ([], [])
            ([], map snd sample_messages) _ _ _ _ _).
  - intros json b s s' [= <-]. reflexivity.
  - exact sample_sendable.
  - vm_compute. reflexivity.
  - reflexivity.
  - reflexivity.
Defined.

Lemma ProcessBuffer_terminates_witness :
  ProcessBuffer collect 100 (stream sample_messages, []) ≠ NoFuel.
Proof.
  apply (ProcessBuffer_terminates collect 100 (stream sample_messages, [])).
  - intros json s. discriminate.
  - intros json s s' [= <-]. done.
  - apply Nat.ltb_lt. vm_compute. reflexivity.
Defined.

Lemma missing_length_blocks_witness :
  receive_all collect [lit "x"; stream sample_messages] (lit "A: b" ++ SEPARATOR ++ [], [])
  = Ret (lit "A: b" ++ SEPARATOR, []).
Proof.
  refine (missing_length_blocks collect (lit "A: b") [] (lit "x") [stream sample_messages]
            ([], []) _ _ _).
  - intros Hin. apply list_elem_of_In in Hin. simpl in Hin. naive_solver.
  - reflexivity.
  - vm_compute. reflexivity.
Defined.

Lemma bad_length_blocks_witness :
  receive_all collect [stream sample_messages] (lit "Content-Length: x" ++ SEPARATOR ++ [], [])
  = Ret (lit "Content-Length: x" ++ SEPARATOR ++ [] ++ concat [stream sample_messages], []).
Proof.
  refine (bad_length_blocks collect (lit "Content-Length: x") [] (lit "x") 0
            [stream sample_messages] ([], []) _ _ _ _ _).
  - intros Hin. apply list_elem_of_In in Hin. simpl in Hin. naive_solver.
  - reflexivity.
  - vm_compute. reflexivity.
  - vm_compute. reflexivity.
  - reflexivity.
Defined.
End Samples.
