(* ===== verification/TestSuite.v ===== *)
(** * tests/tester.h, tester.cpp, gdbd_tests.cpp: the tests of the library, run on the model.

    A test is a computation on what it prints, its counter and the generator of messages; [Err]
    is its [return false].  [FILE] is [__FILE__] of gdbd_tests.cpp, which the build decides.  The
    theorems: the tester counts every test once, and the program of the tests prints that all of
    them passed. *)
From S2P Require Import Prelude.
From S2P Require Import Double.
From S2P Require Import CJson.
From S2P Require Import CJsonRoundTrip.
From S2P Require Import CJsonGrammar.
From S2P Require Import Json.
From S2P Require Import Any.
From S2P Require Import DapData.
From S2P Require Import DapEnvironment.
From S2P Require Import DapMessages.
From S2P Require Import DapRegistry.
From S2P Require Import JsonRPC.
Local Open Scope Z_scope.

Record TestState := mkTestState {
  out : text;
  m_testCount : Z;
  generator : ObjGenerator;
}.

Definition printf (t : text) (s : TestState) : TestState :=
  mkTestState (out s ++ t) (m_testCount s) (generator s).

Abbreviation checking := (TestState → exec TestState TestState).

(** ** The macros *)

Section Macros.
Context (FILE FUNCTION : text) (LINE : Z).

(** [%-40s]. *)
Definition padded (t : text) : text := t ++ replicate (40 - length t) " "%char.

Definition failure (what : text) (s : TestState) : TestState :=
  printf (padded FUNCTION ++ "(" ++ dec (m_testCount s) ++ "): ERROR" ++ [LF] ++
          FILE ++ ":" ++ dec LINE ++ ": " ++ what ++ [LF]) s.

Definition counted (s : TestState) : exec TestState TestState :=
  if is_int (m_testCount s + 1) then Ret (mkTestState (out s) (m_testCount s + 1) (generator s))
  else Undef.

Definition CHECK_SIZE (actualSize expcSize : Z) : checking := λ s,
  let* s := counted s in
  if negb (actualSize =? to_int32 expcSize) then
    Err (failure ("Expected size: " ++ dec (to_int32 expcSize) ++ ", Actual Size:" ++
                  dec (to_int32 actualSize)) s)
  else Ret s.

(** Of an [int], and of a [double]. *)
Definition CHECK_NUMBER (actualNumber expcNumber : Z) : checking := λ s,
  let* s := counted s in
  if negb (actualNumber =? expcNumber) then
    Err (failure ("Expected Number: " ++ dec expcNumber ++ ", Actual Number:" ++
                  dec actualNumber) s)
  else Ret s.

Definition CHECK_NUMBER_double `{Platform} (actualNumber : double) (expcNumber : Z) : checking := λ s,
  let* s := counted s in
  if negb (SFeqb actualNumber (of_int expcNumber)) then
    Err (failure ("Expected Number: " ++ dec expcNumber ++ ", Actual Number:" ++
                  dec (to_int actualNumber)) s)
  else Ret s.

Definition CHECK_STRING (str expcStr : text) : checking := λ s,
  if negb (c_str str =t c_str expcStr) then
    Err (failure ("Expected string: " ++ expcStr ++ ", Actual string:" ++ c_str str) s)
  else Ret s.

Definition CHECK_CONDITION (cond : bool) (msg : text) : checking := λ s,
  if negb cond then Err (failure msg s) else Ret s.

Context `{Platform} `{HashOrder}.

(** [obj->As<T>()->name] where the cast or [obj] is null is undefined. *)
Definition CHECK_REQUEST (obj : option Message) (str : text) : checking := λ s,
  let* s := CHECK_CONDITION (bool_decide (is_Some obj)) str s in
  match obj ≫= Message_Request with
  | Some r => CHECK_STRING (Request_command r) str s
  | None => Undef
  end.

Definition CHECK_RESPONSE (obj : option Message) (str : text) : checking := λ s,
  let* s := CHECK_CONDITION (bool_decide (is_Some obj)) str s in
  match obj ≫= Message_Response with
  | Some r => CHECK_STRING (Response_command r) str s
  | None => Undef
  end.

Definition CHECK_EVENT (obj : option Message) (str : text) : checking := λ s,
  let* s := CHECK_CONDITION (bool_decide (is_Some obj)) str s in
  match obj ≫= Message_Event with
  | Some e => CHECK_STRING (Event_event e) str s
  | None => Undef
  end.

End Macros.

(** ** The tests *)

Section Tests.
Context `{Platform} `{HashOrder} (FILE : text).

Definition obj_New (type name : text) (s : TestState) : option Message * TestState :=
  let '(obj, g) := New type name (generator s) in
  (obj, mkTestState (out s) (m_testCount s) g).

(** The statements of a test, one after the other, with the lines of their checks. *)
Fixpoint in_order (check : Z → text → checking) (names : list (Z * text)) : checking := λ s,
  match names with
  | [] => Ret s
  | (line, name) :: names => let* s := check line name s in in_order check names s
  end.

Definition Check_Request_Allocations : checking :=
  in_order (λ line name s,
      let '(obj, s) := obj_New "request" name s in
      CHECK_REQUEST FILE "Check_Request_Allocations" line obj name s)
    [(39, lit "cancel"); (41, lit "initialize"); (43, lit "configurationDone");
     (45, lit "launch"); (47, lit "disconnect"); (49, lit "breakpointLocations");
     (51, lit "setBreakpoints"); (53, lit "continue")].

Definition Check_Response_Allocations : checking :=
  in_order (λ line name s,
      let '(obj, s) := obj_New "response" name s in
      CHECK_RESPONSE FILE "Check_Response_Allocations" line obj name s)
    [(62, lit "initialize"); (64, lit "cancel"); (66, lit "configurationDone");
     (68, lit "launch"); (70, lit "disconnect"); (72, lit "breakpointLocations");
     (74, lit "continue"); (76, lit "setBreakpoints")].

Definition Check_Event_Allocations : checking :=
  in_order (λ line name s,
      let '(obj, s) := obj_New "event" name s in
      CHECK_EVENT FILE "Check_Event_Allocations" line obj name s)
    [(85, lit "initialized"); (87, lit "stopped"); (89, lit "continued"); (91, lit "exited");
     (93, lit "output"); (95, lit "process"); (97, lit "stopped"); (99, lit "terminated");
     (101, lit "thread")].

(** The local variables of the last test: the buffer of [rpc], and [count]. *)
Record RpcTest := mkRpcTest {
  rpc : text;
  count : Z;
  test_state : TestState;
}.

#[export] Program Instance RpcTest_Buffered : Buffered RpcTest :=
  {| get_buffer := rpc; set_buffer b s := mkRpcTest b (count s) (test_state s) |}.
Solve Obligations with by intros; destruct_and?; try match goal with s : RpcTest |- _ => destruct s end.

Definition quoted (t : text) : text := DQUOTE :: t ++ [DQUOTE].

Definition jsonStr : text :=
  "{" ++ [LF] ++
  "    " ++ quoted "seq" ++ ": 153," ++ [LF] ++
  "    " ++ quoted "type" ++ ": " ++ quoted "request" ++ "," ++ [LF] ++
  "    " ++ quoted "command" ++ ": " ++ quoted "next" ++ "," ++ [LF] ++
  "    " ++ quoted "arguments" ++ ": {" ++ [LF] ++
  "        " ++ quoted "threadId" ++ ": 3" ++ [LF] ++
  "    }" ++ [LF] ++
  "}".

Definition header : text :=
  "Content-Length: " ++ dec (Z.of_nat (length jsonStr)) ++ [CR; LF] ++ [CR; LF].

(** The checks of the lambda; [__FUNCTION__] is its [operator()]. *)
Definition message_checks (json : Json) : checking := λ s,
  let at_ := "operator()" in
  let* s := CHECK_NUMBER_double FILE at_ 125 (GetNumber (of_int (-1)) json.["seq"]) 153 s in
  let* s := CHECK_STRING FILE at_ 126 (GetString [] json.["type"]) "request" s in
  let* s := CHECK_STRING FILE at_ 127 (GetString [] json.["command"]) "next" s in
  let* s := CHECK_NUMBER_double FILE at_ 128
              (GetNumber (of_int (-1)) json.["arguments"].["threadId"]) 3 s in
  let s := mkTestState (out s) (m_testCount s) (construct class_NextRequest (generator s)) in
  let nextRequest := NextRequest_From json NextRequest_fresh in
  let request := NextRequest_Request nextRequest in
  let message := Request_ProtocolMessage request in
  let* s := CHECK_NUMBER FILE at_ 131 (ProtocolMessage_seq message) 153 s in
  let* s := CHECK_STRING FILE at_ 132 (ProtocolMessage_type message) "request" s in
  let* s := CHECK_STRING FILE at_ 133 (Request_command request) "next" s in
  CHECK_NUMBER FILE at_ 134 (NextArguments_threadId (NextRequest_arguments nextRequest)) 3 s.

(** The lambda: a check that fails returns from it, and the message is not counted. *)
Definition on_message (json : Json) (s : RpcTest) : exec TestState RpcTest :=
  match message_checks json (test_state s) with
  | Ret t => Ret (mkRpcTest (rpc s) (count s + 1) t)
  | Err t => Ret (mkRpcTest (rpc s) (count s) t)
  | Undef => Undef
  | NoFuel => NoFuel
  end.

Definition Check_Parsing_JSON_RPC_Message : checking := λ s,
  let l := set_buffer (header ++ jsonStr) (mkRpcTest [] 0 s) in
  let* l := ProcessBuffer on_message (S (length (get_buffer l))) l in
  CHECK_NUMBER FILE "Check_Parsing_JSON_RPC_Message" 139 (count l) 1 (test_state l).

End Tests.

(** ** The tester *)

Section Tester.
Context `{Platform} `{HashOrder}.

(** An object of a class that [TEST_FUNC] declares: its [#Name], its counter and its function. *)
Record ITest := mkITest {
  Name : text;
  ITest_testCount : Z;
  function : checking;
}.

(** The program: what it prints, the generator, and the [Tester]. *)
Record World := mkWorld {
  stdout : text;
  objects : ObjGenerator;
  ms_instance : option (list ITest);
}.

Definition print (t : text) (w : World) : World :=
  mkWorld (stdout w ++ t) (objects w) (ms_instance w).

(** [TEST_FUNC]: the [test] of the class. *)
Definition test (t : ITest) (w : World) : exec TestState (bool * World) :=
  let w := print ("Checking " ++ Name t ++ "...") w in
  let after s := mkWorld (out s) (generator s) (ms_instance w) in
  match function t (mkTestState (stdout w) (ITest_testCount t) (objects w)) with
  | Ret s => Ret (true, print ("...OK!" ++ [LF]) (after s))
  | Err s => Ret (false, print ("...ERROR!" ++ [LF]) (after s))
  | Undef => Undef
  | NoFuel => NoFuel
  end.

Definition Instance_ (w : World) : list ITest * World :=
  match ms_instance w with
  | None => ([], mkWorld (stdout w) (objects w) (Some []))
  | Some m_tests => (m_tests, w)
  end.

Definition Release (w : World) : World := mkWorld (stdout w) (objects w) None.

(** [AddTest] on the instance, and the constructor of [ITest] that calls it. *)
Definition AddTest (t : ITest) (m_tests : list ITest) : list ITest := m_tests ++ [t].

Definition ITest_new (name : text) (f : checking) (w : World) : World :=
  let '(m_tests, w) := Instance_ w in
  mkWorld (stdout w) (objects w) (Some (AddTest (mkITest name 0 f) m_tests)).

(** [(unsigned int)n]. *)
Definition to_uint (n : Z) : Z := n mod 2 ^ 32.

Fixpoint RunTests_loop (m_tests : list ITest) (success errors : Z) (w : World)
    : exec TestState (Z * Z * World) :=
  match m_tests with
  | [] => Ret (success, errors, w)
  | t :: m_tests =>
      let* (ok, w) := test t w in
      if ok : bool then RunTests_loop m_tests (success + 1) errors w
      else RunTests_loop m_tests success (errors + 1) w
  end.

Definition RunTests (m_tests : list ITest) (w : World) : exec TestState World :=
  let totalTests := Z.of_nat (length m_tests) in
  let* (success, errors, w) := RunTests_loop m_tests 0 0 w in
  let w := print ([LF] ++ "====> Summary: <====" ++ [LF] ++ [LF]) w in
  if success =? totalTests then Ret (print ("    All tests passed successfully!!" ++ [LF]) w)
  else
    let w := print ("    " ++ dec (to_uint success) ++ " of " ++ dec (to_uint totalTests) ++
                    " tests passed" ++ [LF]) w in
    Ret (print ("    " ++ dec (to_uint errors) ++ " of " ++ dec (to_uint totalTests) ++
                " tests failed" ++ [LF]) w).

(** The objects of the file are constructed before [main], in their order. *)
Definition theTests (FILE : text) (w : World) : World :=
  let w := ITest_new "Check_Request_Allocations" (Check_Request_Allocations FILE) w in
  let w := ITest_new "Check_Response_Allocations" (Check_Response_Allocations FILE) w in
  let w := ITest_new "Check_Event_Allocations" (Check_Event_Allocations FILE) w in
  ITest_new "Check_Parsing_JSON_RPC_Message" (Check_Parsing_JSON_RPC_Message FILE) w.

Definition main (w : World) : exec TestState World :=
  let w := mkWorld (stdout w) (Initialize (objects w)) (ms_instance w) in
  let '(m_tests, w) := Instance_ w in
  let* w := RunTests m_tests w in
  Ret (Release w).

End Tester.

(** ** The message of the last test *)

Section Message.
Context `{Platform}.

Lemma string_plain t :
  forallb (λ c, (0x20 <=? code c) && negb (c =c DQUOTE) && negb (c =c BSLASH)) t = true →
  string_text t t.
Proof.
  induction t as [|c t IH]; cbn [forallb]; [constructor|].
  rewrite !andb_true_iff, !negb_true_iff, Z.leb_le. intros [[[? Hq] Hb] ?].
  apply string_char; [done|by intros ->|by intros ->|by apply IH].
Qed.

(** A natural number without a fraction and an exponent. *)
Lemma int_value ip n : digits_double ip = of_int n → dmul (dmul (of_int 1) (of_int n)) done_ = of_int n →
  number_double false ip [] 0 = of_int n.
Proof.
  intros Hd Hn. unfold number_double. rewrite app_nil_r, Hd.
  change (dadd (frac_scale []) (of_int 0)) with (S754_zero false). by rewrite pow_zero.
Qed.

Lemma int_json ip n : int_text ip → digits_double ip = of_int n →
  dmul (dmul (of_int 1) (of_int n)) done_ = of_int n → json_text ip (VNumber (of_int n)).
Proof.
  intros Hi Hd Hn. apply text_number. rewrite <- (int_value ip n Hd Hn), <- (app_nil_r ip) at 1.
  apply (a_number false ip [] [] 0); [done..|constructor].
Qed.

Definition message_value : value :=
  VObject [(lit "seq", VNumber (of_int 153)); (lit "type", VString "request");
           (lit "command", VString "next");
           (lit "arguments", VObject [(lit "threadId", VNumber (of_int 3))])].

Definition line (w name t w' : text) : text :=
  ([LF] ++ w) ++ ([DQUOTE] ++ name ++ [DQUOTE]) ++ [] ++ ":" ++ " " ++ t ++ w'.

Lemma a_line w name t v w' : ws w → string_text name name → json_text t v → ws w' →
  member_text (line w name t w') name v.
Proof. intros. by apply a_member. Qed.

Lemma jsonStr_text : json_text jsonStr message_value.
Proof.
  change jsonStr with ("{" ++
    (line "    " "seq" "153" [] ++ "," ++
     line "    " "type" ([DQUOTE] ++ "request" ++ [DQUOTE]) [] ++ "," ++
     line "    " "command" ([DQUOTE] ++ "next" ++ [DQUOTE]) [] ++ "," ++
     line "    " "arguments" ("{" ++ line "        " "threadId" "3" ([LF] ++ "    ") ++ "}") [LF])
    ++ "}").
  apply text_object. repeat apply one_member; [| | |apply last_member]; apply a_line; try done;
    try (by apply string_plain).
  - by apply int_json; [apply int_digits| |].
  - by apply text_string, string_plain.
  - by apply text_string, string_plain.
  - apply text_object, last_member, a_line; try done; [by apply string_plain|].
    by apply int_json; [apply int_digits| |].
Qed.

Lemma jsonStr_parsed : Parse jsonStr = Ret (Some (build message_value cJSON_New_Item)).
Proof.
  unfold Parse. rewrite <- (app_nil_r jsonStr).
  rewrite (builds_parsed [] jsonStr message_value []); [done..| |done].
  by apply grammar_builds, jsonStr_text.
Qed.

End Message.

(** ** The tests pass *)

Section Passes.
Context `{Platform} `{HashOrder} (FILE : text).

(** A test object whose test passes and prints nothing of its own. *)
Definition passes (f : checking) : Prop :=
  ∀ o g, loaded g → ∃ n g', loaded g' ∧ f (mkTestState o 0 g) = Ret (mkTestState o n g').

Lemma in_order_passes check names :
  (∀ line name s, (line, name) ∈ names → loaded (generator s) →
    ∃ g, loaded g ∧ check line name s = Ret (mkTestState (out s) (m_testCount s) g)) →
  passes (in_order check names).
Proof.
  intros Hc o g Hg. exists 0. revert g Hg Hc. induction names as [|[line name] names IH].
  { intros g Hg _. by exists g. }
  intros g Hg Hc. destruct (Hc line name (mkTestState o 0 g)) as (g1 & Hg1 & E); [by left|done|].
  cbn [in_order]. rewrite E. cbn [exec_bind out m_testCount]. apply IH; [done|].
  intros. apply Hc; [by right|done].
Qed.

(** The generator makes the message of the name, whose constructor gave it the name. *)
Lemma obj_New_loaded c s : loaded (generator s) → readable c = true →
  obj_New (class_key c).1 (class_key c).2 s
  = (Some (new_message c), mkTestState (out s) (m_testCount s) (construct c (generator s))).
Proof. intros Hs Hc. unfold obj_New. by rewrite New_loaded. Qed.

Lemma CHECK_STRING_same f line t s : CHECK_STRING FILE f line t t s = Ret s.
Proof. unfold CHECK_STRING. by destruct (teq_spec (c_str t) (c_str t)). Qed.

(** A name of the list is that of the class [c], which the generator knows. *)
Ltac checked c :=
  intros Hs; setoid_rewrite (obj_New_loaded c _ Hs eq_refl);
  eexists; split; [exact (loaded_construct c _ Hs)|apply CHECK_STRING_same].

Lemma requests_pass : passes (Check_Request_Allocations FILE).
Proof.
  apply in_order_passes. intros line name s. rewrite !elem_of_cons, elem_of_nil.
  intros [E|[E|[E|[E|[E|[E|[E|[E|[]]]]]]]]]; injection E as -> ->.
  - checked class_CancelRequest.
  - checked class_InitializeRequest.
  - checked class_ConfigurationDoneRequest.
  - checked class_LaunchRequest.
  - checked class_DisconnectRequest.
  - checked class_BreakpointLocationsRequest.
  - checked class_SetBreakpointsRequest.
  - checked class_ContinueRequest.
Qed.

Lemma responses_pass : passes (Check_Response_Allocations FILE).
Proof.
  apply in_order_passes. intros line name s. rewrite !elem_of_cons, elem_of_nil.
  intros [E|[E|[E|[E|[E|[E|[E|[E|[]]]]]]]]]; injection E as -> ->.
  - checked class_InitializeResponse.
  - checked class_CancelResponse.
  - checked class_ConfigurationDoneResponse.
  - checked class_LaunchResponse.
  - checked class_DisconnectResponse.
  - checked class_BreakpointLocationsResponse.
  - checked class_ContinueResponse.
  - checked class_SetBreakpointsResponse.
Qed.

Lemma events_pass : passes (Check_Event_Allocations FILE).
Proof.
  apply in_order_passes. intros line name s. rewrite !elem_of_cons, elem_of_nil.
  intros [E|[E|[E|[E|[E|[E|[E|[E|[E|[]]]]]]]]]]; injection E as -> ->.
  - checked class_InitializedEvent.
  - checked class_StoppedEvent.
  - checked class_ContinuedEvent.
  - checked class_ExitedEvent.
  - checked class_OutputEvent.
  - checked class_ProcessEvent.
  - checked class_StoppedEvent.
  - checked class_TerminatedEvent.
  - checked class_ThreadEvent.
Qed.

Lemma message_checks_pass o g :
  message_checks FILE (Some (build message_value cJSON_New_Item)) (mkTestState o 0 g)
  = Ret (mkTestState o 4 (construct class_NextRequest g)).
Proof. vm_compute. reflexivity. Qed.

Lemma message_passes : passes (Check_Parsing_JSON_RPC_Message FILE).
Proof.
  intros o g Hg. exists 5, (construct class_NextRequest g). split; [by apply loaded_construct|].
  unfold Check_Parsing_JSON_RPC_Message. cbv zeta. cbn [set_buffer get_buffer RpcTest_Buffered rpc count test_state].
  set (l := mkRpcTest _ _ _).
  assert (Hl : ∀ f, ProcessBuffer (on_message FILE) (S (S f)) l
    = Ret (mkRpcTest [] 1 (mkTestState o 4 (construct class_NextRequest g)))).
  { intros f. cbn [ProcessBuffer]. unfold l. cbn [get_buffer RpcTest_Buffered rpc].
    change (header ++ jsonStr) with (frame jsonStr ++ []).
    rewrite DoProcessBuffer_frame by (split; [done|vm_compute; reflexivity]).
    unfold parse_payload. rewrite jsonStr_parsed. cbn [exec_bind].
    change (IsOK (Some (build message_value cJSON_New_Item))) with true. cbv iota. unfold on_message.
    cbn [set_buffer RpcTest_Buffered rpc count test_state]. by rewrite message_checks_pass. }
  change (length (header ++ jsonStr)) with (S (pred (length (header ++ jsonStr)))).
  by rewrite Hl.
Qed.

(** ** The tester *)

Definition passed_line (t : ITest) : text := "Checking " ++ Name t ++ "..." ++ "...OK!" ++ [LF].

Lemma test_passes t w : passes (function t) → ITest_testCount t = 0 → loaded (objects w) →
  ∃ g, loaded g ∧ test t w = Ret (true, mkWorld (stdout w ++ passed_line t) g (ms_instance w)).
Proof.
  intros Hp Hn Hw. unfold test. cbn [stdout objects print ms_instance]. rewrite Hn.
  destruct (Hp (stdout w ++ "Checking " ++ Name t ++ "...") _ Hw) as (n & g & Hg & E). rewrite E.
  exists g. split; [done|]. unfold print, passed_line. cbn [stdout objects ms_instance out generator].
  do 3 f_equal. by rewrite <- !app_assoc.
Qed.

Lemma RunTests_loop_passes m_tests success errors w :
  Forall (λ t, passes (function t) ∧ ITest_testCount t = 0) m_tests → loaded (objects w) →
  ∃ g, loaded g ∧ RunTests_loop m_tests success errors w
    = Ret (success + Z.of_nat (length m_tests), errors,
           mkWorld (stdout w ++ concat (map passed_line m_tests)) g (ms_instance w)).
Proof.
  intros Ht. revert success w. induction Ht as [|t m_tests [Hp Hn] _ IH]; intros success w Hw.
  { exists (objects w). split; [done|]. cbn. rewrite app_nil_r, Z.add_0_r. by destruct w. }
  destruct (test_passes t w Hp Hn Hw) as (g & Hg & E). cbn [RunTests_loop]. rewrite E.
  cbn [exec_bind]. destruct (IH (success + 1) (mkWorld (stdout w ++ passed_line t) g (ms_instance w)) Hg)
    as (g' & Hg' & ->).
  exists g'. split; [done|]. cbn [stdout ms_instance map concat length].
  rewrite <- app_assoc. do 3 f_equal. lia.
Qed.

(** What the program of the tests prints. *)
Definition summary : text :=
  [LF] ++ "====> Summary: <====" ++ [LF] ++ [LF] ++ "    All tests passed successfully!!" ++ [LF].

Definition report : text :=
  "Checking Check_Request_Allocations......OK!" ++ [LF] ++
  "Checking Check_Response_Allocations......OK!" ++ [LF] ++
  "Checking Check_Event_Allocations......OK!" ++ [LF] ++
  "Checking Check_Parsing_JSON_RPC_Message......OK!" ++ [LF] ++ summary.

Definition objects_of_the_file : list ITest :=
  [mkITest "Check_Request_Allocations" 0 (Check_Request_Allocations FILE);
   mkITest "Check_Response_Allocations" 0 (Check_Response_Allocations FILE);
   mkITest "Check_Event_Allocations" 0 (Check_Event_Allocations FILE);
   mkITest "Check_Parsing_JSON_RPC_Message" 0 (Check_Parsing_JSON_RPC_Message FILE)].

(** C34: the tests of the repository pass on the model, on every platform: the program constructs the
    four test objects, runs [Initialize] and the tests in their order, each of them answers true
    without printing anything of its own, and the tester reports that all of them passed and is
    released. *)
Theorem the_tests_pass :
  ∃ g, loaded g ∧
    main (theTests FILE (mkWorld [] ObjGenerator_empty None)) = Ret (mkWorld report g None).
Proof.
  change (theTests FILE _) with (mkWorld [] ObjGenerator_empty (Some objects_of_the_file)).
  unfold main. cbn [stdout objects ms_instance Instance_]. unfold RunTests.
  destruct (RunTests_loop_passes objects_of_the_file 0 0
    (mkWorld [] (Initialize ObjGenerator_empty) (Some objects_of_the_file))) as (g & Hg & E);
    [|exact loaded_Initialize|].
  - repeat (apply list.Forall_cons; split; [split; [|reflexivity]|]); [..|by apply Forall_nil];
      [apply requests_pass|apply responses_pass|apply events_pass|apply message_passes].
  - rewrite E. exists g. split; [exact Hg|]. reflexivity.
Qed.

End Passes.
