(* ===== verification/ConnectionString.v ===== *)
(** * ConnectionString.cpp: the address of a server, [tcp://host:port] or [unix://path].

    [OutOfRange] is the [std::out_of_range] that [substr(2)] throws when the address is shorter
    than the two slashes; nothing in the library catches it. *)
From S2P Require Import Prelude.
From S2P Require Import StringUtils.
From S2P Require Import JsonRPC.
Local Open Scope Z_scope.

Inductive failure : Type :=
| Thrown (e : exception)
| OutOfRange.

Inductive eProtocol := kTcp | kUnixLocalSocket.

(** [m_protocol] is indeterminate until [DoParse] assigns it. *)
Record ConnectionString := mkConnectionString {
  m_protocol : option eProtocol;
  m_host : text;
  m_port : Z;
  m_path : text;
  m_isOK : bool;
}.

#[export] Instance ConnectionString_settable : Settable ConnectionString :=
  rebuild mkConnectionString <@> m_protocol <@> m_host <@> m_port <@> m_path <@> m_isOK.

(** [address.substr(2)]. *)
Definition substr_2 (address : text) : exec failure text :=
  if (length address <? 2)%nat then Err OutOfRange else Ret (drop 2 address).

Definition parse_unix (address : text) (cs : ConnectionString) : ConnectionString :=
  let cs := cs <| m_path := address |> in
  cs <| m_isOK := negb (address =t []) |>.

Definition parse_tcp (address : text) (cs : ConnectionString) : exec failure ConnectionString :=
  let cs := cs <| m_host := BeforeFirst address ":" |> in
  let port := AfterFirst address ":" in
  let* cs := (if negb (port =t []) then let* v := atol port in Ret (cs <| m_port := v |>)
              else Ret cs) in
  Ret (cs <| m_isOK := negb (m_host cs =t []) && negb (m_port cs =? -1) |>).

Definition DoParse (connectionString : text) (cs : ConnectionString) :
    exec failure ConnectionString :=
  let cs := cs <| m_isOK := false |> in
  let protocol := BeforeFirst connectionString ":" in
  if protocol =t "tcp" then
    let cs := cs <| m_protocol := Some kTcp |> in
    let* address := substr_2 (AfterFirst connectionString ":") in
    parse_tcp address cs
  else if protocol =t "unix" then
    let cs := cs <| m_protocol := Some kUnixLocalSocket |> in
    let* address := substr_2 (AfterFirst connectionString ":") in
    Ret (parse_unix address cs)
  else Ret cs.

Definition ConnectionString_new (connectionString : text) : exec failure ConnectionString :=
  DoParse connectionString (mkConnectionString None [] (-1) [] false).

(** ** Lemmas *)

(** [atol] reads back the decimal digits of a number. *)
Lemma atol_dec_nat {Er} n : 0 ≤ n ≤ LONG_MAX → atol (Er := Er) (dec_nat n) = Ret n.
Proof.
  intros Hn. assert (dec_nat n = dec n) as ->.
  { unfold dec. by destruct (Z.ltb_spec n 0); [lia|]. }
  apply atol_dec; [lia|]. apply is_long_spec. unfold LONG_MIN. lia.
Qed.

Lemma dec_nat_not_nil n : (dec_nat n =t []) = false.
Proof.
  apply teq_neq. unfold dec_nat. destruct (Z.to_nat (Z.log2 n)); simpl; [done|].
  case_match; [done|]. intros H'. by apply app_eq_nil in H' as [_ ?].
Qed.

Lemma substr_2_slashes a : substr_2 ("//" ++ a) = Ret a.
Proof. done. Qed.

(** ** What is parsed *)

(** C36: [tcp://host:port] gives the host and the port it says, for every host without a colon and
    every port that a [long] holds; an address that is shorter than the two slashes ([tcp:],
    [tcp], [unix:x]) throws [std::out_of_range]. *)
Theorem ConnectionString_tcp host port short : host ≠ [] → ":"%char ∉ host →
  0 ≤ port ≤ LONG_MAX → (length short < 2)%nat → ":"%char ∉ short →
  ConnectionString_new ("tcp://" ++ host ++ ":" ++ dec_nat port)
  = Ret (mkConnectionString (Some kTcp) host port [] true) ∧
  ConnectionString_new ("tcp:" ++ short) = Err OutOfRange ∧
  ConnectionString_new "tcp" = Err OutOfRange ∧
  ConnectionString_new ("unix:" ++ short) = Err OutOfRange.
Proof.
  intros Hh Hc Hp Hs Hsc. unfold ConnectionString_new, DoParse.
  assert (∀ a b : text, ":"%char ∉ a → BeforeFirst (a ++ ":" ++ b) ":" = a ∧
    AfterFirst (a ++ ":" ++ b) ":" = b) as Hcut
    by (intros; split; [by apply BeforeFirst_app|by apply AfterFirst_app]).
  split; [|split; [|split]].
  - change ("tcp://" ++ host ++ ":" ++ dec_nat port)
      with ("tcp" ++ ":" ++ ("//" ++ host ++ ":" ++ dec_nat port)).
    destruct (Hcut (lit "tcp") ("//" ++ host ++ ":" ++ dec_nat port)) as [-> ->].
    { refine (bool_decide_unpack _ _). vm_compute. exact I. }
    rewrite teq_refl, substr_2_slashes. cbn [exec_bind]. unfold parse_tcp.
    destruct (Hcut host (dec_nat port) Hc) as [-> ->]. rewrite dec_nat_not_nil. cbn [negb].
    rewrite atol_dec_nat by done. cbn [exec_bind]. cbn. rewrite teq_neq by done.
    destruct (Z.eqb_spec port (-1)); [lia|done].
  - change ("tcp:" ++ short) with ("tcp" ++ ":" ++ short).
    destruct (Hcut (lit "tcp") short) as [-> ->].
    { refine (bool_decide_unpack _ _). vm_compute. exact I. }
    rewrite teq_refl. unfold substr_2. destruct (Nat.ltb_spec (length short) 2); [done|lia].
  - vm_compute. reflexivity.
  - change ("unix:" ++ short) with ("unix" ++ ":" ++ short).
    destruct (Hcut (lit "unix") short) as [-> ->].
    { refine (bool_decide_unpack _ _). vm_compute. exact I. }
    rewrite teq_refl. unfold substr_2. destruct (Nat.ltb_spec (length short) 2); [done|lia].
Qed.

Lemma ConnectionString_tcp_witness :
  ConnectionString_new "tcp://127.0.0.1:12345"
  = Ret (mkConnectionString (Some kTcp) "127.0.0.1" 12345 [] true).
Proof.
  refine (proj1 (ConnectionString_tcp "127.0.0.1" 12345 [] _ _ _ _ _)).
  - discriminate.
  - refine (bool_decide_unpack _ _). vm_compute. exact I.
  - vm_compute. split; discriminate.
  - simpl. lia.
  - refine (bool_decide_unpack _ _). vm_compute. exact I.
Defined.

(** A port that is not a number is 0, which is accepted. *)
Example port_not_a_number :
  ConnectionString_new "tcp://localhost:http" = Ret (mkConnectionString (Some kTcp) "localhost" 0 [] true).
Proof. vm_compute. reflexivity. Qed.
