(* ===== verification/Socket.v ===== *)
(** * Socket.cpp, SocketClient.cpp, SocketServer.cpp, and the socket transport of Client.cpp.

    The system calls are parameters, functions of the state [World] of the system ([System]);
    what the theorems assume of them is stated where it is used.  The operations of a socket
    thread the world, also through an exception. *)
From S2P Require Import Prelude.
From S2P Require Import JsonRPC.
From S2P Require Import ConnectionString.
Local Open Scope Z_scope.

(** The calls of the system on a descriptor: what they return, and the world after them. *)
Class System := {
  World : Type;
  errno : World → Z;
  set_errno : Z → World → World;
  strerror : Z → text;
  EWOULDBLOCK : Z;
  FD_SETSIZE : Z;
  INADDR : Type;
  inet_pton : text → option INADDR;
  (** the address left indeterminate when [inet_pton] fails *)
  indeterminate_addr : INADDR;
  sys_socket : World → Z * World;
  sys_connect : Z → INADDR → Z → World → Z * World;
  sys_bind : Z → INADDR → Z → World → Z * World;
  sys_getsockname : Z → World → Z * Z * World;
  sys_listen : Z → Z → World → Z * World;
  sys_accept : Z → World → Z * World;
  sys_reuse_address : Z → World → World;
  sys_set_blocking : Z → bool → World → World;
  sys_select_read : Z → Z → Z → World → Z * World;
  sys_select_write : Z → Z → Z → World → Z * World;
  sys_recv : Z → nat → World → Z * text * World;
  sys_send : Z → text → World → Z * World;
  sys_shutdown : Z → World → World;
  sys_close : Z → World → World;
  sleep_ms : Z → World → World;
}.

Definition INVALID_SOCKET : Z := -1.
Definition kSuccess : Z := 1.
Definition kTimeout : Z := 2.

Record Socket := mkSocket {
  m_socket : Z;
  m_closeOnExit : bool;
}.

Section Socket.
Context `{System}.

(** A computation that may throw, in a world. *)
Abbreviation io A := (World → exec (failure * World) (A * World)).

Definition throw {A} (what : text) : io A := λ w, Err (Thrown (Exception what), w).

Definition error_text (errorCode : Z) : text := strerror errorCode.
(** [error()]: the message of [errno]. *)
Definition error (w : World) : text := error_text (errno w).

Definition MakeSocketBlocking (blocking : bool) (s : Socket) (w : World) : World :=
  sys_set_blocking (m_socket s) blocking w.

Definition Socket_new (sockfd : Z) (w : World) : Socket * World :=
  let s := mkSocket sockfd true in
  (s, if negb (sockfd =? INVALID_SOCKET) then MakeSocketBlocking false s w else w).

Definition DestroySocket (s : Socket) (w : World) : Socket * World :=
  let w := if m_closeOnExit s && negb (m_socket s =? INVALID_SOCKET)
           then sys_close (m_socket s) (sys_shutdown (m_socket s) w) else w in
  (mkSocket INVALID_SOCKET (m_closeOnExit s), w).

(** [Release]: the descriptor, and the socket without it. *)
Definition Release (s : Socket) : Z * Socket :=
  (m_socket s, mkSocket INVALID_SOCKET (m_closeOnExit s)).

(** [FD_SET] of a descriptor that an [fd_set] has no room for is undefined. *)
Definition FD_SET {A} (fd : Z) (k : io A) : io A := λ w,
  if (0 <=? fd) && (fd <? FD_SETSIZE) then k w else Undef.

Definition SelectWriteMS (milliSeconds : Z) (s : Socket) : io Z := λ w,
  if milliSeconds <? 0 then throw "Invalid timeout" w
  else if m_socket s =? INVALID_SOCKET then throw "Invalid socket!" w
  else FD_SET (m_socket s) (λ w,
    let w := set_errno 0 w in
    let '(rc, w) := sys_select_write (m_socket s) (Z.quot milliSeconds 1000)
                      (Z.rem milliSeconds 1000 * 1000) w in
    if rc =? 0 then Ret (kTimeout, w)
    else if rc <? 0 then throw ("SelectWriteMS failed: " ++ error w) w
    else Ret (kSuccess, w)) w.

Definition SelectReadMS (milliSeconds : Z) (s : Socket) : io Z := λ w,
  if milliSeconds <? 0 then throw "Invalid timeout" w
  else if m_socket s =? INVALID_SOCKET then throw "Invalid socket!" w
  else FD_SET (m_socket s) (λ w,
    let '(rc, w) := sys_select_read (m_socket s) (Z.quot milliSeconds 1000)
                      (Z.rem milliSeconds 1000 * 1000) w in
    if rc =? 0 then Ret (kTimeout, w)
    else if rc <? 0 then throw ("SelectRead failed: " ++ error w) w
    else Ret (kSuccess, w)) w.

(** [Read(buffer, bufferSize, bytesRead)]: with [kSuccess], the bytes read. *)
Definition Read_buffer (bufferSize : nat) (s : Socket) : io (Z * text) := λ w,
  let '(res, data, w) := sys_recv (m_socket s) bufferSize w in
  if res <? 0 then
    let err := errno w in
    if EWOULDBLOCK =? err then Ret ((kTimeout, []), w)
    else throw ("Read failed: " ++ error_text err) w
  else if 0 =? res then throw ("Read failed: " ++ error w) w
  else Ret ((kSuccess, take (Z.to_nat res) data), w).

(** [Read(content)]: [content] is assigned when bytes were read. *)
Definition Read (content : text) (s : Socket) : io (Z * text) := λ w,
  let* ((rc, data), w) := Read_buffer (16 * 1024) s w in
  Ret ((rc, if rc =? kSuccess then data else content), w).

(** The loop of [Send]: [pdata] and the [int] [bytesLeft]; a negative one makes [::send] read
    beyond the message. *)
Fixpoint Send_loop (fuel : nat) (s : Socket) (pdata : text) (bytesLeft : Z) : io unit := λ w,
  match fuel with
  | O => NoFuel
  | S f =>
      if bytesLeft =? 0 then Ret (tt, w)
      else
        let* (rc, w) := SelectWriteMS 1000 s w in
        if rc =? kTimeout then Send_loop f s pdata bytesLeft w
        else if bytesLeft <? 0 then Undef
        else
          let '(bytesSent, w) := sys_send (m_socket s) (take (Z.to_nat bytesLeft) pdata) w in
          if bytesSent <=? 0 then throw ("Send error: " ++ error w) w
          else Send_loop f s (drop (Z.to_nat bytesSent) pdata) (bytesLeft - bytesSent) w
  end.

Definition Send (fuel : nat) (msg : text) (s : Socket) : io unit := λ w,
  if m_socket s =? INVALID_SOCKET then throw "Invalid socket!" w
  else if msg =t [] then Ret (tt, w)
  else Send_loop fuel s msg (to_int32 (Z.of_nat (length msg))) w.

(** ** SocketClient.cpp *)

(** [htons] of an [int] argument: the low 16 bits. *)
Definition to_uint16 (port : Z) : Z := port mod 2 ^ 16.

Definition ConnectRemote (address : text) (port : Z) (s : Socket) (w : World) :
    bool * Socket * World :=
  let '(s, w) := DestroySocket s w in
  let '(fd, w) := sys_socket w in
  let s := mkSocket fd (m_closeOnExit s) in
  match inet_pton address with
  | None => (false, s, w)
  | Some addr =>
      let w := set_errno 0 w in
      let '(rc, w) := sys_connect fd addr (to_uint16 port) w in
      let w := if rc =? 0 then MakeSocketBlocking false s w else w in
      (rc =? 0, s, w)
  end.

(** An exception of [ConnectionString], in this world. *)
Definition lift_failure {A} (m : exec failure A) : io A := λ w,
  match m with
  | Ret a => Ret (a, w)
  | Err e => Err (e, w)
  | Undef => Undef
  | NoFuel => NoFuel
  end.

Definition SocketClient_Connect (connectionString : text) (s : Socket) : io (bool * Socket) :=
  λ w,
  let* (cs, w) := lift_failure (ConnectionString_new connectionString) w in
  if negb (m_isOK cs) then Ret ((false, s), w)
  else
    match m_protocol cs with
    | Some kUnixLocalSocket => throw "Unsupported protocol" w
    | Some kTcp =>
        let '(ok, s, w) := ConnectRemote (m_host cs) (to_int32 (m_port cs)) s w in
        Ret ((ok, s), w)
    | None => Undef
    end.

(** ** SocketServer.cpp *)

Definition CreateServer (address : text) (port : Z) (s : Socket) : io (Z * Socket) := λ w,
  let '(fd, w) := sys_socket w in
  let s := mkSocket fd (m_closeOnExit s) in
  if fd =? INVALID_SOCKET then throw ("Could not create socket: " ++ error w) w
  else
    let w := sys_reuse_address fd w in
    let addr := default indeterminate_addr (inet_pton address) in
    let '(rc, w) := sys_bind fd addr (to_uint16 port) w in
    if negb (rc =? 0) then throw ("CreateServer: bind() error: " ++ error w) w
    else
      let* (port, w) :=
        (if port =? 0 then
           let '(rc, sin_port, w) := sys_getsockname fd w in
           if negb (rc =? 0) then throw ("CreateServer: getsockname() error: " ++ error w) w
           else Ret (sin_port, w)
         else Ret (port, w)) in
      let '(rc, w) := sys_listen fd 10 w in
      if negb (rc =? 0) then throw ("CreateServer: listen() error: " ++ error w) w
      else Ret ((port, s), w).

Definition Start (connectionString : text) (s : Socket) : io (Z * Socket) := λ w,
  let* (cs, w) := lift_failure (ConnectionString_new connectionString) w in
  if negb (m_isOK cs) then throw "Invalid connection string provided" w
  else
    match m_protocol cs with
    | Some kTcp => CreateServer (m_host cs) (to_int32 (m_port cs)) s w
    | Some kUnixLocalSocket => throw "Unsupported protocol" w
    | None => Undef
    end.

Definition WaitForNewConnectionRaw (timeout : Z) (s : Socket) : io (option Socket) := λ w,
  if timeout <? 0 then Ret (None, w)
  else
    let* (rc, w) := SelectReadMS (timeout * 1000) s w in
    if rc =? kTimeout then Ret (None, w)
    else
      let '(fd, w) := sys_accept (m_socket s) w in
      if fd <? 0 then throw ("accept error: " ++ error w) w
      else let '(conn, w) := Socket_new fd w in Ret (Some conn, w).

(** ** The transport over a socket (Client.cpp) *)

(** The loop of [Connect]; [loops] is a [long] that counts down to 0. *)
Fixpoint Connect_loop (fuel : nat) (connection_string : text) (loops : Z) (s : Socket) :
    io (bool * Socket) := λ w,
  match fuel with
  | O => NoFuel
  | S f =>
      if loops =? 0 then Ret ((false, s), w)
      else
        let* ((ok, s), w) := SocketClient_Connect connection_string s w in
        if negb ok then
          let w := sleep_ms 1 w in
          if loops =? LONG_MIN then Undef
          else Connect_loop f connection_string (loops - 1) s w
        else Ret ((true, s), w)
  end.

Definition SocketTransport_Connect (fuel : nat) (connection_string : text) (timeoutSeconds : Z)
    (s : Socket) : io (bool * Socket) :=
  Connect_loop fuel connection_string (timeoutSeconds * 1000) s.

(** [try { body } catch (Exception& e) { handler }]: the other exceptions go on. *)
Definition try_catch {A} (body : io A) (handler : A) : io A := λ w,
  match body w with
  | Err (Thrown _, w) => Ret (handler, w)
  | r => r
  end.

(** The result, and what [buffer] holds. *)
Definition SocketTransport_Read (msTimeout : Z) (s : Socket) : io (bool * text) :=
  try_catch (λ w,
    let* (rc, w) := SelectReadMS msTimeout s w in
    if rc =? kTimeout then Ret ((true, []), w)
    else
      let* ((rc, buffer), w) := Read [] s w in
      if negb (rc =? kSuccess) then Ret ((false, buffer), w) else Ret ((true, buffer), w))
    (false, []).

Definition SocketTransport_Send (fuel : nat) (buffer : text) (s : Socket) : io Z :=
  try_catch (λ w,
    let* (_, w) := Send fuel buffer s w in
    Ret (Z.of_nat (length buffer), w)) 0.
End Socket.
