(* ===== verification/SocketSpec.v ===== *)
(** * What a socket delivers: theorems on [Send] and on the socket transport.

    [Kernel] states what the system does with the bytes of a connected descriptor; the theorems
    are proved against it, and a small kernel that accepts and delivers the bytes in pieces shows
    that it can hold. *)
From S2P Require Import Prelude.
From S2P Require Import JsonRPC.
From S2P Require Import ConnectionString.
From S2P Require Import Socket.
Local Open Scope Z_scope.

(** The bytes the system took from the program ([written]) and handed to it ([received]) over a
    descriptor.  [idle] bounds how often in a row [select] will report that a descriptor is not
    writable. *)
Class Kernel `{System} := {
  written : World → Z → text;
  received : World → Z → text;
  idle : World → Z → nat;
  most_idle : nat;
  idle_bound w fd : (idle w fd ≤ most_idle)%nat;
  set_errno_written e w fd : written (set_errno e w) fd = written w fd;
  set_errno_idle e w fd : idle (set_errno e w) fd = idle w fd;
  select_write_written fd s us w : written (sys_select_write fd s us w).2 fd = written w fd;
  (** a select that times out makes the next ones fewer *)
  select_write_timeout fd s us w : (sys_select_write fd s us w).1 = 0 →
    (idle (sys_select_write fd s us w).2 fd < idle w fd)%nat;
  (** [send] takes a prefix of the data, or nothing *)
  send_written fd data w : ∃ n : nat, (n ≤ length data)%nat ∧
    written (sys_send fd data w).2 fd = written w fd ++ take n data ∧
    ((sys_send fd data w).1 = Z.of_nat n ∨ (n = 0%nat ∧ (sys_send fd data w).1 ≤ 0));
  select_read_received fd s us w : received (sys_select_read fd s us w).2 fd = received w fd;
  (** [recv] hands over the next bytes, or nothing *)
  recv_received fd n w :
    let '(res, data, w') := sys_recv fd n w in
    received w' fd = received w fd ++ take (Z.to_nat res) data;
}.

Section SocketSpec.
Context `{Kernel}.

(** A descriptor that an [fd_set] has room for. *)
Definition in_range (s : Socket) : Prop := 0 ≤ m_socket s < FD_SETSIZE.

Lemma in_range_test s : in_range s →
  (0 <=? m_socket s) && (m_socket s <? FD_SETSIZE) = true ∧ (m_socket s =? INVALID_SOCKET) = false.
Proof. unfold in_range, INVALID_SOCKET. intros []. split; lia. Qed.

(** What [SelectWriteMS] does, over the call of the system. *)
Lemma SelectWriteMS_spec ms s w : in_range s → 0 ≤ ms → ∃ w',
  (SelectWriteMS ms s w = Ret (kTimeout, w') ∧ (idle w' (m_socket s) < idle w (m_socket s))%nat ∨
   SelectWriteMS ms s w = Ret (kSuccess, w') ∨ ∃ e, SelectWriteMS ms s w = Err (Thrown e, w')) ∧
  written w' (m_socket s) = written w (m_socket s).
Proof.
  intros Hs Hms. destruct (in_range_test s Hs) as [Hr Hi]. unfold SelectWriteMS, FD_SET.
  assert ((ms <? 0) = false) as -> by lia. rewrite Hi, Hr. cbv zeta.
  pose proof (select_write_written (m_socket s) (Z.quot ms 1000) (Z.rem ms 1000 * 1000) (set_errno 0 w)) as Hw.
  pose proof (select_write_timeout (m_socket s) (Z.quot ms 1000) (Z.rem ms 1000 * 1000) (set_errno 0 w)) as Ht.
  destruct (sys_select_write _ _ _ _) as [rc w']. simpl in *. rewrite set_errno_written in Hw.
  rewrite set_errno_idle in Ht. exists w'. split; [|done].
  destruct (Z.eqb_spec rc 0); [left; auto|]. destruct (rc <? 0); eauto.
Qed.

(** The iterations that the loop of [Send] still needs. *)
Definition send_rank (s : Socket) (bytesLeft : nat) (w : World) : nat :=
  bytesLeft * S most_idle + idle w (m_socket s).

Lemma Send_loop_spec s : in_range s → ∀ fuel pdata w,
  match Send_loop fuel s pdata (Z.of_nat (length pdata)) w with
  | Ret (_, w') => written w' (m_socket s) = written w (m_socket s) ++ pdata
  | Err (e, w') => (∃ x, e = Thrown x) ∧ ∃ n, (n < length pdata)%nat ∧
      written w' (m_socket s) = written w (m_socket s) ++ take n pdata
  | Undef => False
  | NoFuel => (fuel ≤ send_rank s (length pdata) w)%nat
  end.
Proof.
  intros Hs fuel. induction fuel as [|fuel IH]; intros pdata w; [simpl; lia|]. cbn [Send_loop].
  destruct (Z.eqb_spec (Z.of_nat (length pdata)) 0) as [E|E].
  { destruct pdata; [|simpl in E; lia]. by rewrite app_nil_r. }
  destruct (SelectWriteMS_spec 1000 s w Hs ltac:(lia)) as (w1 & [[-> Hi]|[->|[e ->]]] & Hw); simpl.
  - specialize (IH pdata w1). destruct (Send_loop _ _ _ _ _) as [[]|[]| |]; rewrite ?Hw in IH; auto.
    unfold send_rank in *. lia.
  - assert ((Z.of_nat (length pdata) <? 0) = false) as -> by lia.
    rewrite Nat2Z.id, take_ge by lia.
    destruct (send_written (m_socket s) pdata w1) as (n & Hn & Hw2 & Hrc).
    pose proof (idle_bound (sys_send (m_socket s) pdata w1).2 (m_socket s)) as Hb.
    destruct (sys_send _ _ _) as [rc w2]. simpl in *. rewrite Hw in Hw2.
    destruct (Z.leb_spec rc 0) as [Hle|Hgt].
    { destruct Hrc as [-> | [-> _]].
      - assert (n = 0%nat) as -> by lia. split; [eauto|]. exists 0%nat. split; [lia|done].
      - split; [eauto|]. exists 0%nat. split; [lia|done]. }
    destruct Hrc as [-> | [_ ?]]; [|lia]. rewrite Nat2Z.id.
    replace (Z.of_nat (length pdata) - Z.of_nat n) with (Z.of_nat (length (drop n pdata)))
      by (rewrite length_drop; lia).
    specialize (IH (drop n pdata) w2). rewrite length_drop in *.
    destruct (Send_loop _ _ _ _ _) as [[]|[e w']| |].
    + by rewrite IH, Hw2, <- app_assoc, take_drop.
    + destruct IH as [He (k & Hk & E2)]. split; [done|]. exists (n + k)%nat. split; [lia|].
      by rewrite E2, Hw2, <- app_assoc, <- take_take_drop.
    + done.
    + unfold send_rank in *. nia.
  - split; [eauto|]. exists 0%nat. split; [lia|]. by rewrite Hw, app_nil_r.
Qed.

(** C17: [Send] blocks until the whole message is sent: on every path the system has taken a prefix
    of the message, all of it when [Send] returns and not all of it when it throws; and it returns
    or throws after a bounded number of rounds when the descriptor becomes writable from time to
    time. *)
Theorem Send_delivers fuel msg s w : in_range s → is_int (Z.of_nat (length msg)) = true →
  match Send fuel msg s w with
  | Ret (_, w') => written w' (m_socket s) = written w (m_socket s) ++ msg
  | Err (e, w') => (∃ x, e = Thrown x) ∧ ∃ n, (n < length msg)%nat ∧
      written w' (m_socket s) = written w (m_socket s) ++ take n msg
  | Undef => False
  | NoFuel => (fuel ≤ length msg * S most_idle + most_idle)%nat
  end.
Proof.
  intros Hs Hm. unfold Send. rewrite (proj2 (in_range_test s Hs)).
  destruct (teq_spec msg []) as [->|_]; [by rewrite app_nil_r|].
  rewrite to_int32_id by done. pose proof (Send_loop_spec s Hs fuel msg w) as Hl.
  destruct (Send_loop _ _ _ _ _) as [[]| | |]; auto.
  pose proof (idle_bound w (m_socket s)). unfold send_rank in Hl. lia.
Qed.
(** C31: [Read] of the socket transport never throws and loses no byte: what the system handed over
    is what was received before followed by the buffer.  It reports a failure, always with an
    empty buffer, exactly when [select] fails or [recv] returns no byte, be it that the connection
    is closed or that the data [select] announced is gone (a time out by the documentation). *)
Theorem SocketTransport_Read_stream ms s w : in_range s → 0 ≤ ms →
  let '(rc, w1) := sys_select_read (m_socket s) (Z.quot ms 1000) (Z.rem ms 1000 * 1000) w in
  let '(res, _, w2) := sys_recv (m_socket s) (16 * 1024) w1 in
  ∃ ok buffer w',
    SocketTransport_Read ms s w = Ret ((ok, buffer), w') ∧
    received w' (m_socket s) = received w (m_socket s) ++ buffer ∧
    ok = ((rc =? 0) || ((0 <? rc) && (0 <? res))) ∧
    ((rc =? 0) = true ∨ ok = false → buffer = []) ∧
    w' = (if 0 <? rc then w2 else w1).
Proof.
  intros Hs Hms. destruct (in_range_test s Hs) as [Hr Hi].
  unfold SocketTransport_Read, try_catch, SelectReadMS, FD_SET, Read, Read_buffer.
  generalize (16 * 1024)%nat as size. intros size.
  assert ((ms <? 0) = false) as -> by lia. rewrite Hi, Hr.
  pose proof (select_read_received (m_socket s) (Z.quot ms 1000) (Z.rem ms 1000 * 1000) w) as Hw.
  destruct (sys_select_read _ _ _ _) as [rc w1]. simpl in Hw.
  pose proof (recv_received (m_socket s) size w1) as Hv.
  destruct (sys_recv _ _ _) as [[res data] w2] eqn:Er. cbv zeta.
  destruct (Z.eqb_spec rc 0) as [->|Hrc].
  { cbn. exists true, [], w1. rewrite app_nil_r. intuition (congruence || eauto). }
  destruct (Z.ltb_spec rc 0) as [Hneg|Hpos].
  { assert ((0 <? rc) = false) as -> by lia. cbn. exists false, [], w1. rewrite app_nil_r.
    intuition (congruence || eauto). }
  assert ((0 <? rc) = true) as -> by lia. cbn -[Z.eqb Z.ltb].
  change (kSuccess =? kTimeout) with false. cbn iota. rewrite Er.
  destruct (Z.ltb_spec res 0) as [Hn|Hn].
  { assert ((0 <? res) = false) as -> by lia. rewrite Z2Nat.nonpos in Hv by lia.
    exists false, [], w2. rewrite Hv, Hw. destruct (_ =? errno w2); cbn; intuition (congruence || eauto). }
  destruct (Z.eqb_spec 0 res) as [<-|Hne].
  { exists false, [], w2. rewrite Hv, Hw. cbn. intuition (congruence || eauto). }
  assert ((0 <? res) = true) as -> by lia. cbn. exists true, (take (Z.to_nat res) data), w2.
  rewrite Hv, Hw. intuition (congruence || eauto).
Qed.

(** Waiting hands over nothing; reading hands over what it returns. *)
Lemma SelectReadMS_keeps ms s w :
  match SelectReadMS ms s w with
  | Ret (_, w') | Err (_, w') => received w' (m_socket s) = received w (m_socket s)
  | _ => True
  end.
Proof.
  unfold SelectReadMS, FD_SET, throw.
  pose proof (select_read_received (m_socket s) (Z.quot ms 1000) (Z.rem ms 1000 * 1000) w) as Hw.
  destruct (sys_select_read _ _ _ _) as [rc w']. by repeat case_match; simplify_eq.
Qed.

Lemma Read_hands_over s w :
  match Read [] s w with
  | Ret ((rc, content), w') =>
      received w' (m_socket s) = received w (m_socket s) ++ (if rc =? kSuccess then content else [])
      ∧ ((rc =? kSuccess) = false → content = [])
  | Err (_, w') => received w' (m_socket s) = received w (m_socket s)
  | _ => True
  end.
Proof.
  unfold Read, Read_buffer, throw. generalize (16 * 1024)%nat. intros size.
  pose proof (recv_received (m_socket s) size w) as Hv.
  destruct (sys_recv (m_socket s) size w) as [[res data] w2].
  destruct (Z.ltb_spec res 0).
  - rewrite Z2Nat.nonpos in Hv by lia. rewrite app_nil_r in Hv.
    destruct (_ =? errno w2); cbn; rewrite ?app_nil_r; auto.
  - destruct (Z.eqb_spec 0 res) as [<-|]; cbn; [by rewrite app_nil_r in Hv|]. by split.
Qed.

Lemma SelectReadMS_received ms s w rc w' : SelectReadMS ms s w = Ret (rc, w') →
  received w' (m_socket s) = received w (m_socket s).
Proof. intros E. pose proof (SelectReadMS_keeps ms s w) as Hk. by rewrite E in Hk. Qed.

Lemma Read_received s w rc content w' : Read [] s w = Ret ((rc, content), w') →
  received w' (m_socket s) = received w (m_socket s) ++ (if rc =? kSuccess then content else []).
Proof. intros E. pose proof (Read_hands_over s w) as Hk. rewrite E in Hk. apply Hk. Qed.

Lemma SocketTransport_Read_handed ms s w ok buffer w' :
  SocketTransport_Read ms s w = Ret ((ok, buffer), w') →
  received w' (m_socket s) = received w (m_socket s) ++ buffer ∧ (ok = false → buffer = []).
Proof.
  unfold SocketTransport_Read, try_catch. pose proof (SelectReadMS_keeps ms s w) as Hs.
  destruct (SelectReadMS ms s w) as [[rc w1]|[[] w1]| |]; cbn [exec_bind]; try done;
    [|by intros [= <- <- <-]; rewrite app_nil_r].
  destruct (rc =? kTimeout); [by intros [= <- <- <-]; rewrite app_nil_r|].
  pose proof (Read_hands_over s w1) as Hr.
  destruct (Read [] s w1) as [[[rc2 data] w2]|[[] w2]| |]; cbn [exec_bind]; try done;
    [|by intros [= <- <- <-]; rewrite app_nil_r, Hr].
  destruct Hr as [Hr Hd]. rewrite Hs in Hr.
  destruct (rc2 =? kSuccess); intros [= <- <- <-]; [done|]. rewrite (Hd eq_refl). by rewrite Hr.
Qed.

(** [Connect] gives up: with more fuel than attempts it is decided. *)
Lemma Connect_loop_decided fuel cs loops s w : 0 ≤ loops < Z.of_nat fuel →
  (∀ s w, SocketClient_Connect cs s w ≠ NoFuel) →
  Connect_loop fuel cs loops s w ≠ NoFuel.
Proof.
  intros Hl Hc. revert loops s w Hl. induction fuel as [|fuel IH]; intros loops s w Hl; [lia|].
  cbn [Connect_loop]. destruct (Z.eqb_spec loops 0); [done|]. specialize (Hc s w).
  destruct (SocketClient_Connect cs s w) as [[[[] s1] w1]| | |]; simpl; try done.
  case_match; [done|]. apply IH. lia.
Qed.
End SocketSpec.

(** ** A small kernel *)

Section Samples.

(** The descriptor 3: what was taken from the program, what was handed to it, what is to come, and
    whether the next [select] finds it writable. *)
Record wire := mkWire {
  wire_out : text;
  wire_in : text;
  wire_next : text;
  wire_ready : bool;
}.

(** Every other [select] finds the descriptor writable; [send] takes at most [most_out] bytes, [recv]
    hands over at most [most_in]. *)
Definition wire_system (most_out most_in : nat) : System := {|
  World := wire; errno _ := 11; set_errno _ w := w; strerror _ := []; EWOULDBLOCK := 11;
  FD_SETSIZE := 1024; INADDR := text; inet_pton t := Some t; indeterminate_addr := [];
  sys_socket w := (3, w); sys_connect _ _ _ w := (0, w); sys_bind _ _ _ w := (0, w);
  sys_getsockname _ w := (0, 4711, w); sys_listen _ _ w := (0, w); sys_accept _ w := (4, w);
  sys_reuse_address _ w := w; sys_set_blocking _ _ w := w;
  sys_select_read _ _ _ w := (if wire_next w =t [] then 0 else 1, w);
  sys_select_write _ _ _ w :=
    if wire_ready w then (1, mkWire (wire_out w) (wire_in w) (wire_next w) false)
    else (0, mkWire (wire_out w) (wire_in w) (wire_next w) true);
  sys_recv _ n w :=
    let data := take (n `min` most_in) (wire_next w) in
    (if data =t [] then -1 else Z.of_nat (length data), data,
     mkWire (wire_out w) (wire_in w ++ data) (drop (length data) (wire_next w)) (wire_ready w));
  sys_send _ data w :=
    let taken := take most_out data in
    (Z.of_nat (length taken),
     mkWire (wire_out w ++ taken) (wire_in w) (wire_next w) (wire_ready w));
  sys_shutdown _ w := w; sys_close _ w := w; sleep_ms _ w := w;
|}.

Program Definition wire_kernel (most_out most_in : nat) : @Kernel (wire_system most_out most_in) := {|
  written w _ := wire_out (w : wire);
  received w _ := wire_in (w : wire);
  idle w _ := if wire_ready (w : wire) then 0%nat else 1%nat;
  most_idle := 1%nat;
|}.
Next Obligation. intros ? ? w ?. simpl. destruct (wire_ready w); lia. Qed.
Next Obligation. done. Qed.
Next Obligation. done. Qed.
Next Obligation. intros ????? w. simpl. by destruct (wire_ready w). Qed.
Next Obligation. intros ????? w. simpl. destruct (wire_ready w); simpl; lia. Qed.
Next Obligation.
  intros most_out ?? data w. exists (length (take most_out data)). split; [rewrite length_take; lia|].
  split; [|by left]. simpl. by rewrite length_take, <- take_take, (take_ge data (length data)).
Qed.
Next Obligation. done. Qed.
Next Obligation.
  intros ? most_in ? n w. simpl.
  destruct (teq_spec (take (n `min` most_in) (wire_next w)) []) as [->|]; simpl; [done|].
  by rewrite Nat2Z.id, firstn_all.
Qed.

#[local] Instance sample_system : System := wire_system 3 4.
#[local] Instance sample_kernel : Kernel := wire_kernel 3 4.

Definition sample_wire : World := mkWire [] [] "Content" false.
Definition sample_socket : Socket := mkSocket 3 true.

Lemma Send_delivers_witness :
  in_range sample_socket ∧ Send 20 "a message" sample_socket sample_wire
    = Ret (tt, mkWire "a message" [] "Content" false) ∧
  wire_out (mkWire "a message" [] "Content" false) = [] ++ lit "a message".
Proof.
  assert (in_range sample_socket) as Hs by (unfold in_range; simpl; lia).
  assert (Send 20 "a message" sample_socket sample_wire
    = Ret (tt, mkWire "a message" [] "Content" false)) as E by (vm_compute; reflexivity).
  split; [exact Hs|]. split; [exact E|].
  pose proof (Send_delivers 20 "a message" sample_socket sample_wire Hs eq_refl) as Hd.
  rewrite E in Hd. exact Hd.
Defined.

Lemma SocketTransport_Read_stream_witness : ∃ buffer w',
  SocketTransport_Read 5 sample_socket sample_wire = Ret ((true, buffer), w') ∧
  wire_in w' = [] ++ buffer.
Proof.
  assert (in_range sample_socket) as Hs by (unfold in_range; simpl; lia).
  destruct (SocketTransport_Read_stream 5 sample_socket sample_wire Hs) as (ok & b & w' & E & Hr & Hok & _);
    [lia|]. exists b, w'. change (ok = true) in Hok. subst ok. split; [exact E|exact Hr].
Defined.
End Samples.
