(* ===== verification/ServerProtocol.v ===== *)
(** * ServerProtocol.cpp, ServerProtocol.hpp: the server side of a connection.

    A [Server] is the object with the members of its [JsonRPC], its connection, the generator of
    the process and the state of the program; its operations thread the world of the sockets.
    The callback of the program is a parameter ([ServerHandlers]). *)
From S2P Require Import Prelude.
From S2P Require Import Double.
From S2P Require Import CJson.
From S2P Require Import Json.
From S2P Require Import Any.
From S2P Require Import DapData.
From S2P Require Import DapEnvironment.
From S2P Require Import DapMessages.
From S2P Require Import DapRegistry.
From S2P Require Import DapProtocol.
From S2P Require Import JsonRPC.
From S2P Require Import ConnectionString.
From S2P Require Import Socket.
From S2P Require Import SocketSpec.
Local Open Scope Z_scope.

Class ServerApplication := { ServerApp : Type }.

Section ServerProtocol.
Context `{Platform} `{HashOrder} `{System} `{ServerApplication}.

(** [m_onNetworkMessage] says whether a callback is registered, [m_conn] is the socket the shared
    pointer points to. *)
Record Server := mkServer {
  server_rpc : text;
  m_conn : option Socket;
  m_onNetworkMessage : bool;
  server_generator : ObjGenerator;
  server_app : ServerApp;
}.

#[export] Instance Server_settable : Settable Server :=
  rebuild mkServer <@> server_rpc <@> m_conn <@> m_onNetworkMessage <@> server_generator
  <@> server_app.

#[export] Instance Server_Buffered : Buffered Server.
Proof.
  refine {| get_buffer := server_rpc; set_buffer b s := s <| server_rpc := b |> |};
    by intros; try match goal with s : Server |- _ => destruct s end.
Defined.

(** An operation of the server in a world, and what it throws. *)
Abbreviation running := (Server * World)%type.
Abbreviation server_thrown := (failure * running)%type.
Abbreviation server_action := (running → exec server_thrown running).

(** The callback runs with the server as it is at the call. *)
Class ServerHandlers := { onNetworkMessage : Message → server_action }.
Context `{ServerHandlers}.

(** A server and the world, or a local variable of a function and those. *)
#[export] Instance with_Buffered {X Y} `{Buffered Y} : Buffered (X * Y).
Proof.
  refine {| get_buffer p := get_buffer p.2; set_buffer b p := (p.1, set_buffer b p.2) |}.
  - intros b [x y]. apply get_set_buffer.
  - intros b b' [x y]. cbn [fst snd]. f_equal; try apply set_set_buffer.
  - intros [x y]. cbn [fst snd]. f_equal; try apply set_get_buffer.
Defined.
#[export] Instance running_Buffered : Buffered running.
Proof.
  refine {| get_buffer r := get_buffer r.1; set_buffer b r := (set_buffer b r.1, r.2) |}.
  - intros b [x y]. apply get_set_buffer.
  - intros b b' [x y]. cbn [fst snd]. f_equal; try apply set_set_buffer.
  - intros [x y]. cbn [fst snd]. f_equal; try apply set_get_buffer.
Defined.

Definition ServerProtocol_new (conn : option Socket) (g : ObjGenerator) (a : ServerApp) : Server :=
  mkServer [] conn false g a.

Definition RegisterNetworkCallback (s : Server) : Server := s <| m_onNetworkMessage := true |>.

(** An operation of the socket [m_conn]; a null pointer is dereferenced. *)
Definition on_conn {A} (op : Socket → World → exec (failure * World) (A * World)) (r : running) :
    exec server_thrown (A * running) :=
  match m_conn r.1 with
  | None => Undef
  | Some conn =>
      match op conn r.2 with
      | Ret (a, w) => Ret (a, (r.1, w))
      | Err (e, w) => Err (e, (r.1, w))
      | Undef => Undef
      | NoFuel => NoFuel
      end
  end.

(** [m_rpc.Send(msg, m_conn)]; [fuel] is the one of [Socket::Send]. *)
Definition server_Send (fuel : nat) (msg : Message) : server_action := λ r,
  match m_conn r.1 with
  | None => Err (Thrown (Exception "Invalid connection"), r)
  | Some _ =>
      let* payload := match Message_ToString msg with
                      | Ret t => Ret t
                      | Err _ => Ret []
                      | Undef => Undef
                      | NoFuel => NoFuel
                      end in
      let* (_, r) := on_conn (Send fuel (frame payload)) r in
      Ret r
  end.

(** [ObjGenerator::Get().FromJSON(json)] *)
Definition server_FromJSON (json : Json) (r : running) : option Message * running :=
  let '(msg, g) := FromJSON json (server_generator r.1) in
  (msg, (r.1 <| server_generator := g |>, r.2)).

(** The construction of a local message. *)
Definition server_new (k : MessageClass) (r : running) : running :=
  (r.1 <| server_generator := construct k (server_generator r.1) |>, r.2).

Definition is_InitializeRequest (msg : Message) : bool :=
  match msg with msg_InitializeRequest _ => true | _ => false end.

(** The callback of [Initialize], with its variable [state] ([true] is [kDone]). *)
Definition OnInitialize (fuel : nat) (json : Json) (st : bool * running) :
    exec server_thrown (bool * running) :=
  let '(state, r) := st in
  let '(request, r) := server_FromJSON json r in
  match request with
  | Some request =>
      if (ProtocolMessage_type (Message_protocol request) =t "request")
         && is_InitializeRequest request then
        let r := server_new class_InitializeResponse r in
        let* r := server_Send fuel (new_message class_InitializeResponse) r in
        let r := server_new class_InitializedEvent r in
        let* r := server_Send fuel (new_message class_InitializedEvent) r in
        Ret (true, r)
      else Ret (state, r)
  | None => Ret (state, r)
  end.

(** The loop of [Initialize]: [fuel] rounds, each [Send] with [send_fuel]. *)
Fixpoint Initialize_loop (fuel send_fuel : nat) (state : bool) (r : running) :
    exec server_thrown running :=
  match fuel with
  | O => NoFuel
  | S f =>
      if state then Ret r
      else
        let* (rc, r) := on_conn (SelectReadMS 10) r in
        if rc =? kSuccess then
          let* ((rc, network_buffer), r) := on_conn (Read []) r in
          if rc =? kSuccess then
            let* (state, r) := receive (OnInitialize send_fuel) network_buffer (state, r) in
            Initialize_loop f send_fuel state r
          else Initialize_loop f send_fuel state r
        else Initialize_loop f send_fuel state r
  end.

Definition server_Initialize (fuel send_fuel : nat) : server_action :=
  Initialize_loop fuel send_fuel false.

(** The callback of [Check]. *)
Definition OnCheck (json : Json) : server_action := λ r,
  let '(message, r) := server_FromJSON json r in
  match message with
  | Some message => onNetworkMessage message r
  | None => Ret r
  end.

(** [m_rpc.ProcessBuffer(OnCheck)]: the length of the buffer is fuel enough. *)
Definition process_messages : server_action := λ r,
  ProcessBuffer OnCheck (S (length (get_buffer r))) r.

Definition Check_ : server_action := λ r,
  if m_onNetworkMessage r.1 then
    let* (rc, r) := on_conn (SelectReadMS 10) r in
    let* r :=
      (if rc =? kSuccess then
         let* ((rc, content), r) := on_conn (Read []) r in
         if rc =? kSuccess then Ret (set_buffer (AppendBuffer content (get_buffer r)) r) else Ret r
       else Ret r) in
    process_messages r
  else Ret r.

Definition ProcessGdbMessage (fuel : nat) (message : option Message) : server_action := λ r,
  match message with
  | None => Undef
  | Some message => server_Send fuel message r
  end.
End ServerProtocol.
Arguments Server {_}.
