(* ===== verification/ServerSpec.v ===== *)
(** * What the server side of a connection receives and answers. *)
From S2P Require Import Prelude.
From S2P Require Import Double.
From S2P Require Import CJson.
From S2P Require Import Json.
From S2P Require Import Any.
From S2P Require Import DapData.
From S2P Require Import DapEnvironment.
From S2P Require Import DapMessages.
From S2P Require Import DapRegistry.
From S2P Require Import DapProtocol.
From S2P Require Import JsonRPC.
From S2P Require Import ConnectionString.
From S2P Require Import Socket.
From S2P Require Import SocketSpec.
From S2P Require Import ServerProtocol.
Local Open Scope Z_scope.

Section ServerSpec.
Context `{Platform} `{HashOrder} `{ServerApplication}.

(** ** Messages on the wire *)

(** A message of a class the generator makes, with the members its constructor set, and the text
    [ToString] writes for it. *)
Definition on_wire (m : Message) (t : text) : Prop :=
  valid_Message m = true ∧ tagged m = true ∧ readable (class_of m) = true ∧
  Message_ToString m = Ret t ∧ is_int (Z.of_nat (length t)) = true.

(** The texts of the messages, one after the other, as [Send] frames them. *)
Definition wire_of (ts : list text) : text := concat (map frame ts).

(** What the texts parse to. *)
Definition parsed (m : Message) (p : text * Json) : Prop :=
  ∀ g, loaded g → FromJSON p.2 g = (Some m, construct (class_of m) g).

Lemma on_wire_sendable m t : on_wire m t → ∃ j, sendable (t, j) ∧ parsed m (t, j).
Proof.
  intros (Hv & Ht & Hc & Hs & Hl).
  destruct (message_text m Hv Ht Hc) as (t' & j & Ht' & Hp & Hj & Hf).
  rewrite Hs in Ht'. injection Ht' as <-. exists j. split; [|exact Hf].
  split_and!; [|done|done]. split; [|done]. simpl. intros ->. vm_compute in Hp. by injection Hp as <-.
Qed.

Lemma on_wire_stream ms ts : Forall2 on_wire ms ts → ∃ ps,
  Forall sendable ps ∧ Forall2 parsed ms ps ∧ stream ps = wire_of ts.
Proof.
  induction 1 as [|m t ms ts Hm _ (ps & Hps & Hparsed & E)]; [by exists []|].
  destruct (on_wire_sendable m t Hm) as (j & Hj & Hp). exists ((t, j) :: ps).
  split_and!; [by constructor|by constructor|]. unfold stream, wire_of in *. simpl. by rewrite E.
Qed.

(** ** [Check] *)
Context `{Kernel} `{!ServerHandlers}.

(** A callback that only changes the state of the program, by [step]. *)
Definition quiet (step : Message → ServerApp → ServerApp) : Prop := ∀ m s w,
  onNetworkMessage m (s, w) = Ret (s <| server_app := step m (server_app s) |>, w).

Context (step : Message → ServerApp → ServerApp) (Hquiet : quiet step).

(** What the callback of [Check] makes of the server. *)
Definition note (json : Json) (s : Server) : exec (failure * (Server * World)) Server :=
  let '(message, g) := FromJSON json (server_generator s) in
  let s := s <| server_generator := g |> in
  Ret (match message with
       | Some m => s <| server_app := step m (server_app s) |>
       | None => s
       end).

Lemma OnCheck_note json s w : OnCheck json (s, w) = let* s := note json s in Ret (s, w).
Proof.
  unfold OnCheck, note, server_FromJSON. simpl.
  destruct (FromJSON json (server_generator s)) as [[m|] g]; [|done]. by rewrite Hquiet.
Qed.

Lemma ProcessBuffer_note f : ∀ s w,
  ProcessBuffer OnCheck f (s, w) = let* s := ProcessBuffer note f s in Ret (s, w).
Proof.
  induction f as [|f IH]; intros s w; [done|]. cbn [ProcessBuffer].
  change (get_buffer (s, w)) with (get_buffer s).
  destruct (DoProcessBuffer (get_buffer s)) as [[j b]| | |]; simpl; try done.
  destruct (IsOK j); [|done]. change (set_buffer b (s, w)) with (set_buffer b s, w).
  rewrite OnCheck_note, exec_bind_assoc. destruct (note j _); [apply IH|done..].
Qed.

(** A server that is ready to check its connection. *)
Definition checking (conn : Socket) (s : Server) : Prop :=
  m_conn s = Some conn ∧ m_onNetworkMessage s = true.

Lemma note_checking conn json s s' : checking conn s → note json s = Ret s' → checking conn s'.
Proof.
  unfold note, checking. destruct (FromJSON json (server_generator s)) as [[m|] g]; by intros ? [= <-].
Qed.

Lemma note_transparent : transparent note.
Proof.
  intros j b s s'. unfold note. change (server_generator (set_buffer b s)) with (server_generator s).
  destruct (FromJSON j (server_generator s)) as [[m|] g]; by intros [= <-].
Qed.

(** A round of [Check] receives what came over the connection meanwhile. *)
Lemma Check_receive conn s w s' w' : in_range conn → checking conn s → Check_ (s, w) = Ret (s', w') →
  ∃ chunk, receive note chunk s = Ret s' ∧
    received w' (m_socket conn) = received w (m_socket conn) ++ chunk.
Proof.
  intros Hc [Hs Hon]. unfold Check_, on_conn. cbn [fst snd]. rewrite Hon, Hs. intros Hr.
  apply exec_bind_Ret in Hr as ([rc r] & Hr & Hk).
  destruct (SelectReadMS 10 conn w) as [[rc' w1]|[]| |] eqn:Hsel; try discriminate Hr.
  injection Hr as -> <-. apply SelectReadMS_received in Hsel.
  apply exec_bind_Ret in Hk as (r & Hr & Hk).
  assert (∃ chunk w2, r = (set_buffer (AppendBuffer chunk (get_buffer s)) s, w2) ∧
    received w2 (m_socket conn) = received w (m_socket conn) ++ chunk) as (chunk & w2 & -> & Hw).
  { assert (s = set_buffer (AppendBuffer [] (get_buffer s)) s) as Es.
    { unfold AppendBuffer. by rewrite app_nil_r, set_get_buffer. }
    destruct (rc =? kSuccess); [|injection Hr as <-; exists [], w1; by rewrite <- Es, app_nil_r, Hsel].
    cbn [fst snd] in Hr. rewrite Hs in Hr. apply exec_bind_Ret in Hr as ([[rc2 content] r2] & Hr & Hk2).
    destruct (Read [] conn w1) as [[[rc2' c2] w2]|[]| |] eqn:Hread; try discriminate Hr.
    injection Hr as -> -> <-. apply Read_received in Hread. rewrite Hsel in Hread.
    destruct (rc2 =? kSuccess); injection Hk2 as <-;
      [exists content, w2|exists [], w2; rewrite <- Es]; done. }
  unfold process_messages in Hk. rewrite ProcessBuffer_note in Hk.
  apply exec_bind_Ret in Hk as (s2 & Hk & E). injection E as -> ->. exists chunk.
  split; [|done]. unfold receive. exact Hk.
Qed.

Fixpoint Checks (n : nat) (r : Server * World) : exec (failure * (Server * World)) (Server * World) :=
  match n with
  | O => Ret r
  | S n => let* r := Check_ r in Checks n r
  end.

Lemma receive_checking conn chunk s s' : checking conn s → receive note chunk s = Ret s' →
  checking conn s'.
Proof.
  unfold receive. intros Hs. apply (ProcessBuffer_preserves note (checking conn)).
  - by intros b s0 [].
  - intros j s0 s1. apply note_checking.
  - done.
Qed.

Lemma Checks_receive conn n : ∀ s w s' w', in_range conn → checking conn s →
  Checks n (s, w) = Ret (s', w') →
  ∃ chunks, receive_all note chunks s = Ret s' ∧
    received w' (m_socket conn) = received w (m_socket conn) ++ concat chunks.
Proof.
  induction n as [|n IH]; intros s w s' w' Hc Hs Hr.
  { injection Hr as <- <-. exists []. by rewrite app_nil_r. }
  apply exec_bind_Ret in Hr as ([s1 w1] & Hone & Hr).
  destruct (Check_receive conn s w s1 w1) as (chunk & Hk & E); [done..|].
  destruct (IH s1 w1 s' w') as (chunks & Hks & E'); [done| |done|].
  { by eapply receive_checking. }
  exists (chunk :: chunks). simpl. by rewrite Hk, E', E, <- app_assoc.
Qed.

Lemma deliver_note ms ps : Forall2 parsed ms ps → ∀ s, loaded (server_generator s) →
  ∃ s', deliver note (map snd ps) s = Ret s' ∧
    server_app s' = foldl (λ a m, step m a) (server_app s) ms ∧ server_rpc s' = server_rpc s.
Proof.
  induction 1 as [|m p ms ps Hp _ IH]; intros s Hl; [by exists s|]. simpl. unfold note at 1.
  rewrite (Hp _ Hl). cbn [exec_bind].
  destruct (IH (s <| server_generator := construct (class_of m) (server_generator s) |>
                  <| server_app := step m (server_app s) |>)) as (s' & Hd & Ha & Hb).
  { by apply loaded_construct. }
  by exists s'.
Qed.


(** ** [Initialize] *)
Section Initialize.

Lemma on_conn_Ret {A} (op : Socket → World → exec (failure * World) (A * World)) conn (s : Server) w
  (a : A) w' : m_conn s = Some conn → op conn w = Ret (a, w') → on_conn op (s, w) = Ret (a, (s, w')).
Proof. intros Hs Ho. unfold on_conn. cbn [fst snd]. by rewrite Hs, Ho. Qed.

Lemma server_Send_new k fuel conn (s : Server) w w' : m_conn s = Some conn →
  Message_ToString (new_message k) = Ret (text_of (new_message k)) →
  Send fuel (frame (text_of (new_message k))) conn w = Ret (tt, w') →
  server_Send fuel (new_message k) (s, w) = Ret (s, w').
Proof.
  intros Hs Ht Hw. unfold server_Send, on_conn. cbn [fst snd]. rewrite Hs, Ht.
  cbn [exec_bind fst snd]. by rewrite Hw.
Qed.

Lemma server_Send_buffer fuel m b (s : Server) w r : server_Send fuel m (s, w) = Ret r →
  server_Send fuel m (set_buffer b s, w) = Ret (set_buffer b r) ∧ r.1 = s.
Proof.
  unfold server_Send, on_conn. cbn [fst snd]. change (m_conn (set_buffer b s)) with (m_conn s).
  destruct (m_conn s) as [conn|] eqn:Hs; [|discriminate].
  destruct (Message_ToString m); cbn [exec_bind fst snd]; try discriminate.
  all: change (m_conn (set_buffer b s)) with (m_conn s); rewrite ?Hs.
  all: destruct (Send _ _ _ w) as [[]|[]| |]; try discriminate; by intros [= <-].
Qed.

Lemma OnInitialize_transparent fuel : transparent (OnInitialize fuel).
Proof.
  intros j b [state [s w]] st'. unfold OnInitialize, server_FromJSON. cbn [fst snd].
  change (set_buffer b (state, (s, w))) with (state, (set_buffer b s, w)). cbn [fst snd].
  change (server_generator (set_buffer b s)) with (server_generator s).
  destruct (FromJSON j (server_generator s)) as [[m|] g]; [|by intros [= <-]].
  destruct (_ && _); [|by intros [= <-]]. unfold server_new. cbn [fst snd].
  intros ([s1 w1] & Hone & (r & Htwo & [= <-])%exec_bind_Ret)%exec_bind_Ret.
  apply (server_Send_buffer _ _ b) in Hone as [Hone E]. cbn [fst] in E. subst s1.
  apply (server_Send_buffer _ _ b) in Htwo as [Htwo _].
  refine (eq_trans (f_equal (λ x, exec_bind x _) Hone) _). cbn [exec_bind].
  exact (eq_trans (f_equal (λ x, exec_bind x _) Htwo) eq_refl).
Qed.

(** A message that is not an initialize request changes the generator only. *)
Lemma OnInitialize_ignores fuel m p state s w : parsed m p → loaded (server_generator s) →
  is_InitializeRequest m = false →
  OnInitialize fuel p.2 (state, (s, w)) =
    Ret (state, (s <| server_generator := construct (class_of m) (server_generator s) |>, w)).
Proof.
  intros Hp Hl Hm. unfold OnInitialize, server_FromJSON. cbn [fst snd].
  by rewrite (Hp _ Hl), Hm, andb_false_r.
Qed.

Lemma deliver_ignores fuel ms ps state w : Forall2 parsed ms ps →
  Forall (λ m, is_InitializeRequest m = false) ms → ∀ s, loaded (server_generator s) →
  ∃ g, loaded g ∧ deliver (OnInitialize fuel) (map snd ps) (state, (s, w))
    = Ret (state, (s <| server_generator := g |>, w)).
Proof.
  induction 1 as [|m p ms ps Hp _ IH]; intros Hms s Hl.
  { exists (server_generator s). split; [done|]. by destruct s. }
  inversion Hms as [|? ? Hm Hms']; subst. cbn [map deliver].
  rewrite (OnInitialize_ignores fuel m p) by done. cbn [exec_bind].
  destruct (IH Hms' (s <| server_generator := construct (class_of m) (server_generator s) |>))
    as (g & Hg & E); [by apply loaded_construct|]. by exists g.
Qed.

(** The initialize request is answered by the two messages. *)
Lemma OnInitialize_answers fuel m p conn state (s : Server) w w1 w2 :
  parsed m p → loaded (server_generator s) → tagged m = true → is_InitializeRequest m = true →
  m_conn s = Some conn →
  Send fuel (frame (text_of (new_message class_InitializeResponse))) conn w = Ret (tt, w1) →
  Send fuel (frame (text_of (new_message class_InitializedEvent))) conn w1 = Ret (tt, w2) →
  ∃ g, loaded g ∧ OnInitialize fuel p.2 (state, (s, w)) = Ret (true, (s <| server_generator := g |>, w2)).
Proof.
  intros Hp Hl Ht Hm Hs Hone Htwo. unfold OnInitialize, server_FromJSON. cbn [fst snd].
  rewrite (Hp _ Hl), Hm, andb_true_r. destruct m; try discriminate Hm.
  apply andb_true_iff in Ht as [-> _]. unfold server_new. cbn [fst snd].
  erewrite (server_Send_new _ _ conn _ w w1); [|exact Hs|vm_compute; reflexivity|exact Hone].
  cbn [exec_bind fst snd].
  erewrite (server_Send_new _ _ conn _ w1 w2); [|exact Hs|vm_compute; reflexivity|exact Htwo].
  eexists. split; [|reflexivity]. by do 3 apply loaded_construct.
Qed.

(** The loop of [Initialize]: one read with the request in it. *)
Lemma Initialize_returns before m after ts conn s w w1 w2 w3 w4 fuel send_fuel :
  Forall2 on_wire (before ++ m :: after) ts →
  is_InitializeRequest m = true →
  Forall (λ m, is_InitializeRequest m = false) (before ++ after) →
  m_conn s = Some conn → loaded (server_generator s) → server_rpc s = [] →
  SelectReadMS 10 conn w = Ret (kSuccess, w1) →
  Read [] conn w1 = Ret ((kSuccess, wire_of ts), w2) →
  Send send_fuel (frame (text_of (new_message class_InitializeResponse))) conn w2 = Ret (tt, w3) →
  Send send_fuel (frame (text_of (new_message class_InitializedEvent))) conn w3 = Ret (tt, w4) →
  ∃ g, loaded g ∧
    server_Initialize (S (S fuel)) send_fuel (s, w) = Ret (s <| server_generator := g |>, w4).
Proof.
  intros Hms Hm Hno Hs Hl Hb Hsel Hread H3' H4'. apply Forall_app in Hno as [Hbefore Hafter].
  destruct (on_wire_stream _ _ Hms) as (ps & Hps & Hp & E).
  apply Forall2_app_inv_l in Hp as (ps1 & ps2 & Hp1 & Hp2 & ->).
  apply Forall2_cons_inv_l in Hp2 as (p & ps3 & Hp & Hp3 & ->).
  apply Forall2_app_inv_l in Hms as (ts1 & ts2 & _ & Hms & ->).
  apply Forall2_cons_inv_l in Hms as (t & ts3 & (_ & Ht & _) & _ & ->).
  destruct (deliver_ignores send_fuel before ps1 false w2 Hp1 Hbefore s Hl) as (g1 & Hg1 & D1).
  destruct (OnInitialize_answers send_fuel m p conn false (s <| server_generator := g1 |>) w2 w3 w4)
    as (g2 & Hg2 & D2); try done.
  destruct (deliver_ignores send_fuel after ps3 true w4 Hp3 Hafter
    (s <| server_generator := g1 |> <| server_generator := g2 |>)) as (g3 & Hg3 & D3);
    [exact Hg2|].
  exists g3. split; [done|]. unfold server_Initialize. cbn [Initialize_loop].
  rewrite (on_conn_Ret _ conn s w _ w1 Hs Hsel). cbn [exec_bind]. change (kSuccess =? kSuccess) with true.
  cbv iota. rewrite (on_conn_Ret _ conn s w1 _ w2 Hs Hread). cbn [exec_bind].
  change (kSuccess =? kSuccess) with true. cbv iota. rewrite <- E.
  erewrite (receive_stream (OnInitialize send_fuel) (OnInitialize_transparent _) _ _ _ Hps); [| |].
  2: { exact Hb. }
  2: { rewrite map_app. rewrite (deliver_app_Ret _ _ _ _ _ D1). cbn [map deliver]. rewrite D2.
       cbn [exec_bind]. exact D3. }
  cbn. destruct s; cbn in *; by subst.
Qed.

(** C27: [Initialize] answers the initialize request with the response and the initialized event and
    returns; the messages before the request are ignored, and the messages [after] that arrived
    with it are lost: they are taken out of the buffer, and the callback of the program was not
    called. *)
Theorem Initialize_answers before m after ts conn s w w1 w2 w3 w4 fuel send_fuel :
  Forall2 on_wire (before ++ m :: after) ts →
  is_InitializeRequest m = true →
  Forall (λ m, is_InitializeRequest m = false) (before ++ after) →
  m_conn s = Some conn → loaded (server_generator s) → server_rpc s = [] →
  SelectReadMS 10 conn w = Ret (kSuccess, w1) →
  Read [] conn w1 = Ret ((kSuccess, wire_of ts), w2) →
  Send send_fuel (frame (text_of (new_message class_InitializeResponse))) conn w2 = Ret (tt, w3) →
  Send send_fuel (frame (text_of (new_message class_InitializedEvent))) conn w3 = Ret (tt, w4) →
  ∃ g, loaded g ∧
    server_Initialize (S (S fuel)) send_fuel (s, w) = Ret (s <| server_generator := g |>, w4).
Proof. apply Initialize_returns. Qed.
End Initialize.
End ServerSpec.

(** ** A server that keeps the messages *)
Section Samples.
#[local] Existing Instance sample_platform.
#[local] Existing Instance sample_hash.
#[local] Instance keeping : ServerApplication := {| ServerApp := list Message |}.
#[local] Instance slow_system : System := wire_system 3 50.
#[local] Instance slow_kernel : Kernel := wire_kernel 3 50.
Definition keep (m : Message) (a : @ServerApp keeping) : @ServerApp keeping :=
  (a : list Message) ++ [m].
#[local] Instance keeper : ServerHandlers :=
  {| onNetworkMessage m r :=
       Ret (r.1 <| server_app := (server_app r.1 : list Message) ++ [m] |>, r.2) |}.

Definition sample_requests : list Message :=
  [msg_InitializeRequest InitializeRequest_fresh; msg_ThreadsRequest (Request_new "threads");
   msg_ConfigurationDoneRequest (Request_new "configurationDone")].
Definition sample_texts : list text := map text_of sample_requests.

Definition sample_server : Server :=
  RegisterNetworkCallback
    (ServerProtocol_new (Some sample_socket) (Initialize ObjGenerator_empty) ([] : list Message)).

Definition sample_bytes : @World slow_system := mkWire [] [] (wire_of sample_texts) true.

Lemma sample_on_wire : Forall2 on_wire sample_requests sample_texts.
Proof. repeat constructor; vm_compute; reflexivity. Qed.

Lemma sample_in_range : in_range sample_socket.
Proof. unfold in_range. simpl. lia. Qed.

End Samples.

Section Samples2.
#[local] Existing Instance sample_platform.
#[local] Existing Instance sample_hash.
#[local] Existing Instance keeping.
#[local] Instance fast_system : System := wire_system 1000 1000.

Lemma Initialize_answers_witness : ∃ g w', loaded g ∧
  server_Initialize 2 100 (sample_server, sample_bytes : @World fast_system)
  = Ret (sample_server <| server_generator := g |>, w').
Proof.
  set (w := (sample_bytes : @World fast_system)).
  assert (∃ w1 w2 w3 w4, SelectReadMS 10 sample_socket w = Ret (kSuccess, w1) ∧
    Read [] sample_socket w1 = Ret ((kSuccess, wire_of sample_texts), w2) ∧
    Send 100 (frame (text_of (new_message class_InitializeResponse))) sample_socket w2 = Ret (tt, w3) ∧
    Send 100 (frame (text_of (new_message class_InitializedEvent))) sample_socket w3 = Ret (tt, w4))
    as (w1 & w2 & w3 & w4 & Hsel & Hread & Hone & Htwo).
  { eexists _, _, _, _. split; [vm_compute; reflexivity|]. split; [vm_compute; reflexivity|].
    split; vm_compute; reflexivity. }
  destruct (Initialize_answers [] (msg_InitializeRequest InitializeRequest_fresh)
    (tail sample_requests) sample_texts sample_socket sample_server w w1 w2 w3 w4 0 100)
    as (g & Hg & E).
  - apply sample_on_wire.
  - exact eq_refl.
  - repeat constructor.
  - exact eq_refl.
  - apply loaded_Initialize.
  - exact eq_refl.
  - exact Hsel.
  - exact Hread.
  - exact Hone.
  - exact Htwo.
  - exists g, w4. split; [exact Hg|exact E].
Defined.
End Samples2.
