(* ===== verification/DapKinds.v ===== *)
(** * dap.cpp: what a pool holds, and which of the three casts of a message succeeds. *)
From S2P Require Import Prelude.
From S2P Require Import Double.
From S2P Require Import CJson.
From S2P Require Import Json.
From S2P Require Import Any.
From S2P Require Import DapData.
From S2P Require Import DapEnvironment.
From S2P Require Import DapMessages.
From S2P Require Import DapRegistry.
Local Open Scope Z_scope.

Section Kinds.
Context `{Platform} `{HashOrder}.

Inductive kind := kind_event | kind_request | kind_response.

#[export] Instance kind_eq_dec : EqDecision kind.
Proof. solve_decision. Defined.

Definition kind_text (k : kind) : text :=
  match k with kind_event => "event" | kind_request => "request" | kind_response => "response" end.

(** The kind of a class: the base it derives from. *)
Definition class_kind (c : MessageClass) : kind :=
  if Message_Event (new_message c) is Some _ then kind_event
  else if Message_Request (new_message c) is Some _ then kind_request else kind_response.

Definition pool_kind (k : kind) (p : gmap text MessageClass) : Prop :=
  ∀ name c, p !! name = Some c → class_kind c = k.

(** Every pool holds classes of its own kind only. *)
Definition kinded (g : ObjGenerator) : Prop :=
  pool_kind kind_event (m_events g) ∧ pool_kind kind_request (m_requests g) ∧
  pool_kind kind_response (m_responses g).

Lemma kinded_empty : kinded ObjGenerator_empty.
Proof. repeat split; intros name c Hl; vm_compute in Hl; discriminate Hl. Qed.

Lemma pool_kind_insert k n c p : class_kind c = k → pool_kind k p → pool_kind k (pool_insert n c p).
Proof.
  intros Hc Hp name c'. unfold pool_insert. destruct (p !! n); [apply Hp|].
  rewrite lookup_insert_Some. intros [[_ <-]|[_ Hl]]; [done|by eapply Hp].
Qed.

Lemma kinded_RegisterEvent n c g : class_kind c = kind_event → kinded g → kinded (RegisterEvent n c g).
Proof. intros Hc (?&?&?). repeat split; [by apply pool_kind_insert|done..]. Qed.
Lemma kinded_RegisterRequest n c g :
  class_kind c = kind_request → kinded g → kinded (RegisterRequest n c g).
Proof. intros Hc (?&?&?). repeat split; [done|by apply pool_kind_insert|done]. Qed.
Lemma kinded_RegisterResponse n c g :
  class_kind c = kind_response → kinded g → kinded (RegisterResponse n c g).
Proof. intros Hc (?&?&?). repeat split; [done..|by apply pool_kind_insert]. Qed.

Lemma kinded_construct c g : kinded g → kinded (construct c g).
Proof.
  intros Hg. destruct c; simpl; repeat first
    [ done | apply kinded_RegisterEvent; [done|] | apply kinded_RegisterRequest; [done|]
    | apply kinded_RegisterResponse; [done|] ].
Qed.

Lemma kinded_Initialize g : kinded g → kinded (Initialize g).
Proof.
  unfold Initialize. generalize registered_classes as l. intros l. revert g.
  induction l as [|c l IH]; intros g Hg; [done|]. apply IH. by apply kinded_construct.
Qed.

(** The kind of a message is that of its class. *)
Lemma class_kind_cases m :
  match class_kind (class_of m) with
  | kind_event => is_Some (Message_Event m)
  | kind_request => is_Some (Message_Request m)
  | kind_response => is_Some (Message_Response m)
  end.
Proof. destruct m; vm_compute; eauto. Qed.

Lemma class_of_From j m : class_of (Message_From j m) = class_of m.
Proof. by destruct m. Qed.

(** [FromJSON] makes a message of the kind that the [type] of the text names. *)
Lemma FromJSON_class j g m g' : kinded g → FromJSON j g = (Some m, g') →
  ProtocolMessage_type (Message_protocol m) = kind_text (class_kind (class_of m)).
Proof.
  intros (He & Hq & Hr). unfold FromJSON. destruct (negb (IsOK j)); [done|].
  set (command := if _ : bool then get_string j.["event"] else _).
  destruct (New (get_string j.["type"]) command g) as [[m0|] g0] eqn:E; [|done].
  intros [= <- <-]. rewrite Message_From_type, class_of_From.
  revert E. unfold New, New_from.
  destruct (teq_spec (get_string j.["type"]) "response") as [->|_].
  { destruct (m_responses g !! command) as [c|] eqn:Ec; [|done]. intros [= <- <-].
    by rewrite class_of_new, (Hr _ _ Ec). }
  destruct (teq_spec (get_string j.["type"]) "request") as [->|_].
  { destruct (m_requests g !! command) as [c|] eqn:Ec; [|done]. intros [= <- <-].
    by rewrite class_of_new, (Hq _ _ Ec). }
  destruct (teq_spec (get_string j.["type"]) "event") as [->|_]; [|done].
  destruct (m_events g !! command) as [c|] eqn:Ec; [|done]. intros [= <- <-].
  by rewrite class_of_new, (He _ _ Ec).
Qed.

Lemma FromJSON_kinded j g : kinded g → kinded (FromJSON j g).2.
Proof.
  intros Hg. unfold FromJSON. destruct (negb (IsOK j)); [done|].
  set (command := if _ : bool then get_string j.["event"] else _).
  unfold New, New_from. repeat case_match; simplify_eq/=; try done; by apply kinded_construct.
Qed.

(** C12: a message that the generator makes is what its [type] says: exactly one of the casts
    [AsEvent], [AsRequest], [AsResponse] succeeds, so that the casts that the client does without
    a test never give a null pointer. *)
Theorem FromJSON_casts j g m g' :
  kinded g → FromJSON j g = (Some m, g') →
  kinded g' ∧
  match class_kind (class_of m) with
  | kind_event => is_Some (AsEvent m) ∧ AsRequest m = None ∧ AsResponse m = None
  | kind_request => AsEvent m = None ∧ is_Some (AsRequest m) ∧ AsResponse m = None
  | kind_response => AsEvent m = None ∧ AsRequest m = None ∧ is_Some (AsResponse m)
  end.
Proof.
  intros Hg Hm. split; [pose proof (FromJSON_kinded j g Hg) as Hk; by rewrite Hm in Hk|].
  pose proof (FromJSON_class _ _ _ _ Hg Hm) as Ht. pose proof (class_kind_cases m) as Hc.
  unfold AsEvent, AsRequest, AsResponse. rewrite Ht. by destruct (class_kind (class_of m)).
Qed.
End Kinds.

Section Samples.
#[local] Existing Instance sample_platform.
#[local] Existing Instance sample_hash.

Definition sample_event : Message := msg_InitializedEvent (Event_new "initialized").

Lemma FromJSON_casts_witness :
  kinded (construct class_InitializedEvent (Initialize ObjGenerator_empty)) ∧
  is_Some (AsEvent sample_event) ∧ AsRequest sample_event = None ∧ AsResponse sample_event = None.
Proof.
  pose proof (FromJSON_casts (Message_To sample_event) (Initialize ObjGenerator_empty) sample_event
    (construct class_InitializedEvent (Initialize ObjGenerator_empty))) as Hc.
  apply Hc; [apply kinded_Initialize, kinded_empty|].
  by apply FromJSON_sim; [..|apply loaded_Initialize|reflexivity|].
Defined.
End Samples.
