(* ===== verification/Client.v ===== *)
(** * Client.cpp, Client.hpp, DAPEvent.hpp: the DAP client.

    [Client] is the object with its members.  Four more fields hold what its operations change
    beyond it: [sent] is what was handed to [Transport::Send], with the transport, in order;
    [threads] counts the reader threads that were started;
    [generator] the [ObjGenerator] of the process; [app] the state of the program that uses the
    client.  A transport is a number, the address of the object.  The event handlers of the
    program ([ProcessEvent] calls them synchronously) and its callbacks are the parameters of
    [Handlers]: they run with the client as it is at the call, may call its operations, and may
    throw.  The reader thread itself is modelled in Session.v; here [m_readerThread] says whether
    the pointer is set.  Freeing a request is leaving its map. *)
From S2P Require Import Prelude.
From S2P Require Import Double.
From S2P Require Import CJson.
From S2P Require Import CJsonTree.
From S2P Require Import Json.
From S2P Require Import Any.
From S2P Require Import DapData.
From S2P Require Import DapEnvironment.
From S2P Require Import DapMessages.
From S2P Require Import DapRegistry.
From S2P Require Import JsonRPC.
Local Open Scope Z_scope.

(** ** Events *)

Inductive wxEventType :=
| wxEVT_DAP_LOG_EVENT | wxEVT_DAP_LOST_CONNECTION
| wxEVT_DAP_INITIALIZE_RESPONSE | wxEVT_DAP_STACKTRACE_RESPONSE | wxEVT_DAP_SCOPES_RESPONSE
| wxEVT_DAP_VARIABLES_RESPONSE | wxEVT_DAP_SET_SOURCE_BREAKPOINT_RESPONSE
| wxEVT_DAP_SET_FUNCTION_BREAKPOINT_RESPONSE | wxEVT_DAP_BREAKPOINT_LOCATIONS_RESPONSE
| wxEVT_DAP_CONFIGURARIONE_DONE_RESPONSE | wxEVT_DAP_LAUNCH_RESPONSE
| wxEVT_DAP_THREADS_RESPONSE
| wxEVT_DAP_RUN_IN_TERMINAL_REQUEST
| wxEVT_DAP_STOPPED_EVENT | wxEVT_DAP_STOPPED_ON_ENTRY_EVENT | wxEVT_DAP_PROCESS_EVENT
| wxEVT_DAP_EXITED_EVENT | wxEVT_DAP_TERMINATED_EVENT | wxEVT_DAP_INITIALIZED_EVENT
| wxEVT_DAP_OUTPUT_EVENT | wxEVT_DAP_BREAKPOINT_EVENT | wxEVT_DAP_CONTINUED_EVENT
| wxEVT_DAP_MODULE_EVENT | wxEVT_DAP_DEBUGPYWAITINGFORSERVER_EVENT.

#[export] Instance wxEventType_eq_dec : EqDecision wxEventType.
Proof. solve_decision. Defined.

Record DAPEvent `{Platform} `{HashOrder} := mkDAPEvent {
  event_type : wxEventType;
  m_object : option Message;
  m_originatingRequest : option Message;
  event_string : text;
}.
Arguments mkDAPEvent {_ _}.

(** ** Enumerations *)

Inductive eHandshakeState := kNotPerformed | kInProgress | kCompleted.

Inductive SteppingGranularity := LINE | STATEMENT | INSTRUCTION.
Inductive ValueDisplayFormat := NATIVE | HEX.

Inductive eFeatures :=
| supportsConfigurationDoneRequest | supportsFunctionBreakpoints
| supportsConditionalBreakpoints | supportsHitConditionalBreakpoints
| supportsEvaluateForHovers | supportsStepBack | supportsSetVariable | supportsRestartFrame
| supportsGotoTargetsRequest | supportsStepInTargetsRequest | supportsCompletionsRequest
| supportsModulesRequest | supportsRestartRequest | supportsExceptionOptions
| supportsValueFormattingOptions | supportsExceptionInfoRequest | supportTerminateDebuggee
| supportsDelayedStackTraceLoading | supportsLoadedSourcesRequest
| supportsProgressReporting | supportsRunInTerminalRequest
| supportsBreakpointLocationsRequest.

#[export] Instance eFeatures_eq_dec : EqDecision eFeatures.
Proof. solve_decision. Defined.

(** The features in the order of the enumeration, each with its name. *)
Definition features : list (eFeatures * text) :=
  [ (supportsConfigurationDoneRequest, lit "supportsConfigurationDoneRequest");
    (supportsFunctionBreakpoints, lit "supportsFunctionBreakpoints");
    (supportsConditionalBreakpoints, lit "supportsConditionalBreakpoints");
    (supportsHitConditionalBreakpoints, lit "supportsHitConditionalBreakpoints");
    (supportsEvaluateForHovers, lit "supportsEvaluateForHovers");
    (supportsStepBack, lit "supportsStepBack");
    (supportsSetVariable, lit "supportsSetVariable");
    (supportsRestartFrame, lit "supportsRestartFrame");
    (supportsGotoTargetsRequest, lit "supportsGotoTargetsRequest");
    (supportsStepInTargetsRequest, lit "supportsStepInTargetsRequest");
    (supportsCompletionsRequest, lit "supportsCompletionsRequest");
    (supportsModulesRequest, lit "supportsModulesRequest");
    (supportsRestartRequest, lit "supportsRestartRequest");
    (supportsExceptionOptions, lit "supportsExceptionOptions");
    (supportsValueFormattingOptions, lit "supportsValueFormattingOptions");
    (supportsExceptionInfoRequest, lit "supportsExceptionInfoRequest");
    (supportTerminateDebuggee, lit "supportTerminateDebuggee");
    (supportsDelayedStackTraceLoading, lit "supportsDelayedStackTraceLoading");
    (supportsLoadedSourcesRequest, lit "supportsLoadedSourcesRequest");
    (supportsProgressReporting, lit "supportsProgressReporting");
    (supportsRunInTerminalRequest, lit "supportsRunInTerminalRequest");
    (supportsBreakpointLocationsRequest, lit "supportsBreakpointLocationsRequest") ].

(** The position of a feature, and its value [1 << position]. *)
Definition feature_index (f : eFeatures) : Z :=
  match f with
  | supportsConfigurationDoneRequest => 0 | supportsFunctionBreakpoints => 1
  | supportsConditionalBreakpoints => 2 | supportsHitConditionalBreakpoints => 3
  | supportsEvaluateForHovers => 4 | supportsStepBack => 5 | supportsSetVariable => 6
  | supportsRestartFrame => 7 | supportsGotoTargetsRequest => 8
  | supportsStepInTargetsRequest => 9 | supportsCompletionsRequest => 10
  | supportsModulesRequest => 11 | supportsRestartRequest => 12
  | supportsExceptionOptions => 13 | supportsValueFormattingOptions => 14
  | supportsExceptionInfoRequest => 15 | supportTerminateDebuggee => 16
  | supportsDelayedStackTraceLoading => 17 | supportsLoadedSourcesRequest => 18
  | supportsProgressReporting => 19 | supportsRunInTerminalRequest => 20
  | supportsBreakpointLocationsRequest => 21
  end.
Definition feature_bit (f : eFeatures) : Z := Z.shiftl 1 (feature_index f).

(** ** The object *)

(** The types of the program that uses the client: its state, and what stands for the
    [std::function] objects it passes. *)
Class Application := {
  App : Type;
  source_loaded_cb : Type;
  evaluate_cb : Type;
}.

Section Client.
Context `{Platform} `{HashOrder} `{Application}.

Record Client := mkClient {
  m_transport : option nat;
  m_rpc : text;
  m_shutdown : bool;
  m_terminated : bool;
  m_readerThread : bool;
  m_requestSeuqnce : Z;
  m_handshake_state : eHandshakeState;
  m_active_thread_id : Z;
  m_can_interact : bool;
  m_requestIdToFilepath : gmap Z text;
  m_features : Z;
  m_wants_log_events : bool;
  m_get_frames_queue : list Z;
  m_get_scopes_queue : list Z;
  m_get_variables_queue : list (Z * EvaluateContext);
  m_load_sources_queue : list source_loaded_cb;
  m_evaluate_queue : list evaluate_cb;
  m_source_breakpoints_queue : list text;
  m_in_flight_requests : gmap Z Message;
  sent : list (nat * text);
  threads : nat;
  generator : ObjGenerator;
  app : App;
}.

#[export] Instance Client_settable : Settable Client :=
  rebuild mkClient <@> m_transport <@> m_rpc <@> m_shutdown <@> m_terminated <@> m_readerThread
  <@> m_requestSeuqnce <@> m_handshake_state <@> m_active_thread_id <@> m_can_interact
  <@> m_requestIdToFilepath <@> m_features <@> m_wants_log_events <@> m_get_frames_queue
  <@> m_get_scopes_queue <@> m_get_variables_queue <@> m_load_sources_queue <@> m_evaluate_queue
  <@> m_source_breakpoints_queue <@> m_in_flight_requests <@> sent <@> threads <@> generator <@> app.

#[export] Instance Client_Buffered : Buffered Client.
Proof.
  refine {| get_buffer := m_rpc; set_buffer b c := c <| m_rpc := b |> |};
    by intros; try match goal with c : Client |- _ => destruct c end.
Defined.

(** ** The program's side *)

(** What is thrown, with the state of the client at that moment. *)
Abbreviation thrown := (exception * Client)%type.
Abbreviation action := (Client → exec thrown Client).

(** [GetFullName] is [wxFileName::GetFullName] of the file name. *)
Class Handlers := {
  handle : DAPEvent → action;
  call_source_loaded : source_loaded_cb → bool → text → text → action;
  call_evaluate : evaluate_cb → bool → text → text → Z → action;
  GetFullName : text → text;
}.
Context `{Handlers}.

Definition ProcessEvent (event : DAPEvent) : action := handle event.

(** ** Construction, threads, reset *)

(** [new T()] runs the constructors of the class. *)
Definition new (k : MessageClass) (c : Client) : Client :=
  c <| generator := construct k (generator c) |>.

(** The members of a client that is just constructed. *)
Definition Client_new (g : ObjGenerator) (out : list (nat * text)) (a : App) : Client :=
  mkClient None [] false false false 0 kNotPerformed wxNOT_FOUND false ∅ 0 false [] [] [] [] [] []
    ∅ out 0 (Initialize g) a.

Definition IsConnected (c : Client) : bool := m_readerThread c && negb (m_terminated c).

Definition StopReaderThread (c : Client) : Client :=
  if negb (m_readerThread c) then c
  else c <| m_shutdown := true |> <| m_readerThread := false |>.

Definition StartReaderThread (c : Client) : Client :=
  if m_readerThread c || negb (if m_transport c is Some _ then true else false) then c
  else c <| m_readerThread := true |> <| threads := S (threads c) |>.

Definition Reset (c : Client) : Client :=
  let c := StopReaderThread c in
  let c := c <| m_transport := None |> in
  let c := c <| m_shutdown := false |> <| m_terminated := false |> in
  let c := c <| m_rpc := [] |> <| m_requestSeuqnce := 0 |> in
  let c := c <| m_handshake_state := kNotPerformed |> <| m_active_thread_id := wxNOT_FOUND |> in
  let c := c <| m_can_interact := false |> <| m_requestIdToFilepath := ∅ |> in
  let c := c <| m_features := 0 |> <| m_load_sources_queue := [] |> in
  let c := c <| m_get_frames_queue := [] |> <| m_get_scopes_queue := [] |> in
  let c := c <| m_get_variables_queue := [] |> <| m_source_breakpoints_queue := [] |> in
  let c := c <| m_evaluate_queue := [] |> in
  c <| m_in_flight_requests := ∅ |>.

Definition SetTransport (transport : option nat) (c : Client) : Client :=
  let c := Reset c in
  let c := c <| m_transport := None |> in
  let c := c <| m_transport := transport |> in
  StartReaderThread c.

Definition OnConnectionError : action := λ c,
  let* c := ProcessEvent (mkDAPEvent wxEVT_DAP_LOST_CONNECTION None None []) c in
  Ret (Reset c).

(** ** Sending *)

(** The text of [Json::ToString], which throws nothing. *)
Definition json_text (j : Json) : exec thrown text :=
  match ToString false j with
  | Ret t => Ret t
  | Err _ => Ret []
  | Undef => Undef
  | NoFuel => NoFuel
  end.

(** [JsonRPC::Send(msg, conn)]; the number of bytes [conn->Send] returns is not looked at. *)
Definition JsonRPC_Send (msg : Message) : action := λ c,
  match m_transport c with
  | None => Err (Exception "Invalid connection", c)
  | Some conn =>
      let* payload := json_text (Message_To msg) in
      Ret (c <| sent := sent c ++ [(conn, frame payload)] |>)
  end.

Definition log_event (prefix : text) (json : Json) : action := λ c,
  if m_wants_log_events c then
    let* s := json_text json in
    ProcessEvent (mkDAPEvent wxEVT_DAP_LOG_EVENT None None (prefix ++ s)) c
  else Ret c.

(** [unordered_map::insert]: a key that is present keeps its value. *)
Definition map_insert {A} (k : Z) (v : A) (m : gmap Z A) : gmap Z A :=
  match m !! k with Some _ => m | None => <[k := v]> m end.

(** [try { body } catch (Exception& e) { OnConnectionError(); return false; } return true;] *)
Definition send_or_reset (body : action) (c : Client) : exec thrown (bool * Client) :=
  match body c with
  | Ret c => Ret (true, c)
  | Err (_, c) => let* c := OnConnectionError c in Ret (false, c)
  | Undef => Undef
  | NoFuel => NoFuel
  end.

Definition message_seq (m : Message) : Z := ProtocolMessage_seq (Message_protocol m).

Definition SendRequest (request : Message) : Client → exec thrown (bool * Client) :=
  send_or_reset (λ c,
    let* c := JsonRPC_Send request c in
    let* c := log_event "--> " (Message_To request) c in
    Ret (c <| m_in_flight_requests :=
                map_insert (message_seq request) request (m_in_flight_requests c) |>)).

Definition SendResponse (response : Message) : Client → exec thrown (bool * Client) :=
  send_or_reset (λ c,
    let* c := JsonRPC_Send response c in
    log_event "--> " (Message_To response) c).

(** [SendRequest] with its result dropped. *)
Definition SendRequest_ (request : Message) : action := λ c,
  let* (_, c) := SendRequest request c in Ret c.

(** ** Making a request *)

(** [m_requestSeuqnce] is a [size_t]; [req->seq] is an [int]. *)
Definition GetNextSequence (c : Client) : Z * Client :=
  let c := c <| m_requestSeuqnce := to_size_t (m_requestSeuqnce c + 1) |> in
  (m_requestSeuqnce c, c).

(** [MakeRequest<T>()] for a class with the command [command]: the base of the request. *)
Definition MakeRequest (k : MessageClass) (command : text) (c : Client) : Request * Client :=
  let c := new k c in
  let '(seq, c) := GetNextSequence c in
  (mkRequest (mkProtocolMessage (to_int32 seq) "request") command, c).

Definition GetActiveThreadId (c : Client) : Z := m_active_thread_id c.

(** [threadId == wxNOT_FOUND ? GetActiveThreadId() : threadId] *)
Definition thread_or_active (threadId : Z) (c : Client) : Z :=
  if threadId =? wxNOT_FOUND then GetActiveThreadId c else threadId.

Definition IsSupported (feature : eFeatures) (c : Client) : bool :=
  negb (Z.land (m_features c) (feature_bit feature) =? 0).

(** ** The requests *)

Definition default_InitializeRequestArguments : InitializeRequestArguments :=
  let a := InitializeRequestArguments_fresh in
  mkInitializeRequestArguments "wxdap" "wxdap" (InitializeRequestArguments_adapterID a)
    (InitializeRequestArguments_locale a) (InitializeRequestArguments_linesStartAt1 a)
    (InitializeRequestArguments_columnsStartAt1 a)
    (InitializeRequestArguments_supportsInvalidatedEvent a)
    (InitializeRequestArguments_pathFormat a).

Definition Client_Initialize (initArgs : option InitializeRequestArguments) : action := λ c,
  let '(req, c) := MakeRequest class_InitializeRequest "initialize" c in
  let arguments := default default_InitializeRequestArguments initArgs in
  let* c := SendRequest_ (msg_InitializeRequest (mkInitializeRequest req arguments)) c in
  Ret (c <| m_handshake_state := kInProgress |>).

Definition SetBreakpointsFile (file : text) (lines : list SourceBreakpoint) : action := λ c,
  let '(req, c) := MakeRequest class_SetBreakpointsRequest "setBreakpoints" c in
  let source := mkSource (GetFullName file) file (Source_sourceReference Source_fresh) in
  let c := c <| m_source_breakpoints_queue := m_source_breakpoints_queue c ++ [file] |> in
  SendRequest_ (msg_SetBreakpointsRequest
    (mkSetBreakpointsRequest req (mkSetBreakpointsArguments source lines))) c.

Definition ConfigurationDone : action := λ c,
  let '(req, c) := MakeRequest class_ConfigurationDoneRequest "configurationDone" c in
  SendRequest_ (msg_ConfigurationDoneRequest req) c.

(** [cmd[0]] of an empty vector is undefined. *)
Definition Launch (cmd : list text) (workingDirectory : text) (env : Environment) : action := λ c,
  let c := c <| m_active_thread_id := wxNOT_FOUND |> in
  let '(req, c) := MakeRequest class_LaunchRequest "launch" c in
  match cmd with
  | [] => Undef
  | program :: args =>
      let a := LaunchRequestArguments_fresh in
      SendRequest_ (msg_LaunchRequest (mkLaunchRequest req
        (mkLaunchRequestArguments (LaunchRequestArguments_noDebug a) program args
           workingDirectory env (LaunchRequestArguments_stopAtBeginningOfMainSubprogram a)))) c
  end.

(** The [pid] is not used. *)
Definition Attach (pid : Z) (arguments : list text) : action := λ c,
  let '(req, c) := MakeRequest class_AttachRequest "attach" c in
  SendRequest_ (msg_AttachRequest (mkAttachRequest req
    (mkAttachRequestArguments (AttachRequestArguments_pid AttachRequestArguments_fresh)
       arguments))) c.

Definition GetThreads : action := λ c,
  let '(req, c) := MakeRequest class_ThreadsRequest "threads" c in
  SendRequest_ (msg_ThreadsRequest req) c.

Definition GetScopes (frameId : Z) : action := λ c,
  let '(req, c) := MakeRequest class_ScopesRequest "scopes" c in
  let c := c <| m_get_scopes_queue := m_get_scopes_queue c ++ [frameId] |> in
  SendRequest_ (msg_ScopesRequest (mkScopesRequest req (mkScopesArguments frameId))) c.

Definition GetFrames (threadId starting_frame frame_count : Z) : action := λ c,
  let '(req, c) := MakeRequest class_StackTraceRequest "stackTrace" c in
  let threadId := thread_or_active threadId c in
  let c := c <| m_get_frames_queue := m_get_frames_queue c ++ [threadId] |> in
  SendRequest_ (msg_StackTraceRequest (mkStackTraceRequest req
    (mkStackTraceArguments threadId starting_frame frame_count))) c.

Definition granularity_text (g : SteppingGranularity) : text :=
  match g with
  | LINE => "line"
  | STATEMENT => "statement"
  | INSTRUCTION => "instruction"
  end.

Definition Next (threadId : Z) (singleThread : bool) (granularity : SteppingGranularity) : action :=
  λ c,
  let '(req, c) := MakeRequest class_NextRequest "next" c in
  let threadId := thread_or_active threadId c in
  SendRequest_ (msg_NextRequest (mkNextRequest req
    (mkNextArguments threadId (granularity_text granularity) singleThread))) c.

Definition Continue (threadId : Z) (all_threads : bool) : action := λ c,
  let '(req, c) := MakeRequest class_ContinueRequest "continue" c in
  let threadId := thread_or_active threadId c in
  let singleThread := negb all_threads || (threadId =? wxNOT_FOUND) in
  SendRequest_ (msg_ContinueRequest (mkContinueRequest req
    (mkContinueArguments threadId singleThread))) c.

Definition SetFunctionBreakpoints (breakpoints : list FunctionBreakpoint) : action := λ c,
  let '(req, c) := MakeRequest class_SetFunctionBreakpointsRequest "setFunctionBreakpoints" c in
  SendRequest_ (msg_SetFunctionBreakpointsRequest (mkSetFunctionBreakpointsRequest req
    (mkSetFunctionBreakpointsArguments breakpoints))) c.

Definition StepIn (threadId : Z) (singleThread : bool) : action := λ c,
  let '(req, c) := MakeRequest class_StepInRequest "stepIn" c in
  let threadId := thread_or_active threadId c in
  SendRequest_ (msg_StepInRequest (mkStepRequest req
    (mkStepArguments threadId singleThread (StepArguments_granularity StepArguments_fresh)))) c.

Definition StepOut (threadId : Z) (singleThread : bool) : action := λ c,
  let '(req, c) := MakeRequest class_StepOutRequest "stepOut" c in
  let threadId := thread_or_active threadId c in
  SendRequest_ (msg_StepOutRequest (mkStepRequest req
    (mkStepArguments threadId singleThread (StepArguments_granularity StepArguments_fresh)))) c.

Definition is_hex (format : ValueDisplayFormat) : bool :=
  match format with HEX => true | NATIVE => false end.

(** [count] is a [size_t], the member an [int]. *)
Definition GetChildrenVariables (variablesReference : Z) (context : EvaluateContext) (count : Z)
    (format : ValueDisplayFormat) : action := λ c,
  let '(req, c) := MakeRequest class_VariablesRequest "variables" c in
  let c := c <| m_get_variables_queue :=
                  m_get_variables_queue c ++ [(variablesReference, context)] |> in
  SendRequest_ (msg_VariablesRequest (mkVariablesRequest req
    (mkVariablesArguments variablesReference (mkValueFormat (is_hex format)) (to_int32 count)))) c.

Definition Pause (threadId : Z) : action := λ c,
  let '(req, c) := MakeRequest class_PauseRequest "pause" c in
  let threadId := thread_or_active threadId c in
  SendRequest_ (msg_PauseRequest (mkPauseRequest req (mkPauseArguments threadId))) c.

(** The path is kept after the request was sent, whatever became of it. *)
Definition BreakpointLocations (filepath : text) (start_line end_line : Z) : action := λ c,
  if negb (IsSupported supportsBreakpointLocationsRequest c) then Ret c
  else
    let '(req, c) := MakeRequest class_BreakpointLocationsRequest "breakpointLocations" c in
    let a := BreakpointLocationsArguments_fresh in
    let source := mkSource (Source_name Source_fresh) filepath
                    (Source_sourceReference Source_fresh) in
    let request := msg_BreakpointLocationsRequest (mkBreakpointLocationsRequest req
      (mkBreakpointLocationsArguments source start_line (BreakpointLocationsArguments_column a)
         end_line (BreakpointLocationsArguments_endColumn a))) in
    let* c := SendRequest_ request c in
    Ret (c <| m_requestIdToFilepath :=
                map_insert (to_size_t (message_seq request)) filepath (m_requestIdToFilepath c) |>).

Definition LoadSource (source : Source) (callback : source_loaded_cb) (c : Client) :
    exec thrown (bool * Client) :=
  if 0 <? Source_sourceReference source then
    let c := c <| m_load_sources_queue := m_load_sources_queue c ++ [callback] |> in
    let '(req, c) := MakeRequest class_SourceRequest "source" c in
    let* c := SendRequest_ (msg_SourceRequest (mkSourceRequest req
                (mkSourceArguments source (Source_sourceReference source)))) c in
    Ret (true, c)
  else Ret (false, c).

Definition context_text (context : EvaluateContext) : text :=
  match context with
  | CLIPBOARD => "clipboard"
  | HOVER => "hover"
  | REPL => "repl"
  | VARIABLES => "variables"
  | WATCH => "watch"
  end.

Definition EvaluateExpression (expression : text) (frameId : Z) (context : EvaluateContext)
    (callback : evaluate_cb) (format : ValueDisplayFormat) : action := λ c,
  let c := c <| m_evaluate_queue := m_evaluate_queue c ++ [callback] |> in
  let '(req, c) := MakeRequest class_EvaluateRequest "evaluate" c in
  SendRequest_ (msg_EvaluateRequest (mkEvaluateRequest req
    (mkEvaluateArguments expression frameId (context_text context)
       (mkValueFormat (is_hex format))))) c.

(** ** Receiving *)

(** [GetOriginatingRequest(response)] of a response that is not null. *)
Definition GetOriginatingRequest (response : Response) (c : Client) : option Message * Client :=
  match m_in_flight_requests c !! Response_request_seq response with
  | None => (None, c)
  | Some req =>
      (Some req, c <| m_in_flight_requests :=
                        delete (Response_request_seq response) (m_in_flight_requests c) |>)
  end.

(** [dap_message] is a new object: it is filled from [json] here. *)
Definition SendDAPEvent (type : wxEventType) (dap_message : Message) (json : Json)
    (req : option Message) : action := λ c,
  let ptr := Message_From json dap_message in
  let event := mkDAPEvent type (Some ptr) req [] in
  if decide (type = wxEVT_DAP_STOPPED_EVENT) then
    match ptr with
    | msg_StoppedEvent stopped =>
        ProcessEvent event (c <| m_active_thread_id := StoppedEvent_threadId stopped |>)
    | _ => Undef
    end
  else ProcessEvent event c.

(** A response object of class [k] with the members that the client adds, sent with the request
    it answers. *)
Definition send_response_event (type : wxEventType) (dap_message : Message) (json : Json)
    (as_response : Response) : action := λ c,
  let '(req, c) := GetOriginatingRequest as_response c in
  SendDAPEvent type dap_message json req c.

Definition ENABLE_FEATURE (body : Json) (m_features : Z) (feature : eFeatures * text) : Z :=
  if GetBool false body.[feature.2] then Z.lor m_features (feature_bit feature.1) else m_features.

(** The uses of [ENABLE_FEATURE]. *)
Definition enable_features (body : Json) (m_features : Z) : Z :=
  foldl (ENABLE_FEATURE body) m_features features.

Definition HandleEvaluateResponse (json : Json) : action := λ c,
  match m_evaluate_queue c with
  | [] => Ret c
  | callback :: queue =>
      let c := new class_EvaluateResponse c in
      let response := EvaluateResponse_From json EvaluateResponse_fresh in
      let c := c <| m_evaluate_queue := queue |> in
      call_evaluate callback (Response_success (EvaluateResponse_Response response))
        (EvaluateResponse_result response) (EvaluateResponse_type response)
        (EvaluateResponse_variablesReference response) c
  end.

Definition HandleSourceResponse (json : Json) : action := λ c,
  match m_load_sources_queue c with
  | [] => Ret c
  | callback :: queue =>
      let c := new class_SourceResponse c in
      let response := SourceResponse_From json SourceResponse_fresh in
      let c := c <| m_load_sources_queue := queue |> in
      call_source_loaded callback (Response_success (SourceResponse_Response response))
        (SourceResponse_content response) (SourceResponse_mimeType response) c
  end.

(** The branches of [OnMessage] for an event. *)
Definition OnEvent (as_event : Event) (json : Json) : action := λ c,
  let event := Event_event as_event in
  let send type k (c : Client) := SendDAPEvent type (new_message k) json None (new k c) in
  if event =t "stopped" then
    send wxEVT_DAP_STOPPED_EVENT class_StoppedEvent (c <| m_can_interact := true |>)
  else if event =t "process" then send wxEVT_DAP_PROCESS_EVENT class_ProcessEvent c
  else if event =t "exited" then send wxEVT_DAP_EXITED_EVENT class_ExitedEvent c
  else if event =t "terminated" then send wxEVT_DAP_TERMINATED_EVENT class_TerminatedEvent c
  else if event =t "initialized" then send wxEVT_DAP_INITIALIZED_EVENT class_InitializedEvent c
  else if event =t "output" then send wxEVT_DAP_OUTPUT_EVENT class_OutputEvent c
  else if event =t "breakpoint" then send wxEVT_DAP_BREAKPOINT_EVENT class_BreakpointEvent c
  else if event =t "continued" then
    send wxEVT_DAP_CONTINUED_EVENT class_ContinuedEvent (c <| m_can_interact := false |>)
  else if event =t "module" then send wxEVT_DAP_MODULE_EVENT class_ModuleEvent c
  else Ret c.

(** The first element of a queue, if there is one, and the rest. *)
Definition pop_front {A} (queue : list A) : option A * list A :=
  match queue with [] => (None, []) | x :: queue => (Some x, queue) end.

(** The branches of [OnMessage] for a response. *)
Definition OnResponse (as_response : Response) (json : Json) : action := λ c,
  let command := Response_command as_response in
  if command =t "stackTrace" then
    let c := new class_StackTraceResponse c in
    let response := StackTraceResponse_fresh in
    let '(front, queue) := pop_front (m_get_frames_queue c) in
    let response := mkStackTraceResponse (StackTraceResponse_Response response)
      (StackTraceResponse_stackFrames response)
      (default (StackTraceResponse_refId response) front) in
    send_response_event wxEVT_DAP_STACKTRACE_RESPONSE (msg_StackTraceResponse response) json
      as_response (c <| m_get_frames_queue := queue |>)
  else if command =t "scopes" then
    let c := new class_ScopesResponse c in
    let response := ScopesResponse_fresh in
    let '(front, queue) := pop_front (m_get_scopes_queue c) in
    let response := mkScopesResponse (ScopesResponse_Response response)
      (ScopesResponse_scopes response) (default (ScopesResponse_refId response) front) in
    send_response_event wxEVT_DAP_SCOPES_RESPONSE (msg_ScopesResponse response) json
      as_response (c <| m_get_scopes_queue := queue |>)
  else if command =t "variables" then
    let c := new class_VariablesResponse c in
    let response := VariablesResponse_fresh in
    let '(front, queue) := pop_front (m_get_variables_queue c) in
    let '(refId, context) :=
      default (VariablesResponse_refId response, VariablesResponse_context response) front in
    let response := mkVariablesResponse (VariablesResponse_Response response)
      (VariablesResponse_variables response) refId context in
    send_response_event wxEVT_DAP_VARIABLES_RESPONSE (msg_VariablesResponse response) json
      as_response (c <| m_get_variables_queue := queue |>)
  else if (command =t "stepIn") || (command =t "stepOut") || (command =t "next")
          || (command =t "continue") then
    Ret (c <| m_can_interact := false |>)
  else if command =t "breakpointLocations" then
    let c := new class_BreakpointLocationsResponse c in
    let ptr := BreakpointLocationsResponse_fresh in
    let request_seq := to_size_t (Response_request_seq as_response) in
    let '(filepath, c) :=
      match m_requestIdToFilepath c !! request_seq with
      | Some path => (path, c <| m_requestIdToFilepath :=
                                   delete request_seq (m_requestIdToFilepath c) |>)
      | None => (BreakpointLocationsResponse_filepath ptr, c)
      end in
    let ptr := mkBreakpointLocationsResponse (BreakpointLocationsResponse_Response ptr)
      (BreakpointLocationsResponse_breakpoints ptr) filepath in
    send_response_event wxEVT_DAP_BREAKPOINT_LOCATIONS_RESPONSE
      (msg_BreakpointLocationsResponse ptr) json as_response c
  else if command =t "setFunctionBreakpoints" then
    send_response_event wxEVT_DAP_SET_FUNCTION_BREAKPOINT_RESPONSE
      (new_message class_SetFunctionBreakpointsResponse) json as_response
      (new class_SetFunctionBreakpointsResponse c)
  else if command =t "setBreakpoints" then
    let c := new class_SetBreakpointsResponse c in
    let ptr := SetBreakpointsResponse_fresh in
    let '(front, queue) := pop_front (m_source_breakpoints_queue c) in
    let ptr := mkSetBreakpointsResponse (SetBreakpointsResponse_Response ptr)
      (SetBreakpointsResponse_breakpoints ptr)
      (default (SetBreakpointsResponse_originSource ptr) front) in
    send_response_event wxEVT_DAP_SET_SOURCE_BREAKPOINT_RESPONSE (msg_SetBreakpointsResponse ptr)
      json as_response (c <| m_source_breakpoints_queue := queue |>)
  else if command =t "configurationDone" then
    send_response_event wxEVT_DAP_CONFIGURARIONE_DONE_RESPONSE
      (new_message class_ConfigurationDoneResponse) json as_response
      (new class_ConfigurationDoneResponse c)
  else if command =t "launch" then
    send_response_event wxEVT_DAP_LAUNCH_RESPONSE (new_message class_LaunchResponse) json
      as_response (new class_LaunchResponse c)
  else if command =t "threads" then
    send_response_event wxEVT_DAP_THREADS_RESPONSE (new_message class_ThreadsResponse) json
      as_response (new class_ThreadsResponse c)
  else if command =t "source" then HandleSourceResponse json c
  else if command =t "evaluate" then HandleEvaluateResponse json c
  else Ret c.

(** The branch for a reverse request. *)
Definition OnRequest (as_request : Request) (json : Json) : action := λ c,
  if Request_command as_request =t "runInTerminal" then
    SendDAPEvent wxEVT_DAP_RUN_IN_TERMINAL_REQUEST (new_message class_RunInTerminalRequest) json
      None (new class_RunInTerminalRequest c)
  else Ret c.

Definition read_message (json : Json) (c : Client) : option Message * Client :=
  let '(msg, g) := FromJSON json (generator c) in (msg, c <| generator := g |>).

Definition complete_handshake (body : Json) (c : Client) : Client :=
  c <| m_handshake_state := kCompleted |>
    <| m_features := enable_features body (m_features c) |>.

(** The message before the handshake is completed. *)
Definition OnHandshake (json : Json) : action := λ c,
  let '(msg, c) := read_message json c in
  match msg with
  | None => Ret c
  | Some msg =>
      if negb (ProtocolMessage_type (Message_protocol msg) =t "response") then Ret c
      else
        match Message_Response msg with
        | None => Undef
        | Some response =>
            if negb (Response_command response =t "initialize") then Ret c
            else
              let c := complete_handshake json.["body"] c in
              SendDAPEvent wxEVT_DAP_INITIALIZE_RESPONSE (new_message class_InitializeResponse)
                json None (new class_InitializeResponse c)
        end
  end.

Definition OnMessage (json : Json) : action := λ c,
  let* c := log_event "<-- " json c in
  match m_handshake_state c with
  | kNotPerformed | kInProgress => OnHandshake json c
  | kCompleted =>
      let '(msg, c) := read_message json c in
      match msg with
      | None => Ret c
      | Some msg =>
          match AsEvent msg, AsResponse msg, AsRequest msg with
          | Some as_event, _, _ => OnEvent as_event json c
          | None, Some as_response, _ => OnResponse as_response json c
          | None, None, Some as_request => OnRequest as_request json c
          | None, None, None => Ret c
          end
      end
  end.

(** [OnDataRead] with its call of [ProcessBuffer]. *)
Definition OnDataRead (buffer : text) : action := λ c,
  if buffer =t [] then Ret c else receive OnMessage buffer c.
End Client.
Arguments Client {_ _ _}.
