(* ===== verification/ClientSamples.v ===== *)
(** * A program that records what the client tells it, and a client to try things on. *)
From S2P Require Import Prelude.
From S2P Require Import Double.
From S2P Require Import CJson.
From S2P Require Import Json.
From S2P Require Import Any.
From S2P Require Import DapData.
From S2P Require Import DapEnvironment.
From S2P Require Import DapMessages.
From S2P Require Import DapRegistry.
From S2P Require Import JsonRPC.
From S2P Require Import Client.
Local Open Scope Z_scope.

Section Recorder.
Context `{Platform} `{HashOrder}.

(** What a program sees: the events, and the calls of its callbacks, which are numbers. *)
Inductive observation :=
| saw_event (event : DAPEvent)
| saw_source (callback : nat) (success : bool) (content mimeType : text)
| saw_evaluate (callback : nat) (success : bool) (result type : text) (variablesReference : Z).

#[export] Instance recording : Application :=
  {| App := list observation; source_loaded_cb := nat; evaluate_cb := nat |}.

Definition record (o : observation) (c : Client) : exec (exception * Client) Client :=
  Ret (c <| app := (app c : list observation) ++ [o] |>).

#[export] Instance recorder : Handlers := {|
  handle e := record (saw_event e);
  call_source_loaded cb s content mime := record (saw_source cb s content mime);
  call_evaluate cb s r t v := record (saw_evaluate cb s r t v);
  GetFullName path := path;
|}.

Definition observed (c : Client) : list observation := app c.
End Recorder.

(** ** Samples *)

Section Samples.
#[local] Existing Instance sample_platform.
#[local] Existing Instance sample_hash.

(** A client that was just made, over no transport. *)
Definition sample_new : Client := Client_new ObjGenerator_empty [] [].

(** A client that is connected over the transport 7. *)
Definition sample_client : Client :=
  SetTransport (Some 7%nat) sample_new.

(** The same after the handshake. *)
Definition sample_ready : Client := complete_handshake None sample_client.

Definition sample_initialized : Json := Event_To (Event_new "initialized").

Definition sample_response (command : text) : Response :=
  mkResponse (mkProtocolMessage 5 "response") 1 true command [].
End Samples.
