(* ===== verification/ClientStream.v ===== *)
(** * The client on the byte stream: [OnDataRead] delivers the messages of the server. *)
From S2P Require Import Prelude.
From S2P Require Import Double.
From S2P Require Import CJson.
From S2P Require Import Json.
From S2P Require Import Any.
From S2P Require Import DapData.
From S2P Require Import DapEnvironment.
From S2P Require Import DapMessages.
From S2P Require Import DapRegistry.
From S2P Require Import DapProtocol.
From S2P Require Import JsonRPC.
From S2P Require Import Client.
From S2P Require Import ClientSamples.
Local Open Scope Z_scope.

Section Stream.
Context `{Platform} `{HashOrder} `{Application} `{!Handlers}.

(** What leaves the receive buffer alone: it returns the same whatever the buffer holds. *)
Definition inert (a : Client → exec (exception * Client) Client) : Prop :=
  ∀ b c c', a c = Ret c' → a (c <| m_rpc := b |>) = Ret (c' <| m_rpc := b |>).

(** The handlers and the callbacks of the program leave the buffer alone: they may use every
    operation of the client but those that reset it. *)
Record handlers_inert : Prop := {
  handle_inert e : inert (handle e);
  call_evaluate_inert cb s r t v : inert (call_evaluate cb s r t v);
  call_source_loaded_inert cb s t m : inert (call_source_loaded cb s t m);
}.

Context (Hh : handlers_inert).

Ltac inert_step :=
  match goal with
  | Hr : handle _ _ = Ret _ |- _ => exact (handle_inert Hh _ _ _ _ Hr)
  | Hr : call_evaluate _ _ _ _ _ _ = Ret _ |- _ =>
      exact (call_evaluate_inert Hh _ _ _ _ _ _ _ _ Hr)
  | Hr : call_source_loaded _ _ _ _ _ = Ret _ |- _ =>
      exact (call_source_loaded_inert Hh _ _ _ _ _ _ _ Hr)
  | Hr : Ret _ = Ret _ |- _ => injection Hr as <-; reflexivity
  | Hr : Undef = Ret _ |- _ => discriminate Hr
  end.

Lemma inert_bind a k : inert a → inert k → inert (λ c, let* c := a c in k c).
Proof.
  intros Ha Hk b c c' Hr. apply exec_bind_Ret in Hr as (c1 & Hr1 & Hr2).
  rewrite (Ha b c c1 Hr1). simpl. by apply Hk.
Qed.

Lemma log_event_inert p j : inert (log_event p j).
Proof.
  intros b c c' Hr. unfold log_event, ProcessEvent in *. cbn. destruct (m_wants_log_events c); [|inert_step].
  apply exec_bind_Ret in Hr as (t & -> & Hr). simpl. inert_step.
Qed.

Lemma SendDAPEvent_inert ty m j r : inert (SendDAPEvent ty m j r).
Proof.
  intros b c c' Hr. unfold SendDAPEvent, ProcessEvent in *. cbv zeta in *.
  destruct (decide _); [|inert_step]. destruct (Message_From j m); inert_step.
Qed.

Lemma send_response_event_inert ty m j r : inert (send_response_event ty m j r).
Proof.
  intros b c c' Hr. unfold send_response_event, GetOriginatingRequest in *. cbn.
  destruct (m_in_flight_requests c !! _); by apply (SendDAPEvent_inert _ _ _ _ b) in Hr.
Qed.

(** Closes the branches of [OnEvent], [OnResponse] and [OnRequest]. *)
Ltac inert_send b Hr :=
  first [ exact (SendDAPEvent_inert _ _ _ _ b _ _ Hr)
        | exact (send_response_event_inert _ _ _ _ b _ _ Hr)
        | inert_step ].

Lemma OnEvent_inert e j : inert (OnEvent e j).
Proof.
  intros b c c' Hr. unfold OnEvent in *. cbv zeta in *.
  repeat (case_match; [inert_send b Hr|]). inert_step.
Qed.

Lemma HandleSourceResponse_inert j : inert (HandleSourceResponse j).
Proof.
  intros b c c' Hr. unfold HandleSourceResponse in *. cbv zeta in *. cbn.
  destruct (m_load_sources_queue c); inert_step.
Qed.

Lemma HandleEvaluateResponse_inert j : inert (HandleEvaluateResponse j).
Proof.
  intros b c c' Hr. unfold HandleEvaluateResponse in *. cbv zeta in *. cbn.
  destruct (m_evaluate_queue c); inert_step.
Qed.

Lemma OnResponse_inert r j : inert (OnResponse r j).
Proof.
  intros b c c' Hr. unfold OnResponse in *. cbv zeta in *.
  case_match; [cbn in *; destruct (m_get_frames_queue c); inert_send b Hr|].
  case_match; [cbn in *; destruct (m_get_scopes_queue c); inert_send b Hr|].
  case_match; [cbn in *; destruct (m_get_variables_queue c) as [|[]]; inert_send b Hr|].
  case_match; [inert_step|].
  case_match; [cbn in *; destruct (m_requestIdToFilepath c !! _); inert_send b Hr|].
  case_match; [inert_send b Hr|].
  case_match; [cbn in *; destruct (m_source_breakpoints_queue c); inert_send b Hr|].
  case_match; [inert_send b Hr|].
  case_match; [inert_send b Hr|].
  case_match; [inert_send b Hr|].
  case_match; [by apply HandleSourceResponse_inert|].
  case_match; [by apply HandleEvaluateResponse_inert|].
  inert_step.
Qed.

Lemma OnRequest_inert r j : inert (OnRequest r j).
Proof.
  intros b c c' Hr. unfold OnRequest in *. case_match; inert_send b Hr.
Qed.

(** The client after the handshake, with another buffer. *)
Lemma complete_handshake_rpc body b g c :
  new class_InitializeResponse (complete_handshake body (c <| m_rpc := b |> <| generator := g |>))
  = (new class_InitializeResponse (complete_handshake body (c <| generator := g |>)))
      <| m_rpc := b |>.
Proof.
  destruct c. cbv -[enable_features construct].
  reflexivity.
Qed.

Lemma OnHandshake_inert j : inert (OnHandshake j).
Proof.
  intros b c c' Hr. unfold OnHandshake, read_message in *.
  change (generator (c <| m_rpc := b |>)) with (generator c).
  destruct (FromJSON j (generator c)) as [[m|] g]; cbv beta iota zeta in *; [|inert_step].
  case_match; [inert_step|]. destruct (Message_Response m); [|inert_step].
  case_match; [inert_step|]. rewrite complete_handshake_rpc.
  exact (SendDAPEvent_inert _ _ _ _ b _ _ Hr).
Qed.

Lemma OnMessage_inert j : inert (OnMessage j).
Proof.
  apply inert_bind; [apply log_event_inert|]. intros b c c' Hr. cbn.
  destruct (m_handshake_state c); [by apply OnHandshake_inert..|].
  unfold read_message in *. change (generator (c <| m_rpc := b |>)) with (generator c).
  destruct (FromJSON j (generator c)) as [[m|] g]; cbv beta iota zeta in *; [|inert_step].
  destruct (AsEvent m); [by apply (OnEvent_inert _ _ b) in Hr|].
  destruct (AsResponse m); [by apply (OnResponse_inert _ _ b) in Hr|].
  destruct (AsRequest m); [by apply (OnRequest_inert _ _ b) in Hr|]. inert_step.
Qed.

Lemma OnMessage_transparent : transparent OnMessage.
Proof. intros j b s s' Hr. by apply OnMessage_inert. Qed.

(** [OnDataRead] ignores an empty chunk, as [receive] does when the buffer is a part of a
    message. *)
Fixpoint OnDataRead_all (chunks : list text) (c : Client) : exec (exception * Client) Client :=
  match chunks with
  | [] => Ret c
  | chunk :: chunks => let* c := OnDataRead chunk c in OnDataRead_all chunks c
  end.

Lemma OnDataRead_all_filter chunks : ∀ c,
  OnDataRead_all chunks c = receive_all OnMessage (filter (λ t, t ≠ []) chunks) c.
Proof.
  induction chunks as [|t chunks IH]; intros c; [done|]. cbn [OnDataRead_all]. unfold OnDataRead.
  destruct (teq_spec t []) as [->|Hne].
  - rewrite filter_cons_False by tauto. apply IH.
  - rewrite filter_cons_True by done. cbn [receive_all].
    destruct (receive OnMessage t c); [apply IH|done..].
Qed.

Lemma concat_filter_nonempty (chunks : list text) :
  concat (filter (λ t, t ≠ []) chunks) = concat chunks.
Proof.
  induction chunks as [|t chunks IH]; [done|]. destruct (decide (t = [])) as [->|].
  - by rewrite filter_cons_False by tauto.
  - rewrite filter_cons_True by done. simpl. by rewrite IH.
Qed.

End Stream.

(** The recorder leaves the buffer alone. *)
Lemma recorder_inert `{Platform} `{HashOrder} : handlers_inert.
Proof. split; intros; intros b c c' Hr; injection Hr as <-; reflexivity. Qed.

Section Samples.
#[local] Existing Instance sample_platform.
#[local] Existing Instance sample_hash.

Definition json_of (t : text) : Json := match Parse t with Ret j => j | _ => None end.

(** Two events, in three chunks of which one is empty. *)
Definition sample_events : list (text * Json) :=
  map (λ m, (text_of m, json_of (text_of m)))
    [msg_InitializedEvent (Event_new "initialized"); msg_TerminatedEvent (Event_new "terminated")].

Definition sample_data : list text :=
  [take 30 (stream sample_events); []; drop 30 (stream sample_events)].

End Samples.
