(* ===== verification/ClientRequests.v ===== *)
(** * The requests of the client: what a call sends, numbers and keeps in flight. *)
From S2P Require Import Prelude.
From S2P Require Import Double.
From S2P Require Import CJson.
From S2P Require Import CJsonRoundTrip.
From S2P Require Import Json.
From S2P Require Import Any.
From S2P Require Import DapData.
From S2P Require Import DapEnvironment.
From S2P Require Import DapMessages.
From S2P Require Import DapRegistry.
From S2P Require Import JsonRPC.
From S2P Require Import Client.
From S2P Require Import ClientSamples.
Local Open Scope Z_scope.

(** ** The calls of the interface that make a request *)
Section Calls.
Context `{Platform} `{HashOrder} `{Application} `{!Handlers}.

Inductive request_call :=
| call_Initialize (initArgs : option InitializeRequestArguments)
| call_SetBreakpointsFile (file : text) (lines : list SourceBreakpoint)
| call_ConfigurationDone
| call_Launch (cmd : list text) (workingDirectory : text) (env : Environment)
| call_Attach (pid : Z) (arguments : list text)
| call_GetThreads
| call_GetScopes (frameId : Z)
| call_GetFrames (threadId starting_frame frame_count : Z)
| call_Next (threadId : Z) (singleThread : bool) (granularity : SteppingGranularity)
| call_Continue (threadId : Z) (all_threads : bool)
| call_SetFunctionBreakpoints (breakpoints : list FunctionBreakpoint)
| call_StepIn (threadId : Z) (singleThread : bool)
| call_StepOut (threadId : Z) (singleThread : bool)
| call_GetChildrenVariables (variablesReference : Z) (context : EvaluateContext) (count : Z)
    (format : ValueDisplayFormat)
| call_Pause (threadId : Z)
| call_BreakpointLocations (filepath : text) (start_line end_line : Z)
| call_LoadSource (source : Source) (callback : source_loaded_cb)
| call_EvaluateExpression (expression : text) (frameId : Z) (context : EvaluateContext)
    (callback : evaluate_cb) (format : ValueDisplayFormat).

Definition perform (call : request_call) (c : Client) : exec (exception * Client) Client :=
  match call with
  | call_Initialize a => Client_Initialize a c
  | call_SetBreakpointsFile file lines => SetBreakpointsFile file lines c
  | call_ConfigurationDone => ConfigurationDone c
  | call_Launch cmd wd env => Launch cmd wd env c
  | call_Attach pid arguments => Attach pid arguments c
  | call_GetThreads => GetThreads c
  | call_GetScopes frameId => GetScopes frameId c
  | call_GetFrames t s n => GetFrames t s n c
  | call_Next t s g => Next t s g c
  | call_Continue t a => Continue t a c
  | call_SetFunctionBreakpoints l => SetFunctionBreakpoints l c
  | call_StepIn t s => StepIn t s c
  | call_StepOut t s => StepOut t s c
  | call_GetChildrenVariables v ctx n f => GetChildrenVariables v ctx n f c
  | call_Pause t => Pause t c
  | call_BreakpointLocations p s e => BreakpointLocations p s e c
  | call_LoadSource s cb => let* (_, c) := LoadSource s cb c in Ret c
  | call_EvaluateExpression e f ctx cb fmt => EvaluateExpression e f ctx cb fmt c
  end.

(** The class of the request a call makes. *)
Definition call_class (call : request_call) : MessageClass :=
  match call with
  | call_Initialize _ => class_InitializeRequest
  | call_SetBreakpointsFile _ _ => class_SetBreakpointsRequest
  | call_ConfigurationDone => class_ConfigurationDoneRequest
  | call_Launch _ _ _ => class_LaunchRequest
  | call_Attach _ _ => class_AttachRequest
  | call_GetThreads => class_ThreadsRequest
  | call_GetScopes _ => class_ScopesRequest
  | call_GetFrames _ _ _ => class_StackTraceRequest
  | call_Next _ _ _ => class_NextRequest
  | call_Continue _ _ => class_ContinueRequest
  | call_SetFunctionBreakpoints _ => class_SetFunctionBreakpointsRequest
  | call_StepIn _ _ => class_StepInRequest
  | call_StepOut _ _ => class_StepOutRequest
  | call_GetChildrenVariables _ _ _ _ => class_VariablesRequest
  | call_Pause _ => class_PauseRequest
  | call_BreakpointLocations _ _ _ => class_BreakpointLocationsRequest
  | call_LoadSource _ _ => class_SourceRequest
  | call_EvaluateExpression _ _ _ _ _ => class_EvaluateRequest
  end.

(** The guards: [cmd[0]] exists, the server supports the request, the source is the server's. *)
Definition enabled (call : request_call) (c : Client) : Prop :=
  match call with
  | call_Launch cmd _ _ => cmd ≠ []
  | call_BreakpointLocations _ _ _ => IsSupported supportsBreakpointLocationsRequest c = true
  | call_LoadSource source _ => 0 < Source_sourceReference source
  | _ => True
  end.

(** The handlers of log events change nothing but the state of the program, and throw nothing. *)
Definition handlers_log_only : Prop :=
  ∀ event c, event_type event = wxEVT_DAP_LOG_EVENT →
    ∃ a, handle event c = Ret (c <| app := a |>).

Context (Hlog : handlers_log_only).

Lemma app_id (c : Client) : c <| app := app c |> = c.
Proof. by destruct c. Qed.

Lemma is_value_text j : is_value j → ∃ s, ToString false j = Ret s.
Proof. intros [v Hv]. destruct (Parse_ToString false j v Hv) as (s & Hs & _). by exists s. Qed.

Lemma log_event_Ret p j c : is_value j → ∃ a, log_event p j c = Ret (c <| app := a |>).
Proof.
  intros [s Hs]%is_value_text. unfold log_event, json_text, ProcessEvent. rewrite Hs. simpl.
  destruct (m_wants_log_events c); [by apply Hlog|]. exists (app c). by rewrite app_id.
Qed.

(** What [SendRequest] does with a request it can print, over a transport. *)
Lemma SendRequest_Ret m t c : m_transport c = Some t → is_value (Message_To m) →
  ∃ s a, ToString false (Message_To m) = Ret s ∧
    SendRequest_ m c
    = Ret (c <| sent := sent c ++ [(t, frame s)] |> <| app := a |>
             <| m_in_flight_requests :=
                  map_insert (message_seq m) m (m_in_flight_requests c) |>).
Proof.
  intros Ht Hm. destruct (is_value_text _ Hm) as [s Hs].
  unfold SendRequest_, SendRequest, send_or_reset, JsonRPC_Send, json_text.
  rewrite Ht, Hs. cbn [exec_bind].
  destruct (log_event_Ret "--> " (Message_To m) (c <| sent := sent c ++ [(t, frame s)] |>) Hm)
    as [a Ha]. rewrite Ha. cbn [exec_bind]. by exists s, a.
Qed.

(** A request of class [k] with the number [seq]. *)
Definition is_request (k : MessageClass) (seq : Z) (m : Message) : Prop :=
  class_of m = k ∧ tagged m = true ∧ message_seq m = seq.

(** What a call leaves: one more message on the wire, the request in flight under its number. *)
Definition one_request (m : Message) (t : nat) (c c' : Client) : Prop :=
  ∃ s, ToString false (Message_To m) = Ret s ∧
    sent c' = sent c ++ [(t, frame s)] ∧
    m_in_flight_requests c' = map_insert (message_seq m) m (m_in_flight_requests c) ∧
    m_requestSeuqnce c' = to_size_t (m_requestSeuqnce c + 1) ∧
    m_transport c' = m_transport c ∧ m_wants_log_events c' = m_wants_log_events c.

(** The number of the next request. *)
Definition next_seq (c : Client) : Z := to_int32 (to_size_t (m_requestSeuqnce c + 1)).

(** From the request in its final form: [c1] is the client when [SendRequest] is called. *)
Lemma call_spec m t c c1 (k : MessageClass) :
  is_request k (next_seq c) m →
  m_transport c1 = Some t → sent c1 = sent c →
  m_in_flight_requests c1 = m_in_flight_requests c →
  m_requestSeuqnce c1 = to_size_t (m_requestSeuqnce c + 1) →
  m_transport c = Some t → m_wants_log_events c1 = m_wants_log_events c →
  is_request k (next_seq c) m ∧
  (is_value (Message_To m) → ∃ c', SendRequest_ m c1 = Ret c' ∧ one_request m t c c').
Proof.
  intros Hr Ht1 Hs Hf Hq Ht Hw. split; [done|]. intros Hv.
  destruct (SendRequest_Ret m t c1 Ht1 Hv) as (s & a & Hto & ->).
  eexists. split; [done|]. exists s. cbn. by rewrite Hs, Hf, Hq, Ht, Ht1, Hw.
Qed.

(** The same for a call that assigns a member after [SendRequest]. *)
Lemma call_spec_then m t c c1 (k : MessageClass) (f : Client → Client) :
  is_request k (next_seq c) m →
  m_transport c1 = Some t → sent c1 = sent c →
  m_in_flight_requests c1 = m_in_flight_requests c →
  m_requestSeuqnce c1 = to_size_t (m_requestSeuqnce c + 1) →
  m_transport c = Some t → m_wants_log_events c1 = m_wants_log_events c →
  (∀ c', one_request m t c c' → one_request m t c (f c')) →
  is_request k (next_seq c) m ∧
  (is_value (Message_To m) →
   ∃ c', (let* c := SendRequest_ m c1 in Ret (f c)) = Ret c' ∧ one_request m t c c').
Proof.
  intros Hr Ht1 Hs Hf Hq Ht Hw Hk. split; [done|]. intros Hv.
  destruct (call_spec m t c c1 k) as [_ (c' & -> & Ho)]; [done..|].
  exists (f c'). split; [done|]. by apply Hk.
Qed.

Ltac by_call_spec := eexists; eapply call_spec; repeat split; done.
Ltac by_call_spec_then f :=
  eexists; eapply (call_spec_then _ _ _ _ _ f); [repeat split; done|done..|by intros c' Ho].

Lemma perform_one_request call t c :
  m_transport c = Some t → enabled call c →
  ∃ m, is_request (call_class call) (next_seq c) m ∧
    (is_value (Message_To m) → ∃ c', perform call c = Ret c' ∧ one_request m t c c').
Proof.
  intros Ht He. destruct call; simpl perform; simpl call_class; simpl in He;
    unfold Client_Initialize, SetBreakpointsFile, ConfigurationDone, Launch, Attach, GetThreads,
      GetScopes, GetFrames, Next, Continue, SetFunctionBreakpoints, StepIn, StepOut,
      GetChildrenVariables, Pause, BreakpointLocations, LoadSource, EvaluateExpression,
      MakeRequest, GetNextSequence;
    cbv beta iota zeta; try by_call_spec.
  - by_call_spec_then (λ c, c <| m_handshake_state := kInProgress |>).
  - destruct cmd; [done|]. by_call_spec.
  - rewrite He. cbn [negb].
    by_call_spec_then (λ c', c' <| m_requestIdToFilepath :=
      map_insert (to_size_t (next_seq c)) filepath (m_requestIdToFilepath c') |>).
  - destruct (Z.ltb_spec 0 (Source_sourceReference source)); [|lia].
    eexists. rewrite exec_bind_assoc. eapply (call_spec_then _ _ _ _ _ (λ c', c')); done.
Qed.

(** The request for the scopes of a frame. *)
Definition scopes_request (seq frameId : Z) : Message :=
  msg_ScopesRequest (mkScopesRequest (mkRequest (mkProtocolMessage seq "request") "scopes")
    (mkScopesArguments frameId)).

Lemma scopes_request_value seq frameId : is_int seq = true → is_int frameId = true →
  is_value (Message_To (scopes_request seq frameId)).
Proof.
  intros Hs Hi. apply Message_To_value.
  repeat (apply andb_true_iff; split; try done).
Qed.


End Calls.

Section Samples.
#[local] Existing Instance sample_platform.
#[local] Existing Instance sample_hash.

Lemma sample_log_only : handlers_log_only.
Proof. intros e c _. by eexists. Qed.

End Samples.
