(* ===== verification/ClientState.v ===== *)
(** * The state of the client: reset, handshake, features, answers, and the invariant. *)
From S2P Require Import Prelude.
From S2P Require Import Double.
From S2P Require Import CJson.
From S2P Require Import CJsonRoundTrip.
From S2P Require Import Json.
From S2P Require Import Any.
From S2P Require Import DapData.
From S2P Require Import DapEnvironment.
From S2P Require Import DapMessages.
From S2P Require Import DapRegistry.
From S2P Require Import JsonRPC.
From S2P Require Import DapKinds.
From S2P Require Import Client.
From S2P Require Import ClientRequests.
From S2P Require Import ClientSamples.
Local Open Scope Z_scope.

(** Evaluates the tests on a command that is known. *)
Ltac test_commands Hc :=
  rewrite Hc; cbv zeta;
  repeat match goal with
  | |- context [?a =t ?b] => let v := eval vm_compute in (a =t b) in change (a =t b) with v
  end; cbn [orb].

Section State.
Context `{Platform} `{HashOrder} `{Application} `{!Handlers}.

(** ** Reset and a lost connection *)

(** C32: [Reset] brings back the client of the constructor; what it keeps is the choice of log
    events, and what lies outside the object. *)
Theorem Reset_as_new c :
  Reset c = (Client_new (generator c) (sent c) (app c))
              <| generator := generator c |> <| m_wants_log_events := m_wants_log_events c |>
              <| threads := threads c |>.
Proof. destruct c as [? ? ? ? []]; reflexivity. Qed.

(** A request over no transport sends nothing: the program gets the event of a lost
    connection, the client is reset and the call answers [false]. *)
Theorem SendRequest_disconnected m c : m_transport c = None →
  SendRequest m c
  = (let* c := handle (mkDAPEvent wxEVT_DAP_LOST_CONNECTION None None []) c in
     Ret (false, Reset c)).
Proof.
  intros Ht. unfold SendRequest, send_or_reset, JsonRPC_Send, OnConnectionError, ProcessEvent.
  rewrite Ht. cbn [exec_bind]. by destruct (handle _ c).
Qed.

(** ** The features *)

Lemma feature_index_nonneg f : 0 ≤ feature_index f.
Proof. destruct f; simpl; lia. Qed.

Lemma feature_bit_testbit f i : Z.testbit (feature_bit f) i = (feature_index f =? i).
Proof.
  unfold feature_bit. rewrite Z.shiftl_1_l. apply Z.pow2_bits_eqb, feature_index_nonneg.
Qed.

Lemma IsSupported_testbit f c : IsSupported f c = Z.testbit (m_features c) (feature_index f).
Proof.
  unfold IsSupported. pose proof (feature_index_nonneg f) as Hi.
  destruct (Z.testbit (m_features c) (feature_index f)) eqn:E.
  - apply negb_true_iff, Z.eqb_neq. intros E0.
    apply (f_equal (λ z, Z.testbit z (feature_index f))) in E0.
    by rewrite Z.land_spec, E, feature_bit_testbit, Z.eqb_refl, Z.bits_0 in E0.
  - apply negb_false_iff, Z.eqb_eq, Z.bits_inj'. intros n Hn.
    rewrite Z.land_spec, feature_bit_testbit, Z.bits_0.
    destruct (Z.eqb_spec (feature_index f) n) as [<-|]; [by rewrite E|apply andb_false_r].
Qed.

Lemma enable_features_testbit body l a i :
  Z.testbit (foldl (ENABLE_FEATURE body) a l) i
  = Z.testbit a i
    || existsb (λ p : eFeatures * text,
                  (feature_index p.1 =? i) && GetBool false body.[p.2]) l.
Proof.
  revert a; induction l as [|p l IH]; intros a; simpl; [by rewrite orb_false_r|].
  rewrite IH. unfold ENABLE_FEATURE at 1. destruct (GetBool false body.[p.2]).
  - by rewrite andb_true_r, Z.lor_spec, feature_bit_testbit, orb_assoc.
  - by rewrite andb_false_r.
Qed.

Definition feature_name (f : eFeatures) : text :=
  default [] ((λ x, x.2.2) <$> list_find (λ p : eFeatures * text, p.1 = f) features).

(** After the handshake a feature is supported exactly when it was before or the body of the
    response says so; the bits do not disturb each other. *)
Theorem handshake_features f body c :
  IsSupported f (complete_handshake body c)
  = IsSupported f c || GetBool false body.[feature_name f].
Proof.
  rewrite !IsSupported_testbit.
  change (m_features (complete_handshake body c)) with (enable_features body (m_features c)).
  unfold enable_features. rewrite enable_features_testbit.
  f_equal. destruct f; cbn [features existsb fst snd feature_index Z.eqb Pos.eqb andb orb];
    rewrite ?orb_false_r; reflexivity.
Qed.

(** ** The handshake *)

(** The message answers [initialize]. *)
Definition initialize_response (m : Message) : bool :=
  match AsResponse m with
  | Some response => Response_command response =t "initialize"
  | None => false
  end.

Lemma OnHandshake_spec j c m : kinded (generator c) →
  (FromJSON j (generator c)).1 = Some m →
  OnHandshake j c
  = (let c := c <| generator := (FromJSON j (generator c)).2 |> in
     if initialize_response m then
       SendDAPEvent wxEVT_DAP_INITIALIZE_RESPONSE (new_message class_InitializeResponse) j None
         (new class_InitializeResponse (complete_handshake j.["body"] c))
     else Ret c).
Proof.
  intros Hg Hm. unfold OnHandshake, read_message.
  destruct (FromJSON j (generator c)) as [m' g'] eqn:E. simpl in Hm. subst m'.
  destruct (FromJSON_casts _ _ _ _ Hg E) as [_ Hk]. cbv zeta. cbn [fst snd].
  pose proof (FromJSON_class _ _ _ _ Hg E) as Ht.
  unfold initialize_response, AsResponse in *. rewrite Ht in *.
  destruct (class_kind (class_of m)); [done|done|]. simpl in *.
  destruct Hk as (_ & _ & [r Hr]). rewrite Hr. by destruct (_ =t _).
Qed.


(** ** The answers *)

(** The commands whose responses reach the program, with the type of the event. *)
Definition response_event_type (command : text) : option wxEventType :=
  if command =t "stackTrace" then Some wxEVT_DAP_STACKTRACE_RESPONSE
  else if command =t "scopes" then Some wxEVT_DAP_SCOPES_RESPONSE
  else if command =t "variables" then Some wxEVT_DAP_VARIABLES_RESPONSE
  else if command =t "breakpointLocations" then Some wxEVT_DAP_BREAKPOINT_LOCATIONS_RESPONSE
  else if command =t "setFunctionBreakpoints" then Some wxEVT_DAP_SET_FUNCTION_BREAKPOINT_RESPONSE
  else if command =t "setBreakpoints" then Some wxEVT_DAP_SET_SOURCE_BREAKPOINT_RESPONSE
  else if command =t "configurationDone" then Some wxEVT_DAP_CONFIGURARIONE_DONE_RESPONSE
  else if command =t "launch" then Some wxEVT_DAP_LAUNCH_RESPONSE
  else if command =t "threads" then Some wxEVT_DAP_THREADS_RESPONSE
  else None.

(** The event a response makes: it carries the request that was in flight under its
    [request_seq], which is in flight no more. *)
Definition answers (type : wxEventType) (r : Response) (c : Client) (e : DAPEvent) (c' : Client) :
    Prop :=
  event_type e = type ∧
  m_originatingRequest e = m_in_flight_requests c !! Response_request_seq r ∧
  m_in_flight_requests c' = delete (Response_request_seq r) (m_in_flight_requests c).

Lemma send_response_event_spec type m j r c c0 :
  type ≠ wxEVT_DAP_STOPPED_EVENT → m_in_flight_requests c = m_in_flight_requests c0 →
  ∃ e c', send_response_event type m j r c = handle e c' ∧ answers type r c0 e c' ∧
    m_object e = Some (Message_From j m).
Proof.
  intros Ht Hf. unfold send_response_event, GetOriginatingRequest, SendDAPEvent, ProcessEvent.
  rewrite Hf. destruct (m_in_flight_requests c0 !! Response_request_seq r) eqn:E;
    cbv beta iota zeta; rewrite decide_False by done; eexists _, _;
    (split; [reflexivity|]); (split; [|reflexivity]); unfold answers; cbn; rewrite E.
  - done.
  - split_and!; [done..|]. rewrite Hf. symmetry. by apply delete_id.
Qed.

(** C25: the response to a command the client passes on reaches the program as one event of its
    type, with the request it answers (none when the server answers a number that is not in
    flight), and that request is in flight no more. *)
Theorem response_matched r j c type :
  response_event_type (Response_command r) = Some type →
  ∃ e c', OnResponse r j c = handle e c' ∧ answers type r c e c'.
Proof.
  intros Ht. unfold response_event_type in Ht.
  repeat match type of Ht with
  | (if ?a =t ?b then _ else _) = _ =>
      let Hc := fresh "Hc" in
      destruct (teq_spec a b) as [Hc|_]; [injection Ht as <-|]
  end; [..|discriminate Ht]; unfold OnResponse; test_commands Hc; repeat case_match; simplify_eq;
  match goal with |- ∃ e c', send_response_event ?t ?m j r ?c1 = _ ∧ _ =>
    destruct (send_response_event_spec t m j r c1 c) as (ev & cl & He & Ha & _); [done|reflexivity|];
    by exists ev, cl
  end.
Qed.

End State.

(** ** A program that records *)

Section Recorder.
Context `{Platform} `{HashOrder}.

Lemma recorder_log_only : handlers_log_only.
Proof. intros e c _. by eexists. Qed.

(** ** The order of the answers *)

(** The frame ids that the scopes events of a record carry. *)
Definition scopes_refId (o : observation) : option Z :=
  match o with
  | saw_event e => match m_object e with
                   | Some (msg_ScopesResponse x) => Some (ScopesResponse_refId x)
                   | _ => None
                   end
  | _ => None
  end.

(** The program asks for the scopes of a frame; the server answers. *)
Inductive scopes_step :=
| ask (frameId : Z)
| answer (r : Response) (j : Json).

Definition run_scopes_step (s : scopes_step) (c : Client) : exec (exception * Client) Client :=
  match s with
  | ask frameId => GetScopes frameId c
  | answer r j => OnResponse r j c
  end.

Fixpoint run_scopes (l : list scopes_step) (c : Client) : exec (exception * Client) Client :=
  match l with
  | [] => Ret c
  | s :: l => let* c := run_scopes_step s c in run_scopes l c
  end.

(** The contract: a queue.  An answer reports the oldest id that was asked for and not yet
    reported, [wxNOT_FOUND] when there is none. *)
Fixpoint scopes_fifo (queue : list Z) (l : list scopes_step) : list Z * list Z :=
  match l with
  | [] => ([], queue)
  | ask frameId :: l => scopes_fifo (queue ++ [frameId]) l
  | answer _ _ :: l =>
      let '(out, queue') := scopes_fifo (tail queue) l in
      (default wxNOT_FOUND (head queue) :: out, queue')
  end.

Definition valid_scopes_step (s : scopes_step) : Prop :=
  match s with
  | ask frameId => is_int frameId = true
  | answer r j => Response_command r = "scopes"
  end.

Lemma SendRequest_quiet m t c : m_transport c = Some t → m_wants_log_events c = false →
  is_value (Message_To m) →
  ∃ s, ToString false (Message_To m) = Ret s ∧
    SendRequest_ m c
    = Ret (c <| sent := sent c ++ [(t, frame s)] |>
             <| m_in_flight_requests :=
                  map_insert (message_seq m) m (m_in_flight_requests c) |>).
Proof.
  intros Ht Hw Hm. destruct (is_value_text _ Hm) as [s Hs]. exists s. split; [done|].
  unfold SendRequest_, SendRequest, send_or_reset, JsonRPC_Send, json_text, log_event.
  rewrite Ht, Hs. cbn [exec_bind].
  change (m_wants_log_events (c <| sent := sent c ++ [(t, frame s)] |>))
    with (m_wants_log_events c). by rewrite Hw.
Qed.

Lemma send_response_event_recorded type m j r c : type ≠ wxEVT_DAP_STOPPED_EVENT →
  ∃ e c', send_response_event type m j r c = Ret c' ∧ m_object e = Some (Message_From j m) ∧
    (app c' : list observation) = app c ++ [saw_event e] ∧
    m_get_scopes_queue c' = m_get_scopes_queue c ∧ m_transport c' = m_transport c ∧
    m_wants_log_events c' = m_wants_log_events c.
Proof.
  intros Ht. unfold send_response_event, GetOriginatingRequest, SendDAPEvent, ProcessEvent.
  destruct (_ !! _); cbv beta iota zeta; rewrite decide_False by done;
    eexists _, _; (split; [reflexivity|]); by repeat split.
Qed.

(** One step of the client is one step of the queue. *)
Lemma run_scopes_step_spec s t c :
  m_transport c = Some t → m_wants_log_events c = false → valid_scopes_step s →
  ∃ c' o, run_scopes_step s c = Ret c' ∧ m_transport c' = Some t ∧
    m_wants_log_events c' = false ∧ (app c' : list observation) = app c ++ o ∧
    ∀ l, scopes_fifo (m_get_scopes_queue c) (s :: l)
         = (let '(out, queue) := scopes_fifo (m_get_scopes_queue c') l in
            (omap scopes_refId o ++ out, queue)).
Proof.
  intros Ht Hw Hv. destruct s as [id|r j]; simpl in Hv.
  - unfold run_scopes_step, GetScopes, MakeRequest, GetNextSequence. cbv beta iota zeta.
    match goal with |- context [SendRequest_ ?m ?c1] =>
      destruct (SendRequest_quiet m t c1) as (s & _ & ->); [done|done| |]
    end.
    { apply scopes_request_value; [apply to_int32_is_int|done]. }
    eexists _, []. split; [reflexivity|]. split_and!; [done|done| |].
    + symmetry. apply app_nil_r.
    + intros l. cbn. by destruct (scopes_fifo _ l).
  - unfold run_scopes_step, OnResponse. test_commands Hv.
    destruct (pop_front _) as [front queue] eqn:Ep.
    match goal with |- context [send_response_event ?ty ?m j r ?c1] =>
      destruct (send_response_event_recorded ty m j r c1) as (e & c' & -> & Ho & Ha & Hq & Ht' & Hw');
        [done|]
    end.
    exists c', [saw_event e]. split; [done|]. split_and!;
      [by rewrite Ht'|by rewrite Hw'|by rewrite Ha|].
    intros l. rewrite Hq. cbn [scopes_fifo omap list_omap scopes_refId].
    rewrite Ho. cbn [Message_From]. cbn in Ep.
    destruct (m_get_scopes_queue c); injection Ep as <- <-; cbn; by destruct (scopes_fifo _ l).
Qed.

(** C8: the answers to [GetScopes] are matched in the order of the requests: under every
    interleaving of requests and answers the frame ids that reach the program are those of the
    queue of the specification, and what is left in the client's queue is what is left in it. *)
Theorem scopes_refine_fifo l t c :
  m_transport c = Some t → m_wants_log_events c = false → Forall valid_scopes_step l →
  ∃ c' o, run_scopes l c = Ret c' ∧ (app c' : list observation) = app c ++ o ∧
    (omap scopes_refId o, m_get_scopes_queue c') = scopes_fifo (m_get_scopes_queue c) l.
Proof.
  revert c; induction l as [|s l IH]; intros c Ht Hw Hl.
  - exists c, []. by rewrite app_nil_r.
  - inversion Hl as [|? ? Hs Hl']; subst.
    destruct (run_scopes_step_spec s t c) as (c1 & o & Hr & Ht1 & Hw1 & Ha1 & Hf); [done..|].
    destruct (IH c1) as (c2 & o' & Hr2 & Ha2 & Hq2); [done..|].
    exists c2, (o ++ o'). cbn [run_scopes]. rewrite Hr. cbn [exec_bind].
    split; [done|]. split; [by rewrite Ha2, Ha1, app_assoc|].
    by rewrite Hf, <- Hq2, omap_app.
Qed.
End Recorder.

Section Samples.
#[local] Existing Instance sample_platform.
#[local] Existing Instance sample_hash.

Definition sample_request : Message :=
  msg_ThreadsRequest (mkRequest (mkProtocolMessage 1 "request") "threads").

Lemma SendRequest_disconnected_witness :
  ∃ c', SendRequest sample_request sample_new = Ret (false, c').
Proof.
  eexists. rewrite (SendRequest_disconnected sample_request sample_new eq_refl).
  reflexivity.
Defined.


Lemma response_matched_witness :
  ∃ e c', OnResponse (sample_response "threads") None sample_ready = handle e c' ∧
    answers wxEVT_DAP_THREADS_RESPONSE (sample_response "threads") sample_ready e c'.
Proof.
  refine (response_matched (sample_response "threads") None sample_ready
            wxEVT_DAP_THREADS_RESPONSE _).
  vm_compute. reflexivity.
Defined.

(** The request 1 was [next]; its response arrives. *)
Definition sample_in_flight : Client :=
  sample_ready <| m_in_flight_requests := {[ 1 := sample_request ]} |>.


(** Two questions, three answers: the last is one too many. *)
Definition sample_steps : list scopes_step :=
  [ask 11; ask 12; answer (sample_response "scopes") None; answer (sample_response "scopes") None;
   answer (sample_response "scopes") None].

Lemma scopes_refine_fifo_witness :
  ∃ c' o, run_scopes sample_steps sample_ready = Ret c' ∧
    observed c' = observed sample_ready ++ o ∧
    (omap scopes_refId o, m_get_scopes_queue c') = ([11; 12; wxNOT_FOUND], []).
Proof.
  destruct (scopes_refine_fifo sample_steps 7 sample_ready) as (c' & o & Hr & Ha & Hq).
  - reflexivity.
  - reflexivity.
  - repeat constructor.
  - exists c', o. split; [exact Hr|]. split; [exact Ha|]. rewrite Hq. reflexivity.
Defined.
End Samples.
