(* ===== verification/ClientInvariant.v ===== *)
(** * An invariant of the client: the requests in flight are numbered by their keys.

    The client is a transition system whose steps are the calls of its interface, the buffers
    and the error that the reader thread posts, and the assignments of its setters; the handlers
    of the program run inside a step. *)
From S2P Require Import Prelude.
From S2P Require Import Double.
From S2P Require Import CJson.
From S2P Require Import Json.
From S2P Require Import Any.
From S2P Require Import DapData.
From S2P Require Import DapEnvironment.
From S2P Require Import DapMessages.
From S2P Require Import DapRegistry.
From S2P Require Import DapKinds.
From S2P Require Import JsonRPC.
From S2P Require Import Client.
From S2P Require Import ClientSamples.
From S2P Require Import ClientRequests.
Local Open Scope Z_scope.

Section Invariant.
Context `{Platform} `{HashOrder} `{Application} `{!Handlers}.

Inductive operation :=
| op_call (call : request_call)
| op_SendResponse (response : Message)
| op_OnDataRead (buffer : text)
| op_OnConnectionError
| op_SetTransport (transport : option nat)
| op_Reset
| op_SetWantsLogEvents (b : bool).

Definition operate (op : operation) (c : Client) : exec (exception * Client) Client :=
  match op with
  | op_call call => perform call c
  | op_SendResponse m => let* (_, c) := SendResponse m c in Ret c
  | op_OnDataRead buffer => OnDataRead buffer c
  | op_OnConnectionError => OnConnectionError c
  | op_SetTransport t => Ret (SetTransport t c)
  | op_Reset => Ret (Reset c)
  | op_SetWantsLogEvents b => Ret (c <| m_wants_log_events := b |>)
  end.

(** The operation ends in [c'], by returning or by an exception that leaves it. *)
Definition ends_in (r : exec (exception * Client) Client) (c' : Client) : Prop :=
  r = Ret c' ∨ ∃ e, r = Err (e, c').

Inductive reachable_from (c0 : Client) : Client → Prop :=
| reachable_refl : reachable_from c0 c0
| reachable_step op c c' :
    reachable_from c0 c → ends_in (operate op c) c' → reachable_from c0 c'.

(** ** Properties of every client an action ends in *)

Definition ensures (P : Client → Prop) (r : exec (exception * Client) Client) : Prop :=
  ∀ c', ends_in r c' → P c'.

Lemma ensures_Ret P c : P c → ensures P (Ret c).
Proof. intros Hc c' [[= <-]|[e [=]]]; done. Qed.

Lemma ensures_Err P e c : P c → ensures P (Err (e, c)).
Proof. intros Hc c' [[=]|[e' [= _ <-]]]; done. Qed.

Lemma ensures_Undef P : ensures P Undef.
Proof. intros c' [[=]|[e [=]]]. Qed.

Lemma ensures_NoFuel P : ensures P NoFuel.
Proof. intros c' [[=]|[e [=]]]. Qed.

Lemma ensures_bind P m k : ensures P m → (∀ c, P c → ensures P (k c)) →
  ensures P (exec_bind m k).
Proof.
  intros Hm Hk. destruct m as [c|[e c]| |]; simpl;
    [apply Hk, Hm; by left|apply ensures_Err, Hm; right; by eexists|apply ensures_Undef
    |apply ensures_NoFuel].
Qed.

(** A bind whose first part does not change the client. *)
Lemma ensures_bind_value {A} P (m : exec (exception * Client) A) k :
  (∀ e c, m = Err (e, c) → P c) → (∀ a, m = Ret a → ensures P (k a)) →
  ensures P (exec_bind m k).
Proof.
  intros He Hk. destruct m as [a|[e c]| |]; simpl;
    [by apply Hk|by eapply ensures_Err, He|apply ensures_Undef|apply ensures_NoFuel].
Qed.

Definition preserves (P : Client → Prop) (a : Client → exec (exception * Client) Client) : Prop :=
  ∀ c, P c → ensures P (a c).

(** ** The invariant

    A request in flight is a request, and its key is its number; the pools of the generator hold
    classes of their kind; there is a reader thread exactly when there is a transport, and it is
    not asked to stop. *)
Record client_ok (c : Client) : Prop := {
  ok_in_flight k m :
    m_in_flight_requests c !! k = Some m → message_seq m = k ∧ is_Some (Message_Request m);
  ok_generator : kinded (generator c);
  ok_thread : m_readerThread c = true ↔ is_Some (m_transport c);
  ok_shutdown : m_shutdown c = false;
}.

(** The program: its handlers and callbacks keep the invariant, which they do when they only use
    the operations of the client, and those of log events are passive. *)
Record handlers_keep (P : Client → Prop) : Prop := {
  handle_keep e : preserves P (handle e);
  call_evaluate_keep cb s r t v : preserves P (call_evaluate cb s r t v);
  call_source_loaded_keep cb s t m : preserves P (call_source_loaded cb s t m);
}.

Context (Hk : handlers_keep client_ok) (Hlog : handlers_log_only).

Lemma client_ok_ext c c' : client_ok c →
  m_in_flight_requests c' = m_in_flight_requests c → m_readerThread c' = m_readerThread c →
  m_transport c' = m_transport c → m_shutdown c' = m_shutdown c → kinded (generator c') →
  client_ok c'.
Proof. intros [Hf Hg Ht Hs] Ef Er Et Es Hg'. split; rewrite ?Ef, ?Er, ?Et, ?Es; done. Qed.

Lemma kinded_new k c : kinded (generator c) → kinded (generator (new k c)).
Proof. apply kinded_construct. Qed.

(** The client differs from one that is known in members the invariant does not look at, and by
    constructors that ran. *)
Ltac ok :=
  lazymatch goal with
  | Hc : client_ok ?c |- client_ok ?c => exact Hc
  | Hc : client_ok ?c |- client_ok ?c' =>
      apply (client_ok_ext c c' Hc); [reflexivity..|];
      first [ exact (ok_generator c Hc) | apply kinded_new; exact (ok_generator c Hc)
            | apply kinded_construct; exact (ok_generator c Hc) | idtac ]
  end.

Lemma client_ok_new g out a : kinded g → client_ok (Client_new g out a).
Proof.
  intros Hg. split; simpl; [intros k m; by rewrite lookup_empty|by apply kinded_Initialize|
    |done]. split; [done|by intros []].
Qed.

Lemma client_ok_Reset c : kinded (generator c) → client_ok (Reset c).
Proof.
  intros Hg. destruct c as [? ? ? ? [] ? ? ? ? ? ? ? ? ? ? ? ? ? ? ? g ?];
    (split; cbn; [intros k m; by rewrite lookup_empty|done|split; [done|by intros []]|done]).
Qed.

Lemma OnConnectionError_keep : preserves client_ok OnConnectionError.
Proof.
  intros c Hc. apply ensures_bind; [by apply (handle_keep _ Hk)|].
  intros c' Hc'. apply ensures_Ret, client_ok_Reset. by apply ok_generator.
Qed.

Lemma json_text_Err j e : json_text j ≠ Err e.
Proof. unfold json_text. by destruct (ToString false j). Qed.

Lemma log_event_keep p j : preserves client_ok (log_event p j).
Proof.
  intros c Hc. unfold log_event. destruct (m_wants_log_events c); [|by apply ensures_Ret].
  apply ensures_bind_value; [by intros e c' ?%json_text_Err|].
  intros s _. by apply (handle_keep _ Hk).
Qed.

(** Removing a request from the flight. *)
Lemma client_ok_delete k c : client_ok c →
  client_ok (c <| m_in_flight_requests := delete k (m_in_flight_requests c) |>).
Proof.
  intros [Hf Hg Ht Hs]. split; [|done..]. cbn. intros k' m [_ Hm]%lookup_delete_Some. by apply Hf.
Qed.

Lemma SendDAPEvent_keep type m j r : preserves client_ok (SendDAPEvent type m j r).
Proof.
  intros c Hc. unfold SendDAPEvent, ProcessEvent. cbv zeta.
  destruct (decide _); [|by apply (handle_keep _ Hk)].
  destruct (Message_From j m); try apply ensures_Undef. apply (handle_keep _ Hk). ok.
Qed.

Lemma send_response_event_keep type m j r : preserves client_ok (send_response_event type m j r).
Proof.
  intros c Hc. unfold send_response_event, GetOriginatingRequest.
  destruct (_ !! _); apply SendDAPEvent_keep; [by apply client_ok_delete|done].
Qed.

(** Closes a branch: the client passed on differs in members the invariant does not look at. *)
Ltac keep :=
  first [ apply ensures_Undef
        | apply SendDAPEvent_keep; ok
        | apply send_response_event_keep; ok
        | apply ensures_Ret; ok ].

Lemma OnEvent_keep e j : preserves client_ok (OnEvent e j).
Proof. intros c Hc. unfold OnEvent. cbv zeta. repeat case_match; keep. Qed.

Lemma OnRequest_keep r j : preserves client_ok (OnRequest r j).
Proof. intros c Hc. unfold OnRequest. case_match; keep. Qed.

Lemma HandleSourceResponse_keep j : preserves client_ok (HandleSourceResponse j).
Proof.
  intros c Hc. unfold HandleSourceResponse. destruct (m_load_sources_queue c); [by apply ensures_Ret|].
  apply (call_source_loaded_keep _ Hk). ok.
Qed.

Lemma HandleEvaluateResponse_keep j : preserves client_ok (HandleEvaluateResponse j).
Proof.
  intros c Hc. unfold HandleEvaluateResponse. destruct (m_evaluate_queue c); [by apply ensures_Ret|].
  apply (call_evaluate_keep _ Hk). ok.
Qed.

Lemma OnResponse_keep r j : preserves client_ok (OnResponse r j).
Proof.
  intros c Hc. unfold OnResponse. cbv zeta.
  case_match; [destruct (pop_front _); keep|].
  case_match; [destruct (pop_front _); keep|].
  case_match; [destruct (pop_front _); destruct (default _ _); keep|].
  case_match; [keep|].
  case_match; [destruct (_ !! _); keep|].
  case_match; [keep|].
  case_match; [destruct (pop_front _); keep|].
  case_match; [keep|].
  case_match; [keep|].
  case_match; [keep|].
  case_match; [by apply HandleSourceResponse_keep|].
  case_match; [by apply HandleEvaluateResponse_keep|keep].
Qed.

Lemma OnHandshake_keep j : preserves client_ok (OnHandshake j).
Proof.
  intros c Hc. unfold OnHandshake, read_message.
  pose proof (FromJSON_kinded j (generator c) (ok_generator c Hc)) as Hg.
  destruct (FromJSON j (generator c)) as [[m|] g]; simpl in Hg; [|keep; done].
  assert (client_ok (c <| generator := g |>)) as Hc1 by (ok; done). clear Hc.
  revert Hc1. generalize (c <| generator := g |>). clear c. intros c Hc.
  case_match; [keep|]. destruct (Message_Response m); [|keep]. case_match; keep.
Qed.

Lemma OnMessage_keep j : preserves client_ok (OnMessage j).
Proof.
  intros c Hc. apply ensures_bind; [by apply log_event_keep|]. clear c Hc. intros c Hc.
  destruct (m_handshake_state c); [by apply OnHandshake_keep..|].
  unfold read_message. pose proof (FromJSON_kinded j (generator c) (ok_generator c Hc)) as Hg.
  destruct (FromJSON j (generator c)) as [[m|] g]; simpl in Hg; [|keep; done].
  assert (client_ok (c <| generator := g |>)) as Hc1 by (ok; done). clear Hc.
  revert Hc1. generalize (c <| generator := g |>). clear c. intros c Hc.
  destruct (AsEvent m); [by apply OnEvent_keep|].
  destruct (AsResponse m); [by apply OnResponse_keep|].
  destruct (AsRequest m); [by apply OnRequest_keep|keep].
Qed.

Lemma DoProcessBuffer_Err b (e : exception * Client) : DoProcessBuffer b ≠ Err e.
Proof.
  unfold DoProcessBuffer. destruct b as [|x b]; [done|].
  destruct (ReadHeaders (x :: b)) as [[n h]|e'| |] eqn:E; simpl; try done.
  2: { exfalso. revert E. unfold ReadHeaders. repeat case_match; done. }
  repeat case_match; try done. intros [E'|(m & _ & E')]%exec_bind_Err.
  - revert E'. unfold atol. cbv zeta. repeat case_match; done.
  - repeat case_match; try done. apply exec_bind_Err in E' as [E'|(? & _ & ?)]; [|done].
    revert E'. unfold parse_payload. repeat case_match; done.
Qed.

Lemma ProcessBuffer_keep fuel : preserves client_ok (ProcessBuffer OnMessage fuel).
Proof.
  induction fuel as [|f IH]; intros c Hc; [apply ensures_NoFuel|]. cbn [ProcessBuffer].
  apply ensures_bind_value; [by intros e c' ?%DoProcessBuffer_Err|]. intros [j b] _.
  destruct (IsOK j); [|apply ensures_Ret; ok].
  apply ensures_bind; [apply OnMessage_keep; ok|]. intros c' Hc'. by apply IH.
Qed.

(** ** Sending *)

Lemma client_ok_insert m c : client_ok c → is_Some (Message_Request m) →
  client_ok (c <| m_in_flight_requests :=
                    map_insert (message_seq m) m (m_in_flight_requests c) |>).
Proof.
  intros [Hf Hg Ht Hs] Hm. split; [|done..]. cbn. intros k m' Hl.
  unfold map_insert in Hl. destruct (_ !! message_seq m) eqn:E; [by apply Hf|].
  apply lookup_insert_Some in Hl as [[<- <-]|[_ Hl]]; [done|by apply Hf].
Qed.

Lemma JsonRPC_Send_spec m c :
  ensures (λ c', ∃ out, c' = c <| sent := out |>) (JsonRPC_Send m c).
Proof.
  unfold JsonRPC_Send. destruct (m_transport c) as [t|].
  - apply ensures_bind_value; [by intros e c' ?%json_text_Err|]. intros s _. apply ensures_Ret.
    by eexists.
  - apply ensures_Err. exists (sent c). by destruct c.
Qed.

(** [try ... catch]: the body keeps the invariant, and a reset establishes it. *)
Lemma send_or_reset_keep body (k : bool * Client → exec (exception * Client) Client) c :
  ensures client_ok (body c) →
  (∀ b c, client_ok c → ensures client_ok (k (b, c))) →
  ensures client_ok (exec_bind (send_or_reset body c) k).
Proof.
  intros Hb Hk'. unfold send_or_reset. destruct (body c) as [c1|[e c1]| |]; simpl.
  - apply Hk', Hb. by left.
  - rewrite exec_bind_assoc. apply ensures_bind.
    + apply OnConnectionError_keep, Hb. right. by eexists.
    + intros c' Hc'. by apply Hk'.
  - apply ensures_Undef.
  - apply ensures_NoFuel.
Qed.

Lemma SendRequest_keep m c : client_ok c → is_Some (Message_Request m) →
  ensures client_ok (SendRequest_ m c).
Proof.
  intros Hc Hm. unfold SendRequest_, SendRequest.
  apply send_or_reset_keep; [|intros b c' Hc'; by apply ensures_Ret].
  apply ensures_bind.
  - intros c' He. destruct (JsonRPC_Send_spec m c c' He) as [out ->]. ok.
  - clear c Hc. intros c Hc. apply ensures_bind; [by apply log_event_keep|].
    clear c Hc. intros c Hc. apply ensures_Ret. by apply client_ok_insert.
Qed.

Lemma SendResponse_keep m c : client_ok c →
  ensures client_ok (let* (_, c) := SendResponse m c in Ret c).
Proof.
  intros Hc. unfold SendResponse.
  apply send_or_reset_keep; [|intros b c' Hc'; by apply ensures_Ret].
  apply ensures_bind; [|by apply log_event_keep].
  intros c' He. destruct (JsonRPC_Send_spec m c c' He) as [out ->]. ok.
Qed.

(** A call: members are assigned, the request is sent, members are assigned. *)
Ltac keep_call :=
  cbv beta iota zeta;
  first [ apply SendRequest_keep; [ok|by eexists]
        | rewrite ?exec_bind_assoc; apply ensures_bind;
          [apply SendRequest_keep; [ok|by eexists]|intros c' Hc'; apply ensures_Ret; ok] ].

Lemma perform_keep call : preserves client_ok (perform call).
Proof.
  intros c Hc. destruct call; simpl perform;
    unfold Client_Initialize, SetBreakpointsFile, ConfigurationDone, Launch, Attach, GetThreads,
      GetScopes, GetFrames, Next, Continue, SetFunctionBreakpoints, StepIn, StepOut,
      GetChildrenVariables, Pause, BreakpointLocations, LoadSource, EvaluateExpression,
      MakeRequest, GetNextSequence; try keep_call.
  - destruct cmd; [apply ensures_Undef|keep_call].
  - destruct (negb _); [by apply ensures_Ret|keep_call].
  - destruct (0 <? _); [keep_call|by apply ensures_Ret].
Qed.

Lemma Reset_no_thread c : m_readerThread (Reset c) = false.
Proof.
  unfold Reset, StopReaderThread. destruct (m_readerThread c) eqn:E; [reflexivity|exact E].
Qed.

Lemma client_ok_SetTransport t c : client_ok c → client_ok (SetTransport t c).
Proof.
  intros Hc. pose proof (client_ok_Reset c (ok_generator c Hc)) as [Hf Hg _ Hs].
  pose proof (Reset_no_thread c) as Hr. unfold SetTransport, StartReaderThread.
  revert Hf Hg Hs Hr. generalize (Reset c). clear c Hc. intros c Hf Hg Hs Hr. cbn. rewrite Hr.
  destruct t as [t|]; (split; cbn; [exact Hf|exact Hg| |exact Hs]).
  - split; [by eexists|done].
  - rewrite Hr. split; [done|by intros []].
Qed.

Lemma operate_keep op : preserves client_ok (operate op).
Proof.
  intros c Hc. destruct op; simpl.
  - by apply perform_keep.
  - by apply SendResponse_keep.
  - unfold OnDataRead, receive. destruct (_ =t _); [by apply ensures_Ret|].
    apply ProcessBuffer_keep. ok.
  - by apply OnConnectionError_keep.
  - apply ensures_Ret. by apply client_ok_SetTransport.
  - apply ensures_Ret, client_ok_Reset. by apply ok_generator.
  - apply ensures_Ret. ok.
Qed.

Lemma reachable_client_ok g out a c :
  kinded g → reachable_from (Client_new g out a) c → client_ok c.
Proof.
  intros Hg Hr. induction Hr as [|op c c' _ IH He]; [by apply client_ok_new|].
  by apply (operate_keep op c IH c').
Qed.

(** C4: in every state the client can reach, by any sequence of calls, of buffers and errors
    posted by the reader thread, and whatever requests the handlers make in between: a message
    in flight is a request kept under its own number, every pool of the generator holds classes
    of its kind, and the reader thread exists exactly while there is a transport. *)
Theorem reachable_ok g out a c :
  kinded g → reachable_from (Client_new g out a) c → client_ok c.
Proof. apply reachable_client_ok. Qed.
End Invariant.

Section Samples.
#[local] Existing Instance sample_platform.
#[local] Existing Instance sample_hash.

Lemma recorder_keeps : handlers_keep client_ok.
Proof.
  split; intros; intros c Hc; (apply ensures_Ret;
    apply (client_ok_ext c); [exact Hc|reflexivity..|exact (ok_generator c Hc)]).
Qed.

Lemma reachable_ok_witness : client_ok (sample_client).
Proof.
  refine (reachable_ok recorder_keeps ObjGenerator_empty [] _ sample_client kinded_empty _).
  exact (reachable_step sample_new (op_SetTransport (Some 7%nat)) sample_new sample_client
           (reachable_refl _) (or_introl eq_refl)).
Defined.
End Samples.
