(* ===== verification/Session.v ===== *)
(** * Client.cpp: the reader thread, the events it posts, and the thread of the program.

    A [Session] is the client with its reader thread, the state of the connection the thread reads
    from, and the queue of the calls that [CallAfter] posted, which the event loop of the program
    makes in order.  A step is one step of the reader thread (its test of [m_shutdown], its
    [Read], what it does with the result) or one operation of the thread of the program.  The two
    share [m_shutdown], [m_terminated] and the queue.  [StopReaderThread] waits for the thread:
    what the thread still does meanwhile touches neither, so the operation that stops it is taken
    to start when the thread is about to test [m_shutdown] or has ended. *)
From S2P Require Import Prelude.
From S2P Require Import Double.
From S2P Require Import CJson.
From S2P Require Import Json.
From S2P Require Import Any.
From S2P Require Import DapData.
From S2P Require Import DapEnvironment.
From S2P Require Import DapMessages.
From S2P Require Import DapRegistry.
From S2P Require Import JsonRPC.
From S2P Require Import ConnectionString.
From S2P Require Import Socket.
From S2P Require Import SocketSpec.
From S2P Require Import Client.
From S2P Require Import ClientStream.
From S2P Require Import ClientInvariant.
Local Open Scope Z_scope.

(** ** Transports

    What [Transport::Read(buffer, 5)] may do: the result, the buffer, the connection after it.
    [handed] is every byte the connection has handed over so far. *)
Class Transport := {
  Connection : Type;
  Reads : Connection → bool → text → Connection → Prop;
  handed : Connection → text;
  Reads_handed t ok buffer t' : Reads t ok buffer t' →
    handed t' = handed t ++ buffer ∧ (ok = false → buffer = []);
}.

(** A socket transport is one: its socket and the world. *)
Section SocketTransport.
Context `{Kernel}.

#[export] Program Instance socket_transport : Transport := {|
  Connection := { p : Socket * World | in_range p.1 };
  Reads t ok buffer t' :=
    SocketTransport_Read 5 (`t).1 (`t).2 = Ret ((ok, buffer), (`t').2) ∧ (`t').1 = (`t).1;
  handed t := received (`t).2 (m_socket (`t).1);
|}.
Next Obligation.
  intros [[s w] Hs] ok buffer [[s' w'] Hs']. simpl in *. intros [Hr ->].
  by apply (SocketTransport_Read_handed 5).
Qed.
End SocketTransport.

(** ** The session *)

(** Where the reader thread is in its loop. *)
Inductive reader :=
| at_test
| reading
| has_read (success : bool) (content : text)
| at_error
| ended.

(** What [CallAfter] posts. *)
Inductive posted :=
| post_OnDataRead (content : text)
| post_OnConnectionError.

Section Session.
Context `{Platform} `{HashOrder} `{Application} `{!Handlers} `{Transport}.

Record Session := mkSession {
  client : Client;
  thread : option reader;
  queue : list posted;
  connection : Connection;
}.

#[export] Instance Session_settable : Settable Session :=
  rebuild mkSession <@> client <@> thread <@> queue <@> connection.

Definition Session_new (c : Client) (t : Connection) : Session := mkSession c None [] t.

(** The steps of the reader thread. *)
Inductive reader_step : Session → Session → Prop :=
| step_stop s : thread s = Some at_test → m_shutdown (client s) = true →
    reader_step s (s <| thread := Some ended |>)
| step_test s : thread s = Some at_test → m_shutdown (client s) = false →
    reader_step s (s <| thread := Some reading |>)
| step_read s success content t : thread s = Some reading →
    Reads (connection s) success content t →
    reader_step s (s <| thread := Some (has_read success content) |> <| connection := t |>)
| step_post s content : thread s = Some (has_read true content) → content ≠ [] →
    reader_step s (s <| thread := Some at_test |>
                     <| queue := queue s ++ [post_OnDataRead content] |>)
| step_timeout s : thread s = Some (has_read true []) →
    reader_step s (s <| thread := Some at_test |>)
| step_fail s content : thread s = Some (has_read false content) →
    reader_step s (s <| thread := Some at_error |>
                     <| client := (client s) <| m_terminated := true |> |>)
| step_error s : thread s = Some at_error →
    reader_step s (s <| thread := Some ended |> <| queue := queue s ++ [post_OnConnectionError] |>).

(** The reader thread can be joined. *)
Definition joinable (r : option reader) : Prop := r = None ∨ r = Some at_test ∨ r = Some ended.

(** The client of the session becomes [c'], by an operation of the thread of the program: the
    reader thread goes on, or was stopped, or another was started, over the connection [t']. *)
Inductive becomes (s : Session) (c' : Client) : Session → Prop :=
| thread_goes_on :
    threads c' = threads (client s) → m_readerThread c' = m_readerThread (client s) →
    becomes s c' (s <| client := c' |>)
| thread_stopped :
    threads c' = threads (client s) → m_readerThread c' = false → joinable (thread s) →
    becomes s c' (s <| client := c' |> <| thread := None |>)
| thread_started t' :
    threads c' ≠ threads (client s) → joinable (thread s) →
    becomes s c' (s <| client := c' |> <| connection := t' |>
                    <| thread := if m_readerThread c' then Some at_test else None |>).

(** The call the event loop makes. *)
Definition call_posted (p : posted) : Client → exec (exception * Client) Client :=
  match p with
  | post_OnDataRead content => OnDataRead content
  | post_OnConnectionError => OnConnectionError
  end.

Inductive program_step : Session → Session → Prop :=
| step_posted s p rest c' s' : queue s = p :: rest → ends_in (call_posted p (client s)) c' →
    becomes (s <| queue := rest |>) c' s' → program_step s s'
| step_operation s op c' s' : ends_in (operate op (client s)) c' →
    becomes s c' s' → program_step s s'.

Definition session_step (s s' : Session) : Prop := reader_step s s' ∨ program_step s s'.
End Session.
