(* ===== verification/SessionSpec.v ===== *)
(** * The session delivers the messages of the server, and what an old session leaves behind. *)
From S2P Require Import Prelude.
From S2P Require Import Double.
From S2P Require Import CJson.
From S2P Require Import Json.
From S2P Require Import Any.
From S2P Require Import DapData.
From S2P Require Import DapEnvironment.
From S2P Require Import DapMessages.
From S2P Require Import DapRegistry.
From S2P Require Import JsonRPC.
From S2P Require Import Socket.
From S2P Require Import SocketSpec.
From S2P Require Import Client.

From S2P Require Import ClientSamples.
From S2P Require Import ClientStream.
From S2P Require Import ClientRequests.
From S2P Require Import ClientInvariant.
From S2P Require Import Session.
Local Open Scope Z_scope.

Section SessionSpec.
Context `{Platform} `{HashOrder} `{Application} `{!Handlers} `{Transport}.

(** ** A session over one connection *)

(** The operation ends in [c'] here, whatever the receive buffer holds, and leaves it alone. *)
Definition leaves_buffer (op : operation) (c c' : Client) : Prop :=
  ∀ b, operate op (c <| m_rpc := b |>) = Ret (c' <| m_rpc := b |>).

(** The steps that neither stop the reader thread nor start one, nor end in an exception. *)
Inductive live_step (s : Session) : Session → Prop :=
| live_reader s' : reader_step s s' → live_step s s'
| live_data content rest c' : queue s = post_OnDataRead content :: rest →
    OnDataRead content (client s) = Ret c' →
    threads c' = threads (client s) → m_readerThread c' = m_readerThread (client s) →
    live_step s (s <| queue := rest |> <| client := c' |>)
| live_operation op c' : operate op (client s) = Ret c' → leaves_buffer op (client s) c' →
    threads c' = threads (client s) → m_readerThread c' = m_readerThread (client s) →
    live_step s (s <| client := c' |>).

Lemma live_session s s' : live_step s s' → session_step s s'.
Proof.
  intros [s1 Hs|content rest c' Hq Hr Ht Hm|op c' Hr _ Ht Hm]; [by left|right..].
  - apply (step_posted s (post_OnDataRead content) rest c'); [done|by left|].
    by apply (thread_goes_on (s <| queue := rest |>)).
  - apply (step_operation s op c'); [by left|by apply thread_goes_on].
Qed.

(** Every call of the program that makes a request over a connection, without log events, is such
    an operation. *)
Lemma SendRequest__leaves_buffer t m c c' b : m_transport c = Some t → m_wants_log_events c = false →
  SendRequest_ m c = Ret c' → SendRequest_ m (c <| m_rpc := b |>) = Ret (c' <| m_rpc := b |>).
Proof.
  intros Ht Hl. unfold SendRequest_, SendRequest, send_or_reset, JsonRPC_Send, log_event.
  change (m_transport (c <| m_rpc := b |>)) with (m_transport c). rewrite Ht.
  destruct (json_text (Message_To m)) as [payload|[e c1]| |] eqn:E; cbn [exec_bind]; try done.
  - cbn. rewrite Hl. cbn. by intros [= <-].
  - unfold json_text in E. by destruct (ToString false (Message_To m)).
Qed.

Ltac leaves_request t b Ht Hl Hr :=
  first
    [ refine (SendRequest__leaves_buffer t _ _ _ b _ _ Hr); [exact Ht|exact Hl]
    | let Hone := fresh in
      apply exec_bind_Ret in Hr as (?c & Hone & Hr); injection Hr as <-;
      match type of Hone with SendRequest_ ?m ?c0 = Ret ?c1 =>
        let Hb := fresh in
        assert (SendRequest_ m (c0 <| m_rpc := b |>) = Ret (c1 <| m_rpc := b |>)) as Hb;
        [ refine (SendRequest__leaves_buffer t _ _ _ b _ _ Hone); [exact Ht|exact Hl]
        | refine (eq_trans (f_equal (λ x, exec_bind x _) Hb) _); reflexivity ]
      end ].

Lemma call_leaves_buffer t call c c' : m_transport c = Some t → m_wants_log_events c = false →
  operate (op_call call) c = Ret c' → leaves_buffer (op_call call) c c'.
Proof.
  intros Ht Hl Hr b. simpl operate in *.
  destruct call; simpl perform in *;
    unfold Client_Initialize, SetBreakpointsFile, ConfigurationDone, Launch, Attach, GetThreads,
      GetScopes, GetFrames, Next, Continue, SetFunctionBreakpoints, StepIn, StepOut,
      GetChildrenVariables, Pause, BreakpointLocations, LoadSource, EvaluateExpression,
      MakeRequest, GetNextSequence in *; cbv beta iota zeta in *;
    try (leaves_request t b Ht Hl Hr).
  - destruct cmd; [discriminate Hr|leaves_request t b Ht Hl Hr].
  - change (IsSupported _ (c <| m_rpc := b |>)) with (IsSupported supportsBreakpointLocationsRequest c).
    destruct (negb _); [by injection Hr as <-|]. leaves_request t b Ht Hl Hr.
  - destruct (0 <? _); [|by injection Hr as <-]. rewrite exec_bind_assoc in *. cbn [exec_bind] in *.
    leaves_request t b Ht Hl Hr.
Qed.

(** What a client over a reliable stream of messages may do: handle the next message, make a call
    of the program, learn that the connection is lost. *)
Inductive spec_run (c0 : Client) : list Json → Client → Prop :=
| spec_start : spec_run c0 [] c0
| spec_message js json c c' :
    spec_run c0 js c → OnMessage json c = Ret c' → spec_run c0 (js ++ [json]) c'
| spec_operation js op c c' : spec_run c0 js c → operate op c = Ret c' → spec_run c0 js c'
| spec_lost js c : spec_run c0 js c → spec_run c0 js (c <| m_terminated := true |>).

Lemma spec_deliver c0 js' : ∀ js c c', spec_run c0 js c → deliver OnMessage js' c = Ret c' →
  spec_run c0 (js ++ js') c'.
Proof.
  induction js' as [|j js' IH]; intros js c c' Hs; simpl.
  { intros [= <-]. by rewrite app_nil_r. }
  intros (c1 & Hone & Hr)%exec_bind_Ret. rewrite cons_middle, app_assoc.
  eapply IH; [|done]. by eapply spec_message.
Qed.

(** The bytes that were read and not given to the client yet. *)
Definition posted_data (p : posted) : text :=
  match p with post_OnDataRead content => content | post_OnConnectionError => [] end.
Definition in_hand (r : option reader) : text :=
  match r with Some (has_read _ content) => content | _ => [] end.
Definition unread (s : Session) : text :=
  concat (map posted_data (queue s)) ++ in_hand (thread s).

Lemma stream_app ms ms' : stream (ms ++ ms') = stream ms ++ stream ms'.
Proof. unfold stream. by rewrite map_app, concat_app. Qed.

(** A read that fails reads nothing. *)
Definition failed_empty (r : option reader) : Prop :=
  match r with Some (has_read false content) => content = [] | _ => True end.

Lemma reader_step_spec s s' : failed_empty (thread s) → reader_step s s' →
  (client s' = client s ∨ client s' = (client s) <| m_terminated := true |>) ∧
  failed_empty (thread s') ∧
  ∃ x, handed (connection s') = handed (connection s) ++ x ∧ unread s' = unread s ++ x.
Proof.
  unfold unread. intros Hf Hs. inversion Hs as [? Ht|? Ht|? ok content t Ht Hr|? content Ht Hne|? Ht
    |? content Ht|? Ht]; subst; cbn; rewrite Ht in *; cbn in *; rewrite ?map_app, ?concat_app; cbn;
    (split; [by auto|]); try (split; [done|]; exists []; by rewrite ?app_nil_r).
  - apply Reads_handed in Hr as [-> Hc]. split; [by destruct ok; auto|].
    exists content. by rewrite app_nil_r.
  - subst content. split; [done|]. exists []. by rewrite ?app_nil_r.
Qed.

Lemma live_keeps s s' : failed_empty (thread s) → live_step s s' →
  failed_empty (thread s') ∧ ∃ x, handed (connection s') = handed (connection s) ++ x.
Proof.
  intros Hf [s1 Hs| |].
  - apply reader_step_spec in Hs as (_ & ? & x & ? & _); [|done]. split; [done|by exists x].
  - split; [done|]. exists []. by rewrite app_nil_r.
  - split; [done|]. exists []. by rewrite app_nil_r.
Qed.

(** ** The invariant: the messages [done] were handled, the bytes of [todo] are on their way *)
Context (Hh : handlers_inert).

Definition delivered (c0 : Client) (ms : list (text * Json)) (rest : text) (s : Session) : Prop :=
  ∃ done todo, ms = done ++ todo ∧
    spec_run c0 (map snd done) ((client s) <| m_rpc := [] |>) ∧
    pending (m_rpc (client s)) todo ∧
    m_rpc (client s) ++ unread s ++ rest = stream todo.

Lemma set_rpc_id (c : Client) : c <| m_rpc := m_rpc c |> = c.
Proof. by destruct c. Qed.

Lemma OnDataRead_inv content c c' todo t : Forall sendable todo →
  (m_rpc c ++ content) ++ t = stream todo → pending (m_rpc c) todo →
  OnDataRead content c = Ret c' →
  ∃ d todo', todo = d ++ todo' ∧ pending (m_rpc c') todo' ∧ m_rpc c' ++ t = stream todo' ∧
    deliver OnMessage (map snd d) (c <| m_rpc := [] |>) = Ret (c' <| m_rpc := [] |>).
Proof.
  intros Hms E Hp. unfold OnDataRead, receive. destruct (teq_spec content []) as [->|_].
  { intros [= <-]. rewrite app_nil_r in E. by exists [], todo. }
  rewrite get_set_buffer. intros Hr.
  destruct (ProcessBuffer_stream_inv OnMessage (OnMessage_transparent Hh) todo
    _ _ t c c' Hms E Hr) as (d & todo' & -> & Hp' & Et & Hd). by exists d, todo'.
Qed.

Lemma live_delivered c0 ms rest s s' x : Forall sendable ms → failed_empty (thread s) →
  live_step s s' → handed (connection s') = handed (connection s) ++ x →
  delivered c0 ms (x ++ rest) s → delivered c0 ms rest s'.
Proof.
  intros Hms Hf Hs Hx (d & todo & -> & Hrun & Hp & E). apply Forall_app in Hms as [_ Hms].
  destruct Hs as [s1 Hs|content q c' Hq Hr _ _|op c' Hr Hl _ _].
  - apply reader_step_spec in Hs as ([Ec|Ec] & _ & y & Hy & Hu); [| |done].
    all: rewrite Hx in Hy; apply app_inv_head in Hy as <-; exists d, todo; rewrite Ec, Hu.
    all: split_and!; [done| |done|by rewrite <- app_assoc].
    + done.
    + exact (spec_lost _ _ _ Hrun).
  - assert (x = []) as ->.
    { apply (app_inv_head (handed (connection s))). rewrite <- Hx. by rewrite app_nil_r. }
    destruct (OnDataRead_inv content (client s) c' todo (concat (map posted_data q) ++ in_hand (thread s) ++ rest))
      as (d' & todo' & -> & Hp' & Et & Hd); [done| |done|done|].
    { rewrite <- E. unfold unread. rewrite Hq. cbn. by rewrite <- !app_assoc. }
    exists (d ++ d'), todo'. split_and!; [by rewrite app_assoc| |done|].
    + rewrite map_app. by eapply spec_deliver.
    + rewrite <- Et. unfold unread. cbn. by rewrite <- !app_assoc.
  - assert (x = []) as ->.
    { apply (app_inv_head (handed (connection s))). rewrite <- Hx. by rewrite app_nil_r. }
    assert (m_rpc c' = m_rpc (client s)) as Eb.
    { pose proof (Hl (m_rpc (client s))) as Hb. rewrite set_rpc_id, Hr in Hb. injection Hb as Hb.
      by rewrite Hb. }
    exists d, todo. unfold unread in *. cbn. rewrite Eb. split_and!; [done| |done|done].
    eapply spec_operation; [exact Hrun|exact (Hl [])].
Qed.

Lemma pending_stream b ms : Forall sendable ms → pending b ms → b = stream ms → ms = [].
Proof.
  destruct ms as [|m ms]; [done|]. intros _ (y & Hy & Hb) ->. exfalso. apply Hy.
  change (stream (m :: ms)) with (frame m.1 ++ stream ms) in Hb.
  apply (f_equal length) in Hb. rewrite !length_app in Hb. destruct y; [done|]. simpl in Hb. lia.
Qed.


(** ** What an old session leaves behind *)

Lemma Reset_threads (c : Client) : threads (Reset c) = threads c ∧ m_transport (Reset c) = None.
Proof. by destruct c as [? ? ? ? []]. Qed.

Lemma SetTransport_started t (c : Client) :
  threads (SetTransport (Some t) c) = S (threads c) ∧
  m_readerThread (SetTransport (Some t) c) = true ∧ m_rpc (SetTransport (Some t) c) = [].
Proof. by destruct c as [? ? ? ? []]. Qed.

(** The program connects anew while the old thread can be joined. *)
Lemma reconnect s t new_connection : joinable (thread s) →
  program_step s (s <| client := SetTransport (Some t) (client s) |>
                    <| connection := new_connection |> <| thread := Some at_test |>).
Proof.
  intros Hj. destruct (SetTransport_started t (client s)) as (Ht & Hm & _).
  pose proof (thread_started s (SetTransport (Some t) (client s)) new_connection) as Hb.
  rewrite Hm in Hb. refine (step_operation s (op_SetTransport (Some t)) _ _ (or_introl eq_refl) (Hb _ Hj)).
  rewrite Ht. lia.
Qed.

Lemma OnDataRead_partial p x y (c : Client) : frame_ok p → x ++ y = frame p → y ≠ [] → x ≠ [] →
  m_rpc c = [] → OnDataRead x c = Ret (c <| m_rpc := x |>).
Proof.
  intros Hp E Hy Hx Hc. unfold OnDataRead, receive. destruct (teq_spec x []) as [|_]; [done|].
  rewrite get_set_buffer. cbn [ProcessBuffer]. rewrite get_set_buffer.
  change (get_buffer c) with (m_rpc c). rewrite Hc. unfold AppendBuffer. cbn [app].
  rewrite (DoProcessBuffer_partial p x y) by done. cbn [exec_bind]. by rewrite set_set_buffer.
Qed.

(** The event loop makes the last call that is posted. *)
Lemma last_data content p y s : frame_ok p → content ++ y = frame p → y ≠ [] → content ≠ [] →
  m_rpc (client s) = [] → queue s = [post_OnDataRead content] →
  program_step s (s <| queue := [] |> <| client := (client s) <| m_rpc := content |> |>).
Proof.
  intros Hp E Hy Hx Hc Hq. apply (step_posted s (post_OnDataRead content) [] ((client s) <| m_rpc := content |>) _ Hq).
  - left. by apply (OnDataRead_partial p content y).
  - by apply (thread_goes_on (s <| queue := [] |>)).
Qed.

Lemma last_error c s : joinable (thread s) → queue s = [post_OnConnectionError] →
  handle (mkDAPEvent wxEVT_DAP_LOST_CONNECTION None None []) (client s) = Ret c →
  threads c = threads (client s) →
  program_step s (s <| queue := [] |> <| client := Reset c |> <| thread := None |>).
Proof.
  intros Hj Hq Hr Ht. apply (step_posted s post_OnConnectionError [] (Reset c) _ Hq).
  - left. cbn. unfold OnConnectionError, ProcessEvent. by rewrite Hr.
  - apply (thread_stopped (s <| queue := [] |>)); [|apply Reset_no_thread|done].
    by rewrite (proj1 (Reset_threads c)).
Qed.

(** C26: events outlive their session: [SetTransport] does not clear the queue of the calls that the
    old reader thread posted.  When the read over the old connection has failed, a program that
    connects anew before the event loop runs loses the new connection, from which nothing was
    read; when the read has returned a part of a message, this part is put in front of what the
    new connection sends. *)
Theorem stale_events s ok content t new_connection :
  thread s = Some (has_read ok content) → queue s = [] →
  let c := if ok then client s else (client s) <| m_terminated := true |> in
  let c2 := SetTransport (Some t) c in
  match ok with
  | false => ∀ c3, handle (mkDAPEvent wxEVT_DAP_LOST_CONNECTION None None []) c2 = Ret c3 →
      threads c3 = threads c2 →
      ∃ s', rtc session_step s s' ∧ client s' = Reset c3 ∧ m_transport (client s') = None ∧
        connection s' = new_connection ∧ thread s' = None
  | true => ∀ p y, frame_ok p → y ≠ [] → content ≠ [] → content ++ y = frame p →
      ∃ s', rtc session_step s s' ∧ client s' = c2 <| m_rpc := content |> ∧
        connection s' = new_connection ∧ thread s' = Some at_test
  end.
Proof.
  intros Ht Hq. destruct ok; cbv zeta.
  - intros p y Hp Hy Hx E.
    set (s1 := s <| thread := Some at_test |> <| queue := queue s ++ [post_OnDataRead content] |>).
    pose proof (reconnect s1 t new_connection (or_intror (or_introl eq_refl))) as Hc.
    destruct (SetTransport_started t (client s)) as (_ & _ & Hr). revert Hc Hr.
    change (client s1) with (client s). generalize (SetTransport (Some t) (client s)). intros c2 Hc Hr.
    eexists. split; [|split; [|split]].
    + eapply rtc_l; [left; by apply (step_post s content)|]. eapply rtc_l; [right; exact Hc|].
      apply rtc_once. right. apply (last_data content p y); try done. cbn. by rewrite Hq.
    + done.
    + done.
    + done.
  - set (c := (client s) <| m_terminated := true |>).
    set (s1 := s <| thread := Some at_error |> <| client := c |>).
    set (s2 := s1 <| thread := Some ended |> <| queue := queue s1 ++ [post_OnConnectionError] |>).
    pose proof (reconnect s2 t new_connection (or_intror (or_intror eq_refl))) as Hc. revert Hc.
    change (client s2) with c. generalize (SetTransport (Some t) c). intros c2 Hc c3 Hh3 Ht3.
    destruct (Reset_threads c3) as [_ Hrn].
    eexists. split; [|split; [|split; [|split]]].
    + eapply rtc_l; [left; by apply (step_fail s content)|].
      eapply rtc_l; [left; by apply (step_error s1)|]. eapply rtc_l; [right; exact Hc|].
      apply rtc_once. right. apply (last_error c3); [by right; left| |done|done]. cbn. by rewrite Hq.
    + done.
    + exact Hrn.
    + done.
    + done.
Qed.
End SessionSpec.

Section Samples.
#[local] Existing Instance sample_platform.
#[local] Existing Instance sample_hash.
#[local] Instance wire_1000 : System := wire_system 3 1000.
#[local] Instance wire_1000_kernel : Kernel := wire_kernel 3 1000.

Lemma sample_socket_in_range : in_range sample_socket.
Proof. unfold in_range. simpl. lia. Qed.

(** The connection before and after its bytes were read. *)
Definition sample_connection (got next : text) : Connection :=
  exist _ (sample_socket, mkWire [] got next true : @World wire_1000) sample_socket_in_range.

Definition sample_session : Session :=
  mkSession sample_ready (Some at_test) [] (sample_connection [] (stream sample_events)).

Lemma sample_read : Reads (sample_connection [] (stream sample_events)) true (stream sample_events)
  (sample_connection (stream sample_events) []).
Proof. split; [vm_compute; reflexivity|exact eq_refl]. Qed.


Lemma recorder_threads e c : ∃ c', handle e c = Ret c' ∧ threads c' = threads c.
Proof. by eexists. Qed.

(** A program that connects over the transport 8 while an error of the transport 7 is on its way. *)
Lemma stale_events_witness : ∃ s',
  rtc session_step (sample_session <| thread := Some (has_read false []) |>) s' ∧
  m_transport (client s') = None ∧ connection s' = sample_connection [] [] ∧ thread s' = None.
Proof.
  pose proof (stale_events (sample_session <| thread := Some (has_read false []) |>) false [] 8
    (sample_connection [] []) eq_refl eq_refl) as Hs. cbv beta iota zeta in Hs.
  destruct (recorder_threads (mkDAPEvent wxEVT_DAP_LOST_CONNECTION None None [])
    (SetTransport (Some 8%nat) (sample_ready <| m_terminated := true |>))) as (c3 & H3 & Ht3).
  destruct (Hs c3 H3 Ht3) as (s' & Hr & _ & Hm & Hc & Ht). exists s'. auto.
Defined.
End Samples.
