(* ===== verification/Handshake.v ===== *)
(** * The two sides of a connection: the client initializes the server.

    The models of the client and of the server meet: the frame that [Client::Initialize] sends is
    what [ServerProtocol::Initialize] reads, and the bytes that the server sends are those that
    the client reads. *)
From S2P Require Import Prelude.
From S2P Require Import Double.
From S2P Require Import CJson.
From S2P Require Import Json.
From S2P Require Import Any.
From S2P Require Import DapData.
From S2P Require Import DapEnvironment.
From S2P Require Import DapMessages.
From S2P Require Import DapRegistry.
From S2P Require Import DapProtocol.
From S2P Require Import JsonRPC.
From S2P Require Import ConnectionString.
From S2P Require Import Socket.
From S2P Require Import SocketSpec.
From S2P Require Import ServerProtocol.
From S2P Require Import ServerSpec.
From S2P Require Import Client.
From S2P Require Import ClientSamples.
From S2P Require Import ClientStream.
From S2P Require Import ClientRequests.
From S2P Require Import ClientState.
Local Open Scope Z_scope.

Section Handshake.
Context `{Platform} `{HashOrder}.

(** The two messages that the server answers with. *)
Definition answers : list Message :=
  [new_message class_InitializeResponse; new_message class_InitializedEvent].

Definition answer_texts : list text := map text_of answers.

Lemma answers_on_wire : Forall2 on_wire answers answer_texts.
Proof. repeat constructor; vm_compute; reflexivity. Qed.

Lemma answer_frames_short k : k = class_InitializeResponse ∨ k = class_InitializedEvent →
  is_int (Z.of_nat (length (frame (text_of (new_message k))))) = true.
Proof. intros [->| ->]; vm_compute; reflexivity. Qed.

Lemma text_of_Ret m s : Message_ToString m = Ret s → text_of m = s.
Proof. unfold text_of. by intros ->. Qed.

#[local] Opaque text_of.

(** The request that [Initialize] sends. *)
Definition initialize_request (seq : Z) (args : InitializeRequestArguments) : Message :=
  msg_InitializeRequest (mkInitializeRequest
    (mkRequest (mkProtocolMessage seq "request") "initialize") args).

Lemma initialize_request_valid seq args : is_int seq = true →
  valid_InitializeRequestArguments args = true → valid_Message (initialize_request seq args) = true.
Proof. intros Hs Ha. repeat (apply andb_true_iff; split; try done). Qed.

(** A test of a message that is known. *)
Ltac known_test :=
  match goal with |- context [if ?b then _ else _] =>
    let v := eval vm_compute in b in change b with v; cbv iota
  end.

(** The response completes the handshake. *)
Lemma response_completes j c : (∀ g, loaded g →
    FromJSON j g = (Some (new_message class_InitializeResponse), construct class_InitializeResponse g)) →
  loaded (generator c) → m_handshake_state c = kInProgress → m_wants_log_events c = false →
  ∃ c' e, OnMessage j c = Ret c' ∧ m_handshake_state c' = kCompleted ∧ loaded (generator c') ∧
    observed c' = observed c ++ [saw_event e] ∧ event_type e = wxEVT_DAP_INITIALIZE_RESPONSE ∧
    m_transport c' = m_transport c ∧ sent c' = sent c ∧ m_wants_log_events c' = false.
Proof.
  intros Hj Hl Hs Hw. unfold OnMessage, log_event. rewrite Hw. cbn [exec_bind]. rewrite Hs.
  unfold OnHandshake, read_message. rewrite (Hj _ Hl). known_test. cbn [Message_Response new_message].
  known_test. unfold SendDAPEvent, ProcessEvent. rewrite decide_False by done.
  eexists _, _. split; [reflexivity|]. split; [done|].
  split; [exact (loaded_construct class_InitializeResponse _ (loaded_construct class_InitializeResponse _ Hl))|].
  by split_and!.
Qed.

(** The event reaches the program. *)
Lemma event_arrives j c : (∀ g, loaded g →
    FromJSON j g = (Some (new_message class_InitializedEvent), construct class_InitializedEvent g)) →
  loaded (generator c) → m_handshake_state c = kCompleted → m_wants_log_events c = false →
  ∃ c' e, OnMessage j c = Ret c' ∧ m_handshake_state c' = kCompleted ∧
    observed c' = observed c ++ [saw_event e] ∧ event_type e = wxEVT_DAP_INITIALIZED_EVENT ∧
    m_transport c' = m_transport c ∧ sent c' = sent c.
Proof.
  intros Hj Hl Hs Hw. unfold OnMessage, log_event. rewrite Hw. cbn [exec_bind]. rewrite Hs.
  unfold read_message. rewrite (Hj _ Hl). cbv zeta.
  change (AsEvent (new_message class_InitializedEvent)) with (Some (Event_new "initialized")).
  cbv iota. unfold OnEvent. cbv zeta.
  repeat known_test. unfold SendDAPEvent, ProcessEvent. rewrite decide_False by done.
  eexists _, _. split; [reflexivity|]. by split_and!.
Qed.

(** The answers complete the handshake of the client and reach the program. *)
Lemma answers_delivered ps c : Forall2 parsed answers ps → loaded (generator c) →
  m_handshake_state c = kInProgress → m_wants_log_events c = false →
  ∃ c' e1 e2, deliver OnMessage (map snd ps) c = Ret c' ∧ m_handshake_state c' = kCompleted ∧
    observed c' = observed c ++ [saw_event e1; saw_event e2] ∧
    event_type e1 = wxEVT_DAP_INITIALIZE_RESPONSE ∧ event_type e2 = wxEVT_DAP_INITIALIZED_EVENT ∧
    m_transport c' = m_transport c ∧ sent c' = sent c.
Proof.
  intros Hp Hl Hs Hw. inversion Hp as [|? a ? ps1 Ha Hp1]; subst.
  inversion Hp1 as [|? b ? ps2 Hb Hp2]; subst. inversion Hp2; subst. cbn [map deliver].
  destruct (response_completes a.2 c Ha Hl Hs Hw) as (c1 & e1 & -> & Hs1 & Hl1 & Ho1 & He1 & Ht1 & Hx1 & Hw1).
  cbn [exec_bind].
  destruct (event_arrives b.2 c1 Hb Hl1 Hs1 Hw1) as (c2 & e2 & -> & Hs2 & Ho2 & He2 & Ht2 & Hx2).
  exists c2, e1, e2. split; [done|]. split; [done|].
  split; [by rewrite Ho2, Ho1, <- app_assoc|]. split_and!; congruence.
Qed.
(** ** The server *)
Section TwoSides.
Context `{ServerApplication} `{Kernel} `{!ServerHandlers}.

Lemma Send_Ret_written fuel msg s w x w' : in_range s → is_int (Z.of_nat (length msg)) = true →
  Send fuel msg s w = Ret (x, w') → written w' (m_socket s) = written w (m_socket s) ++ msg.
Proof.
  intros Hs Hm. unfold Send. rewrite (proj2 (in_range_test s Hs)).
  destruct (teq_spec msg []) as [->|_]; [intros [= _ <-]; by rewrite app_nil_r|].
  rewrite to_int32_id by done. pose proof (Send_loop_spec s Hs fuel msg w) as Hl.
  intros E. by rewrite E in Hl.
Qed.

(** A server that waits for the request on the connection [conn]: what it reads next is [request],
    and the system takes the answers; [w'] is the world after them. *)
Definition server_meets (fuel : nat) (request : text) (s : Server) (conn : Socket) (w w' : World) : Prop :=
  m_conn s = Some conn ∧ in_range conn ∧ loaded (server_generator s) ∧ server_rpc s = [] ∧
  ∃ w1 w2 w3, SelectReadMS 10 conn w = Ret (kSuccess, w1) ∧
    Read [] conn w1 = Ret ((kSuccess, request), w2) ∧
    written w2 (m_socket conn) = written w (m_socket conn) ∧
    Send fuel (frame (text_of (new_message class_InitializeResponse))) conn w2 = Ret (tt, w3) ∧
    Send fuel (frame (text_of (new_message class_InitializedEvent))) conn w3 = Ret (tt, w').

(** The frame that the client sends. *)
Lemma Client_Initialize_sends args t c : let m := initialize_request (next_seq c)
    (default default_InitializeRequestArguments args) in
  m_transport c = Some t → m_wants_log_events c = false → loaded (generator c) →
  is_value (Message_To m) →
  ∃ s c1, Message_ToString m = Ret s ∧ Client_Initialize args c = Ret c1 ∧
    sent c1 = sent c ++ [(t, frame s)] ∧ m_handshake_state c1 = kInProgress ∧
    loaded (generator c1) ∧ m_wants_log_events c1 = false ∧ m_rpc c1 = m_rpc c.
Proof.
  intros m Ht Hw Hl Hm. unfold Client_Initialize, MakeRequest, GetNextSequence. cbv beta iota zeta.
  match goal with |- context [SendRequest_ ?m1 ?c1] =>
    destruct (SendRequest_quiet m1 t c1 Ht Hw Hm) as (s & Hs & ->)
  end.
  eexists s, _. split; [exact Hs|]. split; [reflexivity|]. do 2 (split; [done|]).
  split; [exact (loaded_construct class_InitializeRequest _ Hl)|]. by split.
Qed.

(** The client reads the answers. *)
Lemma answers_read chunks c : concat chunks = wire_of answer_texts → loaded (generator c) →
  m_handshake_state c = kInProgress → m_wants_log_events c = false → m_rpc c = [] →
  ∃ c' e1 e2, OnDataRead_all chunks c = Ret c' ∧ m_handshake_state c' = kCompleted ∧
    m_rpc c' = [] ∧ observed c' = observed c ++ [saw_event e1; saw_event e2] ∧
    event_type e1 = wxEVT_DAP_INITIALIZE_RESPONSE ∧ event_type e2 = wxEVT_DAP_INITIALIZED_EVENT.
Proof.
  intros Hc Hl Hs Hw Hb. destruct (on_wire_stream _ _ answers_on_wire) as (ps & Hps & Hp & E).
  destruct (answers_delivered ps c Hp Hl Hs Hw) as (c' & e1 & e2 & Hd & Hs' & Ho & He1 & He2 & _).
  exists (c' <| m_rpc := [] |>), e1, e2.
  rewrite OnDataRead_all_filter. rewrite <- Hc, <- concat_filter_nonempty in E.
  pose proof (receive_all_stream OnMessage (OnMessage_transparent recorder_inert)
    (filter (λ t, t ≠ []) chunks) ps [] c c' Hps (pending_nil ps Hps) (eq_sym E) Hd) as Hr.
  assert (set_buffer [] c = c) as Ec by (clear -Hb; destruct c; simpl in Hb; by subst).
  rewrite Ec in Hr. split; [exact Hr|]. by split_and!.
Qed.

(** C7: the handshake of the two sides.  [Client::Initialize] sends one frame and waits; a server
    that reads this frame in [ServerProtocol::Initialize] returns, having written [reply]; and
    however the system cuts [reply], the client that reads it has completed the handshake, has
    told the program of the response and then of the event, and keeps nothing in its buffer. *)
Theorem handshake_over_the_wire args t c :
  m_transport c = Some t → m_wants_log_events c = false → m_rpc c = [] → loaded (generator c) →
  valid_InitializeRequestArguments (default default_InitializeRequestArguments args) = true →
  is_int (Z.of_nat (length (text_of (initialize_request (next_seq c)
    (default default_InitializeRequestArguments args))))) = true →
  ∃ request c1, Client_Initialize args c = Ret c1 ∧ sent c1 = sent c ++ [(t, request)] ∧
    m_handshake_state c1 = kInProgress ∧
    ∀ fuel s conn w w', server_meets fuel request s conn w w' →
      ∃ reply g, server_Initialize 2 fuel (s, w) = Ret (s <| server_generator := g |>, w') ∧
        written w' (m_socket conn) = written w (m_socket conn) ++ reply ∧
        ∀ chunks, concat chunks = reply →
          ∃ c2 e1 e2, OnDataRead_all chunks c1 = Ret c2 ∧ m_handshake_state c2 = kCompleted ∧
            m_rpc c2 = [] ∧ observed c2 = observed c1 ++ [saw_event e1; saw_event e2] ∧
            event_type e1 = wxEVT_DAP_INITIALIZE_RESPONSE ∧
            event_type e2 = wxEVT_DAP_INITIALIZED_EVENT.
Proof.
  intros Ht Hw Hb Hl Ha Hlen. set (m := initialize_request _ _) in Hlen.
  assert (valid_Message m = true) as Hv by (apply initialize_request_valid; [apply to_int32_is_int|done]).
  destruct (Client_Initialize_sends args t c Ht Hw Hl (Message_To_value m Hv))
    as (s & c1 & Hs & Hc1 & Hsent & Hh & Hl1 & Hw1 & Hb1).
  exists (frame s), c1. do 3 (split; [done|]).
  intros fuel sv conn w w' (Hconn & Hr & Hsl & Hsb & w1 & w2 & w3 & Hsel & Hread & Hw2 & Hone & Htwo).
  assert (Forall2 on_wire [m] [s]) as Hwire.
  { constructor; [|constructor]. fold m in Hs. rewrite (text_of_Ret _ _ Hs) in Hlen. by split_and!. }
  destruct (Initialize_returns [] m [] [s] conn sv w w1 w2 w3 w' 0 fuel) as (g & _ & Hi); try done.
  { unfold wire_of. cbn. by rewrite app_nil_r. }
  exists (wire_of answer_texts), g. split; [exact Hi|]. split.
  - apply Send_Ret_written in Hone; [|done|apply answer_frames_short; by left].
    apply Send_Ret_written in Htwo; [|done|apply answer_frames_short; by right]. rewrite Htwo, Hone, Hw2. unfold wire_of, answer_texts.
    cbn [answers map concat]. by rewrite app_nil_r, <- app_assoc.
  - intros chunks Hc. apply answers_read; [done..|by rewrite Hb1].
Qed.
End TwoSides.
End Handshake.

Section Samples.
#[local] Existing Instance sample_platform.
#[local] Existing Instance sample_hash.
#[local] Existing Instance keeping.
#[local] Existing Instance keeper.
#[local] Instance fast_wire : System := wire_system 1000 1000.
#[local] Instance fast_kernel : Kernel := wire_kernel 1000 1000.

Definition sample_request : text :=
  frame (text_of (initialize_request 1 default_InitializeRequestArguments)).

(** The request is there, the answers are taken. *)
Lemma sample_meets : ∃ w', server_meets 100 sample_request sample_server sample_socket
  (mkWire [] [] sample_request true : @World fast_wire) w'.
Proof.
  eexists. split_and!; [exact eq_refl|exact sample_in_range|apply loaded_Initialize|exact eq_refl|].
  do 3 eexists. split_and!; vm_compute; reflexivity.
Qed.

Lemma sample_sends : match Client_Initialize None sample_client with
  | Ret c => bool_decide (sent c = [(7%nat, sample_request)])
  | _ => false
  end = true.
Proof. vm_compute. reflexivity. Qed.

(** The answers arrive in two pieces. *)
Lemma handshake_over_the_wire_witness : ∃ reply c1 c2,
  Client_Initialize None sample_client = Ret c1 ∧
  OnDataRead_all [take 100 reply; drop 100 reply] c1 = Ret c2 ∧
  m_handshake_state c2 = kCompleted ∧ m_rpc c2 = [].
Proof.
  destruct (handshake_over_the_wire None 7 sample_client) as (request & c1 & E & Es & _ & Hserver);
    [reflexivity|reflexivity|reflexivity|exact loaded_Initialize|reflexivity|vm_compute; reflexivity|].
  pose proof sample_sends as Hs. rewrite E in Hs. apply bool_decide_eq_true in Hs.
  rewrite Hs in Es. injection Es as Es. rewrite <- Es in Hserver.
  destruct sample_meets as (w' & Hw).
  destruct (Hserver 100%nat sample_server sample_socket _ w' Hw) as (reply & g & _ & _ & Hc).
  destruct (Hc [take 100 reply; drop 100 reply]) as (c2 & _ & _ & Hr & Hh & Hb & _).
  { cbn [concat]. by rewrite app_nil_r, take_drop. }
  exists reply, c1, c2. by split_and!.
Defined.
End Samples.
