(* ===== verification/Process.v ===== *)
(** * Queue.hpp, Process.cpp, and the process transport of Client.cpp.

    What a platform implements of [Process] is the class [ProcessOps], its virtual functions and
    [ExecuteProcess]; UnixProcess.v and MswProcess.v are its instances.  The reader thread of a
    process and the thread that reads from the transport share the two queues; their steps
    interleave ([process_step]). *)
From S2P Require Import Prelude.
From S2P Require Import StringUtils.
From S2P Require Import JsonRPC.
Local Open Scope Z_scope.

(** ** Queue.hpp *)

Definition push {A} (Q : list A) (o : A) : list A := Q ++ [o].

(** [pop]: the queue when the wait ends. *)
Definition pop {A} (Q : list A) : option A * list A :=
  match Q with [] => (None, []) | o :: Q => (Some o, Q) end.

(** ** Process.hpp

    The processes of a platform, over the state [OS] of its system; [DoRead] reads into two empty
    strings, [Destroy] is the destructor up to [Process::Cleanup] and after it. *)
Class ProcessOps := {
  Child : Type;
  OS : Type;
  DoRead : nat → Child → OS → exec unit (bool * text * text * OS);
  IsAlive : Child → OS → exec unit (bool * OS);
  Write : nat → text → Child → OS → exec unit (bool * OS);
  Destroy : Child → OS → exec unit OS;
  ExecuteProcess : text → OS → exec unit (option Child * OS);
}.

Section Process.
Context `{ProcessOps}.

(** ** Process.cpp, and the transport *)

(** Where the reader thread of a process is: at its test of [m_shutdown], before [DoRead], before
    the push of what was read to a queue. *)
Inductive process_thread :=
| process_test
| process_read
| process_push (stdoutBuff stderrBuff : text)
| process_push_err (stderrBuff : text)
| process_ended.

(** The transport with its process, the queues and the reader thread of the process, and the
    world; [popped] is what [Read] returned so far. *)
Record StdoutTransport := mkStdoutTransport {
  m_process : option Child;
  m_stdoutQueue : list text;
  m_stderrQueue : list text;
  process_shutdown : bool;
  readerThread : process_thread;
  popped : list text;
  world : OS;
}.

#[export] Instance StdoutTransport_settable : Settable StdoutTransport :=
  rebuild mkStdoutTransport <@> m_process <@> m_stdoutQueue <@> m_stderrQueue
  <@> process_shutdown <@> readerThread <@> popped <@> world.

(** [StartThreads] for the process that [ExecuteProcess] made, if it made one. *)
Definition StartThreads (process : option Child) (w : OS) : StdoutTransport :=
  mkStdoutTransport process [] [] false
    (if process is Some _ then process_test else process_ended) [] w.

(** [ReadStdout], [ReadStderr]: the queue when the time is over. *)
Definition ReadStdout (t : StdoutTransport) : option text * StdoutTransport :=
  let '(message, Q) := pop (m_stdoutQueue t) in (message, t <| m_stdoutQueue := Q |>).
Definition ReadStderr (t : StdoutTransport) : option text * StdoutTransport :=
  let '(message, Q) := pop (m_stderrQueue t) in (message, t <| m_stderrQueue := Q |>).

(** [Cleanup] of the threads, when they can be joined. *)
Definition Cleanup (t : StdoutTransport) : StdoutTransport :=
  t <| readerThread := process_ended |> <| process_shutdown := false |>.

(** [m_process != nullptr && m_process->IsAlive()] *)
Definition transport_IsAlive (t : StdoutTransport) : exec unit (bool * StdoutTransport) :=
  match m_process t with
  | None => Ret (false, t)
  | Some p => let* (alive, w) := IsAlive p (world t) in Ret (alive, t <| world := w |>)
  end.

Definition Execute (command : list text) (w : OS) : exec unit (bool * StdoutTransport) :=
  let* (process, w) := ExecuteProcess (command_string command) w in
  transport_IsAlive (StartThreads process w).

(** [wxDELETE(m_process)]: the queues are gone with the process. *)
Definition delete_process (t : StdoutTransport) : exec unit StdoutTransport :=
  match m_process t with
  | None => Ret t
  | Some p =>
      let* w := Destroy p (world t) in
      Ret (Cleanup t <| world := w |> <| m_process := None |>
             <| m_stdoutQueue := [] |> <| m_stderrQueue := [] |>)
  end.

(** [Read]: the result, and the buffer, which was empty. *)
Definition StdoutTransport_Read (t : StdoutTransport) : exec unit (bool * text * StdoutTransport) :=
  let* (alive, t) := transport_IsAlive t in
  if negb alive then let* t := delete_process t in Ret (false, [], t)
  else
    let '(message, t) := ReadStdout t in
    match message with
    | None => Ret (true, [], t)
    | Some buffer =>
        let '(errmsg, t) := ReadStderr t in
        Ret (true, buffer, t <| popped := popped t ++ [buffer] |>)
    end.

(** [Send]: the number of bytes, or 0. *)
Definition StdoutTransport_Send (fuel : nat) (buffer : text) (t : StdoutTransport) :
    exec unit (Z * StdoutTransport) :=
  let* (alive, t) := transport_IsAlive t in
  match m_process t with
  | Some p =>
      if negb alive then Ret (0, t)
      else
        let* (ok, w) := Write fuel buffer p (world t) in
        Ret (if ok then Z.of_nat (length buffer) else 0, t <| world := w |>)
  | None => Ret (0, t)
  end.

(** The steps of the two threads of a process: the one that reads, and the one that sets
    [m_shutdown] when the child is gone. *)
Inductive process_step (t : StdoutTransport) : StdoutTransport → Prop :=
| thread_shutdown : readerThread t = process_test → process_shutdown t = true →
    process_step t (t <| readerThread := process_ended |>)
| thread_test : readerThread t = process_test → process_shutdown t = false →
    process_step t (t <| readerThread := process_read |>)
| thread_read p fuel readSuccess stdoutBuff stderrBuff w :
    readerThread t = process_read → m_process t = Some p →
    DoRead fuel p (world t) = Ret (readSuccess, stdoutBuff, stderrBuff, w) →
    let readSomething := negb (stdoutBuff =t []) || negb (stderrBuff =t []) in
    process_step t (t <| world := w |>
      <| readerThread := if readSomething && readSuccess then process_push stdoutBuff stderrBuff
                         else process_test |>)
| thread_push stdoutBuff stderrBuff :
    readerThread t = process_push stdoutBuff stderrBuff →
    process_step t (t <| readerThread := process_push_err stderrBuff |>
      <| m_stdoutQueue := if stdoutBuff =t [] then m_stdoutQueue t
                          else push (m_stdoutQueue t) stdoutBuff |>)
| thread_push_err stderrBuff : readerThread t = process_push_err stderrBuff →
    process_step t (t <| readerThread := process_test |>
      <| m_stderrQueue := if stderrBuff =t [] then m_stderrQueue t
                          else push (m_stderrQueue t) stderrBuff |>)
| thread_alive p w : m_process t = Some p → IsAlive p (world t) = Ret (false, w) →
    process_step t (t <| world := w |> <| process_shutdown := true |>).
End Process.
