(* ===== verification/ProcessSpec.v ===== *)
(** * The output of a child process arrives in order.

    [OutputInOrder] is what a platform promises of the reads from a child; with it, in every
    interleaving of the threads of the process with the reads of the transport, the output of the
    child reaches the reader in order, and the process transport is a transport of a session. *)
From S2P Require Import Prelude.
From S2P Require Import JsonRPC.
From S2P Require Import Session.
From S2P Require Import Process.
Local Open Scope Z_scope.

(** The output that the program has read from a child so far.  The texts that a read hands over
    as they are are [plain], the children that the promise is about are [usable]. *)
Class OutputInOrder `{ProcessOps} := {
  output : OS → Child → text;
  plain : text → Prop;
  usable : Child → Prop;
  plain_app x y : plain (x ++ y) → plain x ∧ plain y;
  IsAlive_output p q w alive w' : IsAlive q w = Ret (alive, w') → output w' p = output w p;
  Destroy_output p q w w' : Destroy q w = Ret w' → output w' p = output w p;
  DoRead_output fuel p w ok out err w' : usable p → DoRead fuel p w = Ret (ok, out, err, w') →
    ∃ x, output w' p = output w p ++ x ∧ (plain x → out = x) ∧ (ok = false → out = []);
}.

Section ProcessSpec.
Context `{OutputInOrder}.

(** The steps of the process's threads, and the reads of the transport. *)
Inductive transport_step (t : StdoutTransport) : StdoutTransport → Prop :=
| transport_process t' : process_step t t' → transport_step t t'
| transport_read ok buffer t' : StdoutTransport_Read t = Ret (ok, buffer, t') → transport_step t t'.

(** What the reader thread has read and not pushed yet. *)
Definition in_thread (r : process_thread) : text :=
  match r with process_push stdoutBuff _ => stdoutBuff | _ => [] end.

(** The transport is over the process [p], or the process was deleted. *)
Definition owns (p : Child) (t : StdoutTransport) : Prop :=
  m_process t = None ∨ m_process t = Some p.

(** The output of the child so far is what [Read] returned, followed by what is queued. *)
Definition in_order (p : Child) (t : StdoutTransport) : Prop :=
  ∃ rest, output (world t) p = concat (popped t) ++ rest ∧
    (m_process t = Some p → rest = concat (m_stdoutQueue t) ++ in_thread (readerThread t)).

(** A step reads more of the output, and keeps the order when it is plain. *)
Definition keeps_order (p : Child) (t t' : StdoutTransport) : Prop :=
  owns p t' ∧ ∃ x, output (world t') p = output (world t) p ++ x ∧
    (plain x → in_order p t → in_order p t').

(** A step that reads nothing. *)
Lemma keeps_order_same p (t t' : StdoutTransport) : owns p t' →
  output (world t') p = output (world t) p →
  (∀ rest, (m_process t = Some p → rest = concat (m_stdoutQueue t) ++ in_thread (readerThread t)) →
     ∃ popped' rest', concat (popped t') = concat (popped t) ++ popped' ∧ rest = popped' ++ rest' ∧
       (m_process t' = Some p → rest' = concat (m_stdoutQueue t') ++ in_thread (readerThread t'))) →
  keeps_order p t t'.
Proof.
  intros Ho Hw Hi. split; [done|]. exists []. rewrite app_nil_r. split; [done|].
  intros _ (rest & E & Hr). destruct (Hi rest Hr) as (q & rest' & Hq & -> & Hr').
  exists rest'. by rewrite Hw, E, Hq, <- app_assoc.
Qed.

(** Nothing is popped. *)
Ltac same_order :=
  let rest := fresh "rest" in let Hr := fresh "Hr" in
  intros rest Hr; exists [], rest; rewrite app_nil_r; split; [done|]; split; [done|];
  let Hp := fresh "Hp" in intros Hp; rewrite (Hr Hp).

Lemma process_step_order p t t' : usable p → owns p t → process_step t t' →
  keeps_order p t t'.
Proof.
  intros Hfd Ho Hs. destruct Hs as [Ht _|Ht _|q fuel ok out err w Ht Hq Hr more|out err Ht|err Ht|q w Hq Hw].
  1, 2, 5: apply keeps_order_same; [exact Ho|done|same_order; by rewrite Ht].
  - destruct Ho as [Ho|Ho]; [congruence|]. rewrite Ho in Hq. injection Hq as <-.
    apply (DoRead_output _ p) in Hr as (x & Hx & Hout & Hok); [|done]. split; [by right|].
    exists x. split; [done|]. intros Hn (rest & E & Hrest). specialize (Hrest Ho). subst more.
    specialize (Hout Hn). subst out. exists (rest ++ x). cbn. rewrite Hx, E, <- app_assoc. split; [done|].
    intros _. rewrite Hrest, Ht. cbn. rewrite app_nil_r. f_equal.
    destruct (teq_spec x []) as [->|Hne]; [by case_match|]. cbn.
    destruct ok; [done|]. by rewrite Hok in Hne.
  - apply keeps_order_same; [exact Ho|done|same_order]. rewrite Ht. cbn. unfold push.
    destruct (teq_spec out []) as [->|]; [done|]. rewrite concat_app. cbn. by rewrite !app_nil_r.
  - apply keeps_order_same; [exact Ho|exact (IsAlive_output _ _ _ _ _ Hw)|same_order]. done.
Qed.

(** What a read of the transport does. *)
Inductive read_result (t : StdoutTransport) : bool → text → StdoutTransport → Prop :=
| read_deleted t1 t' : transport_IsAlive t = Ret (false, t1) → delete_process t1 = Ret t' →
    read_result t false [] t'
| read_timeout t1 : transport_IsAlive t = Ret (true, t1) → m_stdoutQueue t1 = [] →
    read_result t true [] t1
| read_message t1 buffer Q Qe : transport_IsAlive t = Ret (true, t1) →
    m_stdoutQueue t1 = buffer :: Q →
    read_result t true buffer
      (t1 <| m_stdoutQueue := Q |> <| m_stderrQueue := Qe |> <| popped := popped t1 ++ [buffer] |>).

Lemma Read_cases t ok buffer t' : StdoutTransport_Read t = Ret (ok, buffer, t') →
  read_result t ok buffer t'.
Proof.
  intros ([alive t1] & Ha & Hk)%exec_bind_Ret. destruct alive; cbn [negb] in Hk.
  - unfold ReadStdout in Hk. destruct (m_stdoutQueue t1) as [|message Q] eqn:Es; cbn in Hk.
    + injection Hk as <- <- <-. rewrite <- Es. destruct t1. by apply read_timeout.
    + unfold ReadStderr in Hk. destruct (pop _) as [e Qe]. injection Hk as <- <- <-.
      by apply read_message.
  - apply exec_bind_Ret in Hk as (t2 & Hd & [= <- <- <-]). by apply (read_deleted t t1).
Qed.

(** The test of the process changes the world only. *)
Lemma transport_IsAlive_world t alive t1 : transport_IsAlive t = Ret (alive, t1) →
  ∃ w, t1 = t <| world := w |>.
Proof.
  unfold transport_IsAlive. destruct (m_process t) as [q|].
  - intros ([b w] & Ha & [= <- <-])%exec_bind_Ret. by exists w.
  - intros [= <- <-]. exists (world t). by destruct t.
Qed.

Lemma delete_process_popped t t' : delete_process t = Ret t' → popped t' = popped t.
Proof.
  unfold delete_process. destruct (m_process t) as [q|]; [|by intros [= <-]].
  by intros (w & _ & [= <-])%exec_bind_Ret.
Qed.

Lemma transport_IsAlive_Ret p t alive t1 : transport_IsAlive t = Ret (alive, t1) →
  ∃ w, t1 = t <| world := w |> ∧ output w p = output (world t) p ∧ (alive = true → m_process t ≠ None).
Proof.
  unfold transport_IsAlive. destruct (m_process t) as [q|].
  - intros ([b w] & Ha & [= <- <-])%exec_bind_Ret. exists w.
    split_and!; [done|by eapply IsAlive_output|done].
  - intros [= <- <-]. exists (world t). by destruct t.
Qed.

Lemma delete_process_Ret p t t' : delete_process t = Ret t' →
  m_process t' = None ∧ popped t' = popped t ∧ output (world t') p = output (world t) p.
Proof.
  unfold delete_process. destruct (m_process t) as [q|] eqn:Hq.
  - intros (w & Hd & [= <-])%exec_bind_Ret. split_and!; [done..|]. by eapply Destroy_output.
  - by intros [= <-].
Qed.

Lemma Read_order p t ok buffer t' : owns p t → StdoutTransport_Read t = Ret (ok, buffer, t') →
  keeps_order p t t'.
Proof.
  intros Ho [t1 t2 Ha Hd|t1 Ha Hs|t1 message Q Qe Ha Hs]%Read_cases;
    apply (transport_IsAlive_Ret p) in Ha as (w & -> & Hw & Hp).
  - apply (delete_process_Ret p) in Hd as (Hp' & Hpop & Hd).
    apply keeps_order_same; [by left|by rewrite Hd|]. intros rest _. exists [], rest.
    rewrite Hpop, app_nil_r. split_and!; [done..|]. congruence.
  - apply keeps_order_same; [exact Ho|exact Hw|same_order]. done.
  - apply keeps_order_same; [exact Ho|exact Hw|]. intros rest Hr. cbn in Hs.
    destruct Ho as [Ho|Ho]; [by destruct (Hp eq_refl)|]. rewrite (Hr Ho), Hs.
    exists message, (concat Q ++ in_thread (readerThread t)).
    cbn. rewrite concat_app. cbn. by rewrite app_nil_r, <- app_assoc.
Qed.

(** C21: the output of the child arrives in order: in every interleaving of the threads of the
    process with the reads of the transport, as long as the output is plain (on Unix: has no NUL), what the reads
    returned is a prefix of the output, and the rest is in the queue or in the hand of the thread,
    until the process is deleted. *)
Theorem stdout_in_order p t0 t : usable p →
  m_process t0 = Some p → popped t0 = [] → m_stdoutQueue t0 = [] → readerThread t0 = process_test →
  output (world t0) p = [] →
  rtc transport_step t0 t → plain (output (world t) p) →
  ∃ rest, output (world t) p = concat (popped t) ++ rest ∧
    (m_process t = Some p → rest = concat (m_stdoutQueue t) ++ in_thread (readerThread t)).
Proof.
  intros Hfd Hp Hpop Hq Ht Hw Hsteps.
  set (P t := owns p t ∧ (plain (output (world t) p) → in_order p t)).
  assert (P t) as [_ Hi]; [|exact Hi].
  apply (rtc_ind_r (R := transport_step) P t0); [| |exact Hsteps]; subst P; cbv beta.
  - split; [by right|]. intros _. exists []. rewrite Hw, Hpop, Hq, Ht. done.
  - intros t1 t2 _ Hs [Ho IH]. assert (keeps_order p t1 t2) as (Ho2 & x & Hx & Hk).
    { destruct Hs as [t2 Hs|ok buffer t2 Hs]; [by apply process_step_order|by eapply Read_order]. }
    split; [done|]. rewrite Hx. intros [Hn1 Hn2]%plain_app. auto.
Qed.

(** ** The process transport is a transport of a session *)

Lemma process_steps_popped t t' : rtc process_step t t' → popped t' = popped t.
Proof. induction 1 as [|t1 t2 t3 Hs _ IH]; [done|]. rewrite IH. by destruct Hs. Qed.

Lemma StdoutTransport_Read_popped t ok buffer t' : StdoutTransport_Read t = Ret (ok, buffer, t') →
  concat (popped t') = concat (popped t) ++ buffer ∧ (ok = false → buffer = []).
Proof.
  intros [t1 t2 Ha Hd|t1 Ha Hs|t1 message Q Qe Ha Hs]%Read_cases; (split; [|done]);
    apply transport_IsAlive_world in Ha as [w ->].
  - apply delete_process_popped in Hd as ->. by rewrite app_nil_r.
  - by rewrite app_nil_r.
  - cbn. rewrite concat_app. cbn. by rewrite app_nil_r.
Qed.

Program Definition stdout_transport : Transport := {|
  Connection := StdoutTransport;
  Reads t ok buffer t' := ∃ t1, rtc process_step t t1 ∧ StdoutTransport_Read t1 = Ret (ok, buffer, t');
  handed t := concat (popped t);
|}.
Next Obligation.
  intros t ok buffer t' (t1 & Hs & Hr). rewrite <- (process_steps_popped t t1 Hs).
  by apply StdoutTransport_Read_popped.
Qed.
End ProcessSpec.
