(* ===== verification/UnixProcess.v ===== *)
(** * UnixProcess.cpp, linux.cpp: child processes over pipes.

    The calls of the system on a child process and its pipes are parameters ([Unix]), over the
    world of the sockets.  The conversions of a [wxString] are parameters too ([WxString]): the
    program writes to its child by the length of the [wxString], in characters. *)
From S2P Require Import Prelude.
From S2P Require Import StringUtils.
From S2P Require Import JsonRPC.
From S2P Require Import ConnectionString.
From S2P Require Import Socket.
From S2P Require Import Process.
Local Open Scope Z_scope.

Class Unix `{System} := {
  SIGTERM : Z;
  EAGAIN : Z;
  EINTR : Z;
  sys_read : Z → nat → World → Z * text * World;
  sys_write : Z → text → World → Z * World;
  sys_kill : Z → Z → World → Z * World;
  sys_waitpid : Z → World → World;
  (** the descriptors to read and to write *)
  sys_pipe : World → option (Z * Z) * World;
  (** in the parent; the child runs the command line over the pipes *)
  sys_fork : list text → World → Z * World;
}.

Section UnixProcess.
Context `{Unix} `{WxString}.

(** ** UnixProcess.cpp *)

Definition CHUNK_SIZE : nat := 1024.
Definition MAX_BUFF_SIZE : Z := 1024 * 2048.

(** [CPipe]; a descriptor that is not open is -1. *)
Record CPipe := mkCPipe { m_readFd : Z; m_writeFd : Z }.

Definition CLOSE_FD (fd : Z) (w : World) : Z * World :=
  if negb (fd =? -1) then (-1, sys_close fd w) else (fd, w).

Definition CloseReadFd (p : CPipe) (w : World) : CPipe * World :=
  let '(fd, w) := CLOSE_FD (m_readFd p) w in (mkCPipe fd (m_writeFd p), w).

Definition CloseWriteFd (p : CPipe) (w : World) : CPipe * World :=
  let '(fd, w) := CLOSE_FD (m_writeFd p) w in (mkCPipe (m_readFd p) fd, w).

Definition CPipe_Close (p : CPipe) (w : World) : CPipe * World :=
  let '(p, w) := CloseReadFd p w in CloseWriteFd p w.

Definition Open (p : CPipe) (w : World) : bool * CPipe * World :=
  match sys_pipe w with
  | (Some (r, o), w) => (true, mkCPipe r o, w)
  | (None, w) => (false, p, w)
  end.

Record UnixProcess := mkUnixProcess {
  m_childStdin : CPipe;
  m_childStdout : CPipe;
  m_childStderr : CPipe;
  m_goingDown : bool;
  child_pid : Z;
}.

(** The constructor in the parent process: the pipes are opened in this order until one fails. *)
Definition UnixProcess_new (args : list text) (w : World) : UnixProcess * World :=
  let closed := mkCPipe (-1) (-1) in
  let '(ok, i, w) := Open closed w in
  if negb ok then (mkUnixProcess i closed closed false (-1), w)
  else
    let '(ok, e, w) := Open closed w in
    if negb ok then (mkUnixProcess i closed e false (-1), w)
    else
      let '(ok, o, w) := Open closed w in
      if negb ok then (mkUnixProcess i o e false (-1), w)
      else
        let '(pid, w) := sys_fork args w in
        let '(i, w) := CloseReadFd i w in
        let '(o, w) := CloseWriteFd o w in
        let '(e, w) := CloseWriteFd e w in
        (mkUnixProcess i o e false pid, w).

Definition stdin_fd (p : UnixProcess) : Z := m_writeFd (m_childStdin p).
Definition stdout_fd (p : UnixProcess) : Z := m_readFd (m_childStdout p).
Definition stderr_fd (p : UnixProcess) : Z := m_readFd (m_childStderr p).

(** The loop of [ReadAll]: the bytes up to the first NUL of what was read are appended. *)
Fixpoint ReadAll_loop (fuel : nat) (fd : Z) (content : text) (tv_sec tv_usec : Z) (w : World) :
    exec unit (bool * text * World) :=
  match fuel with
  | O => NoFuel
  | S f =>
      let '(rc, w) := sys_select_read fd tv_sec tv_usec w in
      if 0 <? rc then
        let '(len, buff, w) := sys_read fd (CHUNK_SIZE - 1) w in
        if 0 <? len then
          let content := content ++ c_str (take (Z.to_nat len) buff) in
          if MAX_BUFF_SIZE <=? Z.of_nat (length content) then Ret (true, content, w)
          else ReadAll_loop f fd content 0 0 w
        else Ret (false, content, w)
      else if rc =? 0 then Ret (true, content, w)
      else Ret (false, content, w)
  end.

Definition ReadAll (fuel : nat) (fd : Z) (content : text) (timeoutMilliseconds : Z) (w : World) :
    exec unit (bool * text * World) :=
  if (0 <=? fd) && (fd <? FD_SETSIZE) then
    ReadAll_loop fuel fd content (Z.quot timeoutMilliseconds 1000)
      (Z.rem timeoutMilliseconds 1000 * 1000) w
  else Undef.

Definition chunkSize : nat := 4096.

(** The loop of [Write(fd, message, shutdown)] over the rest [tmp] of the message; to write more
    characters than the C string has, with its terminator, reads beyond it. *)
Fixpoint Write_loop (fuel : nat) (fd : Z) (tmp : list Z) (shutdown : bool) (w : World) :
    exec unit (bool * World) :=
  match fuel with
  | O => NoFuel
  | S f =>
      if negb (bool_decide (tmp = [])) && negb shutdown then
        let w := set_errno 0 w in
        let n := Nat.min (length tmp) chunkSize in
        if (length (mb_str tmp) + 1 <? n)%nat then Undef
        else
          let '(bytes, w) := sys_write fd (take n (mb_str tmp ++ [NUL])) w in
          let errCode := errno w in
          if bytes <? 0 then
            if (errCode =? EWOULDBLOCK) || (errCode =? EAGAIN) then
              Write_loop f fd tmp shutdown (sleep_ms 10 w)
            else if errCode =? EINTR then Write_loop f fd tmp shutdown w
            else Ret (bool_decide (tmp = []), w)
          else if negb (bytes =? 0) then Write_loop f fd (drop (Z.to_nat bytes) tmp) shutdown w
          else Write_loop f fd tmp shutdown w
      else Ret (bool_decide (tmp = []), w)
  end.

(** [Write(message)]: the [std::string] becomes a [wxString]. *)
Definition Write (fuel : nat) (message : text) (p : UnixProcess) (w : World) :
    exec unit (bool * World) :=
  Write_loop fuel (stdin_fd p) (from_std message) (m_goingDown p) w.

Definition WriteLn (fuel : nat) (message : text) : UnixProcess → World → exec unit (bool * World) :=
  Write fuel (message ++ [LF]).

Definition IsAlive (p : UnixProcess) (w : World) : bool * World :=
  let '(rc, w) := sys_kill (child_pid p) 0 w in (rc =? 0, w).

Definition Stop (p : UnixProcess) (w : World) : World :=
  if negb (child_pid p =? -1) then snd (sys_kill (child_pid p) SIGTERM w) else w.

Definition Wait (p : UnixProcess) (w : World) : World :=
  if negb (child_pid p =? -1) then sys_waitpid (child_pid p) w else w.

Definition Terminate (p : UnixProcess) (w : World) : World := Wait p (Stop p w).

(** [DoRead(str, err_buff)] into two empty strings. *)
Definition DoRead (fuel : nat) (p : UnixProcess) (w : World) :
    exec unit (bool * text * text * World) :=
  let '(alive, w) := IsAlive p w in
  if negb alive then Ret (false, [], [], w)
  else
    let* ((_, str), w) := ReadAll fuel (stdout_fd p) [] 10 w in
    let* ((_, err_buff), w) := ReadAll fuel (stderr_fd p) [] 10 w in
    Ret (negb (str =t []) || negb (err_buff =t []), str, err_buff, w).

(** ** linux.cpp

    The command line is split again; the threads are started with the transport. *)
Definition ExecuteProcess (cmd : text) (w : World) : UnixProcess * World :=
  UnixProcess_new (BuildArgv cmd) w.

(** The destructor: the child is terminated, then the members are destroyed, the pipes too. *)
Definition Destroy (p : UnixProcess) (w : World) : World :=
  let w := Terminate p w in
  let '(_, w) := CPipe_Close (m_childStderr p) w in
  let '(_, w) := CPipe_Close (m_childStdout p) w in
  let '(_, w) := CPipe_Close (m_childStdin p) w in w.

#[export] Instance unix_process : ProcessOps := {|
  Process.Child := UnixProcess;
  Process.OS := World;
  Process.DoRead := DoRead;
  Process.IsAlive p w := Ret (IsAlive p w);
  Process.Write := Write;
  Process.Destroy p w := Ret (Destroy p w);
  Process.ExecuteProcess cmd w := let '(p, w) := ExecuteProcess cmd w in Ret (Some p, w);
|}.
End UnixProcess.
