(* ===== verification/UnixProcessSpec.v ===== *)
(** * What passes through the pipes of a child process on Unix.

    [Pipes] states what the system does with the bytes of the pipes: the output of the child is
    read in order ([OutputInOrder]); a message reaches the child when its characters are single
    bytes. *)
From S2P Require Import Prelude.
From S2P Require Import StringUtils.
From S2P Require Import JsonRPC.
From S2P Require Import ConnectionString.
From S2P Require Import Socket.
From S2P Require Import SocketSpec.
From S2P Require Import Process.
From S2P Require Import ProcessSpec.
From S2P Require Import UnixProcess.
Local Open Scope Z_scope.

(** The bytes the program has read from a descriptor ([piped]) and written to it ([taken]);
    [busy] bounds how often in a row [write] will take nothing. *)
Class Pipes `{Unix} := {
  piped : World → Z → text;
  taken : World → Z → text;
  busy : World → Z → nat;
  most_busy : nat;
  busy_bound w fd : (busy w fd ≤ most_busy)%nat;
  select_piped fd' s us w fd : piped (sys_select_read fd' s us w).2 fd = piped w fd;
  kill_piped pid sig w fd : piped (sys_kill pid sig w).2 fd = piped w fd;
  waitpid_piped pid w fd : piped (sys_waitpid pid w) fd = piped w fd;
  close_piped fd' w fd : piped (sys_close fd' w) fd = piped w fd;
  read_piped fd n w fd' :
    let '(len, data, w') := sys_read fd n w in
    piped w' fd' = piped w fd' ++ (if decide (fd' = fd) then take (Z.to_nat len) data else []);
  set_errno_taken e w fd : taken (set_errno e w) fd = taken w fd;
  set_errno_busy e w fd : busy (set_errno e w) fd = busy w fd;
  sleep_taken ms w fd : taken (sleep_ms ms w) fd = taken w fd;
  sleep_busy ms w fd : busy (sleep_ms ms w) fd = busy w fd;
  (** [write] takes a prefix of the data, or nothing, and then the next ones fail less often *)
  write_taken fd data w : data ≠ [] → ∃ n : nat, (n ≤ length data)%nat ∧
    taken (sys_write fd data w).2 fd = taken w fd ++ take n data ∧
    ((sys_write fd data w).1 = Z.of_nat n ∧ (0 < n)%nat ∨
     n = 0%nat ∧ (sys_write fd data w).1 ≤ 0 ∧ (busy (sys_write fd data w).2 fd < busy w fd)%nat);
}.

Section UnixProcessSpec.
Context `{Pipes} `{WxString}.

(** ** The output of the child *)

Lemma ReadAll_piped fuel fd fd' : ∀ content s us w ok content' w',
  ReadAll_loop fuel fd content s us w = Ret (ok, content', w') →
  ∃ x, piped w' fd' = piped w fd' ++ (if decide (fd' = fd) then x else []) ∧
    (no_nul x = true → content' = content ++ x).
Proof.
  induction fuel as [|f IH]; intros content s us w ok content' w'; [done|]. cbn [ReadAll_loop].
  pose proof (select_piped fd s us w fd') as Hs.
  destruct (sys_select_read fd s us w) as [rc w1]. cbn in Hs. destruct (0 <? rc).
  - pose proof (read_piped fd (CHUNK_SIZE - 1) w1 fd') as Hr.
    destruct (sys_read fd (CHUNK_SIZE - 1) w1) as [[len data] w2]. rewrite Hs in Hr.
    destruct (Z.ltb_spec 0 len) as [Hlen|Hlen].
    + assert (∀ x, no_nul (take (Z.to_nat len) data ++ x) = true →
        content ++ c_str (take (Z.to_nat len) data) ++ x = content ++ take (Z.to_nat len) data ++ x) as Hx.
      { intros x Hx. rewrite no_nul_app in Hx. apply andb_true_iff in Hx as [Hx _]. by rewrite c_str_id. }
      destruct (MAX_BUFF_SIZE <=? _).
      * intros [= <- <- <-]. exists (take (Z.to_nat len) data). split; [done|]. intros Hn.
        specialize (Hx []). rewrite !app_nil_r in Hx. by apply Hx.
      * intros Hk. apply IH in Hk as (x & -> & Hk). exists (take (Z.to_nat len) data ++ x).
        split; [rewrite Hr; destruct (decide (fd' = fd)); by rewrite <- ?app_assoc|]. intros Hn.
        rewrite <- Hx by done. rewrite no_nul_app in Hn. apply andb_true_iff in Hn as [_ Hn].
        rewrite (Hk Hn). by rewrite <- app_assoc.
    + intros [= <- <- <-]. exists []. rewrite Z2Nat.nonpos in Hr by lia.
      split; [rewrite Hr; by destruct (decide (fd' = fd))|by rewrite app_nil_r].
  - destruct (rc =? 0); intros [= <- <- <-]; exists []; rewrite Hs;
      (split; [by destruct (decide (fd' = fd)); rewrite app_nil_r|by rewrite app_nil_r]).
Qed.

(** [DoRead] reads what it returns. *)
Lemma DoRead_piped fuel p w ok out err w' : stdout_fd p ≠ stderr_fd p →
  DoRead fuel p w = Ret (ok, out, err, w') →
  ∃ x, piped w' (stdout_fd p) = piped w (stdout_fd p) ++ x ∧ (no_nul x = true → out = x) ∧
    (ok = false → out = []).
Proof.
  intros Hfd. unfold DoRead, IsAlive. pose proof (kill_piped (child_pid p) 0 w (stdout_fd p)) as Hk.
  destruct (sys_kill (child_pid p) 0 w) as [rc w1]. cbn in Hk.
  destruct (rc =? 0); cbn [negb].
  - intros ([[ok1 str] w2] & H1' & ([[ok2 str2] w3] & H2' & [= <- <- <- <-])%exec_bind_Ret)%exec_bind_Ret.
    unfold ReadAll in *. destruct ((0 <=? stdout_fd p) && _); [|discriminate H1'].
    destruct ((0 <=? stderr_fd p) && _); [|discriminate H2'].
    apply (ReadAll_piped _ _ (stdout_fd p)) in H1' as (x & Hx & Hx'), H2' as (y & Hy & _).
    rewrite decide_True in Hx by done. rewrite decide_False in Hy by done.
    exists x. rewrite Hy, app_nil_r, Hx, Hk. split_and!; [done..|].
    intros [Ho _]%orb_false_iff. by destruct (teq_spec str []).
  - intros [= <- <- <- <-]. exists []. by rewrite app_nil_r, Hk.
Qed.
Lemma IsAlive_piped q w alive w' fd : IsAlive q w = (alive, w') → piped w' fd = piped w fd.
Proof.
  unfold IsAlive. pose proof (kill_piped (child_pid q) 0 w fd) as Hk.
  destruct (sys_kill _ _ _) as [rc w1]. by intros [= _ <-].
Qed.

Lemma CLOSE_FD_piped f w fd : piped (CLOSE_FD f w).2 fd = piped w fd.
Proof. unfold CLOSE_FD. destruct (negb _); [apply close_piped|done]. Qed.

Lemma CPipe_Close_piped c w c' w' fd : CPipe_Close c w = (c', w') → piped w' fd = piped w fd.
Proof.
  unfold CPipe_Close, CloseReadFd, CloseWriteFd.
  destruct (CLOSE_FD (m_readFd c) w) as [f1 w1] eqn:E1. cbn.
  destruct (CLOSE_FD (m_writeFd c) w1) as [f2 w2] eqn:E2. intros [= _ <-].
  pose proof (CLOSE_FD_piped (m_readFd c) w fd) as H1'. pose proof (CLOSE_FD_piped (m_writeFd c) w1 fd) as H2'.
  rewrite E1 in H1'. rewrite E2 in H2'. cbn in *. congruence.
Qed.

Lemma Destroy_piped p w fd : piped (Destroy p w) fd = piped w fd.
Proof.
  unfold Destroy.
  destruct (CPipe_Close (m_childStderr p) _) as [c1 w1] eqn:E1.
  destruct (CPipe_Close (m_childStdout p) w1) as [c2 w2] eqn:E2.
  destruct (CPipe_Close (m_childStdin p) w2) as [c3 w3] eqn:E3.
  apply (CPipe_Close_piped _ _ _ _ fd) in E1, E2, E3. rewrite E3, E2, E1.
  unfold Terminate, Wait, Stop. destruct (negb _); [|done]. by rewrite waitpid_piped, kill_piped.
Qed.

(** The output of a child is what was read from its pipe. *)
#[local] Obligation Tactic := cbn.
#[export] Program Instance unix_output : OutputInOrder := {|
  output w p := piped w (stdout_fd p);
  plain x := no_nul x = true;
  usable p := stdout_fd p ≠ stderr_fd p;
|}.
Next Obligation. intros x y. rewrite no_nul_app. by intros ?%andb_true_iff. Qed.
Next Obligation. intros p q w alive w' [= Ha]. by eapply IsAlive_piped. Qed.
Next Obligation. intros p q w w' [= <-]. apply Destroy_piped. Qed.
Next Obligation. intros fuel p w ok out err w' Hfd Hr. by eapply DoRead_piped. Qed.

(** ** The input of the child *)

(** A message whose characters are single bytes, such as an ASCII text: its [wxString] has a
    character for every byte, and gives the bytes back. *)
Definition single_bytes (message : text) : Prop :=
  length (from_std message) = length message ∧
  ∀ k, mb_str (drop k (from_std message)) = drop k message.

(** What the loop may do, over the message from its byte [k] on. *)
Definition wrote (fd : Z) (message : text) (fuel k : nat) (w : World) (r : exec unit (bool * World)) : Prop :=
  match r with
  | Ret (true, w') => taken w' fd = taken w fd ++ drop k message
  | Ret (false, w') => ∃ n, (n < length message - k)%nat ∧
      taken w' fd = taken w fd ++ take n (drop k message)
  | Err _ | Undef => False
  | NoFuel => (fuel ≤ (length message - k) * S most_busy + busy w fd)%nat
  end.

(** [write] took nothing: the loop goes on. *)
Lemma wrote_nothing fd message f k w w2 r : wrote fd message f k w2 r →
  taken w2 fd = taken w fd → (busy w2 fd < busy w fd)%nat → wrote fd message (S f) k w r.
Proof. unfold wrote. intros Hr Ht Hb. rewrite Ht in Hr. destruct r as [[[] w']| | |]; try done. lia. Qed.

(** [write] took [m] bytes. *)
Lemma wrote_some fd message f k m w w2 r : wrote fd message f (k + m) w2 r →
  taken w2 fd = taken w fd ++ take m (drop k message) → (0 < m ≤ length message - k)%nat →
  wrote fd message (S f) k w r.
Proof.
  unfold wrote. intros Hr Hw Hm. pose proof (busy_bound w2 fd). destruct r as [[[] w']| | |]; try done.
  - rewrite Hr, Hw, <- app_assoc. f_equal. rewrite <- (take_drop m (drop k message)) at 2.
    by rewrite drop_drop.
  - destruct Hr as (i & Hi & ->). exists (m + i)%nat. split; [lia|].
    rewrite Hw, <- app_assoc. f_equal. by rewrite <- drop_drop, <- take_take_drop.
  - nia.
Qed.

Lemma Write_loop_spec fd message : single_bytes message → ∀ fuel k w, (k ≤ length message)%nat →
  wrote fd message fuel k w (Write_loop fuel fd (drop k (from_std message)) false w).
Proof.
  intros [Hl Hm] fuel. induction fuel as [|f IH]; intros k w Hk; [apply Nat.le_0_l|]. cbn [Write_loop].
  rewrite andb_true_r. destruct (decide (drop k (from_std message) = [])) as [E|E].
  { rewrite (bool_decide_true _ E). cbn [negb wrote].
    assert (drop k message = []) as ->; [|by rewrite app_nil_r].
    apply (f_equal length) in E. rewrite length_drop in E. apply length_zero_iff_nil.
    rewrite length_drop. simpl in E. lia. }
  rewrite (bool_decide_false _ E). cbn [negb]. rewrite Hm, !length_drop, Hl.
  assert (k < length message)%nat as Hk2.
  { destruct (decide (k = length message)) as [->|]; [|lia]. destruct E. apply drop_ge. lia. }
  set (n := Nat.min (length message - k) chunkSize).
  assert (1 ≤ n ≤ length message - k)%nat as Hn by (subst n; unfold chunkSize; lia).
  destruct (Nat.ltb_spec (length message - k + 1) n) as [?|_]; [lia|].
  rewrite take_app_le by (rewrite length_drop; lia).
  pose proof (write_taken fd (take n (drop k message)) (set_errno 0 w)) as (m & Hm1 & Hw & Hb).
  { intros E'. apply (f_equal length) in E'. rewrite length_take, length_drop in E'. simpl in E'. lia. }
  rewrite length_take, length_drop in Hm1. rewrite set_errno_taken, take_take in Hw.
  rewrite Nat.min_l in Hw by lia. rewrite set_errno_busy in Hb.
  destruct (sys_write _ _ _) as [bytes w1]. cbn [fst snd] in *.
  destruct Hb as [[-> Hpos]|(-> & Hle & Hb)].
  - destruct (Z.ltb_spec (Z.of_nat m) 0); [lia|]. destruct (Z.eqb_spec (Z.of_nat m) 0); [lia|].
    cbn [negb]. rewrite Nat2Z.id, drop_drop. apply (wrote_some _ _ _ _ m _ w1); [apply IH; lia|done|lia].
  - cbn [take] in Hw. rewrite app_nil_r in Hw. destruct (Z.ltb_spec bytes 0).
    + destruct (_ || _); [|destruct (_ =? EINTR)].
      * apply (wrote_nothing _ _ _ _ _ (sleep_ms 10 w1)); [by apply IH|by rewrite sleep_taken|by rewrite sleep_busy].
      * apply (wrote_nothing _ _ _ _ _ w1); [by apply IH|done..].
      * exists 0%nat. rewrite app_nil_r. split; [lia|done].
    + assert ((bytes =? 0) = true) as -> by lia.
      apply (wrote_nothing _ _ _ _ _ w1); [by apply IH|done..].
Qed.

(** C28: [Write] hands a message of single bytes to the child: all of it when it answers [true], and
    not all of it when it answers [false]; it answers after a bounded number of rounds when the
    pipe takes bytes from time to time.  It counts characters, though: of a message with fewer
    characters than bytes it writes as many bytes as there are characters, and answers [true]. *)
Theorem Write_delivers fuel message p w : m_goingDown p = false →
  (single_bytes message →
   match Write fuel message p w with
   | Ret (true, w') => taken w' (stdin_fd p) = taken w (stdin_fd p) ++ message
   | Ret (false, w') => ∃ n, (n < length message)%nat ∧
       taken w' (stdin_fd p) = taken w (stdin_fd p) ++ take n message
   | Err _ | Undef => False
   | NoFuel => (fuel ≤ length message * S most_busy + most_busy)%nat
   end) ∧
  (let characters := length (from_std message) in let bytes := mb_str (from_std message) in
   ∀ w', (0 < characters ≤ chunkSize)%nat → (characters < length bytes)%nat → (2 ≤ fuel)%nat →
   sys_write (stdin_fd p) (take characters bytes) (set_errno 0 w) = (Z.of_nat characters, w') →
   Write fuel message p w = Ret (true, w') ∧
   taken w' (stdin_fd p) = taken w (stdin_fd p) ++ take characters bytes).
Proof.
  intros Hg. unfold Write. rewrite Hg. split.
  - intros Hm. pose proof (Write_loop_spec (stdin_fd p) message Hm fuel 0 w ltac:(lia)) as Hl.
    rewrite !drop_0 in Hl. pose proof (busy_bound w (stdin_fd p)).
    destruct (Write_loop _ _ _ _ _) as [[[] w']| | |]; try done.
    + destruct Hl as (n & Hn & Hl). exists n. split; [lia|done].
    + cbn [wrote] in Hl. rewrite Nat.sub_0_r in Hl. lia.
  - intros w'. set (characters := length (from_std message)). set (bytes := mb_str (from_std message)).
    intros Hc Hb Hf Hw. destruct fuel as [|[|f]]; [lia..|].
    assert (from_std message ≠ []) as Hne by (intros E; subst characters; rewrite E in Hc; simpl in Hc; lia).
    split.
    + cbn [Write_loop]. rewrite (bool_decide_false _ Hne). cbn [negb andb].
      rewrite Nat.min_l by (subst characters; lia).
      destruct (Nat.ltb_spec (length (mb_str (from_std message)) + 1) (length (from_std message)));
        [subst characters bytes; lia|].
      rewrite take_app_le by (subst characters bytes; lia). fold characters bytes. rewrite Hw.
      destruct (Z.ltb_spec (Z.of_nat characters) 0); [lia|].
      destruct (Z.eqb_spec (Z.of_nat characters) 0); [lia|]. cbn [negb].
      rewrite Nat2Z.id, drop_ge by done. by rewrite bool_decide_true.
    + pose proof (write_taken (stdin_fd p) (take characters bytes) (set_errno 0 w)) as (n & Hn & Ht & Hr).
      { intros E. apply (f_equal length) in E. rewrite length_take in E. simpl in E. lia. }
      rewrite Hw in Ht, Hr. cbn [fst snd] in *. rewrite set_errno_taken in Ht.
      destruct Hr as [[Hr _]|(_ & Hr & _)]; [|lia]. apply Nat2Z.inj in Hr as <-.
      by rewrite take_take, Nat.min_id in Ht.
Qed.

End UnixProcessSpec.

(** ** A child on the small kernel *)
Section Samples.
#[local] Obligation Tactic := idtac.

(** A child over the descriptors 3 (its output), 4 and 5 (its input). *)
#[local] Instance child_wire : System := wire_system 3 50.
#[local] Instance child_unix : Unix := {|
  SIGTERM := 15; EAGAIN := 11; EINTR := 4;
  sys_read fd n w :=
    if decide (fd = 3) then sys_recv (System := child_wire) 3 n w else (0, [], w);
  sys_write fd data w := sys_send (System := child_wire) fd data w;
  sys_kill _ _ w := (0, w); sys_waitpid _ w := w;
  sys_pipe w := (Some (3, 5), w); sys_fork _ w := (77, w);
|}.

#[local] Program Instance child_pipes : Pipes := {|
  piped w fd := if decide (fd = 3) then wire_in (w : wire) else [];
  taken w _ := wire_out (w : wire);
  busy _ _ := 0%nat;
  most_busy := 0%nat;
|}.
Next Obligation. done. Qed.
Next Obligation. done. Qed.
Next Obligation. done. Qed.
Next Obligation. done. Qed.
Next Obligation. done. Qed.
Next Obligation.
  intros fd n w fd'. cbn. destruct (decide (fd = 3)) as [->|Hne]; cbn.
  - destruct (teq_spec (take (n `min` 50) (wire_next w)) []) as [->|]; cbn;
      destruct (decide (fd' = 3)); cbn; rewrite ?app_nil_r, ?Nat2Z.id, ?firstn_all; try done.
  - destruct (decide (fd' = fd)) as [->|]; by rewrite app_nil_r.
Qed.
Next Obligation. done. Qed.
Next Obligation. done. Qed.
Next Obligation. done. Qed.
Next Obligation. done. Qed.
Next Obligation.
  intros fd data w Hne. exists (length (take 3 data)). split; [rewrite length_take; lia|]. cbn. split.
  - by destruct data as [|? [|? [|]]].
  - left. split; [done|]. destruct data; [done|]. simpl. lia.
Qed.

(** The characters of two-byte sequences of UTF-8, and of single bytes. *)
Fixpoint decode_2 (t : text) : list Z :=
  match t with
  | a :: ((b :: r) as t') =>
      if code a =? 0xC3 then (code b + 64) :: decode_2 r else code a :: decode_2 t'
  | [a] => [code a]
  | [] => []
  end.
#[local] Instance utf8_2 : WxString := {|
  from_std := decode_2;
  mb_str l := concat (map (λ z, if z <? 128 then [chr z] else [chr 0xC3; chr (z - 64)]) l);
|}.

Definition sample_process : UnixProcess :=
  mkUnixProcess (mkCPipe (-1) 5) (mkCPipe 3 (-1)) (mkCPipe 4 (-1)) false 77.

Definition sample_transport : StdoutTransport :=
  mkStdoutTransport (Some sample_process) [] [] false process_test []
    (mkWire [] [] "Content-Length: 2" true : @World child_wire).

Definition child_end (out : text) : @World child_wire := mkWire out [] "Content-Length: 2" true.

Lemma stdout_in_order_witness : ∃ t, rtc transport_step sample_transport t ∧
  popped t = [lit "Content-Length: 2"] ∧
  ∃ rest, piped (world t) 3 = concat (popped t) ++ rest.
Proof.
  set (w := (mkWire [] "Content-Length: 2" [] true : @World child_wire) : @OS unix_process).
  set (t1 := sample_transport <| readerThread := process_read |>).
  set (t2 := t1 <| world := w |> <| readerThread := process_push "Content-Length: 2" [] |>).
  set (t3 := t2 <| readerThread := process_push_err [] |> <| m_stdoutQueue := [lit "Content-Length: 2"] |>).
  set (t4 := t3 <| m_stdoutQueue := [] |> <| popped := [lit "Content-Length: 2"] |>).
  assert (rtc transport_step sample_transport t4) as Hs.
  { eapply rtc_l; [apply transport_process, (thread_test sample_transport); reflexivity|].
    eapply rtc_l; [apply transport_process;
      exact (thread_read t1 sample_process 5 true "Content-Length: 2" [] w eq_refl eq_refl eq_refl)|].
    eapply rtc_l; [apply transport_process;
      exact (thread_push t2 "Content-Length: 2" [] eq_refl)|].
    apply rtc_once. apply (transport_read t3 true "Content-Length: 2"). reflexivity. }
  exists t4. split; [exact Hs|]. split; [reflexivity|].
  destruct (stdout_in_order (H0 := unix_output) sample_process sample_transport t4) as (rest & E & _); try reflexivity;
    [discriminate|exact Hs|]. exists rest. exact E.
Defined.

(** An ASCII message goes through; of [e acute], two bytes, only the first is written. *)
Lemma Write_delivers_witness :
  Write 20 "{}" sample_process (world sample_transport) = Ret (true, child_end "{}") ∧
  wire_out (child_end "{}") = [] ++ lit "{}" ∧
  Write 2 [chr 0xC3; chr 0xA9] sample_process (world sample_transport)
    = Ret (true, child_end [chr 0xC3]).
Proof.
  assert (Write 20 "{}" sample_process (world sample_transport)
    = Ret (true, child_end "{}")) as E by (vm_compute; reflexivity).
  split; [exact E|]. split.
  - destruct (Write_delivers 20 "{}" sample_process (world sample_transport) eq_refl) as [Hd _].
    rewrite E in Hd. apply Hd. split; [reflexivity|].
    intros [|[|k]]; [reflexivity..|]. by rewrite !drop_ge by (simpl; lia).
  - destruct (Write_delivers 2 [chr 0xC3; chr 0xA9] sample_process (world sample_transport) eq_refl) as [_ Hd].
    apply (Hd (child_end [chr 0xC3])); [|vm_compute; lia|lia|reflexivity].
    unfold chunkSize. simpl. lia.
Defined.
End Samples.
