(* ===== verification/MswProcess.v ===== *)
(** * msw.cpp: child processes on Windows.

    The calls of the system are parameters ([Windows]), over its state [Kernel]: what they return,
    [None] when they fail, and the state after them.  A handle is a number.  [m_piProcInfo] has no
    initial value: to read it before [ExecuteProcess] has filled it is [Undef]. *)
From S2P Require Import Prelude.
From S2P Require Import StringUtils.
From S2P Require Import JsonRPC.
From S2P Require Import Process.
Local Open Scope Z_scope.

(** [DWORD] *)
Definition to_dword (n : Z) : Z := n mod 2 ^ 32.

(** [hProcess], [hThread], [dwProcessId] *)
Record PROCESS_INFORMATION := mkProcessInformation {
  hProcess : Z;
  hThread : Z;
  dwProcessId : Z;
}.

Class Windows := {
  Kernel : Type;
  STILL_ACTIVE : Z;
  GetExitCodeProcess : Z → Kernel → option Z * Kernel;
  TerminateProcess : Z → Z → Kernel → Kernel;
  (** the byte mode without waiting, which every use sets *)
  SetNamedPipeHandleState : Z → Kernel → Kernel;
  (** the number of bytes that were written *)
  WriteFile : Z → text → Kernel → option Z * Kernel;
  (** at most this many bytes *)
  ReadFile : Z → Z → Kernel → option text * Kernel;
  CloseHandle : Z → Kernel → Kernel;
  (** the handles to read and to write *)
  CreatePipe : Kernel → option (Z * Z) * Kernel;
  (** the command line, and the handles of the input, the output and the error output *)
  CreateProcess : text → Z → Z → Z → Kernel → option PROCESS_INFORMATION * Kernel;
  sleep_for : Z → Kernel → Kernel;
}.

Definition INVALID_HANDLE_VALUE : Z := -1.

Section MswProcess.
Context `{Windows} `{WxString}.

Definition CheckIsAlive (hProcess : Z) (k : Kernel) : bool * Kernel :=
  let '(dwExitCode, k) := GetExitCodeProcess hProcess k in
  (bool_decide (dwExitCode = Some STILL_ACTIVE), k).

(** The loop of [WriteStdin], with [retries] rounds left of 100: [buffer] is what follows
    [offset]; to write more than it and its terminator reads beyond it. *)
Fixpoint WriteStdin_loop (retries : nat) (buffer : text) (bytesLeft : Z) (hStdin hProcess : Z)
    (k : Kernel) : exec unit (bool * Kernel) :=
  match retries with
  | O => Ret (true, k)
  | S retries =>
      if 0 <? bytesLeft then
        if (length buffer + 1 <? Z.to_nat bytesLeft)%nat then Undef
        else
          let '(written, k) := WriteFile hStdin (take (Z.to_nat bytesLeft) (buffer ++ [NUL])) k in
          match written with
          | None => Ret (false, k)
          | Some dwWritten =>
              let '(alive, k) := CheckIsAlive hProcess k in
              if negb alive then Ret (false, k)
              else
                let k := if dwWritten =? 0 then sleep_for 10 k else k in
                WriteStdin_loop retries (drop (Z.to_nat dwWritten) buffer)
                  (to_dword (bytesLeft - dwWritten)) hStdin hProcess k
          end
      else Ret (true, k)
  end.

Definition WriteStdin (buffer : text) (hStdin hProcess : Z) (k : Kernel) : exec unit (bool * Kernel) :=
  let k := SetNamedPipeHandleState hStdin k in
  WriteStdin_loop 100 buffer (to_dword (Z.of_nat (length buffer))) hStdin hProcess k.

Definition CLOSE_HANDLE (h : Z) (k : Kernel) : Z * Kernel :=
  (INVALID_HANDLE_VALUE, if negb (h =? INVALID_HANDLE_VALUE) then CloseHandle h k else k).

Record ProcessMSW := mkProcessMSW {
  m_stdinRead : Z;
  m_stdinWrite : Z;
  m_stdoutWrite : Z;
  m_stdoutRead : Z;
  m_stderrWrite : Z;
  m_stderrRead : Z;
  m_dwProcessId : Z;
  m_piProcInfo : option PROCESS_INFORMATION;
}.

#[export] Instance ProcessMSW_settable : Settable ProcessMSW :=
  rebuild mkProcessMSW <@> m_stdinRead <@> m_stdinWrite <@> m_stdoutWrite <@> m_stdoutRead
  <@> m_stderrWrite <@> m_stderrRead <@> m_dwProcessId <@> m_piProcInfo.

Definition ProcessMSW_new : ProcessMSW :=
  let h := INVALID_HANDLE_VALUE in mkProcessMSW h h h h h h (to_dword (-1)) None.

(** [m_piProcInfo], when it has a value. *)
Definition with_info {A} (p : ProcessMSW) (f : PROCESS_INFORMATION → exec unit A) : exec unit A :=
  match m_piProcInfo p with Some i => f i | None => Undef end.

Definition IsAlive (p : ProcessMSW) (k : Kernel) : exec unit (bool * Kernel) :=
  with_info p (λ i, Ret (CheckIsAlive (hProcess i) k)).

(** [Cleanup], when [Process::Cleanup] has joined the threads. *)
Definition Cleanup (p : ProcessMSW) (k : Kernel) : exec unit (ProcessMSW * Kernel) :=
  let* (alive, k) := IsAlive p k in
  with_info p (λ i,
    let k := if alive then TerminateProcess (hProcess i) 255 k else k in
    let '(process, k) := CLOSE_HANDLE (hProcess i) k in
    let '(thread, k) := CLOSE_HANDLE (hThread i) k in
    let '(h1, k) := CLOSE_HANDLE (m_stdinRead p) k in
    let '(h2, k) := CLOSE_HANDLE (m_stdinWrite p) k in
    let '(h3, k) := CLOSE_HANDLE (m_stdoutWrite p) k in
    let '(h4, k) := CLOSE_HANDLE (m_stdoutRead p) k in
    let '(h5, k) := CLOSE_HANDLE (m_stderrWrite p) k in
    let '(h6, k) := CLOSE_HANDLE (m_stderrRead p) k in
    Ret (mkProcessMSW h1 h2 h3 h4 h5 h6 (m_dwProcessId p)
           (Some (mkProcessInformation process thread (dwProcessId i))), k)).

Definition Terminate (p : ProcessMSW) (k : Kernel) : exec unit (ProcessMSW * Kernel) := Cleanup p k.

(** The loop of [DoReadFromPipe]: what was read becomes a [wxString], up to a NUL, and then a
    part of [buff]. *)
Fixpoint DoReadFromPipe_loop (fuel : nat) (pipe : Z) (buff : text) (read_something : bool)
    (k : Kernel) : exec unit (bool * text * Kernel) :=
  match fuel with
  | O => NoFuel
  | S fuel =>
      let '(bRes, k) := ReadFile pipe 65536 k in
      match bRes with
      | Some m_buffer =>
          DoReadFromPipe_loop fuel pipe (buff ++ mb_str (from_std (c_str m_buffer))) true k
      | None => Ret (read_something, buff, k)
      end
  end.

Definition DoReadFromPipe (fuel : nat) (pipe : Z) (buff : text) (k : Kernel) :
    exec unit (bool * text * Kernel) :=
  DoReadFromPipe_loop fuel pipe buff false (SetNamedPipeHandleState pipe k).

(** [DoRead(ostrout, ostrerr)] into two empty strings. *)
Definition DoRead (fuel : nat) (p : ProcessMSW) (k : Kernel) :
    exec unit (bool * text * text * Kernel) :=
  let* (alive, k) := IsAlive p k in
  if negb alive then Ret (false, [], [], k)
  else
    let* ((_, ostrout), k) := DoReadFromPipe fuel (m_stdoutRead p) [] k in
    let* ((_, ostrerr), k) := DoReadFromPipe fuel (m_stderrRead p) [] k in
    Ret (negb (ostrerr =t []) || negb (ostrout =t []), ostrout, ostrerr, k).

Definition DoWrite (buff : text) (appendLf : bool) (p : ProcessMSW) (k : Kernel) :
    exec unit (bool * Kernel) :=
  let tmpCmd := Rtrim buff in
  let tmpCmd := if appendLf then tmpCmd ++ [LF] else tmpCmd in
  let k := SetNamedPipeHandleState (m_stdinWrite p) k in
  with_info p (λ i, WriteStdin tmpCmd (m_stdinWrite p) (hProcess i) k).

Definition Write (buff : text) : ProcessMSW → Kernel → exec unit (bool * Kernel) :=
  DoWrite buff false.
Definition WriteLn (buff : text) : ProcessMSW → Kernel → exec unit (bool * Kernel) :=
  DoWrite buff true.

(** The destructor; the handles are closed, the object is gone. *)
Definition Destroy (p : ProcessMSW) (k : Kernel) : exec unit Kernel :=
  let* (_, k) := Cleanup p k in Ret k.

(** [ExecuteProcess]: a failure deletes the object.  Before [CreateProcess] its
    [m_piProcInfo] has no value yet, and is zero from then on. *)
Definition ExecuteProcess (cmd : text) (k : Kernel) : exec unit (option ProcessMSW * Kernel) :=
  let fail (p : ProcessMSW) (k : Kernel) := let* k := Destroy p k in Ret (None, k) in
  let prc := ProcessMSW_new in
  let '(out, k) := CreatePipe k in
  match out with
  | None => fail prc k
  | Some (r, w) =>
      let prc := prc <| m_stdoutRead := r |> <| m_stdoutWrite := w |> in
      let '(err, k) := CreatePipe k in
      match err with
      | None => fail prc k
      | Some (r, w) =>
          let prc := prc <| m_stderrRead := r |> <| m_stderrWrite := w |> in
          let '(inp, k) := CreatePipe k in
          match inp with
          | None => fail prc k
          | Some (r, w) =>
              let prc := prc <| m_stdinRead := r |> <| m_stdinWrite := w |>
                             <| m_piProcInfo := Some (mkProcessInformation 0 0 0) |> in
              let '(ret, k) := CreateProcess cmd (m_stdinRead prc) (m_stdoutWrite prc)
                                 (m_stderrWrite prc) k in
              match ret with
              | None => fail prc k
              | Some i => Ret (Some (prc <| m_piProcInfo := Some i |>
                                         <| m_dwProcessId := dwProcessId i |>), k)
              end
          end
      end
  end.

#[export] Instance msw_process : ProcessOps := {|
  Process.Child := ProcessMSW;
  Process.OS := Kernel;
  Process.DoRead := DoRead;
  Process.IsAlive := IsAlive;
  Process.Write _ := Write;
  Process.Destroy := Destroy;
  Process.ExecuteProcess := ExecuteProcess;
|}.
End MswProcess.
