(* ===== verification/MswProcessSpec.v ===== *)
(** * Child processes on Windows: the pipes and the handles.

    [MswPipes] states what the system does with the bytes of the pipes: the output of a child is
    read in order ([OutputInOrder]), and what [Write] hands over is a prefix of the message.
    [Handles] states which handles are open: none is lost. *)
From S2P Require Import Prelude.
From S2P Require Import StringUtils.
From S2P Require Import JsonRPC.
From S2P Require Import Process.
From S2P Require Import ProcessSpec.
From S2P Require Import MswProcess.
Local Open Scope Z_scope.

(** The bytes the program has read from a handle ([piped]) and written to it ([taken]). *)
Class MswPipes `{Windows} := {
  piped : Kernel → Z → text;
  taken : Kernel → Z → text;
  exit_piped h k h' : piped (GetExitCodeProcess h k).2 h' = piped k h';
  terminate_piped h c k h' : piped (TerminateProcess h c k) h' = piped k h';
  state_piped h k h' : piped (SetNamedPipeHandleState h k) h' = piped k h';
  close_piped h k h' : piped (CloseHandle h k) h' = piped k h';
  read_piped h n k h' : let '(data, k') := ReadFile h n k in
    piped k' h' = piped k h' ++ (if decide (h' = h) then default [] data else []);
  exit_taken h k h' : taken (GetExitCodeProcess h k).2 h' = taken k h';
  state_taken h k h' : taken (SetNamedPipeHandleState h k) h' = taken k h';
  sleep_taken ms k h' : taken (sleep_for ms k) h' = taken k h';
  (** [WriteFile] takes a prefix of the data *)
  write_taken h data k : let '(written, k') := WriteFile h data k in
    ∃ n : nat, (n ≤ length data)%nat ∧ taken k' h = taken k h ++ take n data ∧
      (written = Some (Z.of_nat n) ∨ written = None);
}.

(** The characters of an ASCII text without NUL survive the conversion to a [wxString] and back. *)
Definition is_ascii (t : text) : bool := forallb (λ c, (0 <? code c) && (code c <? 128)) t.

Class AsciiConversion `{WxString} := {
  ascii_conversion t : is_ascii t = true → mb_str (from_std t) = t;
}.

Section Destroy.
Context `{Windows}.

Definition close_if_open (k : Kernel) (h : Z) : Kernel := (CLOSE_HANDLE h k).2.

(** The handles of a process. *)
Definition handles (p : ProcessMSW) : list Z :=
  [m_stdinRead p; m_stdinWrite p; m_stdoutWrite p; m_stdoutRead p; m_stderrWrite p; m_stderrRead p].

Lemma Destroy_Ret p k k' : Destroy p k = Ret k' →
  ∃ i k1 k2, m_piProcInfo p = Some i ∧ k1 = (GetExitCodeProcess (hProcess i) k).2 ∧
    (k2 = k1 ∨ k2 = TerminateProcess (hProcess i) 255 k1) ∧
    k' = foldl close_if_open k2 (hProcess i :: hThread i :: handles p).
Proof.
  unfold Destroy, Cleanup, IsAlive, with_info, CheckIsAlive.
  destruct (m_piProcInfo p) as [i|]; [|done]. intros Hk.
  exists i, (GetExitCodeProcess (hProcess i) k).2. destruct (GetExitCodeProcess _ k) as [c k1]. cbn in Hk.
  injection Hk as <-. eexists. split; [done|]. split; [done|]. split; [|reflexivity].
  case_bool_decide; [by right|by left].
Qed.
End Destroy.

Section Output.
Context `{MswPipes} `{AsciiConversion}.

Lemma ascii_app x y : is_ascii (x ++ y) = is_ascii x && is_ascii y.
Proof. apply forallb_app. Qed.

Lemma ascii_no_nul t : is_ascii t = true → no_nul t = true.
Proof.
  unfold is_ascii, no_nul. rewrite !forallb_forall. intros Ht c Hc. specialize (Ht c Hc).
  by destruct (ceq_spec c NUL) as [->|].
Qed.

Lemma DoReadFromPipe_piped fuel pipe h : ∀ buff b k r buff' k',
  DoReadFromPipe_loop fuel pipe buff b k = Ret (r, buff', k') →
  ∃ x, piped k' h = piped k h ++ (if decide (h = pipe) then x else []) ∧
    (is_ascii x = true → buff' = buff ++ x).
Proof.
  induction fuel as [|f IH]; intros buff b k r buff' k'; [done|]. cbn [DoReadFromPipe_loop].
  pose proof (read_piped pipe 65536 k h) as Hr. destruct (ReadFile pipe 65536 k) as [[data|] k1].
  - intros (x & -> & Hx)%IH. exists (data ++ x). cbn in Hr. split.
    + rewrite Hr. destruct (decide (h = pipe)); by rewrite <- ?app_assoc, ?app_nil_r.
    + rewrite ascii_app. intros [Hd Ha]%andb_true_iff.
      rewrite Hx, c_str_id, ascii_conversion, <- app_assoc by auto using ascii_no_nul. done.
  - intros [= <- <- <-]. exists []. rewrite Hr, app_nil_r. cbn. by destruct (decide _).
Qed.

Lemma msw_IsAlive_piped p k alive k' h : IsAlive p k = Ret (alive, k') → piped k' h = piped k h.
Proof.
  unfold IsAlive, with_info. destruct (m_piProcInfo p) as [i|]; [|done]. unfold CheckIsAlive.
  pose proof (exit_piped (hProcess i) k h) as He. destruct (GetExitCodeProcess _ k) as [c k1].
  intros [= _ <-]. exact He.
Qed.

Lemma msw_DoRead_piped fuel p k ok out err k' : m_stdoutRead p ≠ m_stderrRead p →
  DoRead fuel p k = Ret (ok, out, err, k') →
  ∃ x, piped k' (m_stdoutRead p) = piped k (m_stdoutRead p) ++ x ∧ (is_ascii x = true → out = x) ∧
    (ok = false → out = []).
Proof.
  intros Hne ([alive k1] & Ha & Hk)%exec_bind_Ret. apply (msw_IsAlive_piped _ _ _ _ (m_stdoutRead p)) in Ha.
  destruct alive; cbn [negb] in Hk.
  - apply exec_bind_Ret in Hk as ([[b1 o] k2] & H1' & ([[b2 e] k3] & H2' & [= <- <- <- <-])%exec_bind_Ret).
    apply (DoReadFromPipe_piped _ _ (m_stdoutRead p)) in H1' as (x & Hx & Hx'), H2' as (y & Hy & _).
    rewrite state_piped in Hx, Hy. rewrite decide_True in Hx by done. rewrite decide_False in Hy by done.
    exists x. rewrite Hy, app_nil_r, Hx, Ha. split_and!; [done..|].
    intros [_ Ho]%orb_false_iff. by destruct (teq_spec o []).
  - injection Hk as <- <- <- <-. exists []. by rewrite app_nil_r, Ha.
Qed.

Lemma close_piped_all hs k h : piped (foldl close_if_open k hs) h = piped k h.
Proof.
  revert k. induction hs as [|h' hs IH]; intros k; [done|]. cbn [foldl]. rewrite IH.
  unfold close_if_open, CLOSE_HANDLE. cbn. case_match; [apply close_piped|done].
Qed.

#[local] Obligation Tactic := cbn.
#[export] Program Instance msw_output : OutputInOrder := {|
  output k p := piped k (m_stdoutRead p);
  plain x := is_ascii x = true;
  usable p := m_stdoutRead p ≠ m_stderrRead p;
|}.
Next Obligation. intros x y. rewrite ascii_app. by intros ?%andb_true_iff. Qed.
Next Obligation. intros p q k alive k'. apply msw_IsAlive_piped. Qed.
Next Obligation.
  intros p q k k' (i & k1 & k2 & _ & -> & Hk & ->)%Destroy_Ret. rewrite close_piped_all.
  destruct Hk as [->| ->]; rewrite ?terminate_piped; apply exit_piped.
Qed.
Next Obligation. intros fuel p k ok out err k' Hne. by apply msw_DoRead_piped. Qed.
End Output.

(** ** The input of a child *)
Section Input.
Context `{MswPipes}.

(** Every write of data to the handle takes at least [c] bytes, or all of them. *)
Definition takes_at_least (c : nat) (h : Z) : Prop := ∀ data k n k',
  WriteFile h data k = (Some n, k') → Z.of_nat (Nat.min c (length data)) ≤ n.

Lemma WriteStdin_loop_spec retries h process : ∀ buffer k, Z.of_nat (length buffer) < 2 ^ 32 →
  ∃ ok k' n, WriteStdin_loop retries buffer (Z.of_nat (length buffer)) h process k = Ret (ok, k') ∧
    taken k' h = taken k h ++ take n buffer ∧
    ∀ c, takes_at_least c h → (length buffer ≤ retries * c)%nat → ok = true → (length buffer ≤ n)%nat.
Proof.
  induction retries as [|r IH]; intros buffer k Hb; cbn [WriteStdin_loop].
  { exists true, k, 0%nat. rewrite app_nil_r. split_and!; [done..|]. lia. }
  destruct (Z.ltb_spec 0 (Z.of_nat (length buffer))) as [Hpos|Hpos].
  2: { exists true, k, 0%nat. rewrite app_nil_r. split_and!; [done..|]. lia. }
  rewrite Nat2Z.id. destruct (Nat.ltb_spec (length buffer + 1) (length buffer)); [lia|].
  rewrite take_app_length. pose proof (write_taken h buffer k) as Hw.
  destruct (WriteFile h buffer k) as [[m|] k1] eqn:Ew; destruct Hw as (n & Hn & Hw & Hm).
  2: { exists false, k1, n. split; [done|]. split; [exact Hw|]. by intros c _ _ [=]. }
  destruct Hm as [[= ->]|[=]]. unfold CheckIsAlive.
  pose proof (exit_taken process k1 h) as He. destruct (GetExitCodeProcess process k1) as [code k2].
  cbn [fst snd] in He. destruct (negb _).
  { exists false, k2, n. split; [done|]. rewrite He. split; [exact Hw|]. by intros c _ _ [=]. }
  set (k3 := if Z.of_nat n =? 0 then sleep_for 10 k2 else k2).
  assert (taken k3 h = taken k h ++ take n buffer) as Hk3.
  { subst k3. rewrite <- Hw, <- He. case_match; [apply sleep_taken|done]. }
  rewrite Nat2Z.id. unfold to_dword. rewrite Z.mod_small by lia.
  destruct (IH (drop n buffer) k3) as (ok & k' & n' & E & Ht & Hall); [rewrite length_drop; lia|].
  rewrite length_drop, Nat2Z.inj_sub in E by lia. exists ok, k', (n + n')%nat. split; [exact E|]. split.
  - by rewrite Ht, Hk3, <- app_assoc, take_take_drop.
  - intros c Hc Hr Hok. pose proof (Hc _ _ _ _ Ew). rewrite length_drop in Hall.
    assert (length buffer - n ≤ n')%nat; [|lia]. apply (Hall c); [done| |done]. simpl in Hr. lia.
Qed.

(** A pipe that is full takes nothing: after the last round the answer is [true]. *)
Lemma WriteStdin_loop_full h process :
  (∀ data k, (WriteFile h data k).1 = Some 0) →
  (∀ k, (GetExitCodeProcess process k).1 = Some STILL_ACTIVE) →
  ∀ retries buffer k, Z.of_nat (length buffer) < 2 ^ 32 →
  ∃ k', WriteStdin_loop retries buffer (Z.of_nat (length buffer)) h process k = Ret (true, k').
Proof.
  intros Hw Ha retries. induction retries as [|r IH]; intros buffer k Hb; cbn [WriteStdin_loop];
    [by eexists|].
  destruct (0 <? _); [|by eexists]. rewrite Nat2Z.id.
  destruct (Nat.ltb_spec (length buffer + 1) (length buffer)); [lia|].
  specialize (Hw (take (length buffer) (buffer ++ [NUL])) k).
  destruct (WriteFile h _ k) as [w k1]. cbn in Hw. subst w. unfold CheckIsAlive.
  specialize (Ha k1). destruct (GetExitCodeProcess process k1) as [code k2]. cbn in Ha. subst code.
  rewrite bool_decide_true by done. cbn [negb]. rewrite drop_0, Z.sub_0_r. unfold to_dword.
  rewrite Z.mod_small by lia. apply IH. done.
Qed.

(** C30: [Write] always answers, after at most 100 writes; what the child gets of the message,
    whose trailing blanks are cut off, is a prefix of it, and all of it when the answer is [true]
    and the pipe takes a hundredth of it at a time.  A full pipe makes it answer [true] without
    the message. *)
Theorem msw_Write_prefix buff p k i : m_piProcInfo p = Some i → Z.of_nat (length buff) < 2 ^ 32 →
  (∃ ok k' n, Write buff p k = Ret (ok, k') ∧
     taken k' (m_stdinWrite p) = taken k (m_stdinWrite p) ++ take n (Rtrim buff) ∧
     ∀ c, takes_at_least c (m_stdinWrite p) → (length (Rtrim buff) ≤ 100 * c)%nat → ok = true →
       taken k' (m_stdinWrite p) = taken k (m_stdinWrite p) ++ Rtrim buff) ∧
  ((∀ data k0, (WriteFile (m_stdinWrite p) data k0).1 = Some 0) →
   (∀ k0, (GetExitCodeProcess (hProcess i) k0).1 = Some STILL_ACTIVE) →
   ∃ k', Write buff p k = Ret (true, k')).
Proof.
  intros Hi Hb. unfold Write, DoWrite, with_info, WriteStdin. rewrite Hi.
  assert (Z.of_nat (length (Rtrim buff)) < 2 ^ 32) as Hl by (pose proof (Rtrim_length buff); lia).
  unfold to_dword. rewrite Z.mod_small by lia. split.
  - set (k0 := SetNamedPipeHandleState _ (SetNamedPipeHandleState _ k)).
    destruct (WriteStdin_loop_spec 100 (m_stdinWrite p) (hProcess i) (Rtrim buff) k0 Hl)
      as (ok & k' & n & E & Ht & Hall).
    exists ok, k', n. split; [exact E|]. subst k0. rewrite !state_taken in Ht. split; [exact Ht|].
    intros c Hc Hr Hok. rewrite Ht, take_ge; [done|]. by apply (Hall c).
  - intros Hw Ha. by apply WriteStdin_loop_full.
Qed.
End Input.

(** ** The handles *)

(** The handles that the program holds open. *)
Class Handles `{Windows} := {
  opened : Kernel → gset Z;
  opened_valid h k : h ∈ opened k → h ≠ INVALID_HANDLE_VALUE ∧ h ≠ 0;
  exit_opened h k : opened (GetExitCodeProcess h k).2 = opened k;
  terminate_opened h c k : opened (TerminateProcess h c k) = opened k;
  close_opened h k : opened (CloseHandle h k) = opened k ∖ {[h]};
  CreatePipe_opened k : let '(out, k') := CreatePipe k in
    match out with
    | Some (r, w) => {[r; w]} ## opened k ∧ opened k' = {[r; w]} ∪ opened k
    | None => opened k' = opened k
    end;
  CreateProcess_opened cmd i o e k : let '(ret, k') := CreateProcess cmd i o e k in
    match ret with
    | Some i => {[hProcess i; hThread i]} ## opened k ∧
        opened k' = {[hProcess i; hThread i]} ∪ opened k
    | None => opened k' = opened k
    end;
}.

Section HandlesClosed.
Context `{Handles}.

Lemma close_if_open_opened hs k :
  opened (foldl close_if_open k hs) = opened k ∖ list_to_set hs.
Proof.
  revert k. induction hs as [|h hs IH]; intros k; cbn [foldl list_to_set]; [set_solver|].
  rewrite IH. unfold close_if_open, CLOSE_HANDLE. cbn [snd].
  destruct (Z.eqb_spec h INVALID_HANDLE_VALUE) as [->|Hh]; cbn [negb].
  - pose proof (opened_valid INVALID_HANDLE_VALUE k). set_solver.
  - rewrite close_opened. set_solver.
Qed.

(** The destructor closes the handles of the process and of its pipes. *)
Lemma Destroy_opened p i k : m_piProcInfo p = Some i →
  ∃ k', Destroy p k = Ret k' ∧
    opened k' = opened k ∖ list_to_set (hProcess i :: hThread i :: handles p).
Proof.
  intros Hi. destruct (Destroy p k) as [k'| | |] eqn:E.
  2-4: exfalso; revert E; unfold Destroy, Cleanup, IsAlive, with_info; rewrite Hi; cbn;
    unfold CheckIsAlive; by destruct (GetExitCodeProcess _ k).
  exists k'. split; [done|]. apply Destroy_Ret in E as (i' & k1 & k2 & Hi' & -> & Hk & ->).
  rewrite Hi in Hi'. injection Hi' as <-. rewrite close_if_open_opened. f_equal.
  destruct Hk as [->| ->]; rewrite ?terminate_opened; apply exit_opened.
Qed.

Lemma closes_opened (S A : gset Z) (hs : list Z) : A ## S →
  (∀ h, h ∈ A → h ∈ hs) → (∀ h, h ∈ hs → h ∈ A ∨ h ∉ S) → (A ∪ S) ∖ list_to_set hs = S.
Proof. set_solver. Qed.

End HandlesClosed.

(** ** A small system *)

(** What the child has written and the program not read yet, what it has read, what it has
    written, and the handles that are open. *)
Record sample_kernel := mkSampleKernel {
  child_output : text;
  read_so_far : text;
  written_so_far : text;
  open_handles : gset positive;
}.

(** A pipe takes two bytes at a time; the handle 1 can be read until the output is empty. *)
#[local] Instance sample_windows : Windows := {|
  Kernel := sample_kernel;
  STILL_ACTIVE := 259;
  GetExitCodeProcess _ k := (Some 259, k);
  TerminateProcess _ _ k := k;
  SetNamedPipeHandleState _ k := k;
  WriteFile _ data k :=
    (Some (Z.of_nat (length (take 2 data))),
     mkSampleKernel (child_output k) (read_so_far k) (written_so_far k ++ take 2 data) (open_handles k));
  ReadFile h _ k :=
    if negb (h =? 1) || (child_output k =t []) then (None, k)
    else (Some (child_output k),
          mkSampleKernel [] (read_so_far k ++ child_output k) (written_so_far k) (open_handles k));
  CloseHandle h k :=
    match h with
    | Zpos h => mkSampleKernel (child_output k) (read_so_far k) (written_so_far k) (open_handles k ∖ {[h]})
    | _ => k
    end;
  CreatePipe k :=
    let r := fresh (open_handles k) in
    let w := fresh ({[r]} ∪ open_handles k) in
    (Some (Zpos r, Zpos w),
     mkSampleKernel (child_output k) (read_so_far k) (written_so_far k) ({[r; w]} ∪ open_handles k));
  CreateProcess cmd _ _ _ k :=
    if cmd =t [] then (None, k)
    else
      let p := fresh (open_handles k) in
      let t := fresh ({[p]} ∪ open_handles k) in
      (Some (mkProcessInformation (Zpos p) (Zpos t) 77),
       mkSampleKernel (child_output k) (read_so_far k) (written_so_far k) ({[p; t]} ∪ open_handles k));
  sleep_for _ k := k;
|}.

Lemma two_fresh (S : gset positive) :
  let r := fresh S in let w := fresh ({[r]} ∪ S) in
  {[Zpos r; Zpos w]} ## set_map (D := gset Z) Zpos S ∧
  set_map (D := gset Z) Zpos ({[r; w]} ∪ S) = {[Zpos r; Zpos w]} ∪ set_map (D := gset Z) Zpos S.
Proof.
  intros r w. pose proof (is_fresh S) as Hr. pose proof (is_fresh ({[r]} ∪ S)) as Hw.
  fold r in Hr. fold w in Hw. split; [set_solver|]. rewrite set_map_union_L. f_equal.
  by rewrite set_map_union_L, !set_map_singleton_L.
Qed.

#[local] Obligation Tactic := cbn.
#[local] Program Instance sample_handles : Handles := {| opened k := set_map Zpos (open_handles k) |}.
Next Obligation. set_solver. Qed.
Next Obligation. done. Qed.
Next Obligation. done. Qed.
Next Obligation. intros [|h|h] k; cbn; set_solver. Qed.
Next Obligation. intros k. apply two_fresh. Qed.
Next Obligation.
  intros cmd _ _ _ k. destruct (cmd =t []); [done|]. apply two_fresh.
Qed.

#[local] Program Instance sample_pipes : MswPipes := {|
  piped k h := if decide (h = 1) then read_so_far k else [];
  taken k _ := written_so_far k;
|}.
Next Obligation. done. Qed.
Next Obligation. done. Qed.
Next Obligation. done. Qed.
Next Obligation. intros h k h'. by destruct h. Qed.
Next Obligation.
  intros h n k h'. destruct (Z.eqb_spec h 1) as [->|Hh]; cbn.
  - destruct (child_output k =t []); cbn; [|by destruct (decide _)].
    destruct (decide _); by rewrite app_nil_r.
  - destruct (decide (h' = h)); by rewrite app_nil_r.
Qed.
Next Obligation. done. Qed.
Next Obligation. done. Qed.
Next Obligation. done. Qed.
Next Obligation.
  intros h data k. exists (length (take 2 data)). cbn. split; [rewrite length_take; lia|].
  split; [|by left]. by destruct data as [|a [|b [|]]].
Qed.

Definition kernel_start : @Kernel sample_windows := mkSampleKernel "{}" [] [] ∅.

(** The process of the sample: the handles 1 to 8. *)
Definition sample_msw : ProcessMSW :=
  mkProcessMSW 5 6 2 1 4 3 77 (Some (mkProcessInformation 7 8 77)).


(** The answer is [true], and the message without the blank at its end is written. *)
Lemma msw_Write_prefix_witness : ∃ k',
  Write "{} " sample_msw kernel_start = Ret (true, k') ∧ written_so_far k' = lit "{}".
Proof.
  destruct (msw_Write_prefix "{} " sample_msw kernel_start (mkProcessInformation 7 8 77) eq_refl eq_refl)
    as [(ok & k' & n & E & _ & Hall) _].
  assert (ok = true) as -> by (vm_compute in E; congruence). exists k'. split; [exact E|].
  apply (Hall 2%nat); [|vm_compute; lia|reflexivity].
  intros data k m k1 Ew. cbn in Ew. injection Ew as <- <-. rewrite length_take. lia.
Defined.
