(* ===== verification/MainFrame.v ===== *)
(** * MainFrame.cpp: the demo program of dbgcli, a program that uses the client.

    [Frame] is the state of the window: its members, the texts of its controls and what they
    show.  The handlers the constructor binds, and the
    callbacks the program passes, make it an instance of [Handlers]: what they call of the client
    runs under [notices], the handlers of the two events that a request can raise, which call
    nothing.  The file system, the other dialogs and the processes of the desktop are parameters
    ([Desktop]). *)
From S2P Require Import Prelude.
From S2P Require Import Double.
From S2P Require Import CJson.
From S2P Require Import Json.
From S2P Require Import Any.
From S2P Require Import DapData.
From S2P Require Import DapEnvironment.
From S2P Require Import DapMessages.
From S2P Require Import DapRegistry.
From S2P Require Import StringUtils.
From S2P Require Import JsonRPC.
From S2P Require Import Client.
Local Open Scope Z_scope.

Class Desktop := {
  (** [wxFileName]: [GetFullName], [GetFullPath] and [FileExists] of a path *)
  file_FullName : text → text;
  file_FullPath : text → text;
  (** [Normalize] and [GetFullPath] *)
  file_Normalized : text → text;
  FileExists : text → bool;
  file_content : text → text;
  GetCwd : text;
  (** of a text control: the number of the last line of a text, [LinesOnScreen] *)
  last_line : text → Z;
  LinesOnScreen : Z;
  (** the process id of [ExecuteProcess(command)], when it gives a process *)
  process_of : text → option Z;
}.

(** ** The configuration *)

Record Config := mkConfig { debuggee : text; debugger : text }.

Section Config.
Context `{Platform}.

(** [path.Contains(what)] *)
Fixpoint Contains (what path : text) : bool :=
  starts_with what path || match path with [] => false | _ :: path => Contains what path end.

Definition GetDebuggerCommand (path : text) : list text :=
  if Contains "gdb" path then [path; lit "-i=dap"] else [path].

(** The text that [SaveConfig] writes. *)
Definition SaveConfig (config : Config) : exec unit text :=
  let root := CreateObject in
  let root := Add_string "debuggee" (debuggee config) root in
  let root := Add_string "debugger" (debugger config) root in
  ToString true root.

(** [ReadConfig] of the content of the file. *)
Definition ReadConfig (content : text) : exec unit Config :=
  match Parse content with
  | Ret root => Ret (mkConfig (GetString [] root.["debuggee"]) (GetString [] root.["debugger"]))
  | Err e => Ret (mkConfig [] [])
  | Undef => Undef
  | NoFuel => NoFuel
  end.
End Config.

(** ** The window *)

(** What a text control shows: the line of the caret, the first line, the line of the marker. *)
Record view := mkView { caret_line : Z; first_visible_line : Z; marker_line : option Z }.

Record Frame := mkFrame {
  m_stcLog : text;
  m_stcTextSourceFile : text;
  m_stcStack : text;
  m_stcScopes : text;
  m_executableFileName : text;
  m_filePickerDebugger : text;
  m_filePickerSelectDebugFileName : text;
  m_current_source : Source;
  m_frame_id : Z;
  m_attaching : bool;
  log_view : view;
  source_view : view;
  (** the message boxes that were shown, the calls of [Client::Reset] that were posted, the
      command lines of the processes that were started *)
  message_boxes : list text;
  posted_resets : nat;
  started : list text;
}.

#[export] Instance Frame_settable : Settable Frame :=
  rebuild mkFrame <@> m_stcLog <@> m_stcTextSourceFile <@> m_stcStack <@> m_stcScopes
  <@> m_executableFileName <@> m_filePickerDebugger
  <@> m_filePickerSelectDebugFileName <@> m_current_source <@> m_frame_id
  <@> m_attaching <@> log_view <@> source_view <@> message_boxes <@> posted_resets <@> started.

Section MainFrame.
Context `{Platform} `{HashOrder} `{Desktop}.

(** What the lambdas capture: the source and the line, the expression. *)
#[export] Instance demo : Application :=
  {| App := Frame; source_loaded_cb := Source * Z; evaluate_cb := text |}.

Definition window (c : Client) : Frame := app c.

(** The window changes, the client does not. *)
Definition on_frame (f : Frame → Frame) : Client → exec (exception * Client) Client := λ c,
  Ret (c <| app := f (window c) |>).

(** [center_line(ctrl, line, add_marker)] on a control with the text [content]; [wxNOT_FOUND] is
    its last line. *)
Definition center_line (content : text) (line : Z) (add_marker : bool) (v : view) : view :=
  let line := if line =? wxNOT_FOUND then last_line content else line in
  mkView line (Z.max 0 (line - Z.quot LinesOnScreen 2))
    (if add_marker then Some line else marker_line v).

Definition AddLog (log : text) : Client → exec (exception * Client) Client :=
  on_frame (λ f, f <| m_stcLog := m_stcLog f ++ log ++ [LF] |>
                   <| log_view := center_line (m_stcLog f ++ log ++ [LF]) wxNOT_FOUND false (log_view f) |>).

Definition AddLogs (logs : list text) : Client → exec (exception * Client) Client := λ c,
  foldl (λ m log, exec_bind m (AddLog log)) (Ret c) logs.

Definition MessageBox (message : text) : Client → exec (exception * Client) Client :=
  on_frame (λ f, f <| message_boxes := message_boxes f ++ [message] |>).

Definition OnDapLog (event : DAPEvent) := AddLog (event_string event).
Definition Frame_OnConnectionError (event : DAPEvent) := MessageBox "Lost connection to dap server".

Definition notice (event : DAPEvent) : Client → exec (exception * Client) Client :=
  match event_type event with
  | wxEVT_DAP_LOG_EVENT => OnDapLog event
  | wxEVT_DAP_LOST_CONNECTION => Frame_OnConnectionError event
  | _ => λ c, Ret c
  end.

(** What an operation of the client that makes a request can call back. *)
#[local] Instance notices : Handlers := {|
  handle := notice;
  call_source_loaded _ _ _ _ c := Ret c;
  call_evaluate _ _ _ _ _ c := Ret c;
  GetFullName := file_FullName;
|}.

(** [event.GetDapEvent()], [GetDapResponse()], [GetDapRequest()]: the object, when it is one; the
    program uses the pointer without a test. *)
Definition GetDapEvent (event : DAPEvent) : option Message :=
  match m_object event with
  | Some m => match Message_Event m with Some _ => Some m | None => None end
  | None => None
  end.
Definition GetDapResponse (event : DAPEvent) : option Message :=
  match m_object event with
  | Some m => match Message_Response m with Some _ => Some m | None => None end
  | None => None
  end.
Definition GetDapRequest (event : DAPEvent) : option Message :=
  match m_object event with
  | Some m => match Message_Request m with Some _ => Some m | None => None end
  | None => None
  end.

Definition deref_message (m : option Message) (k : Message → Client → exec (exception * Client) Client) :
    Client → exec (exception * Client) Client :=
  match m with Some m => k m | None => λ _, Undef end.

Definition yes_no (b : bool) : text := dec (Z.b2z b).

(** ** The handlers *)

Definition OnLaunchResponse (event : DAPEvent) :=
  deref_message (GetDapResponse event) (λ m,
    match m with
    | msg_LaunchResponse resp =>
        if negb (Response_success resp) then λ c,
          let* c := MessageBox ("Failed to launch debuggee: " ++ Response_message resp) c in
          on_frame (λ f, f <| posted_resets := S (posted_resets f) |>) c
        else λ c, Ret c
    | _ => λ c, Ret c
    end).

(** [exe.Replace("\\", "/")] *)
Definition replace_backslashes (t : text) : text :=
  map (λ c, if c =c BSLASH then "/"%char else c) t.

Definition OnInitializeResponse (event : DAPEvent) : Client → exec (exception * Client) Client :=
  λ c,
  let f := window c in
  if m_attaching f then
    let* c := AddLog "Attaching to dap server" c in
    Attach 0 [] c
  else
    let* c := AddLog ("Launching program: " ++ m_executableFileName f) c in
    let is_gdb := Contains "gdb" (m_filePickerDebugger f) in
    let exe := m_executableFileName f in
    let exe := if is_gdb then replace_backslashes exe else exe in
    Launch [exe] GetCwd Environment_fresh c.

Definition OnInitializedEvent (event : DAPEvent) : Client → exec (exception * Client) Client := λ c,
  let* c := AddLog "Got Initialized event" c in
  let* c := AddLog "Placing breakpoint at main..." c in
  let* c := SetFunctionBreakpoints [mkFunctionBreakpoint "main" []] c in
  ConfigurationDone c.

Definition OnStopped (event : DAPEvent) :=
  deref_message (GetDapEvent event) (λ m,
    match m with
    | msg_StoppedEvent stopped_data => λ c,
        let* c := AddLog ("Stopped reason:" ++ StoppedEvent_reason stopped_data) c in
        let* c := AddLog ("All threads stopped:"
                            ++ yes_no (StoppedEvent_allThreadsStopped stopped_data)) c in
        let* c := AddLog ("Stopped thread ID:" ++ dec (StoppedEvent_threadId stopped_data)
                            ++ "(active thread ID:" ++ dec (GetActiveThreadId c) ++ ")") c in
        GetFrames wxNOT_FOUND 0 0 c
    | _ => λ c, Ret c
    end).

(** The loop over the scopes, with the text it builds. *)
Fixpoint scopes_loop (scopes : list Scope) (scopes_display : text) (c : Client) :
    exec (exception * Client) (text * Client) :=
  match scopes with
  | [] => Ret (scopes_display, c)
  | scope :: scopes =>
      let scopes_display := scopes_display ++ Scope_name scope ++ " id: "
                              ++ dec (Scope_variablesReference scope) ++ ", " in
      let* c := GetChildrenVariables (Scope_variablesReference scope) VARIABLES 10 NATIVE c in
      scopes_loop scopes scopes_display c
  end.

Definition append_scopes (t : text) : Client → exec (exception * Client) Client :=
  on_frame (λ f, f <| m_stcScopes := m_stcScopes f ++ t |>).

Definition OnScopes (event : DAPEvent) : Client → exec (exception * Client) Client := λ c,
  let* c := append_scopes ("-- Requesting variables for scopes --" ++ [LF]) c in
  deref_message (GetDapResponse event) (λ m,
    match m with
    | msg_ScopesResponse resp => λ c,
        let* (scopes_display, c) := scopes_loop (ScopesResponse_scopes resp) "[" c in
        append_scopes (RemoveLast 2 scopes_display ++ "]" ++ [LF]) c
    | _ => λ c, Ret c
    end) c.

Definition variable_text (refId : Z) (var : DapVariable) : text :=
  (if 0 <? DapVariable_variablesReference var then "> " else "  ")
  ++ " [ref: " ++ dec refId ++ "] "
  ++ "(" ++ dec (DapVariable_variablesReference var) ++ ") " ++ DapVariable_name var ++ " = "
  ++ (if DapVariable_value var =t [] then [DQUOTE; DQUOTE] else DapVariable_value var) ++ [LF].

Definition OnVariables (event : DAPEvent) :=
  deref_message (GetDapResponse event) (λ m,
    match m with
    | msg_VariablesResponse resp =>
        append_scopes (concat (map (variable_text (VariablesResponse_refId resp))
                                 (VariablesResponse_variables resp)))
    | _ => λ c, Ret c
    end).

(** The source with the line of the top frame marked; a line so small that [center_line] overflows
    is undefined. *)
Definition show_line (line_number : Z) : Client → exec (exception * Client) Client := λ c,
  if line_number - Z.quot LinesOnScreen 2 <? INT_MIN then Undef
  else on_frame (λ f, f <| source_view :=
         center_line (m_stcTextSourceFile f) line_number true (source_view f) |>) c.

Definition LoadFile (sourceId : Source) (line_number : Z) :
    Client → exec (exception * Client) Client := λ c,
  if Source_eq sourceId (m_current_source (window c)) then show_line line_number c
  else
    let* (ok, c) := LoadSource sourceId (sourceId, line_number) c in
    if negb ok then
      let file_to_load := file_FullPath (Source_path sourceId) in
      let* c := AddLog ("Loading file.." ++ file_to_load) c in
      if FileExists file_to_load then
        let* c := on_frame (λ f, f <| m_current_source := sourceId |>
                    <| m_stcTextSourceFile := file_content (file_FullPath file_to_load) |>) c in
        show_line line_number c
      else Ret c
    else Ret c.

(** The callback that [LoadFile] passes. *)
Definition source_loaded (cb : Source * Z) (success : bool) (content mimeType : text) :
    Client → exec (exception * Client) Client := λ c,
  if negb success then Ret c
  else
    let* c := on_frame (λ f, f <| m_current_source := cb.1 |> <| m_stcTextSourceFile := content |>) c in
    show_line cb.2 c.

Definition stack_text (stack : StackFrame) : text :=
  dec (StackFrame_id stack) ++ "," ++ StackFrame_name stack ++ ","
  ++ Source_path (StackFrame_source stack) ++ "," ++ dec (StackFrame_line stack) ++ [LF].

(** [line - 1] of an [int]. *)
Definition OnStackTrace (event : DAPEvent) :=
  deref_message (GetDapResponse event) (λ m,
    match m with
    | msg_StackTraceResponse stack_trace_data => λ c,
        let* c := on_frame (λ f, f <| m_stcStack := [] |>) c in
        let* c := AddLog "Received stack trace event" c in
        let* c :=
          match StackTraceResponse_stackFrames stack_trace_data with
          | [] => Ret c
          | top :: _ =>
              if StackFrame_line top =? INT_MIN then Undef
              else
                let* c := LoadFile (StackFrame_source top) (StackFrame_line top - 1) c in
                let* c := on_frame (λ f, f <| m_frame_id := StackFrame_id top |>) c in
                GetScopes (StackFrame_id top) c
          end in
        on_frame (λ f, f <| m_stcStack := m_stcStack f ++
          concat (map stack_text (StackTraceResponse_stackFrames stack_trace_data)) |>) c
    | _ => λ c, Ret c
    end).

Definition OnExited (event : DAPEvent) :=
  deref_message (GetDapEvent event) (λ m,
    match m with
    | msg_ExitedEvent e => AddLog ("Debuggee exited. Exit code:" ++ dec (ExitedEvent_exitCode e))
    | _ => λ _, Undef
    end).

Definition OnTerminated (event : DAPEvent) : Client → exec (exception * Client) Client := λ c,
  let* c := AddLog "Session terminated!" c in
  on_frame (λ f, f <| m_current_source := Source_fresh |> <| m_frame_id := wxNOT_FOUND |>) (Reset c).

Definition OnOutput (event : DAPEvent) :=
  deref_message (GetDapEvent event) (λ m,
    match m with
    | msg_OutputEvent e => AddLog (OutputEvent_category e ++ ":" ++ OutputEvent_output e)
    | _ => λ c, Ret c
    end).

Definition OnBreakpointLocations (event : DAPEvent) :=
  deref_message (GetDapResponse event) (λ m,
    match m with
    | msg_BreakpointLocationsResponse d =>
        AddLogs (("==> Breakpoints:" ++ [LF]) ::
          map (λ bp, BreakpointLocationsResponse_filepath d ++ ":" ++ dec (BreakpointLocation_line bp))
            (BreakpointLocationsResponse_breakpoints d))
    | _ => λ c, Ret c
    end).

Definition breakpoint_text (path : text) (bp : Breakpoint) : text :=
  "ID: " ++ dec (Breakpoint_id bp) ++ ". Verified: " ++ yes_no (Breakpoint_verified bp)
  ++ ". File: " ++ (if Source_path (Breakpoint_source bp) =t [] then path
                    else Source_path (Breakpoint_source bp))
  ++ ". Line: " ++ dec (Breakpoint_line bp).

(** [As<SetBreakpointsResponse>()], of which [SetFunctionBreakpointsResponse] is a subclass. *)
Definition As_SetBreakpointsResponse (m : Message) : option SetBreakpointsResponse :=
  match m with
  | msg_SetBreakpointsResponse resp | msg_SetFunctionBreakpointsResponse resp => Some resp
  | _ => None
  end.

Definition OnBreakpointSet (event : DAPEvent) :=
  deref_message (GetDapResponse event) (λ m,
    match m_originatingRequest event with
    | Some (msg_SetFunctionBreakpointsRequest request) =>
        AddLogs (map (λ bp, "Got reply for SetFunctionBreakpoints command for function: "
                              ++ FunctionBreakpoint_name bp)
          (SetFunctionBreakpointsArguments_breakpoints
             (SetFunctionBreakpointsRequest_arguments request)))
    | Some (msg_SetBreakpointsRequest request) => λ c,
        let path := Source_path (SetBreakpointsArguments_source
                                   (SetBreakpointsRequest_arguments request)) in
        let* c := AddLog ("Got reply for setBreakpoint command for file: " ++ path) c in
        match As_SetBreakpointsResponse m with
        | Some resp => AddLogs (map (breakpoint_text path) (SetBreakpointsResponse_breakpoints resp)) c
        | None => Undef
        end
    | _ => λ c, Ret c
    end).

Definition OnDapModuleEvent (event : DAPEvent) : Client → exec (exception * Client) Client := λ c,
  let* c := AddLog "Got MODULE event!" c in
  deref_message (GetDapEvent event) (λ m,
    match m with
    | msg_ModuleEvent e =>
        let d := ModuleEvent_module e in
        AddLog (DapModule_id d ++ ": " ++ DapModule_name d ++ " " ++ DapModule_symbolStatus d
                  ++ DapModule_version d ++ " " ++ DapModule_path d)
    | _ => λ c, Ret c
    end) c.

(** The arguments are joined by blanks, as they are. *)
Definition OnRunInTerminalRequest (event : DAPEvent) : Client → exec (exception * Client) Client :=
  λ c,
  let* c := AddLog "Handling `OnRunInTerminalRequest` event" c in
  deref_message (GetDapRequest event) (λ m,
    match m with
    | msg_RunInTerminalRequest request => λ c,
        let command := concat (map (λ cmd, cmd ++ " ")
          (RunInTerminalRequestArguments_args (RunInTerminalRequest_arguments request))) in
        let* c := AddLog ("Starting process: " ++ command) c in
        let* c := on_frame (λ f, f <| started := started f ++ [command] |>) c in
        let c := new class_RunInTerminalResponse c in
        let '(seq, c) := GetNextSequence c in
        let response := mkRunInTerminalResponse
          (mkResponse (mkProtocolMessage (to_int32 seq) "response")
             (ProtocolMessage_seq (Request_ProtocolMessage (RunInTerminalRequest_Request request)))
             (if process_of command is Some _ then true else false) "runInTerminal" [])
          (default 0 (process_of command)) in
        let* (_, c) := SendResponse (msg_RunInTerminalResponse response) c in
        Ret c
    | _ => λ c, Ret c
    end) c.

(** The expression and the answer. *)
Definition evaluated (text_ : text) (success : bool) (result type : text) (variablesReference : Z) :=
  if negb success then
    AddLog ("ERROR: failed to evaluate expression: `" ++ text_ ++ "`")
  else
    AddLog (text_ ++ " = " ++ result ++ " [" ++ type ++ "]. variablesReference: "
              ++ dec variablesReference).

(** ** The commands of the window

    A dialog is the text it returns, a transport the number of the new object. *)

Definition InitializeClient (transport : nat) : Client → exec (exception * Client) Client := λ c,
  let c := Reset c in
  let command := GetDebuggerCommand (m_filePickerDebugger (window c)) in
  let* c := on_frame (λ f, f <| started := started f ++ [command_string command] |>) c in
  let c := SetTransport (Some transport) c in
  let a := InitializeRequestArguments_fresh in
  let args := mkInitializeRequestArguments (InitializeRequestArguments_clientID a)
    (InitializeRequestArguments_clientName a) (InitializeRequestArguments_adapterID a)
    (InitializeRequestArguments_locale a) true (InitializeRequestArguments_columnsStartAt1 a)
    (InitializeRequestArguments_supportsInvalidatedEvent a)
    (InitializeRequestArguments_pathFormat a) in
  let* c := on_frame (λ f, f <| m_frame_id := wxNOT_FOUND |> <| m_current_source := Source_fresh |>) c in
  Client_Initialize (Some args) c.

Definition Frame_OnAttach (transport : nat) : Client → exec (exception * Client) Client := λ c,
  let* c := on_frame (λ f, f <| m_attaching := true |>) c in InitializeClient transport c.
Definition Frame_OnConnect (transport : nat) : Client → exec (exception * Client) Client := λ c,
  let* c := on_frame (λ f, f <| m_attaching := false |>) c in InitializeClient transport c.

Definition Frame_OnNext : Client → exec (exception * Client) Client := Next wxNOT_FOUND true LINE.
Definition Frame_OnStepIn : Client → exec (exception * Client) Client := StepIn wxNOT_FOUND true.
Definition Frame_OnStepOut : Client → exec (exception * Client) Client := StepOut wxNOT_FOUND true.
Definition Frame_OnContinue : Client → exec (exception * Client) Client := Continue wxNOT_FOUND true.
Definition Frame_OnPause : Client → exec (exception * Client) Client := Pause wxNOT_FOUND.

(** When the buttons are enabled. *)
Definition CanInteract (c : Client) : bool := m_can_interact c.
Definition OnNextUI (c : Client) : bool := IsConnected c && CanInteract c.
Definition OnStepInUI (c : Client) : bool := IsConnected c && CanInteract c.
Definition OnStepOutUI (c : Client) : bool := IsConnected c && CanInteract c.
Definition OnPauseUI (c : Client) : bool := IsConnected c && negb (CanInteract c).
Definition OnContinueUI (c : Client) : bool := IsConnected c && CanInteract c.
Definition OnSetBreakpointUI (c : Client) : bool := IsConnected c && CanInteract c.
Definition OnEvalUI (c : Client) : bool := IsConnected c && CanInteract c.
Definition OnConnectUI (c : Client) : bool := negb (IsConnected c).
Definition OnAttachUI (c : Client) : bool := negb (IsConnected c).

(** [location.BeforeLast(':')], [location.AfterLast(':')] of a text with a colon. *)
Definition BeforeLast (c : ascii) (t : text) : text :=
  reverse (AfterFirst (reverse t) c).
Definition AfterLast (c : ascii) (t : text) : text :=
  reverse (BeforeFirst (reverse t) c).

(** The number of [ToCLong], which leaves [wxNOT_FOUND] in [line] when it fails, is a parameter. *)
Definition OnSetBreakpoint (to_clong : text → option Z) (location : text) :
    Client → exec (exception * Client) Client := λ c,
  if location =t [] then Ret c
  else if Contains ":" location then
    let file := wx_Trim (BeforeLast ":" location) in
    let line := default wxNOT_FOUND (to_clong (AfterLast ":" location)) in
    SetBreakpointsFile file [mkSourceBreakpoint (to_int32 line) []] c
  else SetFunctionBreakpoints [mkFunctionBreakpoint location []] c.

Definition OnEval (text_ : text) : Client → exec (exception * Client) Client := λ c,
  if text_ =t [] then Ret c
  else EvaluateExpression text_ (m_frame_id (window c)) HOVER text_ NATIVE c.

Definition OnClear : Client → exec (exception * Client) Client :=
  on_frame (λ f, f <| m_stcLog := [] |> <| m_stcTextSourceFile := [] |> <| m_stcStack := [] |>
                   <| m_stcScopes := [] |>).

(** The handlers that the constructor binds. *)
Definition Frame_handle (event : DAPEvent) : Client → exec (exception * Client) Client :=
  match event_type event with
  | wxEVT_DAP_STOPPED_EVENT => OnStopped event
  | wxEVT_DAP_INITIALIZED_EVENT => OnInitializedEvent event
  | wxEVT_DAP_INITIALIZE_RESPONSE => OnInitializeResponse event
  | wxEVT_DAP_EXITED_EVENT => OnExited event
  | wxEVT_DAP_TERMINATED_EVENT => OnTerminated event
  | wxEVT_DAP_STACKTRACE_RESPONSE => OnStackTrace event
  | wxEVT_DAP_SCOPES_RESPONSE => OnScopes event
  | wxEVT_DAP_VARIABLES_RESPONSE => OnVariables event
  | wxEVT_DAP_OUTPUT_EVENT => OnOutput event
  | wxEVT_DAP_BREAKPOINT_LOCATIONS_RESPONSE => OnBreakpointLocations event
  | wxEVT_DAP_SET_SOURCE_BREAKPOINT_RESPONSE => OnBreakpointSet event
  | wxEVT_DAP_SET_FUNCTION_BREAKPOINT_RESPONSE => OnBreakpointSet event
  | wxEVT_DAP_LAUNCH_RESPONSE => OnLaunchResponse event
  | wxEVT_DAP_RUN_IN_TERMINAL_REQUEST => OnRunInTerminalRequest event
  | wxEVT_DAP_MODULE_EVENT => OnDapModuleEvent event
  | _ => notice event
  end.

(** ** The window opens and closes

    [disk] is the content of the configuration file.  The constructor: the paths of the
    configuration are shown, a path on the command line replaces the debuggee and is saved. *)
Definition show_empty : view := mkView 0 0 None.

Definition MainFrame_new (executableFileName : text) (disk : text) : exec unit (Frame * text) :=
  let* config := ReadConfig disk in
  let frame exe picker := mkFrame [] [] [] [] exe (debugger config) picker Source_fresh wxNOT_FOUND
                            false show_empty show_empty [] 0 [] in
  if negb (executableFileName =t []) then
    let* disk := SaveConfig (mkConfig executableFileName (debugger config)) in
    Ret (frame executableFileName executableFileName, disk)
  else Ret (frame (debuggee config) (debuggee config), disk).

(** The user chooses other paths; [OnDebugFileNameChanged] does nothing. *)
Definition pick_debuggee (path : text) (f : Frame) : Frame :=
  f <| m_filePickerSelectDebugFileName := path |>.
Definition pick_debugger (path : text) (f : Frame) : Frame := f <| m_filePickerDebugger := path |>.

(** The destructor: what is on the disk after it. *)
Definition MainFrame_delete (f : Frame) : exec unit text :=
  SaveConfig (mkConfig (m_filePickerSelectDebugFileName f) (m_filePickerDebugger f)).

(** ConsoleApp.cpp: the result of the parser and its parameters; the path of the program, when the
    only parameter is the path of a file.  [OnInit] opens the window, or ends the program. *)
Definition DoParseCommandLine (parsed : Z) (params : list text) (m_ExecutableFileName : text) :
    bool * text :=
  if negb (parsed =? 0) then (false, m_ExecutableFileName)
  else
    match params with
    | [strParam] =>
        let paramFullPath := file_Normalized strParam in
        (true, if FileExists paramFullPath then paramFullPath else m_ExecutableFileName)
    | _ => (true, m_ExecutableFileName)
    end.

Definition OnInit (parsed : Z) (params : list text) (disk : text) : exec unit (option (Frame * text)) :=
  let '(ok, m_ExecutableFileName) := DoParseCommandLine parsed params [] in
  if negb ok then Ret None else exec_map Some (MainFrame_new m_ExecutableFileName disk).

Definition demo_handlers : Handlers := {|
  handle := Frame_handle;
  call_source_loaded := source_loaded;
  call_evaluate := evaluated;
  GetFullName := file_FullName;
|}.
End MainFrame.
