(* ===== verification/MainFrameSpec.v ===== *)
(** * The demo program: its configuration, and the contract of the client's handlers. *)
From S2P Require Import Prelude.
From S2P Require Import Double.
From S2P Require Import CJson.
From S2P Require Import CJsonRoundTrip.
From S2P Require Import CJsonTree.
From S2P Require Import Json.
From S2P Require Import Any.
From S2P Require Import DapData.
From S2P Require Import DapEnvironment.
From S2P Require Import DapMessages.
From S2P Require Import DapRegistry.
From S2P Require Import DapKinds.
From S2P Require Import DapProtocol.
From S2P Require Import StringUtils.
From S2P Require Import JsonRPC.
From S2P Require Import Client.
From S2P Require Import ClientRequests.
From S2P Require Import ClientInvariant.
From S2P Require Import MainFrame.
Local Open Scope Z_scope.

(** ** The configuration *)
Section Config.
Context `{Platform}.

Definition clean_config (config : Config) : bool :=
  no_nul (debuggee config) && no_nul (debugger config).

(** The object that is written. *)
Definition Config_To (config : Config) : Json :=
  Add_string "debugger" (debugger config) (Add_string "debuggee" (debuggee config) CreateObject).

Lemma Config_To_value config : clean_config config = true → is_value (Config_To config).
Proof. unfold clean_config, Config_To. solve_value. Qed.

Lemma Config_To_read config : clean_config config = true →
  mkConfig (GetString [] (Config_To config).["debuggee"])
    (GetString [] (Config_To config).["debugger"]) = config.
Proof. destruct config. unfold clean_config, Config_To. solve_round_trip. Qed.

(** What [SaveConfig] writes, [ReadConfig] reads back: the paths of the debuggee and of the
    debugger, whatever characters they are made of. *)
Theorem config_round_trip config : clean_config config = true →
  ∃ content, SaveConfig config = Ret content ∧ ReadConfig content = Ret config.
Proof.
  intros Hc. destruct (Config_To_value config Hc) as [v Hv].
  destruct (Parse_ToString true _ v Hv) as (s & Hs & _ & j & Hj & Hjv).
  exists s. split; [exact Hs|]. unfold ReadConfig. rewrite Hj.
  transitivity (Ret (mkConfig (GetString [] (Config_To config).["debuggee"])
    (GetString [] (Config_To config).["debugger"])) : exec unit Config);
    [|by rewrite Config_To_read].
  pose proof (jdenotes_jsim _ _ _ Hjv Hv) as Hsim.
  by rewrite !(GetString_sim _ _ _ (member_sim _ _ _ Hsim)).
Qed.

(** The window closes and opens again: the paths that were chosen are shown, and the debuggee that
    was chosen is the program to launch, which it is not before ([m_executableFileName]). *)
Lemma settings_survive (f : Frame) :
  clean_config (mkConfig (m_filePickerSelectDebugFileName f) (m_filePickerDebugger f)) = true →
  ∃ disk f', MainFrame_delete f = Ret disk ∧ MainFrame_new [] disk = Ret (f', disk) ∧
    m_filePickerSelectDebugFileName f' = m_filePickerSelectDebugFileName f ∧
    m_filePickerDebugger f' = m_filePickerDebugger f ∧
    m_executableFileName f' = m_filePickerSelectDebugFileName f.
Proof.
  intros (disk & Hd & Hr)%config_round_trip. exists disk. unfold MainFrame_new. rewrite Hr. cbn.
  eexists. by split_and!.
Qed.

(** A program on the command line is launched, shown, and saved. *)
Lemma command_line_saved exe disk config : exe ≠ [] → ReadConfig disk = Ret config →
  clean_config (mkConfig exe (debugger config)) = true →
  ∃ f disk', MainFrame_new exe disk = Ret (f, disk') ∧ m_executableFileName f = exe ∧
    ReadConfig disk' = Ret (mkConfig exe (debugger config)).
Proof.
  intros He Hc (disk' & Hd & Hr)%config_round_trip. unfold MainFrame_new. rewrite Hc. cbn [exec_bind].
  destruct (teq_spec exe []) as [|_]; [done|]. cbn [negb]. rewrite Hd. cbn. eexists _, disk'.
  by split_and!.
Qed.
End Config.

(** ** The handlers keep the contract of the client *)
Section MainFrameSpec.
Context `{Platform} `{HashOrder} `{Desktop}.

Section Keep.
#[local] Existing Instance notices.

Lemma on_frame_keep f : preserves client_ok (on_frame f).
Proof.
  intros c Hc. apply ensures_Ret, (client_ok_ext c); [done|reflexivity..|exact (ok_generator c Hc)].
Qed.

Lemma notices_keep : handlers_keep client_ok.
Proof.
  split; intros; try (intros c Hc; by apply ensures_Ret).
  simpl. unfold notice. case_match; try (intros c Hc; by apply ensures_Ret); apply on_frame_keep.
Qed.

(** The handlers of the notices change the window only. *)
Lemma notices_log_only : handlers_log_only.
Proof. intros e c He. simpl. unfold notice. rewrite He. by eexists. Qed.

Lemma keep_call call : preserves client_ok (perform call).
Proof. apply perform_keep. exact notices_keep. Qed.

Lemma deref_keep m k : (∀ m, preserves client_ok (k m)) → preserves client_ok (deref_message m k).
Proof. intros Hk. destruct m; [apply Hk|]. intros c Hc. apply ensures_Undef. Qed.

Lemma AddLogs_keep logs : preserves client_ok (AddLogs logs).
Proof.
  intros c Hc. unfold AddLogs. assert (ensures client_ok (Ret c)) as Hr by by apply ensures_Ret.
  revert Hr. generalize (Ret c : exec (exception * Client) Client). clear c Hc.
  induction logs as [|l logs IH]; intros m Hm; [done|]. apply IH, ensures_bind; [done|].
  intros c Hc. by apply on_frame_keep.
Qed.

(** A message is made and numbered. *)
Lemma client_ok_numbered k c : client_ok c → client_ok (GetNextSequence (new k c)).2.
Proof.
  intros Hc. apply (client_ok_ext c); [done|reflexivity..|]. apply kinded_new, (ok_generator c Hc).
Qed.

Lemma show_line_keep line : preserves client_ok (show_line line).
Proof.
  intros c Hc. unfold show_line. case_match; [apply ensures_Undef|by apply on_frame_keep].
Qed.

Lemma LoadFile_keep source line : preserves client_ok (LoadFile source line).
Proof.
  intros c Hc. unfold LoadFile. destruct (Source_eq _ _); [by apply show_line_keep|].
  pose proof (keep_call (call_LoadSource source (source, line)) c Hc) as Hl. simpl in Hl.
  destruct (LoadSource _ _ _) as [[ok c1]|[e c1]| |].
  - assert (client_ok c1) as Hc1 by (apply Hl; by left). cbn [exec_bind].
    destruct (negb ok); [|by apply ensures_Ret].
    apply ensures_bind; [by apply on_frame_keep|]. intros c2 Hc2.
    case_match; [|by apply ensures_Ret].
    apply ensures_bind; [by apply on_frame_keep|apply show_line_keep].
  - intros c' Hc'. apply Hl. destruct Hc' as [[=]|[e' [= <- <-]]]. right. by exists e.
  - apply ensures_Undef.
  - apply ensures_NoFuel.
Qed.

Lemma scopes_loop_keep scopes display c (k : text * Client → exec (exception * Client) Client) :
  client_ok c → (∀ t c, client_ok c → ensures client_ok (k (t, c))) →
  ensures client_ok (exec_bind (scopes_loop scopes display c) k).
Proof.
  intros Hc Hk. revert display c Hc.
  induction scopes as [|s scopes IH]; intros display c Hc; [by apply Hk|]. cbn [scopes_loop].
  rewrite exec_bind_assoc. apply ensures_bind; [|intros c' Hc'; by apply IH].
  by apply (keep_call (call_GetChildrenVariables (Scope_variablesReference s) VARIABLES 10 NATIVE)).
Qed.

(** The actions a handler is composed of. *)
Ltac keep_action :=
  first [ by apply on_frame_keep | by apply AddLogs_keep | by apply LoadFile_keep
        | by match goal with
          | |- ensures _ (Attach ?p ?a ?c) => apply (keep_call (call_Attach p a))
          | |- ensures _ (Launch ?p ?a ?e ?c) => apply (keep_call (call_Launch p a e))
          | |- ensures _ (SetFunctionBreakpoints ?l ?c) =>
              apply (keep_call (call_SetFunctionBreakpoints l))
          | |- ensures _ (ConfigurationDone ?c) => apply (keep_call call_ConfigurationDone)
          | |- ensures _ (GetFrames ?t ?s ?n ?c) => apply (keep_call (call_GetFrames t s n))
          | |- ensures _ (GetScopes ?i ?c) => apply (keep_call (call_GetScopes i))
          end ].

Ltac keep_handler :=
  cbv beta iota zeta;
  lazymatch goal with
  | |- preserves _ (deref_message _ _) => apply deref_keep; intros ?; keep_handler
  | |- preserves _ _ => let c := fresh "c" in let Hc := fresh "Hc" in intros c Hc; keep_handler
  | |- ensures _ (deref_message ?m ?k ?c) =>
      apply (deref_keep m k); [intros ?; keep_handler|assumption]
  | |- ensures _ (Ret _) => apply ensures_Ret; assumption
  | |- ensures _ Undef => apply ensures_Undef
  | |- ensures _ (exec_bind (scopes_loop _ _ _) _) =>
      apply scopes_loop_keep; [assumption|intros ???; keep_handler]
  | |- ensures _ (let (_, _) := GetNextSequence _ in _) =>
      apply (SendResponse_keep notices_keep), client_ok_numbered; assumption
  | |- ensures _ (exec_bind _ _) => apply ensures_bind; [|intros ??]; keep_handler
  | |- ensures _ (match ?x with _ => _ end) => destruct x; keep_handler
  | |- ensures _ (match ?x with _ => _ end ?c) => destruct x; keep_handler
  | |- _ => keep_action
  end.

Lemma OnTerminated_keep e : preserves client_ok (OnTerminated e).
Proof.
  intros c Hc. apply ensures_bind; [by apply on_frame_keep|]. intros c' Hc'.
  apply on_frame_keep, client_ok_Reset, (ok_generator c' Hc').
Qed.

Lemma notice_keep e : preserves client_ok (notice e).
Proof. exact (handle_keep _ notices_keep e). Qed.

Lemma Frame_handle_keep e : preserves client_ok (Frame_handle e).
Proof.
  unfold Frame_handle.
  destruct (event_type e); first
    [ apply notice_keep | apply OnTerminated_keep
    | unfold OnStopped, OnInitializedEvent, OnInitializeResponse, OnExited, OnStackTrace, OnScopes,
        OnVariables, OnOutput, OnBreakpointLocations, OnBreakpointSet, OnLaunchResponse,
        OnRunInTerminalRequest, OnDapModuleEvent; keep_handler ].
Qed.

Lemma demo_keep : handlers_keep (H2 := demo_handlers) client_ok.
Proof.
  split; [exact Frame_handle_keep| |].
  - intros cb s r t v. cbn. unfold evaluated. destruct (negb s); apply on_frame_keep.
  - intros cb s t m. cbn. unfold source_loaded. destruct (negb s);
      intros c Hc; [by apply ensures_Ret|].
    apply ensures_bind; [by apply on_frame_keep|apply show_line_keep].
Qed.
End Keep.

End MainFrameSpec.

Section Samples.
#[local] Existing Instance sample_platform.
#[local] Existing Instance sample_hash.

#[local] Instance sample_desktop : Desktop := {|
  file_FullName p := p;
  file_FullPath p := p;
  file_Normalized p := p;
  FileExists p := p =t "/src/main.c";
  file_content _ := "int main() {}" ++ [LF];
  GetCwd := "/";
  last_line t := Z.of_nat (length (filter (λ c, (c =c LF) = true) t));
  LinesOnScreen := 20;
  process_of _ := Some 42;
|}.

Definition sample_config : Config := mkConfig "C:\demo.exe" "/usr/bin/gdb".

Lemma config_round_trip_witness :
  ∃ content, SaveConfig sample_config = Ret content ∧ ReadConfig content = Ret sample_config.
Proof. refine (config_round_trip sample_config _). reflexivity. Defined.

Definition sample_window : Frame := mkFrame [] [] [] [] "/bin/demo" "/usr/bin/gdb"
  "/bin/demo" Source_fresh wxNOT_FOUND false show_empty show_empty [] 0 [].

(** The demo program after its client was given the transport 7. *)
Definition demo_new : Client := Client_new ObjGenerator_empty [] sample_window.
Definition demo_connected : Client := SetTransport (Some 7%nat) demo_new.

End Samples.
