(* ===== verification/StopFlow.v ===== *)
(** * What a stop of the debuggee sets off in the demo program. *)
From S2P Require Import Prelude.
From S2P Require Import Double.
From S2P Require Import CJson.
From S2P Require Import CJsonRoundTrip.
From S2P Require Import CJsonTree.
From S2P Require Import Json.
From S2P Require Import Any.
From S2P Require Import DapData.
From S2P Require Import DapEnvironment.
From S2P Require Import DapMessages.
From S2P Require Import DapRegistry.
From S2P Require Import DapKinds.
From S2P Require Import DapProtocol.
From S2P Require Import StringUtils.
From S2P Require Import JsonRPC.
From S2P Require Import Client.
From S2P Require Import ClientRequests.
From S2P Require Import ClientInvariant.
From S2P Require Import ClientStream.
From S2P Require Import MainFrame.
From S2P Require Import MainFrameSpec.
Local Open Scope Z_scope.

Section StopFlow.
Context `{Platform} `{HashOrder} `{Desktop}.

(** ** What changes

    The window as it was but for the log. *)
Definition logged (f f' : Frame) : Prop :=
  ∃ log v, f' = f <| m_stcLog := log |> <| log_view := v |>.

#[export] Instance logged_preorder : PreOrder logged.
Proof.
  split.
  - intros f. exists (m_stcLog f), (log_view f). by destruct f.
  - intros f f' f'' (l & v & ->) (l' & v' & ->). by exists l', v'.
Qed.

(** The questions of the client that wait for their answers. *)
Definition queues (c : Client) : list Z * list Z * list (Z * EvaluateContext) :=
  (m_get_frames_queue c, m_get_scopes_queue c, m_get_variables_queue c).

(** The payloads [ps] were sent over the transport [t], and the questions are now [qs]; the
    connection, the handshake and the state of the debuggee are as before. *)
Record asked (t : nat) (ps : list text) (qs : list Z * list Z * list (Z * EvaluateContext))
    (c c' : Client) : Prop := {
  asked_transport : m_transport c' = m_transport c;
  asked_handshake : m_handshake_state c' = m_handshake_state c;
  asked_interact : m_can_interact c' = m_can_interact c;
  asked_thread : m_active_thread_id c' = m_active_thread_id c;
  asked_loaded : loaded (generator c) → loaded (generator c');
  asked_sent : sent c' = sent c ++ map (λ p, (t, frame p)) ps;
  asked_queues : queues c' = qs;
}.

Lemma asked_nothing t c : asked t [] (queues c) c c.
Proof. split; try done. by rewrite app_nil_r. Qed.

Lemma asked_trans t ps1 ps2 q1 q2 c1 c2 c3 :
  asked t ps1 q1 c1 c2 → asked t ps2 q2 c2 c3 → asked t (ps1 ++ ps2) q2 c1 c3.
Proof.
  intros [] []. split; try congruence; [by auto|]. rewrite map_app, app_assoc. congruence.
Qed.

(** A client that is connected, after the handshake. *)
Record live (t : nat) (c : Client) : Prop := {
  live_transport : m_transport c = Some t;
  live_handshake : m_handshake_state c = kCompleted;
  live_loaded : loaded (generator c);
}.

Lemma asked_live t ps qs c c' : asked t ps qs c c' → live t c → live t c'.
Proof. intros [] []. split; [congruence..|auto]. Qed.

(** ** What the handlers ask for

    The requests that a stop of the debuggee sets off: the frames of the thread, the scopes of the
    top frame, the variables of every scope. *)
Section Asks.
#[local] Existing Instance notices.

(** Over a transport, [SendRequest] sends and remembers; a log event is one more line of the log. *)
Lemma SendRequest_asks m t c : m_transport c = Some t → is_value (Message_To m) →
  ∃ s c', ToString false (Message_To m) = Ret s ∧ SendRequest_ m c = Ret c' ∧
    asked t [s] (queues c) c c' ∧ logged (window c) (window c').
Proof.
  intros Ht Hm. destruct (is_value_text _ Hm) as [s Hs].
  unfold SendRequest_, SendRequest, send_or_reset, JsonRPC_Send, log_event, json_text.
  rewrite Ht, Hs. cbn [exec_bind].
  change (m_wants_log_events (c <| sent := sent c ++ [(t, frame s)] |>)) with (m_wants_log_events c).
  destruct (m_wants_log_events c); cbn [exec_bind]; eexists s, _; (split; [done|]);
    (split; [reflexivity|]); (split; [by split|]); [by do 2 eexists|].
  change (logged (window c) (window c)). reflexivity.
Qed.

Definition stackTrace_request (seq threadId : Z) : Message :=
  msg_StackTraceRequest (mkStackTraceRequest
    (mkRequest (mkProtocolMessage seq "request") "stackTrace") (mkStackTraceArguments threadId 0 0)).

Definition variables_request (seq ref : Z) : Message :=
  msg_VariablesRequest (mkVariablesRequest (mkRequest (mkProtocolMessage seq "request") "variables")
    (mkVariablesArguments ref (mkValueFormat false) 10)).

(** The payload is the request that [request] makes, with some number. *)
Definition is_request (request : Z → Message) (payload : text) : Prop :=
  ∃ seq, ToString false (Message_To (request seq)) = Ret payload.

Lemma stackTrace_request_value seq i : is_int seq = true → is_int i = true →
  is_value (Message_To (stackTrace_request seq i)).
Proof. intros Hs Hi. apply Message_To_value. repeat (apply andb_true_iff; split; try done). Qed.

Lemma variables_request_value seq ref : is_int seq = true → is_int ref = true →
  is_value (Message_To (variables_request seq ref)).
Proof. intros Hs Hr. apply Message_To_value. repeat (apply andb_true_iff; split; try done). Qed.

(** A call that builds one request and remembers one question. *)
Ltac one_request t c value :=
  unfold MakeRequest, GetNextSequence; cbv beta iota zeta;
  let s := fresh "s" in let c' := fresh "c'" in let Hs := fresh "Hs" in let Hl := fresh "Hl" in
  let Hg := fresh "Hg" in
  match goal with |- context [SendRequest_ ?m ?c1] =>
    destruct (SendRequest_asks m t c1) as (s & c' & Hs & -> & [? ? ? ? Hg ? ?] & Hl);
      [done|by apply value; [apply to_int32_is_int|]|]
  end;
  exists s, c'; split; [reflexivity|]; split; [by eexists|]; split; [|exact Hl];
  split; [done|done|done|done|by intros; apply Hg, loaded_construct|done|done].

Lemma GetFrames_asks t c : m_transport c = Some t → is_int (m_active_thread_id c) = true →
  ∃ p c', GetFrames wxNOT_FOUND 0 0 c = Ret c' ∧
    is_request (λ seq, stackTrace_request seq (m_active_thread_id c)) p ∧
    asked t [p] (m_get_frames_queue c ++ [m_active_thread_id c], m_get_scopes_queue c,
                 m_get_variables_queue c) c c' ∧ logged (window c) (window c').
Proof. intros Ht Hi. unfold GetFrames. one_request t c stackTrace_request_value. Qed.

Lemma GetScopes_asks frameId t c : m_transport c = Some t → is_int frameId = true →
  ∃ p c', GetScopes frameId c = Ret c' ∧ is_request (λ seq, scopes_request seq frameId) p ∧
    asked t [p] (m_get_frames_queue c, m_get_scopes_queue c ++ [frameId], m_get_variables_queue c)
      c c' ∧ logged (window c) (window c').
Proof. intros Ht Hi. unfold GetScopes. one_request t c scopes_request_value. Qed.

Lemma GetChildrenVariables_asks ref t c : m_transport c = Some t → is_int ref = true →
  ∃ p c', GetChildrenVariables ref VARIABLES 10 NATIVE c = Ret c' ∧
    is_request (λ seq, variables_request seq ref) p ∧
    asked t [p] (m_get_frames_queue c, m_get_scopes_queue c,
                 m_get_variables_queue c ++ [(ref, VARIABLES)]) c c' ∧ logged (window c) (window c').
Proof. intros Ht Hr. unfold GetChildrenVariables. one_request t c variables_request_value. Qed.

(** The payloads ask for the variables of the scopes. *)
Definition asks_for (scope : Scope) : text → Prop :=
  is_request (λ seq, variables_request seq (Scope_variablesReference scope)).

Definition scope_questions (scopes : list Scope) : list (Z * EvaluateContext) :=
  map (λ s, (Scope_variablesReference s, VARIABLES)) scopes.

Definition scopes_text (scopes : list Scope) : text :=
  concat (map (λ s, Scope_name s ++ " id: " ++ dec (Scope_variablesReference s) ++ ", ") scopes).

Lemma scopes_loop_asks scopes display t c :
  m_transport c = Some t → forallb valid_Scope scopes = true →
  ∃ ps c', scopes_loop scopes display c = Ret (display ++ scopes_text scopes, c') ∧
    Forall2 asks_for scopes ps ∧
    asked t ps (m_get_frames_queue c, m_get_scopes_queue c,
                m_get_variables_queue c ++ scope_questions scopes) c c' ∧
    logged (window c) (window c').
Proof.
  revert display c. induction scopes as [|s scopes IH]; intros display c Ht Hv.
  - exists [], c. cbn. rewrite !app_nil_r. split; [done|]. split; [done|].
    split; [apply asked_nothing|reflexivity].
  - cbn in Hv. apply andb_true_iff in Hv as [Hs Hv].
    destruct (GetChildrenVariables_asks (Scope_variablesReference s) t c Ht) as (p & c1 & E1 & Hp & A1 & L1).
    { unfold valid_Scope in Hs. by valid_inv. }
    destruct (IH (display ++ Scope_name s ++ " id: " ++ dec (Scope_variablesReference s) ++ ", ") c1)
      as (ps & c2 & E2 & Hps & A2 & L2); [by rewrite (asked_transport _ _ _ _ _ A1)|done|].
    pose proof (asked_queues _ _ _ _ _ A1) as [= Hf Hsc Hva]. rewrite Hf, Hsc, Hva, <- app_assoc in A2.
    exists (p :: ps), c2. cbn [scopes_loop]. rewrite E1. cbn [exec_bind]. rewrite E2. split.
    { unfold scopes_text. cbn [map concat]. by rewrite <- !app_assoc. }
    split; [by constructor|]. split; [exact (asked_trans _ [p] ps _ _ _ _ _ A1 A2)|by etrans].
Qed.

(** The window of the answer to [scopes]. *)
Definition scopes_shown (scopes : list Scope) : text :=
  "-- Requesting variables for scopes --" ++ [LF] ++
  RemoveLast 2 ("[" ++ scopes_text scopes) ++ "]" ++ [LF].

(** The answer to [scopes]: one question for every scope, in their order. *)
Lemma OnScopes_asks event resp t c :
  m_object event = Some (msg_ScopesResponse resp) → m_transport c = Some t →
  forallb valid_Scope (ScopesResponse_scopes resp) = true →
  ∃ ps c', OnScopes event c = Ret c' ∧ Forall2 asks_for (ScopesResponse_scopes resp) ps ∧
    asked t ps (m_get_frames_queue c, m_get_scopes_queue c,
                m_get_variables_queue c ++ scope_questions (ScopesResponse_scopes resp)) c c' ∧
    logged ((window c) <| m_stcScopes := m_stcScopes (window c)
                            ++ scopes_shown (ScopesResponse_scopes resp) |>) (window c').
Proof.
  intros Ho Ht Hv. unfold OnScopes, GetDapResponse. rewrite Ho.
  set (f := (window c) <| m_stcScopes := m_stcScopes (window c)
                          ++ "-- Requesting variables for scopes --" ++ [LF] |>).
  set (c1 := c <| app := (f : @App demo) |>).
  destruct (scopes_loop_asks (ScopesResponse_scopes resp) "[" t c1) as (ps & c2 & E & Hps & [] & l & v & Hw);
    [done..|].
  change (append_scopes ("-- Requesting variables for scopes --" ++ [LF]) c) with
    (Ret c1 : exec (exception * Client) Client).
  cbn [exec_bind deref_message Message_Response]. rewrite E. cbn [exec_bind].
  eexists ps, _. split; [reflexivity|]. split; [exact Hps|]. split; [by split|].
  exists l, v. unfold on_frame, window in *. cbn in *. rewrite Hw. unfold scopes_shown. cbn.
  by rewrite <- !app_assoc.
Qed.

(** The stop: the frames of the active thread are asked for. *)
Lemma OnStopped_asks event ev t c :
  m_object event = Some (msg_StoppedEvent ev) → m_transport c = Some t →
  is_int (m_active_thread_id c) = true →
  ∃ p c', OnStopped event c = Ret c' ∧
    is_request (λ seq, stackTrace_request seq (m_active_thread_id c)) p ∧
    asked t [p] (m_get_frames_queue c ++ [m_active_thread_id c], m_get_scopes_queue c,
                 m_get_variables_queue c) c c' ∧ logged (window c) (window c').
Proof.
  intros Ho Ht Hi. unfold OnStopped, GetDapEvent. rewrite Ho.
  cbn [deref_message Message_Event]. unfold AddLog, on_frame. cbn [exec_bind].
  match goal with |- context [GetFrames _ _ _ ?c1] =>
    destruct (GetFrames_asks t c1) as (p & c' & E & Hp & [] & l & v & Hw); [done..|]
  end.
  exists p, c'. split; [exact E|]. split; [exact Hp|]. split; [by split|]. by exists l, v.
Qed.

(** The answer to [variables]. *)
Lemma OnVariables_shows event resp c :
  m_object event = Some (msg_VariablesResponse resp) →
  OnVariables event c
  = Ret (c <| app := ((window c) <| m_stcScopes := m_stcScopes (window c) ++
      concat (map (variable_text (VariablesResponse_refId resp)) (VariablesResponse_variables resp)) |>
      : @App demo) |>).
Proof. intros Ho. unfold OnVariables, GetDapResponse. by rewrite Ho. Qed.

(** The source of a local file: it is shown, or it is loaded; the line is marked. *)
Definition source_shown (source : Source) (line : Z) (f : Frame) : Frame :=
  let v := mkView line (Z.max 0 (line - Z.quot LinesOnScreen 2)) (Some line) in
  if Source_eq source (m_current_source f) then f <| source_view := v |>
  else f <| m_current_source := source |>
         <| m_stcTextSourceFile := file_content (file_FullPath (file_FullPath (Source_path source))) |>
         <| source_view := v |>.

Lemma LoadFile_local source line c :
  Source_sourceReference source ≤ 0 → FileExists (file_FullPath (Source_path source)) = true →
  is_int LinesOnScreen = true → 0 ≤ line →
  ∃ f', LoadFile source line c = Ret (c <| app := (f' : @App demo) |>) ∧
    logged (source_shown source line (window c)) f'.
Proof.
  intros Hl He [Hs1 Hs2]%is_int_spec Hline.
  assert ((line - Z.quot LinesOnScreen 2 <? INT_MIN) = false) as Hshow.
  { apply Z.ltb_ge. pose proof (Z.quot_le_upper_bound LinesOnScreen 2 INT_MAX). unfold INT_MIN, INT_MAX in *. lia. }
  assert ((line =? wxNOT_FOUND) = false) as Hnf by (apply Z.eqb_neq; unfold wxNOT_FOUND; lia).
  unfold LoadFile, source_shown, show_line, LoadSource. rewrite Hshow.
  destruct (Source_eq source (m_current_source (window c))) eqn:E.
  - eexists. split; [reflexivity|]. unfold center_line. rewrite Hnf. reflexivity.
  - assert ((0 <? Source_sourceReference source) = false) as -> by (apply Z.ltb_ge; lia).
    cbn [exec_bind negb]. unfold AddLog, on_frame. cbn [exec_bind]. rewrite He.
    eexists. split; [reflexivity|]. unfold center_line. rewrite Hnf. by do 2 eexists.
Qed.

(** The window of the frames [top :: rest]. *)
Definition stack_shown (top : StackFrame) (rest : list StackFrame) (f : Frame) : Frame :=
  (source_shown (StackFrame_source top) (StackFrame_line top - 1) f)
    <| m_frame_id := StackFrame_id top |>
    <| m_stcStack := concat (map stack_text (top :: rest)) |>.

(** A frame in a file that can be read. *)
Record local_frame (top : StackFrame) : Prop := {
  local_id : is_int (StackFrame_id top) = true;
  local_line : 0 < StackFrame_line top;
  local_source : Source_sourceReference (StackFrame_source top) ≤ 0;
  local_file : FileExists (file_FullPath (Source_path (StackFrame_source top))) = true;
}.

(** The answer to [stackTrace]: the source of the top frame is shown with its line marked, the
    stack is listed, and the program asks for the scopes of the top frame. *)
Lemma OnStackTrace_shows event resp top rest t c :
  m_object event = Some (msg_StackTraceResponse resp) →
  StackTraceResponse_stackFrames resp = top :: rest → m_transport c = Some t →
  local_frame top → is_int LinesOnScreen = true →
  ∃ p c', OnStackTrace event c = Ret c' ∧
    is_request (λ seq, scopes_request seq (StackFrame_id top)) p ∧
    asked t [p] (m_get_frames_queue c, m_get_scopes_queue c ++ [StackFrame_id top],
                 m_get_variables_queue c) c c' ∧
    logged (stack_shown top rest (window c)) (window c').
Proof.
  intros Ho Hf Ht [Hi Hline Hl He] Hs. unfold OnStackTrace, GetDapResponse. rewrite Ho.
  cbn [deref_message Message_Response]. unfold AddLog, on_frame. cbn [exec_bind]. rewrite Hf.
  assert ((StackFrame_line top =? INT_MIN) = false) as -> by (apply Z.eqb_neq; unfold INT_MIN; lia).
  match goal with |- context [LoadFile ?s ?l ?c1] =>
    destruct (LoadFile_local s l c1 Hl He Hs ltac:(lia)) as (f & -> & lf & vf & Hw)
  end.
  cbn [exec_bind].
  match goal with |- context [GetScopes ?i ?c1] =>
    destruct (GetScopes_asks i t c1 Ht Hi) as (p & c' & -> & Hp & [] & l & v & Hw')
  end.
  cbn [exec_bind]. eexists p, _. split; [reflexivity|]. split; [exact Hp|]. split; [by split|].
  exists l, v. unfold window in *. cbn in *. rewrite Hw', Hw. unfold stack_shown, source_shown.
  cbn. by case_match.
Qed.

End Asks.

(** ** The messages arrive *)

(** The text of the message is on the wire, and [j] is what it parses to. *)
Definition arrives (m : Message) (j : Json) : Prop :=
  valid_Message m = true ∧ tagged m = true ∧ readable (class_of m) = true ∧
  ∃ s, Message_ToString m = Ret s ∧ Parse s = Ret j.

Lemma arrives_read m j : arrives m j → is_value j ∧
  Message_From j (new_message (class_of m)) = m ∧ ∀ g, loaded g → FromJSON j g = (Some m, construct (class_of m) g).
Proof.
  intros (Hv & Ht & Hc & s & Hs & Hp). destruct (message_json m Hv Ht Hc) as (s' & j' & Hs' & Hp' & ? & ? & ?).
  rewrite Hs in Hs'. injection Hs' as <-. rewrite Hp in Hp'. by injection Hp' as <-.
Qed.

#[local] Existing Instance demo_handlers.

(** The message is logged and read, and goes to its branch. *)
Lemma OnMessage_reads m j t c : arrives m j → live t c → ∃ c1,
  OnMessage j c = match AsEvent m, AsResponse m, AsRequest m with
                  | Some e, _, _ => OnEvent e j c1
                  | None, Some r, _ => OnResponse r j c1
                  | None, None, Some q => OnRequest q j c1
                  | None, None, None => Ret c1
                  end ∧
  asked t [] (queues c) c c1 ∧ logged (window c) (window c1).
Proof.
  intros Hm [Ht Hh Hg]. destruct (arrives_read m j Hm) as (Hj & _ & Hr).
  unfold OnMessage, log_event, json_text. destruct (is_value_text _ Hj) as [s ->]. cbn [exec_bind].
  destruct (m_wants_log_events c); cbn [exec_bind].
  - match goal with |- context [ProcessEvent ?e c] =>
      change (ProcessEvent e c) with (AddLog ("<-- " ++ s) c) end.
    unfold AddLog, on_frame. cbn [exec_bind].
    match goal with |- context [m_handshake_state ?c1] => change (m_handshake_state c1) with (m_handshake_state c) end.
    rewrite Hh. unfold read_message.
    match goal with |- context [FromJSON j ?g] => change g with (generator c) end. rewrite Hr by done.
    eexists. split; [reflexivity|]. split; [|by do 2 eexists].
    split; try done; [by intros; apply loaded_construct|]. cbn. by rewrite app_nil_r.
  - rewrite Hh. unfold read_message. rewrite Hr by done.
    eexists. split; [reflexivity|]. split; [|change (logged (window c) (window c)); reflexivity].
    split; try done; [by intros; apply loaded_construct|]. cbn. by rewrite app_nil_r.
Qed.

(** A handler that is called with the client [c2], which is the client [c1] that read the message
    with another question or another state. *)
Lemma asked_after t ps q c c0 c1 c2 c' : asked t [] q c c1 → asked t ps (queues c') c2 c' →
  m_transport c2 = m_transport c1 → m_handshake_state c2 = m_handshake_state c1 →
  m_transport c0 = m_transport c → m_handshake_state c0 = m_handshake_state c →
  m_can_interact c' = m_can_interact c0 → m_active_thread_id c' = m_active_thread_id c0 →
  (loaded (generator c1) → loaded (generator c2)) → generator c0 = generator c →
  sent c2 = sent c1 → sent c0 = sent c →
  asked t ps (queues c') c0 c'.
Proof.
  intros [] [] Ht Hh Ht0 Hh0 Hi Ha Hg Hg0 Hs Hs0. split; try congruence.
  - rewrite Hg0. auto.
  - rewrite app_nil_r in *. congruence.
Qed.

(** [A] is what reading the message changed, [A'] what the handler asked for. *)
Ltac handled A A' Aq1 Aq2 Aq3 :=
  let Hq := fresh "Hq" in
  pose proof (asked_queues _ _ _ _ _ A') as Hq; rewrite <- Hq in A'; cbn in Hq;
  rewrite <- Aq1, <- Aq2, <- Aq3, <- Hq;
  eapply asked_after; [exact A|exact A'|try done..]; first
    [ apply loaded_construct
    | exact (asked_interact _ _ _ _ _ A') | exact (asked_thread _ _ _ _ _ A')
    | exact (eq_trans (asked_interact _ _ _ _ _ A') (asked_interact _ _ _ _ _ A))
    | exact (eq_trans (asked_thread _ _ _ _ _ A') (asked_thread _ _ _ _ _ A)) ].

(** The client after a stop of a thread. *)
Definition stopped_at (threadId : Z) (c : Client) : Client :=
  c <| m_can_interact := true |> <| m_active_thread_id := threadId |>.

(** The stop arrives: the debuggee can be commanded, its thread is the active one, and the frames
    of the thread are asked for. *)
Lemma stopped_arrives ev j t c : arrives (msg_StoppedEvent ev) j → live t c →
  is_int (StoppedEvent_threadId ev) = true →
  ∃ p c', OnMessage j c = Ret c' ∧
    is_request (λ seq, stackTrace_request seq (StoppedEvent_threadId ev)) p ∧
    asked t [p] (m_get_frames_queue c ++ [StoppedEvent_threadId ev], m_get_scopes_queue c,
                 m_get_variables_queue c) (stopped_at (StoppedEvent_threadId ev) c) c' ∧
    logged (window c) (window c').
Proof.
  intros Hm Hc Hi. destruct (OnMessage_reads _ j t c Hm Hc) as (c1 & -> & A & L).
  destruct (asked_live _ _ _ _ _ A Hc) as [Ht1 Hh1 Hg1].
  pose proof (asked_queues _ _ _ _ _ A) as [= Aq1 Aq2 Aq3].
  destruct (arrives_read _ j Hm) as (_ & Hf & _). destruct Hm as (_ & Htag & _).
  apply andb_true_iff in Htag as [Hty Hn].
  change ((ProtocolMessage_type (Message_protocol (msg_StoppedEvent ev)) =t "event") = true) in Hty.
  change ((Event_event (StoppedEvent_Event ev) =t "stopped") = true) in Hn. unfold AsEvent.
  rewrite Hty. cbn [negb Message_Event]. unfold OnEvent. rewrite Hn. unfold SendDAPEvent.
  change (new_message (class_of _)) with (new_message class_StoppedEvent) in Hf.
  rewrite decide_True by done. rewrite Hf.
  match goal with |- context [ProcessEvent ?e ?c2] =>
    change (ProcessEvent e c2) with (OnStopped e c2);
    destruct (OnStopped_asks e ev t c2) as (p & c' & -> & Hp & A' & L'); [done..|]
  end.
  exists p, c'. split; [done|]. split; [exact Hp|]. split; [|etrans; [exact L|exact L']].
  handled A A' Aq1 Aq2 Aq3.
Qed.

(** A response goes to the branch of its command. *)
Lemma response_reads m r j t c : arrives m j → live t c →
  (class_key (class_of m)).1 = "response" → Message_Response m = Some r →
  ∃ c1, OnMessage j c = OnResponse r j c1 ∧ Response_command r = (class_key (class_of m)).2 ∧
    live t c1 ∧ asked t [] (queues c) c c1 ∧ logged (window c) (window c1).
Proof.
  intros Hm Hc Hk Hr. destruct (OnMessage_reads _ j t c Hm Hc) as (c1 & -> & A & L).
  destruct Hm as (_ & Htag & _). unfold tagged in Htag. destruct (class_key (class_of m)) as [ty name] eqn:E.
  cbn in Hk. subst ty. apply andb_true_iff in Htag as [Hty Hn]. apply teq_true in Hty, Hn.
  exists c1. unfold AsEvent, AsResponse. rewrite Hty.
  change (negb ("response" =t "event")) with true. change (negb ("response" =t "response")) with false.
  cbv iota. rewrite Hr. split; [done|]. split; [|split; [by eapply asked_live|done]].
  cbn [snd]. rewrite <- Hn. destruct m; cbn in Hr; try discriminate Hr; by injection Hr as <-.
Qed.

(** The event of a response, whatever request it answers. *)
Lemma response_event type m j r c :
  type ≠ wxEVT_DAP_STOPPED_EVENT → ∃ req fl, send_response_event type m j r c
  = Frame_handle (mkDAPEvent type (Some (Message_From j m)) req [])
      (c <| m_in_flight_requests := fl |>).
Proof.
  intros Ht. unfold send_response_event, GetOriginatingRequest, SendDAPEvent.
  destruct (m_in_flight_requests c !! Response_request_seq r) as [req|]; rewrite decide_False by done.
  - by eexists (Some req), _.
  - exists None, (m_in_flight_requests c). by destruct c.
Qed.

Lemma logged_stack_shown top rest f f' : logged f f' →
  logged (stack_shown top rest f) (stack_shown top rest f').
Proof.
  intros (l & v & ->). exists l, v. unfold stack_shown, source_shown. cbn. by case_match.
Qed.

Lemma logged_scopes f f' t : logged f f' →
  logged (f <| m_stcScopes := m_stcScopes f ++ t |>) (f' <| m_stcScopes := m_stcScopes f' ++ t |>).
Proof. intros (l & v & ->). by exists l, v. Qed.

Lemma pop_front_tail {A} (q : list A) : pop_front q = (head q, tail q).
Proof. by destruct q. Qed.

(** The answer to [stackTrace] arrives. *)
Lemma stack_arrives resp top rest j t c : arrives (msg_StackTraceResponse resp) j → live t c →
  StackTraceResponse_stackFrames resp = top :: rest → local_frame top → is_int LinesOnScreen = true →
  ∃ p c', OnMessage j c = Ret c' ∧ is_request (λ seq, scopes_request seq (StackFrame_id top)) p ∧
    asked t [p] (tail (m_get_frames_queue c), m_get_scopes_queue c ++ [StackFrame_id top],
                 m_get_variables_queue c) c c' ∧
    logged (stack_shown top rest (window c)) (window c').
Proof.
  intros Hm Hc Hf Hl Hs.
  destruct (response_reads _ _ j t c Hm Hc eq_refl eq_refl) as (c1 & -> & Hn & [Ht1 _ _] & A & L).
  pose proof (asked_queues _ _ _ _ _ A) as [= Aq1 Aq2 Aq3].
  destruct (arrives_read _ j Hm) as (_ & Hfrom & _). injection Hfrom as Hfrom.
  unfold OnResponse. rewrite Hn. change (_ =t "stackTrace") with true. cbv beta iota zeta.
  destruct (pop_front (m_get_frames_queue (new class_StackTraceResponse c1))) as [front queue] eqn:Hq.
  match goal with |- context [send_response_event ?ty ?m ?j ?r ?c2] =>
    destruct (response_event ty m j r c2) as (req & fl & ->); [done|]
  end.
  change (Frame_handle ?e) with (OnStackTrace e).
  match goal with |- context [OnStackTrace ?e ?c2] =>
    destruct (OnStackTrace_shows e _ top rest t c2 eq_refl) as (p & c' & -> & Hp & A' & L');
      [by rewrite <- Hf, <- Hfrom|done..|]
  end.
  exists p, c'. split; [done|]. split; [exact Hp|].
  split; [|etrans; [by apply logged_stack_shown|exact L']].
  rewrite pop_front_tail in Hq. injection Hq as _ <-.
  handled A A' Aq1 Aq2 Aq3.
Qed.

(** The answer to [scopes] arrives. *)
Lemma scopes_arrive resp j t c : arrives (msg_ScopesResponse resp) j → live t c →
  ∃ ps c', OnMessage j c = Ret c' ∧ Forall2 asks_for (ScopesResponse_scopes resp) ps ∧
    asked t ps (m_get_frames_queue c, tail (m_get_scopes_queue c),
                m_get_variables_queue c ++ scope_questions (ScopesResponse_scopes resp)) c c' ∧
    logged ((window c) <| m_stcScopes := m_stcScopes (window c)
                            ++ scopes_shown (ScopesResponse_scopes resp) |>) (window c').
Proof.
  intros Hm Hc.
  destruct (response_reads _ _ j t c Hm Hc eq_refl eq_refl) as (c1 & -> & Hn & [Ht1 _ _] & A & L).
  pose proof (asked_queues _ _ _ _ _ A) as [= Aq1 Aq2 Aq3].
  destruct (arrives_read _ j Hm) as (_ & Hfrom & _). injection Hfrom as Hfrom.
  destruct Hm as (Hv & _). cbn in Hv. unfold valid_ScopesResponse in Hv.
  apply andb_true_iff in Hv as [[_ Hv]%andb_true_iff _].
  unfold OnResponse. rewrite Hn. change (_ =t "stackTrace") with false.
  change (_ =t "scopes") with true. cbv beta iota zeta. rewrite pop_front_tail. cbv beta iota.
  match goal with |- context [send_response_event ?ty ?m ?j ?r ?c2] =>
    destruct (response_event ty m j r c2) as (req & fl & ->); [done|]
  end.
  change (Frame_handle ?e) with (OnScopes e).
  match goal with |- context [OnScopes ?e ?c2] =>
    destruct (OnScopes_asks e _ t c2 eq_refl) as (ps & c' & -> & Hp & A' & L');
      [done|by rewrite <- Hfrom in Hv|]
  end.
  match type of Hp with Forall2 _ ?l _ =>
    change l with (ScopesResponse_scopes (ScopesResponse_From j ScopesResponse_fresh)) in Hp, A', L' end.
  rewrite Hfrom in Hp, A', L'.
  exists ps, c'. split; [done|]. split; [exact Hp|].
  split; [|etrans; [by apply logged_scopes|exact L']].
  handled A A' Aq1 Aq2 Aq3.
Qed.

(** The answer to [variables] arrives: they are listed under the number that was asked for. *)
Definition variables_shown (ref : Z) (resp : VariablesResponse) : text :=
  concat (map (variable_text ref) (VariablesResponse_variables resp)).

Lemma variables_arrive resp j t c ref context queue : arrives (msg_VariablesResponse resp) j → live t c →
  m_get_variables_queue c = (ref, context) :: queue →
  ∃ c', OnMessage j c = Ret c' ∧
    asked t [] (m_get_frames_queue c, m_get_scopes_queue c, queue) c c' ∧
    logged ((window c) <| m_stcScopes := m_stcScopes (window c) ++ variables_shown ref resp |>)
      (window c').
Proof.
  intros Hm Hc Hq.
  destruct (response_reads _ _ j t c Hm Hc eq_refl eq_refl) as (c1 & -> & Hn & [Ht1 _ _] & A & L).
  pose proof (asked_queues _ _ _ _ _ A) as [= Aq1 Aq2 Aq3].
  destruct (arrives_read _ j Hm) as (_ & Hfrom & _). injection Hfrom as Hfrom.
  unfold OnResponse. rewrite Hn. change (_ =t "stackTrace") with false.
  change (_ =t "scopes") with false. change (_ =t "variables") with true. cbv beta iota zeta.
  change (m_get_variables_queue (new class_VariablesResponse c1)) with (m_get_variables_queue c1).
  rewrite Aq3, Hq. cbn [pop_front default id].
  match goal with |- context [send_response_event ?ty ?m ?j ?r ?c2] =>
    destruct (response_event ty m j r c2) as (req & fl & ->); [done|]
  end.
  change (Frame_handle ?e) with (OnVariables e). erewrite OnVariables_shows by reflexivity.
  eexists. split; [reflexivity|]. split.
  - destruct A as [? ? ? ? Hg Hs ?].
    split; [done..|by intros; apply loaded_construct, Hg|exact Hs|]. unfold queues. cbn. by rewrite Aq1, Aq2.
  - rewrite <- Hfrom. exact (logged_scopes _ _ _ L).
Qed.

(** The answers for all the scopes, in the order of the questions. *)
Definition all_variables (scopes : list Scope) (resps : list VariablesResponse) : text :=
  concat (zip_with (λ s, variables_shown (Scope_variablesReference s)) scopes resps).

Lemma all_variables_arrive scopes resps js t c : length resps = length scopes →
  Forall2 arrives (map msg_VariablesResponse resps) js → live t c →
  m_get_variables_queue c = scope_questions scopes →
  ∃ c', deliver OnMessage js c = Ret c' ∧
    asked t [] (m_get_frames_queue c, m_get_scopes_queue c, []) c c' ∧
    logged ((window c) <| m_stcScopes := m_stcScopes (window c) ++ all_variables scopes resps |>)
      (window c').
Proof.
  revert resps js c. induction scopes as [|s scopes IH]; intros [|resp resps] js c Hlen Hjs Hc Hq;
    try discriminate Hlen.
  - inversion Hjs; subst. exists c. split; [done|]. cbn in Hq. split.
    + pose proof (asked_nothing t c) as A. unfold queues in A. by rewrite Hq in A.
    + unfold all_variables. cbn. rewrite app_nil_r. exists (m_stcLog (window c)), (log_view (window c)).
      by destruct (window c).
  - inversion Hjs as [|? j ? js' Hj Hjs']; subst. cbn [deliver].
    destruct (variables_arrive resp j t c _ _ _ Hj Hc Hq) as (c1 & -> & A1 & L1). cbn [exec_bind].
    pose proof (asked_queues _ _ _ _ _ A1) as [= Hf Hsc Hv].
    destruct (IH resps js' c1) as (c2 & -> & A2 & L2);
      [by injection Hlen|done|by eapply asked_live|done|].
    rewrite Hf, Hsc in A2. exists c2. split; [done|]. split; [exact (asked_trans _ [] [] _ _ _ _ _ A1 A2)|].
    etrans; [|exact L2]. etrans; [|by apply logged_scopes].
    unfold all_variables. cbn [zip_with concat]. rewrite app_assoc. reflexivity.
Qed.

(** Everything that a stop shows. *)
Definition stop_shown (top : StackFrame) (rest : list StackFrame) (scopes : list Scope)
    (variables : list VariablesResponse) (f : Frame) : Frame :=
  (stack_shown top rest f)
    <| m_stcScopes := m_stcScopes f ++ scopes_shown scopes ++ all_variables scopes variables |>.

Lemma scopes_twice (f g : Frame) x y : m_stcScopes g = m_stcScopes f →
  let g1 := g <| m_stcScopes := m_stcScopes g ++ x |> in
  logged (g <| m_stcScopes := m_stcScopes f ++ x ++ y |>) (g1 <| m_stcScopes := m_stcScopes g1 ++ y |>).
Proof. intros <-. destruct g. cbn. rewrite app_assoc. reflexivity. Qed.


End StopFlow.

Section Samples.
#[local] Existing Instance sample_platform.
#[local] Existing Instance sample_hash.
#[local] Existing Instance sample_desktop.

(** The demo program, connected, with two scopes and a variable in the first. *)
Definition sample_live : Client := demo_connected <| m_handshake_state := kCompleted |>.

Lemma sample_live_live : live 7 sample_live.
Proof. split; [reflexivity|reflexivity|exact loaded_Initialize]. Qed.

Definition sample_stop : StoppedEvent :=
  mkStoppedEvent (Event_new "stopped") "breakpoint" [] [] true 5.
Definition sample_top : StackFrame := mkStackFrame 1000 "main" (mkSource "main.c" "/src/main.c" 0) 12.
Definition sample_stack : StackTraceResponse :=
  mkStackTraceResponse (Response_new "stackTrace") [sample_top] wxNOT_FOUND.
Definition sample_scopes : ScopesResponse :=
  mkScopesResponse (Response_new "scopes")
    [mkScope "Locals" 3 false; mkScope "Registers" 4 true] wxNOT_FOUND.
Definition sample_variables : list VariablesResponse :=
  [mkVariablesResponse (Response_new "variables")
     [mkDapVariable "x" "1" "int" 0 fresh] wxNOT_FOUND VARIABLES;
   mkVariablesResponse (Response_new "variables") [] wxNOT_FOUND VARIABLES].

Definition sample_messages : list Message :=
  msg_StoppedEvent sample_stop :: msg_StackTraceResponse sample_stack ::
  msg_ScopesResponse sample_scopes :: map msg_VariablesResponse sample_variables.

Lemma message_arrives m : valid_Message m && tagged m && readable (class_of m) = true →
  ∃ j, arrives m j.
Proof.
  intros [[Hv Ht]%andb_true_iff Hr]%andb_true_iff.
  destruct (message_json m Hv Ht Hr) as (s & j & ? & ? & _). exists j. split_and!; [done..|]. by exists s.
Qed.

Lemma messages_arrive ms :
  forallb (λ m, valid_Message m && tagged m && readable (class_of m)) ms = true →
  ∃ js, Forall2 arrives ms js.
Proof.
  induction ms as [|m ms IH]; cbn [forallb]; [by exists []|]. intros [Hm Hms]%andb_true_iff.
  destruct (message_arrives m Hm) as [j Hj]. destruct (IH Hms) as [js Hjs]. by exists (j :: js); constructor.
Qed.

End Samples.
